(* ===== verification/_CoqProject ===== *)
-Q . S2P
Prelude.v
Memory.v
Spinlock.v
FsState.v
State.v
Sched.v
SchedSpec.v
SchedProps.v
Printf.v
PrintfProps.v
Sleeplock.v
Bio.v
BioSpec.v
Virtio.v
VirtioSpec.v
VirtioProps.v
Log.v
LogSpec.v
LogProps.v
Kalloc.v
KallocProps.v
Disk.v
DiskProps.v
VM.v
Riscv.v
Boot.v
BootProps.v
Asm.v
PageTable.v
VMSpec.v
AsmSpec.v
AsmProps.v
UserSpace.v
FreeWalk.v
VMProps.v
Memsys.v
Evict.v
MemsysProps.v
VMFault.v
CopySpec.v
VMFaultProps.v
Fs.v
FsSpec.v
Bitmap.v
Dinode.v
Inode.v
Directory.v
Path.v
Pipe.v
PipeProps.v
Console.v
ConsoleProps.v
File.v
Proc.v
ProcSpace.v
ForkSpace.v
ProcLife.v
Fork.v
ProcWait.v
Args.v
Exec.v
Sysproc.v
Sysfile.v
Syscall.v
Trap.v
TrapProps.v
Grep.v
Shell.v
ShellSpec.v
ShellProps.v
ShellRun.v
Ulib.v
Uprintf.v
Programs.v
ProgramsProps.v
Umalloc.v
UmallocProps.v
