(* ===== verification/Prelude.v ===== *)
(** * Verification of the GemOS/xv6 kernel and its user programs

    The program is a RISC-V kernel derived from xv6, extended by a multi-level
    feedback queue scheduler, page replacement with a swap area, disk scheduling
    and RAID, together with its shell and user library.  The library models it
    as a shallow embedding, file by file, and proves what makes its parts
    correct.  C functions keep their names; a loop of a function [f] is [f_loop]
    or has a name of its own.

    ** How the code is represented

    A w-bit integer is a [Z] with its wrap-around written out ([u8], [u32],
    [i32], ... below).  Code is a function of the monad [M S] over a state [S]:
    it returns ([Ret]), panics ([Panic]), does something undefined such as
    reading through a null pointer ([Fault]), sleeps or switches away ([Asleep])
    or runs out of fuel ([NoFuel]).  Loops that are not structural get fuel; the
    functions compute enough of it themselves where they can (a list is never
    longer than the table it lives in), or take it as an argument, and the
    theorems say how much is enough.  The kernel state [kstate] (State) has
    physical memory as bytes, the process table, the page-replacement tables,
    the disk queue, the console and the file system (FsState).  Structures in
    pages that kalloc hands out (page tables, pipes, trap frames, disk requests,
    swap tables, user pages) are bytes in that memory; tables with a fixed place
    in the kernel (proc, bcache, itable, ftable, log) are records.

    The kernel's code runs one CPU at a time between its scheduling points: the
    spinlocks around the other components' critical sections are left out there,
    and Spinlock shows, for all interleavings of several CPUs, that they give
    the exclusion this relies on.  Kernel symbols that the linker places (end,
    etext, trampoline, the kernel stacks) are the fields of a class
    [KernelImage], with the facts the linker script guarantees.

    ** The parts

    - Memory: byte memory, kernel/string.c.
    - Spinlock: kernel/spinlock.c cut at its atomic steps, CPUs as a step
      relation.  Sleeplock: kernel/sleeplock.c.
    - State, FsState: the headers (param.h, memlayout.h, riscv.h, proc.h, fs.h,
      file.h, buf.h, ...) and the state.
    - Sched: the scheduler, yield, sleep, wakeup, kill, mlfq_boost (kernel/proc.c)
      and clockintr (kernel/trap.c); SchedSpec, SchedProps.
    - Proc: allocproc, fork, exit, wait, growproc (kernel/proc.c).  ProcSpace
      (proc_pagetable), ForkSpace (uvmcopy), ProcLife (allocproc and freeproc),
      Fork and ProcWait have the theorems.
    - Riscv: a hart with its registers and privilege levels, the accessors of
      kernel/riscv.h and the instructions the assembly uses.  Boot, BootProps:
      kernel/start.c, kernel/entry.S, kernel/plic.c, kvminithart, trapinithart
      and the registers of kernel/uart.c.  Asm, AsmSpec, AsmProps:
      kernel/trampoline.S, kernel/kernelvec.S and kernel/swtch.S, instruction
      by instruction; TrapProps joins them with prepare_return (Trap).
    - Printf, PrintfProps: kernel/printf.c.  Console, ConsoleProps:
      kernel/console.c and kernel/uart.c.
    - Bio, BioSpec: kernel/bio.c.  Virtio, VirtioSpec, VirtioProps:
      kernel/virtio_disk.c, with the device as a parameter.  For bread and
      bwrite a block goes to the disk and comes from it as a whole; VirtioProps
      shows that this is what the driver does.
    - Log, LogSpec, LogProps: kernel/log.c, and crashes at every disk write.
    - Fs: kernel/fs.c; FsSpec (transactions), Bitmap, Dinode, Inode, Directory
      and Path have the theorems.
    - Kalloc, KallocProps: kernel/kalloc.c.
    - Disk, DiskProps: kernel/disk_sched.c.
    - VM, VMFault: kernel/vm.c; PageTable (the tree of page-table pages),
      VMSpec, UserSpace, FreeWalk (freewalk, uvmfree), VMProps, CopySpec,
      VMFaultProps.
    - Memsys, Evict, MemsysProps: kernel/memsys.c.
    - Pipe, PipeProps: kernel/pipe.c.  File: kernel/file.c.
    - Args, Syscall: kernel/syscall.c.  Sysproc: kernel/sysproc.c.  Sysfile:
      kernel/sysfile.c.  Exec: kernel/exec.c.  Trap: kernel/trap.c.
    - Grep: user/grep.c.  Shell, ShellSpec, ShellProps, ShellRun: user/sh.c.
      Umalloc, UmallocProps: user/umalloc.c.  Ulib: user/ulib.c.  Uprintf:
      user/printf.c.  Programs, ProgramsProps: echo, cat, wc, kill, ln, mkdir,
      rm, zombie, init and ls, as trees of system calls.

    ** What the theorems show

    - Storage.  A committed transaction is atomic and recovery is idempotent,
      wherever a crash cuts the writes (LogProps).  The disk driver carries out
      every request once, in any interleaving with the device, and loses no
      wakeup (VirtioProps).  balloc, iupdate and ilock, readi and writei,
      dirlookup, iget and skipelem do what the on-disk format and the paths mean
      (Bitmap, Dinode, Inode, Directory, Path).  The queue of the disk scheduler
      drains, and the RAID maps stay on the array (DiskProps).
    - Memory.  kalloc and kfree never hand out a page twice (KallocProps).  Page
      tables refine maps from virtual addresses to entries, under mappages,
      uvmalloc and uvmunmap (VMProps); copyin, copyout and page faults move
      exactly the bytes they should (VMFaultProps).  evict_page picks the
      victim of its clock; what swapping does to data is stated as the code has
      it (MemsysProps).
    - Processes.  Every reachable scheduler state is well formed, a turn of the
      scheduler picks the process the MLFQ policy names, slices end on time and
      boosts come in time (SchedProps).  fork makes a copy of its caller in
      memory of its own or, for want of an entry or of pages, changes nothing
      that is in use (Fork); wait frees exactly what the zombie held (ProcWait).  Spinlocks
      exclude (Spinlock).  A pipe is a bounded queue (PipeProps), the console a
      line editor (ConsoleProps).
    - The machine.  start enters main in supervisor mode (BootProps); swtch
      resumes a context as it was saved and kernelvec is transparent to the
      code it interrupts (AsmProps); the way out to user mode and back through
      the trampoline keeps every user register (TrapProps).
    - User programs.  A command line is parsed and run as the command language
      means it (ShellRun).  malloc hands out disjoint blocks (UmallocProps).
      grep prints the matching lines (Grep).  printf of the kernel and of the
      library print the same text (Uprintf), and what printint prints reads
      back (PrintfProps).  cat copies its files and wc counts them however read
      cuts them, init restarts the shell, kill reaches the pid that was printed
      (ProgramsProps); memmove is right on ranges that overlap (Ulib).

    Some theorems state behaviour that is not what the code's comments promise:
    a swapped page loses its data, the clock of evict_page can run for ever, a
    yield gives the CPU back to the same process, SSTF can lose requests.  They
    are theorems about the code as it is.

    ** Bounds

    Bounds in hypotheses are the code's own: MAXVA, the sizes of its tables, the
    memory the linker script and memlayout.h give, argument vectors of
    MAXARGS-1 words in the shell, requests below 2 GiB for malloc (above that
    its own arithmetic wraps, [malloc_wraps]).

    ** Not modelled

    - The order of initialisation (main.c) and the linker script (kernel.ld):
      main.c only calls the initialisers in turn, and the script is what
      [KernelImage] assumes.  In the kernel's own model a context switch is the
      outcome [Asleep]; swtch itself is in Asm.
    - raid_reconstruct_page, which nothing calls.
    - start, sbrk and sbrklazy of the user library, which only pass a call on;
      the stress and orphan programs (forktest, grind, logstress, stressfs,
      dorphan, forphan) and the test programs, which exercise the system calls
      and have no contract of their own. *)

From Stdlib Require Export ZArith Lia.
From stdpp Require Export strings numbers base gmap list list_relations.

#[global] Open Scope Z_scope.

(** ** Machine integers

    A w-bit C integer is a [Z]; the casts below are the C conversions of the
    RV64 ABI (int and uint are 32 bits, long and uint64 64 bits).  C division
    and remainder truncate towards zero: [Z.quot] and [Z.rem]. *)

Definition u8 (x : Z) : Z := x `mod` 2 ^ 8.
Definition u16 (x : Z) : Z := x `mod` 2 ^ 16.
Definition u32 (x : Z) : Z := x `mod` 2 ^ 32.
Definition u64 (x : Z) : Z := x `mod` 2 ^ 64.
Definition i16 (x : Z) : Z := (x + 2 ^ 15) `mod` 2 ^ 16 - 2 ^ 15.
Definition i32 (x : Z) : Z := (x + 2 ^ 31) `mod` 2 ^ 32 - 2 ^ 31.
Definition i64 (x : Z) : Z := (x + 2 ^ 63) `mod` 2 ^ 64 - 2 ^ 63.

Lemma u64_small (x : Z) : 0 <= x < 2 ^ 64 -> u64 x = x.
Proof. intros; unfold u64; by apply Z.mod_small. Qed.
Lemma u32_small (x : Z) : 0 <= x < 2 ^ 32 -> u32 x = x.
Proof. intros; unfold u32; by apply Z.mod_small. Qed.
Lemma u8_small (x : Z) : 0 <= x < 2 ^ 8 -> u8 x = x.
Proof. intros; unfold u8; by apply Z.mod_small. Qed.
Lemma i32_small (x : Z) : - 2 ^ 31 <= x < 2 ^ 31 -> i32 x = x.
Proof. intros; unfold i32; rewrite Z.mod_small; lia. Qed.
Lemma u64_range (x : Z) : 0 <= u64 x < 2 ^ 64.
Proof. apply Z.mod_pos_bound; lia. Qed.
Lemma u32_range (x : Z) : 0 <= u32 x < 2 ^ 32.
Proof. apply Z.mod_pos_bound; lia. Qed.
Lemma i32_range (x : Z) : - 2 ^ 31 <= i32 x < 2 ^ 31.
Proof. unfold i32. pose proof (Z.mod_pos_bound (x + 2 ^ 31) (2 ^ 32)); lia. Qed.

Lemma u64_add_idemp_l (x y : Z) : u64 (u64 x + y) = u64 (x + y).
Proof. apply Z.add_mod_idemp_l; lia. Qed.

(** Linear arithmetic with division and remainder by constants. *)
Ltac div_lia := Z.div_mod_to_equations; lia.

(** ** Record update: [r <| field := v |>] *)

Class Eta (R : Type) := eta : R -> R.
Class Setter {R T : Type} (proj : R -> T) := upd : (T -> T) -> R -> R.
Arguments upd {R T} proj {_} _ _ : simpl nomatch.

Ltac derive_setter :=
  lazymatch goal with
  | |- @Setter ?R ?T ?proj =>
      let f := fresh "f" in
      let r := fresh "r" in
      refine (fun (f : T -> T) (r : R) => _);
      let e := eval hnf in (@eta R _ r) in
      lazymatch (eval pattern (proj r) in e) with
      | ?g _ => let b := eval cbv beta in (g (f (proj r))) in exact b
      end
  end.
#[global] Hint Extern 1 (Setter _) => derive_setter : typeclass_instances.

Declare Scope update_scope.
Delimit Scope update_scope with upd.
#[global] Open Scope update_scope.
Notation "r <| p := v |>" := (upd p (fun _ => v) r)
  (at level 1, left associativity, p constr at level 0, format "r <| p  :=  v |>")
  : update_scope.

(** ** Effects

    A kernel routine is a state transformer with the outcomes C code of this
    kernel has: it returns, it calls [panic] (which never returns), it touches
    an object that is not live ([Fault]: a null or dangling pointer), it gives
    up the CPU to the scheduler ([Asleep]: the rest of the routine runs when
    the process is scheduled again), or (only for loops modelled with fuel) it
    has not finished within the fuel. *)

Inductive outcome (S A : Type) : Type :=
| Ret (a : A) (s : S)
| Panic (msg : string) (s : S)
| Fault (why : string) (s : S)
| Asleep (s : S)
| NoFuel.
Arguments Ret {S A}.
Arguments Panic {S A}.
Arguments Fault {S A}.
Arguments Asleep {S A}.
Arguments NoFuel {S A}.

Definition M (S A : Type) : Type := S -> outcome S A.

#[global] Instance M_ret S : MRet (M S) := fun A a s => Ret a s.
#[global] Instance M_bind S : MBind (M S) := fun A B f m s =>
  match m s with
  | Ret a s' => f a s'
  | Panic e s' => Panic e s'
  | Fault e s' => Fault e s'
  | Asleep s' => Asleep s'
  | NoFuel => NoFuel
  end.

Section Effects.
Context {S : Type}.

Definition get : M S S := fun s => Ret s s.
Definition gets {A} (f : S -> A) : M S A := fun s => Ret (f s) s.
Definition modify (f : S -> S) : M S unit := fun s => Ret tt (f s).
Definition panic {A} (msg : string) : M S A := fun s => Panic msg s.
Definition fault {A} (why : string) : M S A := fun s => Fault why s.
Definition switch_out {A} : M S A := fun s => Asleep s.
Definition no_fuel {A} : M S A := fun _ => NoFuel.

(** Total correctness: the routine returns, in a state satisfying [Q]. *)
Definition wp {A} (m : M S A) (s : S) (Q : A -> S -> Prop) : Prop :=
  match m s with Ret a s' => Q a s' | _ => False end.

Lemma wp_ret {A} (a : A) s (Q : A -> S -> Prop) : Q a s -> wp (mret a) s Q.
Proof. done. Qed.
Lemma wp_bind {A B} (m : M S A) (f : A -> M S B) s Q :
  wp m s (fun a s' => wp (f a) s' Q) -> wp (m ≫= f) s Q.
Proof. unfold wp, mbind, M_bind. by destruct (m s). Qed.
Lemma wp_mono {A} (m : M S A) s (Q R : A -> S -> Prop) :
  wp m s Q -> (forall a s', Q a s' -> R a s') -> wp m s R.
Proof. unfold wp. destruct (m s); naive_solver. Qed.
Lemma wp_eq {A} (m : M S A) s a s' (Q : A -> S -> Prop) :
  m s = Ret a s' -> Q a s' -> wp m s Q.
Proof. unfold wp. by intros ->. Qed.
Lemma wp_inv {A} (m : M S A) s (Q : A -> S -> Prop) :
  wp m s Q -> exists a s', m s = Ret a s' /\ Q a s'.
Proof. unfold wp. destruct (m s); naive_solver. Qed.

Lemma bind_ret {A B} (m : M S A) (f : A -> M S B) s a s' :
  m s = Ret a s' -> (m ≫= f) s = f a s'.
Proof. unfold mbind, M_bind. by intros ->. Qed.
Lemma bind_modify {B} (g : S -> S) (f : unit -> M S B) s : (modify g ≫= f) s = f tt (g s).
Proof. done. Qed.
Lemma bind_gets {A B} (g : S -> A) (f : A -> M S B) s : (gets g ≫= f) s = f (g s) s.
Proof. done. Qed.
Lemma bind_assoc {A B C} (m : M S A) (f : A -> M S B) (g : B -> M S C) s :
  ((m ≫= f) ≫= g) s = (m ≫= (fun a => f a ≫= g)) s.
Proof. unfold mbind, M_bind. by destruct (m s). Qed.
Lemma bind_inv {A B} (m : M S A) (f : A -> M S B) s b s' :
  (m ≫= f) s = Ret b s' -> exists a s1, m s = Ret a s1 /\ f a s1 = Ret b s'.
Proof. unfold mbind, M_bind. destruct (m s); naive_solver. Qed.
End Effects.

(** [run] executes the monadic code up to the next test; states stay chains of
    field updates, so that the two sides of a goal meet syntactically. *)
Ltac run :=
  cbv beta iota delta [mbind M_bind mret M_ret get gets modify panic fault switch_out no_fuel].
Ltac run_in H :=
  cbv beta iota delta [mbind M_bind mret M_ret get gets modify panic fault switch_out no_fuel] in H.

(** Closed arithmetic and table look-ups of an example, by evaluation; other
    goals are left alone. *)
Ltac concrete :=
  lazymatch goal with
  | |- @eq Z _ _ => vm_compute; reflexivity
  | |- @eq nat _ _ => vm_compute; reflexivity
  | |- @eq bool _ _ => vm_compute; reflexivity
  | |- @eq (option _) _ _ => vm_compute; reflexivity
  | |- @eq (prod _ _) _ _ => vm_compute; reflexivity
  | |- ~ (@eq _ _ _) => vm_compute; congruence
  | |- (_ <= _ < _)%Z => vm_compute; split; congruence
  | |- (_ < _)%Z => vm_compute; reflexivity
  | |- (_ <= _)%Z => vm_compute; congruence
  | |- (_ < _)%nat => apply Nat.ltb_lt; vm_compute; reflexivity
  | |- _ => idtac
  end.

(** [for(i = i0; i < i0 + n; i++) body(i);] *)
Fixpoint for_loop {S : Type} (n : nat) (i : Z) (body : Z -> M S unit) : M S unit :=
  match n with
  | O => mret tt
  | S n' => body i;; for_loop n' (i + 1) body
  end.
