(* ===== verification/Memory.v ===== *)
(** * Physical memory and the kernel's memory and string routines

    [Mem]: byte-addressed memory with little-endian 4- and 8-byte accesses.
    [KString]: kernel/string.c over it. *)

From S2P Require Import Prelude.

Module Mem.

(** RAM: address to byte.  A byte never written reads as 0. *)
Abbreviation mem := (gmap Z Z).

Definition ld8 (m : mem) (a : Z) : Z := u8 (default 0 (m !! a)).
Definition st8 (m : mem) (a v : Z) : mem := <[a := u8 v]> m.

(** Little-endian loads and stores of [k] bytes. *)
Fixpoint ld (k : nat) (m : mem) (a : Z) : Z :=
  match k with
  | O => 0
  | S k' => ld8 m a + 256 * ld k' m (a + 1)
  end.
Fixpoint st (k : nat) (m : mem) (a v : Z) : mem :=
  match k with
  | O => m
  | S k' => st k' (st8 m a v) (a + 1) (v / 256)
  end.

Definition ld32 (m : mem) (a : Z) : Z := ld 4 m a.
Definition ld64 (m : mem) (a : Z) : Z := ld 8 m a.
Definition st32 (m : mem) (a v : Z) : mem := st 4 m a v.
Definition st64 (m : mem) (a v : Z) : mem := st 8 m a v.
Arguments ld8 : simpl never.
Arguments st8 : simpl never.
Arguments ld32 : simpl never.
Arguments ld64 : simpl never.
Arguments st32 : simpl never.
Arguments st64 : simpl never.

(** Two memories agree when every load agrees: coarser than equality of the
    maps, since an unwritten byte reads as 0. *)
Definition meq (m m' : mem) : Prop := forall a, ld8 m a = ld8 m' a.
#[global] Instance meq_equiv : Equivalence meq.
Proof.
  split.
  - by intros m a.
  - intros m m' H a. by rewrite (H a).
  - intros m1 m2 m3 H1 H2 a. by rewrite (H1 a).
Qed.
#[global] Instance ld8_proper : Proper (meq ==> eq ==> eq) ld8.
Proof. intros m m' H a b ->. apply H. Qed.
#[global] Instance ld_proper k : Proper (meq ==> eq ==> eq) (ld k).
Proof.
  intros m m' H a b ->. revert b. induction k as [|k IH]; intros b; cbn; [done|].
  by rewrite (H b), IH.
Qed.

Lemma ld8_range m a : 0 <= ld8 m a < 256.
Proof. unfold ld8, u8. apply Z.mod_pos_bound. lia. Qed.
Lemma ld8_st8_eq m a v : ld8 (st8 m a v) a = u8 v.
Proof. unfold ld8, st8, u8. rewrite lookup_insert_eq. cbn. apply Z.mod_mod. lia. Qed.
Lemma ld8_st8_ne m a b v : a ≠ b -> ld8 (st8 m a v) b = ld8 m b.
Proof. intros. unfold ld8, st8. by rewrite lookup_insert_ne. Qed.
#[global] Instance st8_proper : Proper (meq ==> eq ==> eq ==> meq) st8.
Proof.
  intros m m' H a ? <- v ? <- b. destruct (decide (a = b)) as [->|].
  - by rewrite !ld8_st8_eq.
  - by rewrite !ld8_st8_ne.
Qed.

Lemma pow256_S (k : nat) : 256 ^ Z.of_nat (S k) = 256 * 256 ^ Z.of_nat k.
Proof. rewrite Nat2Z.inj_succ, Z.pow_succ_r by lia. done. Qed.

Lemma ld_range k m a : 0 <= ld k m a < 256 ^ Z.of_nat k.
Proof.
  revert a. induction k as [|k IH]; intros a; [cbn; lia|].
  rewrite pow256_S. cbn [ld]. pose proof (ld8_range m a). specialize (IH (a + 1)). lia.
Qed.
Lemma ld8_st_out k m a v b :
  ~ (a <= b < a + Z.of_nat k) -> ld8 (st k m a v) b = ld8 m b.
Proof.
  revert m a v. induction k as [|k IH]; intros m a v H; [done|].
  cbn [st]. rewrite IH by lia. apply ld8_st8_ne. lia.
Qed.
Lemma ld_st_ne k k' m a v b :
  b + Z.of_nat k' <= a \/ a + Z.of_nat k <= b -> ld k' (st k m a v) b = ld k' m b.
Proof.
  revert b. induction k' as [|k' IH]; intros b H; [done|].
  cbn [ld]. rewrite IH by lia. rewrite ld8_st_out; [done|lia].
Qed.
Lemma ld_st_eq k m a v : ld k (st k m a v) a = v `mod` 256 ^ Z.of_nat k.
Proof.
  revert m a v. induction k as [|k IH]; intros m a v; [cbn; by rewrite Z.mod_1_r|].
  cbn [ld st]. rewrite IH, ld8_st_out, ld8_st8_eq, pow256_S by lia.
  rewrite Z.rem_mul_r by lia. unfold u8. done.
Qed.

Lemma ld64_range m a : 0 <= ld64 m a < 2 ^ 64.
Proof. apply (ld_range 8). Qed.
Lemma ld64_st64_eq m a v : ld64 (st64 m a v) a = u64 v.
Proof. apply (ld_st_eq 8). Qed.
Lemma ld64_st64_ne m a v b : b + 8 <= a \/ a + 8 <= b -> ld64 (st64 m a v) b = ld64 m b.
Proof. intros. apply ld_st_ne. lia. Qed.
Lemma ld8_st64_ne m a v b : b < a \/ a + 8 <= b -> ld8 (st64 m a v) b = ld8 m b.
Proof. intros. apply ld8_st_out. lia. Qed.

(** A load depends only on the bytes it covers. *)
Lemma ld_ext k m m' a :
  (forall b, a <= b < a + Z.of_nat k -> ld8 m b = ld8 m' b) -> ld k m a = ld k m' a.
Proof.
  revert a. induction k as [|k IH]; intros a H; [done|].
  cbn [ld]. rewrite (H a) by lia. f_equal. f_equal. apply IH. intros; apply H. lia.
Qed.
Lemma ld64_ext m m' a :
  (forall b, a <= b < a + 8 -> ld8 m b = ld8 m' b) -> ld64 m a = ld64 m' a.
Proof. intros; by apply ld_ext. Qed.
Lemma ld64_zero m a : (forall b, a <= b < a + 8 -> ld8 m b = 0) -> ld64 m a = 0.
Proof.
  intros Hz. transitivity (ld64 ∅ a); [|by vm_compute].
  apply ld64_ext. intros b Hb. rewrite Hz by lia. done.
Qed.

End Mem.
Import Mem.

Module KString.

(** memset: [for(i = 0; i < n; i++) cdst[i] = c;] *)
Fixpoint memset_loop (m : mem) (dst c i : Z) (k : nat) : mem :=
  match k with
  | O => m
  | S k' => memset_loop (st8 m (dst + i) c) dst c (i + 1) k'
  end.
Definition memset (m : mem) (dst c n : Z) : mem := memset_loop m dst c 0 (Z.to_nat n).
Arguments memset : simpl never.

(** memcmp: the first differing pair of unsigned bytes decides. *)
Fixpoint memcmp_loop (m : mem) (s1 s2 : Z) (n : nat) : Z :=
  match n with
  | O => 0
  | S n' =>
      if negb (ld8 m s1 =? ld8 m s2) then ld8 m s1 - ld8 m s2
      else memcmp_loop m (s1 + 1) (s2 + 1) n'
  end.
Definition memcmp (m : mem) (v1 v2 n : Z) : Z := memcmp_loop m v1 v2 (Z.to_nat n).

(** memmove: backwards when the source overlaps the destination from below. *)
Fixpoint memmove_down (m : mem) (d s : Z) (n : nat) : mem :=
  match n with
  | O => m
  | S n' => memmove_down (st8 m (d - 1) (ld8 m (s - 1))) (d - 1) (s - 1) n'
  end.
Fixpoint memmove_up (m : mem) (d s : Z) (n : nat) : mem :=
  match n with
  | O => m
  | S n' => memmove_up (st8 m d (ld8 m s)) (d + 1) (s + 1) n'
  end.
Definition memmove (m : mem) (dst src n : Z) : mem :=
  if n =? 0 then m
  else if (src <? dst) && (dst <? src + n)
  then memmove_down m (dst + n) (src + n) (Z.to_nat n)
  else memmove_up m dst src (Z.to_nat n).
Arguments memmove : simpl never.
Definition memcpy (m : mem) (dst src n : Z) : mem := memmove m dst src n.

(** strncmp: [while(n > 0 && *p && *p == *q) n--, p++, q++;] *)
Fixpoint strncmp_loop (m : mem) (p q : Z) (n : nat) : Z :=
  match n with
  | O => 0
  | S n' =>
      if negb (ld8 m p =? 0) && (ld8 m p =? ld8 m q)
      then strncmp_loop m (p + 1) (q + 1) n'
      else ld8 m p - ld8 m q
  end.
Definition strncmp (m : mem) (p q n : Z) : Z := strncmp_loop m p q (Z.to_nat n).

(** strncpy: copy up to and including the NUL, then pad with NULs. *)
Fixpoint strncpy_pad (m : mem) (s : Z) (n : nat) : mem :=
  match n with
  | O => m
  | S n' => strncpy_pad (st8 m s 0) (s + 1) n'
  end.
Fixpoint strncpy_loop (m : mem) (s t : Z) (n : nat) : mem :=
  match n with
  | O => m
  | S n' =>
      let c := ld8 m t in
      let m' := st8 m s c in
      if negb (c =? 0) then strncpy_loop m' (s + 1) (t + 1) n'
      else strncpy_pad m' (s + 1) n'
  end.
Definition strncpy (m : mem) (s t n : Z) : mem := strncpy_loop m s t (Z.to_nat n).

(** safestrcpy: [while(--n > 0 && ( *s++ = *t++) != 0) ; *s = 0;] *)
Fixpoint safestrcpy_loop (m : mem) (s t : Z) (n : nat) : mem :=
  match n with
  | O => st8 m s 0
  | S n' =>
      let c := ld8 m t in
      let m' := st8 m s c in
      if negb (c =? 0) then safestrcpy_loop m' (s + 1) (t + 1) n'
      else st8 m' (s + 1) 0
  end.
Definition safestrcpy (m : mem) (s t n : Z) : mem :=
  if n <=? 0 then m else safestrcpy_loop m s t (Z.to_nat (n - 1)).

(** strlen: [for(n = 0; s[n]; n++) ;], with fuel for the scan. *)
Fixpoint strlen_loop (m : mem) (s n : Z) (fuel : nat) : option Z :=
  match fuel with
  | O => None
  | S fuel' => if ld8 m (s + n) =? 0 then Some n else strlen_loop m s (n + 1) fuel'
  end.
Definition strlen (fuel : nat) (m : mem) (s : Z) : option Z := strlen_loop m s 0 fuel.

(** ** Lemmas *)

Lemma ld8_memset_loop m dst c i k a :
  ld8 (memset_loop m dst c i k) a =
  if decide (dst + i <= a < dst + i + Z.of_nat k) then u8 c else ld8 m a.
Proof.
  revert m i. induction k as [|k IH]; intros m i; cbn [memset_loop].
  - rewrite decide_False by lia. done.
  - rewrite IH. destruct (decide (a = dst + i)) as [->|Hne].
    + rewrite decide_False by lia. rewrite ld8_st8_eq, decide_True by lia. done.
    + rewrite ld8_st8_ne by lia. repeat case_decide; try lia; done.
Qed.
Lemma ld8_memset m dst c n a :
  0 <= n ->
  ld8 (memset m dst c n) a = if decide (dst <= a < dst + n) then u8 c else ld8 m a.
Proof.
  intros. unfold memset. rewrite ld8_memset_loop, Z.add_0_r, Z2Nat.id by lia. done.
Qed.

Lemma ld8_memmove_up m d s n a :
  s >= d \/ s + Z.of_nat n <= d ->
  ld8 (memmove_up m d s n) a =
  if decide (d <= a < d + Z.of_nat n) then ld8 m (s + (a - d)) else ld8 m a.
Proof.
  revert m d s. induction n as [|n IH]; intros m d s H; cbn [memmove_up].
  - rewrite decide_False by lia. done.
  - rewrite IH by lia. destruct (decide (a = d)) as [->|Hne].
    + rewrite decide_False by lia. rewrite decide_True by lia.
      rewrite ld8_st8_eq, Z.sub_diag, Z.add_0_r. apply u8_small. apply ld8_range.
    + rewrite (ld8_st8_ne m d a) by lia.
      repeat case_decide; try lia; try done.
      rewrite ld8_st8_ne by lia. f_equal. lia.
Qed.
Lemma ld8_memmove_down m d s n a :
  s <= d ->
  ld8 (memmove_down m d s n) a =
  if decide (d - Z.of_nat n <= a < d) then ld8 m (s + (a - d)) else ld8 m a.
Proof.
  revert m d s. induction n as [|n IH]; intros m d s H; cbn [memmove_down].
  - rewrite decide_False by lia. done.
  - rewrite IH by lia. destruct (decide (a = d - 1)) as [->|Hne].
    + rewrite decide_False by lia. rewrite decide_True by lia.
      rewrite ld8_st8_eq. rewrite u8_small by apply ld8_range. f_equal. lia.
    + rewrite (ld8_st8_ne m (d - 1) a) by lia.
      repeat case_decide; try lia; try done.
      rewrite ld8_st8_ne by lia. f_equal. lia.
Qed.
Lemma ld8_memmove m dst src n a :
  0 <= n ->
  ld8 (memmove m dst src n) a =
  if decide (dst <= a < dst + n) then ld8 m (src + (a - dst)) else ld8 m a.
Proof.
  intros Hn. unfold memmove.
  destruct (Z.eqb_spec n 0) as [->|Hnz].
  { rewrite decide_False by lia. done. }
  destruct (Z.ltb_spec src dst); destruct (Z.ltb_spec dst (src + n)); cbn [andb].
  1: rewrite ld8_memmove_down by lia. 2-4: rewrite ld8_memmove_up by lia.
  all: rewrite Z2Nat.id by lia; repeat case_decide; try lia; try done.
  f_equal. lia.
Qed.

Lemma ld8_safestrcpy_loop_out m s t n a :
  ~ (s <= a <= s + Z.of_nat n) -> ld8 (safestrcpy_loop m s t n) a = ld8 m a.
Proof.
  revert m s t. induction n as [|n IH]; intros m s t H; cbn [safestrcpy_loop].
  - rewrite ld8_st8_ne by lia. done.
  - destruct (Z.eqb_spec (ld8 m t) 0); cbn [negb].
    + rewrite !ld8_st8_ne by lia. done.
    + rewrite IH by lia. rewrite ld8_st8_ne by lia. done.
Qed.
Lemma safestrcpy_loop_nul m s t n :
  exists k, 0 <= k <= Z.of_nat n /\ ld8 (safestrcpy_loop m s t n) (s + k) = 0 /\
  (t + Z.of_nat n <= s \/ s + Z.of_nat n < t ->
   forall i, 0 <= i < k ->
     ld8 (safestrcpy_loop m s t n) (s + i) = ld8 m (t + i) /\ ld8 m (t + i) <> 0) /\
  (t + Z.of_nat n <= s \/ s + Z.of_nat n < t -> k < Z.of_nat n -> ld8 m (t + k) = 0).
Proof.
  revert m s t. induction n as [|n IH]; intros m s t; cbn [safestrcpy_loop].
  - exists 0. rewrite Z.add_0_r, ld8_st8_eq. repeat split; try lia; done.
  - destruct (Z.eqb_spec (ld8 m t) 0) as [E|E]; cbn [negb].
    + exists 0. rewrite !Z.add_0_r. rewrite ld8_st8_ne, ld8_st8_eq by lia.
      rewrite E. repeat split; try lia; done.
    + destruct (IH (st8 m s (ld8 m t)) (s + 1) (t + 1)) as (k & Hk & Hz & Hc & He).
      exists (k + 1). split; [lia|]. split; [by replace (s + (k + 1)) with (s + 1 + k) by lia|].
      split; intros Hd.
      * intros i Hi. destruct (decide (i = 0)) as [->|].
        { rewrite !Z.add_0_r. rewrite ld8_safestrcpy_loop_out by lia.
          rewrite ld8_st8_eq. split; [|done]. apply u8_small, ld8_range. }
        destruct (Hc ltac:(lia) (i - 1) ltac:(lia)) as [H1 H2].
        rewrite ld8_st8_ne in H1, H2 by lia.
        replace (s + 1 + (i - 1)) with (s + i) in H1 by lia.
        replace (t + 1 + (i - 1)) with (t + i) in H1, H2 by lia. done.
      * intros Hlt. specialize (He ltac:(lia) ltac:(lia)).
        rewrite ld8_st8_ne in He by lia. by replace (t + (k + 1)) with (t + 1 + k) by lia.
Qed.

Lemma strlen_loop_spec m s n k fuel :
  0 <= k -> (forall i, 0 <= i < k -> ld8 m (s + n + i) <> 0) -> ld8 m (s + n + k) = 0 ->
  (Z.to_nat k < fuel)%nat -> strlen_loop m s n fuel = Some (n + k).
Proof.
  revert n k. induction fuel as [|fuel IH]; intros n k Hk Hb Hz Hf; [lia|].
  cbn [strlen_loop]. destruct (Z.eqb_spec (ld8 m (s + n)) 0) as [E|E].
  - destruct (decide (k = 0)) as [->|]; [f_equal; lia|].
    exfalso. apply (Hb 0); [lia|]. by rewrite Z.add_0_r.
  - destruct (decide (k = 0)) as [->|]; [by rewrite Z.add_0_r in Hz|].
    rewrite (IH (n + 1) (k - 1)); [f_equal; lia|lia| | |lia].
    + intros i Hi. replace (s + (n + 1) + i) with (s + n + (i + 1)) by lia. apply Hb. lia.
    + by replace (s + (n + 1) + (k - 1)) with (s + n + k) by lia.
Qed.

(** memmove copies the bytes the source held before the call, whatever the
    overlap of the two blocks, and changes no byte outside the destination;
    memcpy is the same function. *)
Theorem memmove_copies (m : mem) (dst src n a : Z) (Hn : 0 <= n) :
  ld8 (memmove m dst src n) a =
    (if decide (dst <= a < dst + n) then ld8 m (src + (a - dst)) else ld8 m a) /\
  ld8 (memcpy m dst src n) a = ld8 (memmove m dst src n) a.
Proof. split; [by apply ld8_memmove|done]. Qed.
Lemma memmove_copies_witness :
  let m := st8 (st8 (st8 ∅ 10 7) 11 8) 12 9 in
  ld8 (memmove m 11 10 3) 13 = ld8 m 12 /\ ld8 (memcpy m 11 10 3) 13 = ld8 (memmove m 11 10 3) 13.
Proof.
  intros m. destruct (memmove_copies m 11 10 3 13 ltac:(lia)) as [E1 E2].
  split; [exact E1|exact E2].
Defined.

(** safestrcpy into a buffer of n > 0 bytes that does not overlap the source
    always leaves a NUL-terminated string: its strlen k is below n, its bytes
    are the source's first k, it stops early only at the source's NUL, and
    nothing outside the buffer changes. *)
Theorem safestrcpy_terminated (m : mem) (s t n : Z) (Hn : 0 < n)
  (Hd : t + n <= s \/ s + n <= t) :
  exists k, 0 <= k < n /\
    (forall fuel, (Z.to_nat k < fuel)%nat -> strlen fuel (safestrcpy m s t n) s = Some k) /\
    (forall i, 0 <= i < k -> ld8 (safestrcpy m s t n) (s + i) = ld8 m (t + i)) /\
    (k < n - 1 -> ld8 m (t + k) = 0) /\
    (forall a, ~ (s <= a < s + n) -> ld8 (safestrcpy m s t n) a = ld8 m a).
Proof.
  unfold safestrcpy. destruct (Z.leb_spec n 0); [lia|].
  destruct (safestrcpy_loop_nul m s t (Z.to_nat (n - 1))) as (k & Hk & Hz & Hc & He).
  rewrite Z2Nat.id in * by lia. specialize (Hc ltac:(lia)). specialize (He ltac:(lia)).
  exists k. split_and!; [lia|lia|..|done|].
  - intros fuel Hf. unfold strlen. rewrite (strlen_loop_spec _ _ 0 k); [done|lia| | |done].
    + intros i Hi. rewrite Z.add_0_r. destruct (Hc i Hi) as [-> ?]. done.
    + by rewrite Z.add_0_r.
  - intros i Hi. by apply Hc.
  - intros a Ha. apply ld8_safestrcpy_loop_out. lia.
Qed.
Lemma safestrcpy_terminated_witness :
  let m := st8 (st8 ∅ 100 104) 101 105 in
  exists k, 0 <= k < 16 /\
    (forall fuel, (Z.to_nat k < fuel)%nat -> strlen fuel (safestrcpy m 0 100 16) 0 = Some k) /\
    (forall i, 0 <= i < k -> ld8 (safestrcpy m 0 100 16) (0 + i) = ld8 m (100 + i)) /\
    (k < 16 - 1 -> ld8 m (100 + k) = 0) /\
    (forall a, ~ (0 <= a < 0 + 16) -> ld8 (safestrcpy m 0 100 16) a = ld8 m a).
Proof. intros m. apply (safestrcpy_terminated m 0 100 16); lia. Defined.

(** The block routines are used through the lemmas above. *)
#[global] Opaque memset memmove.

End KString.
