(* ===== verification/Spinlock.v ===== *)
(** * kernel/spinlock.c: spinlocks on several CPUs

    The routines act on the state of the locks and of the CPUs' interrupt
    nesting; the CPU that runs them is an argument.  acquire and release are
    cut at their atomic steps, and [lstep] interleaves the steps of all CPUs. *)

From stdpp Require Import functions.
From S2P Require Import Prelude.

(** struct cpu (proc.h), with the interrupt enable bit of the CPU *)
Record cpu := mkcpu { c_noff : Z; c_intena : bool; c_intr : bool }.
(** struct spinlock (spinlock.h) *)
Record spinlock := mkspin { lk_locked : bool; lk_cpu : option nat }.
Record lockst := mklockst { l_cpu : nat -> cpu; l_lock : nat -> spinlock }.

Definition set_cpu (c : nat) (x : cpu) : M lockst unit := modify (fun s => mklockst (<[c := x]> (l_cpu s)) (l_lock s)).
Definition set_lock (lk : nat) (x : spinlock) : M lockst unit := modify (fun s => mklockst (l_cpu s) (<[lk := x]> (l_lock s))).

(** initlock *)
Definition initlock (lk : nat) : M lockst unit := set_lock lk (mkspin false None).

(** holding *)
Definition holding (c lk : nat) : M lockst bool :=
  l ← gets (fun s => l_lock s lk);
  mret (lk_locked l && bool_decide (lk_cpu l = Some c)).

(** push_off, pop_off *)
Definition push_off (c : nat) : M lockst unit :=
  x ← gets (fun s => l_cpu s c);
  let intena := if c_noff x =? 0 then c_intr x else c_intena x in
  set_cpu c (mkcpu (c_noff x + 1) intena false).
Definition pop_off (c : nat) : M lockst unit :=
  x ← gets (fun s => l_cpu s c);
  if c_intr x then panic "pop_off - interruptible"
  else if c_noff x <? 1 then panic "pop_off"
  else
    let noff := c_noff x - 1 in
    set_cpu c (mkcpu noff (c_intena x) ((noff =? 0) && c_intena x)).

(** acquire: up to the loop, the atomic swap of the loop, and the end *)
Definition acquire_begin (c lk : nat) : M lockst unit :=
  push_off c;;
  h ← holding c lk;
  if (h : bool) then panic "acquire" else mret tt.
Definition test_and_set (lk : nat) : M lockst bool :=
  l ← gets (fun s => l_lock s lk);
  set_lock lk (mkspin true (lk_cpu l));;
  mret (lk_locked l).
Definition acquire_end (c lk : nat) : M lockst unit :=
  l ← gets (fun s => l_lock s lk);
  set_lock lk (mkspin (lk_locked l) (Some c)).

(** release: the check and the owner, the atomic store, and pop_off *)
Definition release_begin (c lk : nat) : M lockst unit :=
  h ← holding c lk;
  if negb h then panic "release"
  else
    l ← gets (fun s => l_lock s lk);
    set_lock lk (mkspin (lk_locked l) None).
Definition release_store (lk : nat) : M lockst unit :=
  l ← gets (fun s => l_lock s lk);
  set_lock lk (mkspin false (lk_cpu l)).

(** The whole routines on one CPU; acquire spins at most [fuel] times. *)
Fixpoint spin (fuel lk : nat) : M lockst unit :=
  match fuel with
  | O => no_fuel
  | S fuel' => b ← test_and_set lk; if (b : bool) then spin fuel' lk else mret tt
  end.
Definition acquire (fuel c lk : nat) : M lockst unit := acquire_begin c lk;; spin fuel lk;; acquire_end c lk.
Definition release (c lk : nat) : M lockst unit := release_begin c lk;; release_store lk;; pop_off c.

(** ** Interleaving

    Where a CPU is: in the code between the calls, or inside acquire or
    release of a lock.  [g_held c] are the locks that CPU [c] has acquired:
    acquire has returned and release has not been called. *)
Inductive point := Running | Spin (lk : nat) | Claim (lk : nat) | Store (lk : nat) | Pop.
Record conf := mkconf { g_st : lockst; g_at : nat -> point; g_held : nat -> list nat }.

Definition drop_lock (lk : nat) (l : list nat) : list nat := filter (fun x => x <> lk) l.
Inductive lstep : conf -> conf -> Prop :=
| l_acquire c lk g s : g_at g c = Running -> acquire_begin c lk (g_st g) = Ret tt s ->
    lstep g (mkconf s (<[c := Spin lk]> (g_at g)) (g_held g))
| l_spin c lk g s : g_at g c = Spin lk -> test_and_set lk (g_st g) = Ret true s ->
    lstep g (mkconf s (g_at g) (g_held g))
| l_take c lk g s : g_at g c = Spin lk -> test_and_set lk (g_st g) = Ret false s ->
    lstep g (mkconf s (<[c := Claim lk]> (g_at g)) (g_held g))
| l_claim c lk g s : g_at g c = Claim lk -> acquire_end c lk (g_st g) = Ret tt s ->
    lstep g (mkconf s (<[c := Running]> (g_at g)) (<[c := lk :: g_held g c]> (g_held g)))
| l_release c lk g s : g_at g c = Running -> release_begin c lk (g_st g) = Ret tt s ->
    lstep g (mkconf s (<[c := Store lk]> (g_at g)) (<[c := drop_lock lk (g_held g c)]> (g_held g)))
| l_store c lk g s : g_at g c = Store lk -> release_store lk (g_st g) = Ret tt s ->
    lstep g (mkconf s (<[c := Pop]> (g_at g)) (g_held g))
| l_pop c g s : g_at g c = Pop -> pop_off c (g_st g) = Ret tt s ->
    lstep g (mkconf s (<[c := Running]> (g_at g)) (g_held g))
| l_intr c b g s : g_at g c = Running -> c_noff (l_cpu (g_st g) c) = 0 ->
    set_cpu c (mkcpu 0 (c_intena (l_cpu (g_st g) c)) b) (g_st g) = Ret tt s ->
    lstep g (mkconf s (g_at g) (g_held g)).

(** At the start no lock is taken and every CPU is outside the routines. *)
Definition conf0 : conf :=
  mkconf (mklockst (fun _ => mkcpu 0 false false) (fun _ => mkspin false None)) (fun _ => Running) (fun _ => []).

(** ** The invariant *)

(** CPU [c] has the lock: from the successful swap to the store. *)
Definition owns (g : conf) (c lk : nat) : Prop := lk ∈ g_held g c \/ g_at g c = Claim lk \/ g_at g c = Store lk.
Definition busy (p : point) : Z := match p with Running => 0 | _ => 1 end.
Record linv (g : conf) : Prop := {
  li_owned : forall lk, lk_locked (l_lock (g_st g) lk) = true <-> exists c, owns g c lk;
  li_one : forall c c' lk, owns g c lk -> owns g c' lk -> c = c';
  li_cpu : forall c lk, lk_cpu (l_lock (g_st g) lk) = Some c <-> lk ∈ g_held g c;
  li_nodup : forall c, NoDup (g_held g c);
  li_apart : forall c lk, g_at g c = Spin lk \/ g_at g c = Claim lk \/ g_at g c = Store lk -> lk ∉ g_held g c;
  li_noff : forall c, c_noff (l_cpu (g_st g) c) = Z.of_nat (length (g_held g c)) + busy (g_at g c);
  li_intr : forall c, 0 < c_noff (l_cpu (g_st g) c) -> c_intr (l_cpu (g_st g) c) = false
}.

Lemma linv0 : linv conf0.
Proof.
  split; cbn; try done.
  - intros lk. split; [done|]. intros [c [H|[H|H]]]; [by apply not_elem_of_nil in H|done|done].
  - intros c c' lk [H|[H|H]]; [by apply not_elem_of_nil in H|done|done].
  - intros c lk. split; [done|]. by intros ?%not_elem_of_nil.
  - intros c. apply NoDup_nil_2.
  - by intros c lk [?|[?|?]].
Qed.

(** holding is exact. *)
Lemma holding_held g c lk : linv g -> holding c lk (g_st g) = Ret (bool_decide (lk ∈ g_held g c)) (g_st g).
Proof.
  intros Hi. unfold holding. rewrite bind_gets. unfold mret, M_ret. f_equal.
  destruct (decide (lk ∈ g_held g c)) as [Hin|Hout].
  - rewrite (bool_decide_true (lk ∈ _)) by done. rewrite (bool_decide_true (lk_cpu _ = _)) by (by apply (li_cpu _ Hi)).
    rewrite andb_true_r. apply (li_owned _ Hi). exists c. by left.
  - rewrite (bool_decide_false (lk ∈ _)) by done. rewrite (bool_decide_false (lk_cpu _ = _)) by (by rewrite (li_cpu _ Hi)).
    apply andb_false_r.
Qed.

(** A step that moves CPU [c] and changes its own interrupt state only. *)
Lemma linv_move g c x p :
  linv g -> (forall lk, p = Claim lk \/ p = Store lk <-> g_at g c = Claim lk \/ g_at g c = Store lk) ->
  (forall lk, p = Spin lk -> lk ∉ g_held g c) ->
  c_noff x = Z.of_nat (length (g_held g c)) + busy p -> (0 < c_noff x -> c_intr x = false) ->
  linv (mkconf (mklockst (<[c := x]> (l_cpu (g_st g))) (l_lock (g_st g))) (<[c := p]> (g_at g)) (g_held g)).
Proof.
  intros Hi Hp Hs Hn Hx.
  assert (Ho : forall c' lk, owns (mkconf (mklockst (<[c := x]> (l_cpu (g_st g))) (l_lock (g_st g))) (<[c := p]> (g_at g)) (g_held g)) c' lk <-> owns g c' lk).
  { intros c' lk. unfold owns. cbn. destruct (decide (c = c')) as [<-|Hne]; [rewrite fn_lookup_insert; specialize (Hp lk); tauto|].
    by rewrite fn_lookup_insert_ne. }
  split; cbn.
  - intros lk. rewrite (li_owned _ Hi). by setoid_rewrite Ho.
  - intros c1 c2 lk. rewrite !Ho. apply (li_one _ Hi).
  - apply (li_cpu _ Hi).
  - apply (li_nodup _ Hi).
  - intros c' lk. destruct (decide (c = c')) as [<-|Hne]; [rewrite fn_lookup_insert|by rewrite fn_lookup_insert_ne by done; apply (li_apart _ Hi)].
    intros [->|Hcs]; [by apply Hs|]. apply (li_apart _ Hi). right. by apply Hp.
  - intros c'. destruct (decide (c = c')) as [<-|Hne]; [by rewrite !fn_lookup_insert|]. rewrite !fn_lookup_insert_ne by done. apply (li_noff _ Hi).
  - intros c'. destruct (decide (c = c')) as [<-|Hne]; [by rewrite !fn_lookup_insert|]. rewrite !fn_lookup_insert_ne by done. apply (li_intr _ Hi).
Qed.

(** A step of CPU [c] on lock [lk], which no other CPU owns. *)
Lemma linv_lock g c lk l p h :
  linv g -> (forall c', c' <> c -> ~ owns g c' lk) ->
  let g' := mkconf (mklockst (l_cpu (g_st g)) (<[lk := l]> (l_lock (g_st g)))) (<[c := p]> (g_at g)) (<[c := h]> (g_held g)) in
  (forall lk', lk' <> lk -> (owns g' c lk' <-> owns g c lk') /\ (lk' ∈ h <-> lk' ∈ g_held g c)) ->
  (lk_locked l = true <-> owns g' c lk) -> lk_cpu l = (if decide (lk ∈ h) then Some c else None) -> NoDup h ->
  (forall lk', p = Spin lk' \/ p = Claim lk' \/ p = Store lk' -> lk' ∉ h) ->
  Z.of_nat (length h) + busy p = Z.of_nat (length (g_held g c)) + busy (g_at g c) -> linv g'.
Proof.
  intros Hi Hno g' Hoth Hlk Hcpu Hnd Hap Hlen.
  assert (Ho : forall c' lk', c' <> c -> owns g' c' lk' <-> owns g c' lk').
  { intros c' lk' Hne. unfold owns, g'. cbn. by rewrite !fn_lookup_insert_ne by done. }
  assert (Hh : g_held g' c = h) by apply fn_lookup_insert.
  split.
  - intros lk'. unfold g' at 1. cbn. destruct (decide (lk = lk')) as [<-|Hne].
    + rewrite fn_lookup_insert, Hlk. split; [by exists c|]. intros [c' Hc']. destruct (decide (c' = c)) as [->|Hcc]; [done|].
      exfalso. by apply (Hno c' Hcc), (Ho c' lk Hcc).
    + rewrite fn_lookup_insert_ne, (li_owned _ Hi) by done. split; intros [c' Hc']; exists c';
        (destruct (decide (c' = c)) as [->|Hcc]; [by apply (Hoth lk' ltac:(done))|by apply (Ho c' lk' Hcc)]).
  - intros c1 c2 lk' H1 H2. destruct (decide (c1 = c2)) as [|Hne]; [done|]. exfalso.
    destruct (decide (lk' = lk)) as [->|Hlkne].
    + destruct (decide (c1 = c)) as [->|Hc1]; [apply (Hno c2 ltac:(done)), (Ho c2 lk ltac:(done)), H2|apply (Hno c1 Hc1), (Ho c1 lk Hc1), H1].
    + apply Hne, (li_one _ Hi c1 c2 lk'); [destruct (decide (c1 = c)) as [->|Hc1]|destruct (decide (c2 = c)) as [->|Hc2]];
        try (by apply (Hoth lk' Hlkne)); by apply Ho.
  - intros c' lk'. unfold g'. cbn. destruct (decide (lk = lk')) as [<-|Hne], (decide (c = c')) as [<-|Hcc];
      rewrite ?fn_lookup_insert, ?fn_lookup_insert_ne by done.
    + rewrite Hcpu. destruct (decide (lk ∈ h)); naive_solver.
    + split; [intros E; rewrite Hcpu in E; destruct (decide (lk ∈ h)); naive_solver|]. intros Hin. exfalso. apply (Hno c' ltac:(done)). by left.
    + rewrite (li_cpu _ Hi). symmetry. by apply Hoth.
    + apply (li_cpu _ Hi).
  - intros c'. unfold g'. cbn. destruct (decide (c = c')) as [<-|Hcc]; [by rewrite fn_lookup_insert|]. rewrite fn_lookup_insert_ne by done. apply (li_nodup _ Hi).
  - intros c' lk'. unfold g'. cbn. destruct (decide (c = c')) as [<-|Hcc]; [rewrite !fn_lookup_insert; apply Hap|].
    rewrite !fn_lookup_insert_ne by done. apply (li_apart _ Hi).
  - intros c'. unfold g'. cbn. destruct (decide (c = c')) as [<-|Hcc]; [rewrite !fn_lookup_insert, Hlen|rewrite !fn_lookup_insert_ne by done]; apply (li_noff _ Hi).
  - apply (li_intr _ Hi).
Qed.

(** ** Every step preserves it *)
Definition pushed (x : cpu) : cpu := mkcpu (c_noff x + 1) (if c_noff x =? 0 then c_intr x else c_intena x) false.
Lemma acquire_begin_eq g c lk : linv g ->
  let s := mklockst (<[c := pushed (l_cpu (g_st g) c)]> (l_cpu (g_st g))) (l_lock (g_st g)) in
  acquire_begin c lk (g_st g) = if decide (lk ∈ g_held g c) then Panic "acquire" s else Ret tt s.
Proof.
  intros Hi s. unfold acquire_begin, push_off. rewrite bind_assoc, bind_gets.
  unfold set_cpu at 1. rewrite bind_modify. pose proof (holding_held g c lk Hi) as Hh. unfold holding in Hh |- *. rewrite bind_gets in Hh.
  rewrite bind_assoc, bind_gets. cbn [l_lock]. unfold mret, M_ret, mbind, M_bind in *. injection Hh as ->.
  case_decide; [by rewrite bool_decide_true|by rewrite bool_decide_false].
Qed.
Lemma release_begin_eq g c lk : linv g ->
  release_begin c lk (g_st g) =
    if decide (lk ∈ g_held g c)
    then Ret tt (mklockst (l_cpu (g_st g)) (<[lk := mkspin (lk_locked (l_lock (g_st g) lk)) None]> (l_lock (g_st g))))
    else Panic "release" (g_st g).
Proof.
  intros Hi. unfold release_begin. rewrite (bind_ret _ _ _ _ _ (holding_held g c lk Hi)).
  case_decide; [by rewrite bool_decide_true|by rewrite bool_decide_false].
Qed.
Lemma test_and_set_eq lk s :
  test_and_set lk s = Ret (lk_locked (l_lock s lk)) (mklockst (l_cpu s) (<[lk := mkspin true (lk_cpu (l_lock s lk))]> (l_lock s))).
Proof. done. Qed.

(** A swap that finds the lock taken changes nothing. *)
Lemma linv_ext g s : linv g -> (forall c, l_cpu s c = l_cpu (g_st g) c) -> (forall lk, l_lock s lk = l_lock (g_st g) lk) ->
  linv (mkconf s (g_at g) (g_held g)).
Proof.
  intros Hi Hc Hl. split; cbn.
  - intros lk. rewrite Hl. apply (li_owned _ Hi).
  - apply (li_one _ Hi).
  - intros c lk. rewrite Hl. apply (li_cpu _ Hi).
  - apply (li_nodup _ Hi).
  - apply (li_apart _ Hi).
  - intros c. rewrite Hc. apply (li_noff _ Hi).
  - intros c. rewrite Hc. apply (li_intr _ Hi).
Qed.
Lemma linv_same s a h c : linv (mkconf s a (<[c := h c]> h)) -> linv (mkconf s a h).
Proof.
  assert (E : forall x, (<[c := h c]> h : nat -> list nat) x = h x).
  { intros x. destruct (decide (c = x)) as [<-|]; [by rewrite fn_lookup_insert|by rewrite fn_lookup_insert_ne]. }
  intros [H1 H2 H3 H4 H5 H6 H7]. unfold owns in *. cbn in *. split; unfold owns; cbn; try done.
  - intros lk. rewrite H1. by setoid_rewrite E.
  - intros c1 c2 lk. specialize (H2 c1 c2 lk). by rewrite !E in H2.
  - intros c1 lk. rewrite H3. by rewrite E.
  - intros c1. specialize (H4 c1). by rewrite E in H4.
  - intros c1 lk. specialize (H5 c1 lk). by rewrite E in H5.
  - intros c1. specialize (H6 c1). by rewrite E in H6.
Qed.
Lemma drop_lock_length lk l : NoDup l -> lk ∈ l -> length l = S (length (drop_lock lk l)).
Proof.
  intros Hnd Hin. apply list_elem_of_split in Hin as (l1 & l2 & ->). apply NoDup_app in Hnd as (_ & Hd & Hnd).
  apply NoDup_cons in Hnd as [Hn2 _]. assert (Hn1 : lk ∉ l1) by (intros H1; apply (Hd lk H1); left).
  assert (Hk : forall l : list nat, lk ∉ l -> filter (fun x : nat => x <> lk) l = l).
  { clear. induction l as [|x l IH]; intros Hn; [done|]. apply not_elem_of_cons in Hn as [Hx Hl]. rewrite filter_cons_True, IH; [done|done|congruence]. }
  unfold drop_lock. rewrite filter_app, filter_cons_False, !Hk by (done || (intros Hne; by apply Hne)). rewrite !length_app. cbn. lia.
Qed.

Section Steps.
Context (g : conf) (Hi : linv g).

Lemma step_take c lk : g_at g c = Spin lk -> lk_locked (l_lock (g_st g) lk) = false ->
  linv (mkconf (mklockst (l_cpu (g_st g)) (<[lk := mkspin true (lk_cpu (l_lock (g_st g) lk))]> (l_lock (g_st g))))
    (<[c := Claim lk]> (g_at g)) (<[c := g_held g c]> (g_held g))).
Proof.
  intros Hat Hfree. assert (Hno : forall c', ~ owns g c' lk).
  { intros c' Ho. assert (lk_locked (l_lock (g_st g) lk) = true); [|congruence]. apply (li_owned _ Hi). by exists c'. }
  assert (Hn : lk ∉ g_held g c) by (intros Hin; apply (Hno c); by left).
  apply linv_lock; [done|by intros c' _|..]; unfold owns; cbn; rewrite ?fn_lookup_insert.
  - intros lk' Hne. rewrite Hat. split; [|done]. naive_solver.
  - naive_solver.
  - rewrite decide_False by done. destruct (lk_cpu _) as [c'|] eqn:E; [|done]. exfalso. apply (li_cpu _ Hi) in E. apply (Hno c'). by left.
  - apply (li_nodup _ Hi).
  - intros lk' [?|[[= <-]|?]]; done.
  - rewrite Hat. done.
Qed.

Lemma step_claim c lk : g_at g c = Claim lk ->
  linv (mkconf (mklockst (l_cpu (g_st g)) (<[lk := mkspin (lk_locked (l_lock (g_st g) lk)) (Some c)]> (l_lock (g_st g))))
    (<[c := Running]> (g_at g)) (<[c := lk :: g_held g c]> (g_held g))).
Proof.
  intros Hat. assert (Ho : owns g c lk) by (right; by left).
  assert (Hlk : lk_locked (l_lock (g_st g) lk) = true) by (apply (li_owned _ Hi); by exists c).
  apply linv_lock; [done|intros c' Hne Hc'; apply Hne; by eapply (li_one _ Hi)|..]; unfold owns; cbn; rewrite ?fn_lookup_insert.
  - intros lk' Hne. rewrite Hat, elem_of_cons. split; naive_solver.
  - rewrite Hlk, elem_of_cons. naive_solver.
  - by rewrite decide_True by left.
  - apply NoDup_cons. split; [|apply (li_nodup _ Hi)]. apply (li_apart _ Hi). naive_solver.
  - naive_solver.
  - rewrite Hat. cbn. lia.
Qed.

Lemma step_release c lk : g_at g c = Running -> lk ∈ g_held g c ->
  linv (mkconf (mklockst (l_cpu (g_st g)) (<[lk := mkspin (lk_locked (l_lock (g_st g) lk)) None]> (l_lock (g_st g))))
    (<[c := Store lk]> (g_at g)) (<[c := drop_lock lk (g_held g c)]> (g_held g))).
Proof.
  intros Hat Hin. assert (Ho : owns g c lk) by (by left).
  assert (Hlk : lk_locked (l_lock (g_st g) lk) = true) by (apply (li_owned _ Hi); by exists c).
  assert (Hd : forall x, x ∈ drop_lock lk (g_held g c) <-> x <> lk /\ x ∈ g_held g c) by (intros x; unfold drop_lock; by rewrite list_elem_of_filter).
  apply linv_lock; [done|intros c' Hne Hc'; apply Hne; by eapply (li_one _ Hi)|..]; unfold owns; cbn; rewrite ?fn_lookup_insert.
  - intros lk' Hne. rewrite Hat, Hd. split; naive_solver.
  - rewrite Hlk. naive_solver.
  - rewrite decide_False; [done|]. rewrite Hd. naive_solver.
  - apply NoDup_filter, (li_nodup _ Hi).
  - intros lk' [?|[?|[= <-]]]; [done|done|]. rewrite Hd. naive_solver.
  - rewrite Hat. rewrite (drop_lock_length lk (g_held g c) (li_nodup _ Hi c) Hin). cbn. lia.
Qed.

Lemma step_store c lk : g_at g c = Store lk ->
  linv (mkconf (mklockst (l_cpu (g_st g)) (<[lk := mkspin false (lk_cpu (l_lock (g_st g) lk))]> (l_lock (g_st g))))
    (<[c := Pop]> (g_at g)) (<[c := g_held g c]> (g_held g))).
Proof.
  intros Hat. assert (Ho : owns g c lk) by (right; by right).
  assert (Hn : lk ∉ g_held g c) by (apply (li_apart _ Hi); naive_solver).
  apply linv_lock; [done|intros c' Hne Hc'; apply Hne; by eapply (li_one _ Hi)|..]; unfold owns; cbn; rewrite ?fn_lookup_insert.
  - intros lk' Hne. rewrite Hat. split; naive_solver.
  - naive_solver.
  - rewrite decide_False by done. destruct (lk_cpu _) as [c'|] eqn:E; [|done]. exfalso. apply (li_cpu _ Hi) in E.
    assert (c' = c) as ->; [|done]. apply (li_one _ Hi c' c lk); [by left|done].
  - apply (li_nodup _ Hi).
  - naive_solver.
  - rewrite Hat. done.
Qed.
End Steps.

Lemma lock_step g g' : linv g -> lstep g g' -> linv g'.
Proof.
  intros Hi Hs. destruct Hs as [c lk g s Hat E|c lk g s Hat E|c lk g s Hat E|c lk g s Hat E|c lk g s Hat E|c lk g s Hat E|c g s Hat E|c b g s Hat Hn E].
  - rewrite acquire_begin_eq in E by done. case_decide as Hd; [done|]. injection E as <-.
    apply linv_move; [done| | |unfold pushed; cbn; rewrite (li_noff _ Hi), Hat; cbn; lia|done].
    + intros lk'. rewrite Hat. naive_solver.
    + by intros lk' [= <-].
  - rewrite test_and_set_eq in E. injection E as El <-. apply linv_ext; [done|done|]. intros lk'. cbn.
    destruct (decide (lk = lk')) as [<-|]; [|by rewrite fn_lookup_insert_ne]. rewrite fn_lookup_insert. destruct (l_lock (g_st g) lk). cbn in *. by subst.
  - rewrite test_and_set_eq in E. injection E as El <-. apply (linv_same _ _ _ c). by apply step_take.
  - injection E as <-. by apply step_claim.
  - rewrite release_begin_eq in E by done. case_decide; [|done]. injection E as <-. by apply step_release.
  - injection E as <-. apply (linv_same _ _ _ c). by apply step_store.
  - unfold pop_off in E. rewrite bind_gets in E. destruct (c_intr _); [done|]. destruct (Z.ltb_spec (c_noff (l_cpu (g_st g) c)) 1); [done|].
    injection E as <-. pose proof (li_noff _ Hi c) as Hn. rewrite Hat in Hn. cbn in Hn.
    apply linv_move; [done| |done|cbn; lia|cbn; intros Hp; by replace (_ =? 0) with false by lia].
    intros lk'. rewrite Hat. naive_solver.
  - injection E as <-. pose proof (li_noff _ Hi c) as Hl. rewrite Hat in Hl.
    assert (Ha : forall x, (<[c := Running]> (g_at g) : nat -> point) x = g_at g x).
    { intros x. destruct (decide (c = x)) as [<-|]; [by rewrite fn_lookup_insert|by rewrite fn_lookup_insert_ne]. }
    destruct (linv_move g c (mkcpu 0 (c_intena (l_cpu (g_st g) c)) b) Running Hi) as [H1 H2 H3 H4 H5 H6 H7];
      [by intros; rewrite Hat|done|cbn in *; lia|cbn; lia|].
    unfold owns in *. cbn in *. split; unfold owns; cbn; try done; intros; repeat (setoid_rewrite Ha in H1 || setoid_rewrite Ha in H2 || setoid_rewrite Ha in H5 || setoid_rewrite Ha in H6); eauto.
Qed.

(** C9. Spinlocks exclude each other.  In every state that the CPUs reach by
    calling acquire and release in any order and interleaved at their atomic
    steps, no two CPUs hold the same lock; a CPU has its interrupts off while
    it holds one; acquire panics exactly when its CPU already holds the lock,
    and release exactly when it does not. *)
Theorem spinlock_exclusion (g : conf) (Hr : rtc lstep conf0 g) :
  (forall c c' lk, lk ∈ g_held g c -> lk ∈ g_held g c' -> c = c') /\
  (forall c lk, lk ∈ g_held g c -> c_intr (l_cpu (g_st g) c) = false) /\
  (forall c lk, (exists s, acquire_begin c lk (g_st g) = Panic "acquire" s) <-> lk ∈ g_held g c) /\
  (forall c lk, (exists s, release_begin c lk (g_st g) = Panic "release" s) <-> lk ∉ g_held g c).
Proof.
  assert (Hi : linv g).
  { remember conf0 as g0 eqn:E. assert (H0 : linv g0) by (subst; apply linv0). clear E. induction Hr; eauto using lock_step. }
  split_and!.
  - intros c c' lk H1 H2. apply (li_one _ Hi c c' lk); by left.
  - intros c lk Hin. apply (li_intr _ Hi). rewrite (li_noff _ Hi). destruct (g_held g c); [by apply not_elem_of_nil in Hin|]. cbn. destruct (g_at g c); cbn; lia.
  - intros c lk. rewrite acquire_begin_eq by done. case_decide; naive_solver.
  - intros c lk. rewrite release_begin_eq by done. case_decide; naive_solver.
Qed.

(** Two CPUs contend for lock 7: CPU 1 takes it while CPU 0 spins. *)
Definition ex_conf : conf :=
  let s0 := g_st conf0 in
  let x := pushed (mkcpu 0 false false) in
  mkconf (mklockst (<[1%nat := x]> (<[0%nat := x]> (l_cpu s0))) (<[7%nat := mkspin true (Some 1%nat)]> (<[7%nat := mkspin true None]> (l_lock s0))))
    (<[1%nat := Running]> (<[1%nat := Claim 7]> (<[1%nat := Spin 7]> (<[0%nat := Spin 7]> (g_at conf0))))) (<[1%nat := [7%nat]]> (g_held conf0)).
Lemma spinlock_exclusion_witness :
  (forall c', 7%nat ∈ g_held ex_conf c' -> 1%nat = c') /\ g_at ex_conf 0%nat = Spin 7.
Proof.
  split; [|done]. intros c'. apply (spinlock_exclusion ex_conf); [|by left].
  eapply rtc_l; [apply (l_acquire 0 7); reflexivity|]. eapply rtc_l; [apply (l_acquire 1 7); reflexivity|].
  eapply rtc_l; [apply (l_take 1 7); reflexivity|]. eapply rtc_l; [apply (l_claim 1 7); reflexivity|]. apply rtc_refl.
Defined.
