(* ===== verification/FsState.v ===== *)
(** * File-system data: constants and structures

    param.h, fs.h, buf.h, sleeplock.h, file.h, stat.h and fcntl.h, the log of
    log.c and the console buffer of console.c, and the record [fsst] of the
    global variables of the storage stack.

    Pointers to table entries (struct buf, inode, file) are indices.  The disk
    is the list of its writes, latest first: the state after a crash is the
    state after dropping writes from the front of the list. *)

From S2P Require Import Prelude Memory.
Import Mem.

(** ** param.h, fs.h, stat.h, fcntl.h, file.h *)

Definition NFILE : Z := 100.
Definition NINODE : Z := 50.
Definition NDEV : Z := 10.
Definition ROOTDEV : Z := 1.
Definition MAXARG : Z := 32.
Definition MAXOPBLOCKS : Z := 10.
Definition LOGBLOCKS : Z := MAXOPBLOCKS * 3.
Definition NBUF : Z := MAXOPBLOCKS * 3.
Definition MAXPATH : Z := 128.
Definition USERSTACK : Z := 1.

Definition ROOTINO : Z := 1.
Definition BSIZE : Z := 1024.
Definition FSMAGIC : Z := 0x10203040.
Definition NDIRECT : Z := 12.
Definition NINDIRECT : Z := BSIZE / 4.
Definition MAXFILE : Z := NDIRECT + NINDIRECT.
Definition DINODE_SIZE : Z := 64.
Definition IPB : Z := BSIZE / DINODE_SIZE.
Definition BPB : Z := BSIZE * 8.
Definition DIRSIZ : Z := 14.
Definition DIRENT_SIZE : Z := 16.

Definition T_DIR : Z := 1.
Definition T_FILE : Z := 2.
Definition T_DEVICE : Z := 3.
Definition O_RDONLY : Z := 0x000.
Definition O_WRONLY : Z := 0x001.
Definition O_RDWR : Z := 0x002.
Definition O_CREATE : Z := 0x200.
Definition O_TRUNC : Z := 0x400.
Definition CONSOLE : Z := 1.

(** ** Channels

    What a process sleeps on: the address of one of these objects. *)
Inductive chan :=
| NoChan
| ChProc (p : nat)
| ChTicks
| ChBuf (b : nat)
| ChInode (i : nat)
| ChLog
| ChPipeRead (pi : Z)
| ChPipeWrite (pi : Z)
| ChCons
| ChTx.
#[global] Instance chan_eq_dec : EqDecision chan.
Proof. solve_decision. Defined.

(** ** sleeplock.h *)
Record sleeplock := mklock { sl_locked : bool; sl_pid : Z }.
#[global] Instance eta_sleeplock : Eta sleeplock := fun r => mklock (sl_locked r) (sl_pid r).
Definition sleeplock0 : sleeplock := mklock false 0.

(** ** buf.h *)

(** The data of buffer [i] is in memory, at the image's [kbuf i]. *)
Record buf := mkbuf {
  b_valid : bool;
  b_dev : Z;
  b_blockno : Z;
  b_lock : sleeplock;
  b_refcnt : Z
}.
#[global] Instance eta_buf : Eta buf := fun r =>
  mkbuf (b_valid r) (b_dev r) (b_blockno r) (b_lock r) (b_refcnt r).
Definition buf0 : buf := mkbuf false 0 0 sleeplock0 0.

(** ** log.c *)
Record logst := mklog {
  lg_start : Z;
  lg_outstanding : Z;
  lg_committing : bool;
  lg_dev : Z;
  lg_n : Z;
  lg_block : list Z
}.
#[global] Instance eta_logst : Eta logst := fun r =>
  mklog (lg_start r) (lg_outstanding r) (lg_committing r) (lg_dev r) (lg_n r) (lg_block r).
Definition logst0 : logst := mklog 0 0 false 0 0 (replicate 30 0).

(** ** fs.h *)
Record superblock := mksb {
  sb_magic : Z;
  sb_size : Z;
  sb_nblocks : Z;
  sb_ninodes : Z;
  sb_nlog : Z;
  sb_logstart : Z;
  sb_inodestart : Z;
  sb_bmapstart : Z
}.
Definition superblock0 : superblock := mksb 0 0 0 0 0 0 0 0.

(** ** file.h *)
Record inode := mkinode {
  i_dev : Z;
  i_inum : Z;
  i_ref : Z;
  i_lock : sleeplock;
  i_valid : bool;
  i_type : Z;
  i_major : Z;
  i_minor : Z;
  i_nlink : Z;
  i_size : Z;
  i_addrs : list Z
}.
#[global] Instance eta_inode : Eta inode := fun r =>
  mkinode (i_dev r) (i_inum r) (i_ref r) (i_lock r) (i_valid r) (i_type r) (i_major r)
    (i_minor r) (i_nlink r) (i_size r) (i_addrs r).
Definition inode0 : inode := mkinode 0 0 0 sleeplock0 false 0 0 0 0 0 (replicate 13 0).

Inductive fdtype := FD_NONE | FD_PIPE | FD_INODE | FD_DEVICE.
#[global] Instance fdtype_eq_dec : EqDecision fdtype.
Proof. solve_decision. Defined.
Record file := mkfile {
  f_type : fdtype;
  f_ref : Z;
  f_readable : bool;
  f_writable : bool;
  f_pipe : Z;
  f_ip : option nat;
  f_off : Z;
  f_major : Z
}.
#[global] Instance eta_file : Eta file := fun r =>
  mkfile (f_type r) (f_ref r) (f_readable r) (f_writable r) (f_pipe r) (f_ip r) (f_off r)
    (f_major r).
Definition file0 : file := mkfile FD_NONE 0 false false 0 None 0 0.

(** ** console.c, with tx_busy of uart.c *)
Definition INPUT_BUF_SIZE : Z := 128.
Record consst := mkcons {
  c_buf : list Z;
  c_r : Z;
  c_w : Z;
  c_e : Z;
  c_tx_busy : bool
}.
#[global] Instance eta_consst : Eta consst := fun r => mkcons (c_buf r) (c_r r) (c_w r) (c_e r) (c_tx_busy r).
Definition consst0 : consst := mkcons (replicate 128 0) 0 0 0 false.

(** ** The state of the storage stack

    [fs_order] is the list through prev and next of the buffers, most recently
    used first; [fs_disk] the writes the disk has taken, latest first;
    [fs_out] the bytes sent to the serial line; [fs_devsw] tells whether
    consoleinit has connected the console; [fs_first] is forkret's static
    variable. *)
Record fsst := mkfs {
  fs_disk : list (Z * list Z);
  fs_buf : list buf;
  fs_order : list nat;
  fs_log : logst;
  fs_sb : superblock;
  fs_inode : list inode;
  fs_file : list file;
  fs_cons : consst;
  fs_out : list Z;
  fs_devsw : bool;
  fs_first : bool
}.
#[global] Instance eta_fsst : Eta fsst := fun r =>
  mkfs (fs_disk r) (fs_buf r) (fs_order r) (fs_log r) (fs_sb r) (fs_inode r) (fs_file r)
    (fs_cons r) (fs_out r) (fs_devsw r) (fs_first r).
Definition fsst0 : fsst :=
  mkfs [] (replicate 30 buf0) [] logst0 superblock0 (replicate 50 inode0) (replicate 100 file0)
    consst0 [] false true.
