(* ===== verification/State.v ===== *)
(** * Kernel data: constants, structures and the kernel state

    The headers of the kernel: riscv.h and memlayout.h (paging constants and
    macros), proc.h (the process structure), memsys.h (frame and swap tables)
    and disk_sched.h (disk requests), and the record of the global variables
    that the memory and process subsystems share. *)

From S2P Require Import Prelude Memory FsState.
Import Mem.

(** ** param.h, memlayout.h, riscv.h *)

Definition NPROC : Z := 64.
Definition NOFILE : Z := 16.
Definition PGSIZE : Z := 4096.
Definition UART0 : Z := 0x10000000.
Definition VIRTIO0 : Z := 0x10001000.
Definition PLIC : Z := 0x0c000000.
Definition KERNBASE : Z := 0x80000000.
Definition PHYSTOP : Z := KERNBASE + 128 * 1024 * 1024.
Definition MAXVA : Z := Z.shiftl 1 (9 + 9 + 9 + 12 - 1).
Definition TRAMPOLINE : Z := MAXVA - PGSIZE.
Definition TRAPFRAME : Z := TRAMPOLINE - PGSIZE.
Definition KSTACK (p : Z) : Z := TRAMPOLINE - (p + 1) * 2 * PGSIZE.

Definition PGROUNDUP (sz : Z) : Z := Z.land (u64 (sz + PGSIZE - 1)) (Z.lnot (PGSIZE - 1)).
Definition PGROUNDDOWN (a : Z) : Z := Z.land a (Z.lnot (PGSIZE - 1)).

Definition PTE_V : Z := Z.shiftl 1 0.
Definition PTE_R : Z := Z.shiftl 1 1.
Definition PTE_W : Z := Z.shiftl 1 2.
Definition PTE_X : Z := Z.shiftl 1 3.
Definition PTE_U : Z := Z.shiftl 1 4.
Definition PTE_A : Z := Z.shiftl 1 6.

Definition PA2PTE (pa : Z) : Z := u64 (Z.shiftl (Z.shiftr pa 12) 10).
Definition PTE2PA (pte : Z) : Z := u64 (Z.shiftl (Z.shiftr pte 10) 12).
Definition PTE_FLAGS (pte : Z) : Z := Z.land pte 0x3FF.
Definition PXMASK : Z := 0x1FF.
Definition PXSHIFT (level : Z) : Z := 12 + 9 * level.
Definition PX (level va : Z) : Z := Z.land (Z.shiftr va (PXSHIFT level)) PXMASK.

(** Linear arithmetic over the layout constants. *)
Ltac page_lia := unfold PHYSTOP, KERNBASE, PGSIZE in *; lia.

(** The kernel image: addresses that the linker, the assembly files and the
    compiler fix.  [kend], [ketext], [ktrampoline], [kforkret], [kuservec],
    [kusertrap], [kuserret], [kkernelvec], [kkerneltrap], [kmain], [kstart] and
    [kstack0] are the symbols, [kkernelvec_ret] and [kspin] the addresses after
    the calls in kernelvec.S and entry.S; [kbuf i] is the data array of
    buffer [i]; [kstk n] the place on the kernel stack of the [n]th local
    variable whose address the code takes.  The buffers lie inside the kernel
    image, apart from each other and from the locals, and so do the locals
    from the pages that the allocator manages. *)
Class KernelImage := {
  kend : Z;
  ketext : Z;
  ktrampoline : Z;
  kforkret : Z;
  kuservec : Z;
  kusertrap : Z;
  kuserret : Z;
  kkernelvec : Z;
  kkernelvec_ret : Z;
  kkerneltrap : Z;
  kmain : Z;
  kstart : Z;
  kspin : Z;
  kstack0 : Z;
  kbuf : nat -> Z;
  kstk : nat -> Z;
  kend_range : KERNBASE <= kend <= PHYSTOP;
  kbuf_range : forall i, (i < 30)%nat -> KERNBASE <= kbuf i /\ kbuf i + 1024 <= kend;
  kbuf_sep : forall i j, (i < 30)%nat -> (j < 30)%nat -> i <> j ->
    kbuf i + 1024 <= kbuf j \/ kbuf j + 1024 <= kbuf i;
  kstk_range : forall n, PHYSTOP <= kstk n
}.

(** ** proc.h *)

Definition MLFQ_LEVELS : Z := 4.
Definition BOOST_INTERVAL : Z := 128.

Inductive procstate := UNUSED | USED | SLEEPING | RUNNABLE | RUNNING | ZOMBIE.
#[global] Instance procstate_eq_dec : EqDecision procstate.
Proof. solve_decision. Defined.

(** A [struct proc *] is an index into [proc[]], or null. *)
Abbreviation procptr := (option nat).

(** [p->context] keeps the two registers that C code writes; the trap frame
    lives in the page [p_trapframe] points to. *)
Record proc := mkproc {
  p_state : procstate;
  p_chan : chan;
  p_killed : Z;
  p_xstate : Z;
  p_pid : Z;
  p_parent : procptr;
  p_kstack : Z;
  p_sz : Z;
  p_pagetable : Z;
  p_trapframe : Z;
  p_context_ra : Z;
  p_context_sp : Z;
  p_ofile : list (option nat);
  p_cwd : option nat;
  p_name : list Z;
  p_syscall_count : Z;
  p_level : Z;
  p_current_ticks : Z;
  p_ticks : list Z;
  p_times_scheduled : Z;
  p_slice_start_syscalls : Z;
  p_time_slice_expired : Z;
  p_page_faults : Z;
  p_pages_evicted : Z;
  p_pages_swapped_in : Z;
  p_pages_swapped_out : Z;
  p_resident_pages : Z;
  p_disk_reads : Z;
  p_disk_writes : Z;
  p_total_disk_latency : Z
}.
#[global] Instance eta_proc : Eta proc := fun r =>
  mkproc (p_state r) (p_chan r) (p_killed r) (p_xstate r) (p_pid r) (p_parent r)
    (p_kstack r) (p_sz r) (p_pagetable r) (p_trapframe r) (p_context_ra r)
    (p_context_sp r) (p_ofile r) (p_cwd r) (p_name r) (p_syscall_count r)
    (p_level r) (p_current_ticks r) (p_ticks r) (p_times_scheduled r)
    (p_slice_start_syscalls r) (p_time_slice_expired r) (p_page_faults r)
    (p_pages_evicted r) (p_pages_swapped_in r) (p_pages_swapped_out r)
    (p_resident_pages r) (p_disk_reads r) (p_disk_writes r) (p_total_disk_latency r).

(** A zero-initialised entry of [proc[]] (the table is in .bss). *)
Definition proc0 : proc :=
  mkproc UNUSED NoChan 0 0 0 None 0 0 0 0 0 0 (replicate 16 None) None (replicate 16 0)
    0 0 0 [0; 0; 0; 0] 0 0 0 0 0 0 0 0 0 0 0.

(** ** memsys.h *)

Definition MAX_FRAMES : Z := 32768.
Definition MAX_SWAP_DISK_ENTRIES : Z := 32768.

Record frame_entry := mkframe {
  fe_in_use : bool;
  fe_owner : procptr;
  fe_vaddr : Z;
  fe_ref_bit : bool;
  fe_swapped : bool;
  fe_swap_index : Z
}.
#[global] Instance eta_frame : Eta frame_entry := fun r =>
  mkframe (fe_in_use r) (fe_owner r) (fe_vaddr r) (fe_ref_bit r) (fe_swapped r)
    (fe_swap_index r).
Definition frame0 : frame_entry := mkframe false None 0 false false (-1).

Record swap_disk_entry := mkswap {
  se_in_use : bool;
  se_owner : procptr;
  se_vaddr : Z;
  se_logical_block : Z;
  se_timestamp : Z
}.
#[global] Instance eta_swap : Eta swap_disk_entry := fun r =>
  mkswap (se_in_use r) (se_owner r) (se_vaddr r) (se_logical_block r) (se_timestamp r).
Definition swap0 : swap_disk_entry := mkswap false None 0 (-1) 0.

(** ** disk_sched.h *)

Definition DISK_SCHED_FCFS : Z := 0.
Definition DISK_SCHED_SSTF : Z := 1.
Definition RAID_MODE_0 : Z := 0.
Definition RAID_MODE_1 : Z := 1.
Definition RAID_MODE_5 : Z := 2.
Definition NUM_DISKS : Z := 4.
Definition DISK_BLOCKS_PER_DISK : Z := 4096.
Definition SWAP_START_BLOCK : Z := 0.
Definition DISK_ROTATIONAL_DELAY : Z := 5.
Definition DISK_READ : Z := 0.
Definition DISK_WRITE : Z := 1.

Record disk_request := mkreq {
  dr_type : Z;
  dr_logical_block : Z;
  dr_disk_id : Z;
  dr_block_on_disk : Z;
  dr_buffer : Z;
  dr_proc : procptr;
  dr_priority : Z;
  dr_timestamp : Z;
  dr_raid_mode : Z;
  dr_next : Z
}.
#[global] Instance eta_req : Eta disk_request := fun r =>
  mkreq (dr_type r) (dr_logical_block r) (dr_disk_id r) (dr_block_on_disk r)
    (dr_buffer r) (dr_proc r) (dr_priority r) (dr_timestamp r) (dr_raid_mode r)
    (dr_next r).

(** ** The kernel state

    The global variables of kalloc.c, vm.c, memsys.c, disk_sched.c, proc.c and
    trap.c, as one CPU ([k_cpuid]) running process [k_cur] sees them, with
    those of the storage stack in [k_fs].
    [k_reqs] holds the disk requests that live in allocated pages, by page
    address; tables indexed by an [int] are finite maps with the initial entry
    as default. *)
Record kstate := mkk {
  k_mem : mem;
  k_freelist : Z;
  k_kernel_pagetable : Z;
  k_frame_table : gmap Z frame_entry;
  k_clock_hand : Z;
  k_swap_table : gmap Z swap_disk_entry;
  k_next_swap_block : Z;
  k_head : gmap Z Z;
  k_disk_sched_policy : Z;
  k_raid_mode : Z;
  k_queue_head : Z;
  k_queue_tail : Z;
  k_reqs : gmap Z disk_request;
  k_disk_reads : Z;
  k_disk_writes : Z;
  k_total_disk_latency : Z;
  k_disk_operations : Z;
  k_proc : list proc;
  k_initproc : procptr;
  k_nextpid : Z;
  k_mlfq_head : list Z;
  k_ticks : Z;
  k_cpuid : Z;
  k_cur : procptr;
  k_fs : fsst
}.
#[global] Instance eta_kstate : Eta kstate := fun r =>
  mkk (k_mem r) (k_freelist r) (k_kernel_pagetable r) (k_frame_table r) (k_clock_hand r) (k_swap_table r)
    (k_next_swap_block r) (k_head r) (k_disk_sched_policy r) (k_raid_mode r)
    (k_queue_head r) (k_queue_tail r) (k_reqs r) (k_disk_reads r) (k_disk_writes r)
    (k_total_disk_latency r) (k_disk_operations r) (k_proc r) (k_initproc r)
    (k_nextpid r) (k_mlfq_head r) (k_ticks r) (k_cpuid r) (k_cur r) (k_fs r).

Abbreviation K := (M kstate).

(** Equality of a field of two states: reduce the projections first. *)
Ltac kproj := intros; cbn; reflexivity.

(** The state at boot: zero-initialised memory and tables. *)
Definition kstate0 : kstate :=
  mkk ∅ 0 0 ∅ 0 ∅ SWAP_START_BLOCK ∅ DISK_SCHED_FCFS RAID_MODE_0 0 0 ∅ 0 0 0 0
    (replicate 64 proc0) None 1 [0; 0; 0; 0] 0 0 None fsst0.

(** Access to [proc[i]] and to the tables. *)
Definition procs_at (l : list proc) (i : nat) : proc := default proc0 (l !! i).
Definition pr (s : kstate) (i : nat) : proc := procs_at (k_proc s) i.
Definition set_pr (i : nat) (f : proc -> proc) : K unit :=
  modify (fun s => s <| k_proc := alter f i (k_proc s) |>).
Definition frame_at (s : kstate) (i : Z) : frame_entry := default frame0 (k_frame_table s !! i).
Definition set_frame (i : Z) (f : frame_entry -> frame_entry) : K unit :=
  modify (fun s => s <| k_frame_table := <[i := f (frame_at s i)]> (k_frame_table s) |>).
Definition swap_at (s : kstate) (i : Z) : swap_disk_entry := default swap0 (k_swap_table s !! i).
Definition set_swap (i : Z) (f : swap_disk_entry -> swap_disk_entry) : K unit :=
  modify (fun s => s <| k_swap_table := <[i := f (swap_at s i)]> (k_swap_table s) |>).
Definition head_at (s : kstate) (d : Z) : Z := default 0 (k_head s !! d).

(** A kernel image for examples: the kernel ends 1 MB above [KERNBASE]. *)
Lemma example_end_range : KERNBASE <= 0x80100000 <= PHYSTOP.
Proof. page_lia. Qed.
Lemma example_buf_range i :
  (i < 30)%nat -> KERNBASE <= 0x80010000 + 1024 * Z.of_nat i /\ 0x80010000 + 1024 * Z.of_nat i + 1024 <= 0x80100000.
Proof. page_lia. Qed.
Lemma example_buf_sep i j :
  (i < 30)%nat -> (j < 30)%nat -> i <> j ->
  0x80010000 + 1024 * Z.of_nat i + 1024 <= 0x80010000 + 1024 * Z.of_nat j \/
  0x80010000 + 1024 * Z.of_nat j + 1024 <= 0x80010000 + 1024 * Z.of_nat i.
Proof. lia. Qed.
Lemma example_stk_range n : PHYSTOP <= PHYSTOP + 4096 * Z.of_nat n.
Proof. lia. Qed.
Definition example_image : KernelImage :=
  {| kend := 0x80100000; ketext := 0x80008000; ktrampoline := 0x80007000; kforkret := 0x80001000;
     kuservec := 0x80007000; kusertrap := 0x80002000; kuserret := 0x80007090;
     kkernelvec := 0x80005000; kkernelvec_ret := 0x80005050; kkerneltrap := 0x80003000; kmain := 0x80000400;
     kstart := 0x80000200; kspin := 0x80000020; kstack0 := 0x80009000;
     kbuf i := 0x80010000 + 1024 * Z.of_nat i; kstk n := PHYSTOP + 4096 * Z.of_nat n;
     kend_range := example_end_range; kbuf_range := example_buf_range; kbuf_sep := example_buf_sep;
     kstk_range := example_stk_range |}.
