(* ===== verification/Sched.v ===== *)
(** * kernel/proc.c and kernel/trap.c: the process table and the MLFQ scheduler

    The routines of proc.c that only touch the process table, and clockintr of
    trap.c.  A process gives up the CPU in [sched]: the routine ends in
    [Asleep], and the code after the call of sched is a routine of its own
    ([sleep_return]).  One turn of the scheduler's loop is [scheduler_round],
    up to the switch to the process, and [scheduler_return] after it. *)

From S2P Require Import Prelude Memory FsState State.

(** mlfq_quantum *)
Definition mlfq_quantum : list Z := [2; 4; 8; 16].

(** [for(p = proc; p < &proc[NPROC]; p++) body(p);] *)
Fixpoint for_procs (n i : nat) (body : nat -> K unit) : K unit :=
  match n with
  | O => mret tt
  | S n' => body i;; for_procs n' (S i) body
  end.
Definition each_proc (body : nat -> K unit) : K unit := for_procs (Z.to_nat NPROC) 0 body.

(** init_mlfq_state *)
Definition init_mlfq_state (p : nat) : K unit :=
  set_pr p (fun q =>
    q <| p_level := 0 |> <| p_current_ticks := 0 |> <| p_times_scheduled := 0 |>
      <| p_slice_start_syscalls := 0 |> <| p_time_slice_expired := 0 |>
      <| p_syscall_count := 0 |> <| p_ticks := replicate (Z.to_nat MLFQ_LEVELS) 0 |>).

(** mlfq_boost *)
Definition mlfq_boost : K unit :=
  each_proc (fun i =>
    st ← gets (fun s => p_state (pr s i));
    if negb (bool_decide (st = UNUSED)) && negb (bool_decide (st = ZOMBIE)) then
      set_pr i (fun q => q <| p_level := 0 |> <| p_current_ticks := 0 |> <| p_time_slice_expired := 0 |>)
    else mret tt).

(** procinit *)
Definition procinit : K unit :=
  each_proc (fun i => set_pr i (fun q => q <| p_state := UNUSED |> <| p_kstack := KSTACK (Z.of_nat i) |>)).

(** myproc(), dereferenced *)
Definition myproc : K nat :=
  p ← gets k_cur;
  match p with Some i => mret i | None => fault "myproc" end.

(** allocpid *)
Definition allocpid : K Z :=
  pid ← gets k_nextpid;
  modify (fun s => s <| k_nextpid := i32 (k_nextpid s + 1) |>);;
  mret pid.

(** scheduler: the search of one level from its head *)
Fixpoint sched_scan (n : nat) (level start i : Z) : K bool :=
  match n with
  | O => mret false
  | S n' =>
      let idx := Z.rem (start + i) NPROC in
      let p := Z.to_nat idx in
      q ← gets (fun s => pr s p);
      if bool_decide (p_state q = RUNNABLE) && (p_level q =? level) then
        set_pr p (fun q =>
          q <| p_state := RUNNING |> <| p_current_ticks := 0 |> <| p_time_slice_expired := 0 |>
            <| p_slice_start_syscalls := p_syscall_count q |>
            <| p_times_scheduled := i32 (p_times_scheduled q + 1) |>);;
        modify (fun s => s <| k_cur := Some p |>);;
        modify (fun s => s <| k_mlfq_head := <[Z.to_nat level := idx]> (k_mlfq_head s) |>);;
        mret true
      else sched_scan n' level start (i + 1)
  end.
Fixpoint sched_levels (n : nat) (level : Z) : K bool :=
  match n with
  | O => mret false
  | S n' =>
      start ← gets (fun s => default 0 (k_mlfq_head s !! Z.to_nat level));
      found ← sched_scan (Z.to_nat NPROC) level start 0;
      if (found : bool) then mret true else sched_levels n' (level + 1)
  end.
Definition scheduler_round : K bool := sched_levels (Z.to_nat MLFQ_LEVELS) 0.
Definition scheduler_return : K unit := modify (fun s => s <| k_cur := None |>).

(** sched *)
Definition sched : K unit :=
  p ← myproc;
  st ← gets (fun s => p_state (pr s p));
  if bool_decide (st = RUNNING) then panic "sched RUNNING" else switch_out.

(** yield *)
Definition yield : K unit :=
  p ← myproc;
  q ← gets (fun s => pr s p);
  (if negb (p_time_slice_expired q =? 0) then
     let delta_syscalls := i32 (p_syscall_count q - p_slice_start_syscalls q) in
     let delta_ticks := if p_current_ticks q <? 0 then 0 else p_current_ticks q in
     (if (delta_syscalls <? delta_ticks) && (p_level q <? MLFQ_LEVELS - 1)
      then set_pr p (fun q => q <| p_level := p_level q + 1 |>) else mret tt);;
     set_pr p (fun q => q <| p_current_ticks := 0 |> <| p_time_slice_expired := 0 |>)
   else mret tt);;
  set_pr p (fun q => q <| p_state := RUNNABLE |>);;
  sched.

(** sleep, up to the switch and after it *)
Definition sleep (ch : chan) : K unit :=
  p ← myproc;
  set_pr p (fun q => q <| p_chan := ch |> <| p_state := SLEEPING |>);;
  sched.
(** In a routine with a result: the run ends at the switch. *)
Definition sleep_on {A} (ch : chan) : K A := sleep ch;; fault "sleep".
Definition sleep_return : K unit :=
  p ← myproc;
  set_pr p (fun q => q <| p_chan := NoChan |>).

(** wakeup *)
Definition wakeup (ch : chan) : K unit :=
  each_proc (fun i =>
    cur ← gets k_cur;
    q ← gets (fun s => pr s i);
    if negb (bool_decide (cur = Some i)) &&
       (bool_decide (p_state q = SLEEPING) && bool_decide (p_chan q = ch))
    then set_pr i (fun q => q <| p_state := RUNNABLE |>)
    else mret tt).
(** The channel of a pointer to a process. *)
Definition chan_of (p : procptr) : chan := match p with Some i => ChProc i | None => NoChan end.

(** kkill *)
Fixpoint kkill_loop (n i : nat) (pid : Z) : K Z :=
  match n with
  | O => mret (-1)
  | S n' =>
      q ← gets (fun s => pr s i);
      if p_pid q =? pid then
        set_pr i (fun q => q <| p_killed := 1 |>);;
        (if bool_decide (p_state q = SLEEPING)
         then set_pr i (fun q => q <| p_state := RUNNABLE |>) else mret tt);;
        mret 0
      else kkill_loop n' (S i) pid
  end.
Definition kkill (pid : Z) : K Z := kkill_loop (Z.to_nat NPROC) 0 pid.

(** setkilled, killed *)
Definition setkilled (p : nat) : K unit := set_pr p (fun q => q <| p_killed := 1 |>).
Definition killed (p : nat) : K Z := gets (fun s => p_killed (pr s p)).

(** clockintr (trap.c) *)
Definition clock_account : K unit :=
  cur ← gets k_cur;
  match cur with
  | None => mret tt
  | Some p =>
      q ← gets (fun s => pr s p);
      if bool_decide (p_state q = RUNNING) then
        (if (p_level q <? 0) || (MLFQ_LEVELS <=? p_level q)
         then set_pr p (fun q => q <| p_level := 0 |>) else mret tt);;
        set_pr p (fun q => q <| p_current_ticks := i32 (p_current_ticks q + 1) |>);;
        q ← gets (fun s => pr s p);
        if (0 <=? p_level q) && (p_level q <? MLFQ_LEVELS) then
          set_pr p (fun q => q <| p_ticks := alter (fun t => i32 (t + 1)) (Z.to_nat (p_level q)) (p_ticks q) |>);;
          (if default 0 (mlfq_quantum !! Z.to_nat (p_level q)) <=? p_current_ticks q
           then set_pr p (fun q => q <| p_time_slice_expired := 1 |>) else mret tt)
        else mret tt
      else mret tt
  end.
Definition clockintr : K unit :=
  clock_account;;
  id ← gets k_cpuid;
  if id =? 0 then
    modify (fun s => s <| k_ticks := u32 (k_ticks s + 1) |>);;
    xticks ← gets k_ticks;
    wakeup ChTicks;;
    if xticks `mod` BOOST_INTERVAL =? 0 then mlfq_boost else mret tt
  else mret tt.

(** The count of system calls (syscall, syscall.c) *)
Definition count_syscall : K unit :=
  p ← myproc;
  set_pr p (fun q => q <| p_syscall_count := i32 (p_syscall_count q + 1) |>).
