(* ===== verification/SchedSpec.v ===== *)
(** * The process table and the scheduler: lemmas

    Loops over the table are maps ([each_proc_map]); the scheduler's search is
    the reference definition [mlfq_pick]; [sched_wf] is the invariant of the
    scheduler's data, and the equations of clockintr, yield, sleep and kkill
    give the state after each. *)

From S2P Require Import Prelude Memory FsState State Sched.

(** ** Loops over the process table *)

Lemma set_pr_alter s i f : set_pr i f s = Ret tt (s <| k_proc := alter f i (k_proc s) |>).
Proof. done. Qed.

(** A loop whose body updates entry [i] by [g i] updates every entry. *)
Lemma for_procs_map (g : nat -> proc -> proc) body s n i :
  (forall j s', k_cur s' = k_cur s ->
     body j s' = Ret tt (s' <| k_proc := alter (g j) j (k_proc s') |>)) ->
  exists l, for_procs n i body s = Ret tt (s <| k_proc := l |>) /\
    forall j, l !! j = if decide (i <= j < i + n)%nat then g j <$> k_proc s !! j else k_proc s !! j.
Proof.
  revert s i. induction n as [|n IH]; intros s i Hb.
  { exists (k_proc s). split; [by destruct s|]. intros j. by rewrite decide_False by lia. }
  cbn [for_procs]. rewrite (bind_ret _ _ _ _ _ (Hb i s eq_refl)).
  set (s1 := s <| k_proc := _ |>).
  destruct (IH s1 (S i)) as (l & -> & Hl). { intros j s' Hs'. by apply Hb. }
  exists l. split; [done|]. intros j. rewrite Hl. change (k_proc s1) with (alter (g i) i (k_proc s)).
  destruct (decide (j = i)) as [->|Hne].
  - rewrite decide_False, decide_True, list_lookup_alter_eq by lia. done.
  - rewrite list_lookup_alter_ne by done. do 2 case_decide; try done; lia.
Qed.
Lemma each_proc_map (g : nat -> proc -> proc) body s :
  length (k_proc s) = Z.to_nat NPROC ->
  (forall j s', k_cur s' = k_cur s ->
     body j s' = Ret tt (s' <| k_proc := alter (g j) j (k_proc s') |>)) ->
  each_proc body s = Ret tt (s <| k_proc := imap g (k_proc s) |>).
Proof.
  intros Hlen Hb. destruct (for_procs_map g body s (Z.to_nat NPROC) 0 Hb) as (l & E & Hl).
  unfold each_proc. rewrite E. assert (l = imap g (k_proc s)) as ->; [|done].
  apply list_eq. intros j. rewrite Hl, list_lookup_imap.
  case_decide; [done|]. by rewrite lookup_ge_None_2 by lia.
Qed.
Lemma alter_same {A} (l : list A) (f : A -> A) i : (forall x, l !! i = Some x -> f x = x) -> alter f i l = l.
Proof.
  intros Hf. apply list_eq. intros j. destruct (decide (j = i)) as [->|Hne].
  - rewrite list_lookup_alter_eq. destruct (l !! i) eqn:E; [|done]. cbn. by rewrite Hf.
  - by rewrite list_lookup_alter_ne.
Qed.
Lemma pr_lookup s i q : k_proc s !! i = Some q -> pr s i = q.
Proof. unfold pr, procs_at. by intros ->. Qed.
Lemma pr_imap s g i :
  (i < length (k_proc s))%nat -> pr (s <| k_proc := imap g (k_proc s) |>) i = g i (pr s i).
Proof.
  intros Hi. unfold pr, procs_at. cbn. rewrite list_lookup_imap.
  by destruct (lookup_lt_is_Some_2 _ _ Hi) as [q ->].
Qed.

(** mlfq_boost and wakeup as maps over the table. *)
Definition boosted (q : proc) : proc :=
  if bool_decide (p_state q = UNUSED) || bool_decide (p_state q = ZOMBIE) then q
  else q <| p_level := 0 |> <| p_current_ticks := 0 |> <| p_time_slice_expired := 0 |>.
Definition woken (cur : procptr) (ch : chan) (i : nat) (q : proc) : proc :=
  if decide (cur <> Some i /\ p_state q = SLEEPING /\ p_chan q = ch)
  then q <| p_state := RUNNABLE |> else q.

Lemma mlfq_boost_eq s :
  length (k_proc s) = Z.to_nat NPROC ->
  mlfq_boost s = Ret tt (s <| k_proc := imap (fun _ => boosted) (k_proc s) |>).
Proof.
  intros Hlen. apply each_proc_map; [done|]. intros j s' _. run.
  destruct (bool_decide (p_state (pr s' j) = UNUSED)) eqn:E1,
    (bool_decide (p_state (pr s' j) = ZOMBIE)) eqn:E2; cbn [negb andb].
  4:{ unfold set_pr. run. rewrite (list_alter_ext _ boosted (k_proc s') (k_proc s') j); [done| |done].
      intros q Hq. apply pr_lookup in Hq as <-. unfold boosted. by rewrite E1, E2. }
  all: rewrite alter_same; [by destruct s'|]; intros q Hq; apply pr_lookup in Hq as <-;
    unfold boosted; by rewrite E1, ?E2.
Qed.
Lemma wakeup_eq s ch :
  length (k_proc s) = Z.to_nat NPROC ->
  wakeup ch s = Ret tt (s <| k_proc := imap (woken (k_cur s) ch) (k_proc s) |>).
Proof.
  intros Hlen. apply each_proc_map; [done|]. intros j s' Hcur. run. rewrite Hcur.
  destruct (negb _ && _) eqn:E.
  - unfold set_pr. run. rewrite (list_alter_ext _ (woken (k_cur s) ch j) (k_proc s') (k_proc s') j); [done| |done].
    intros q Hq. apply pr_lookup in Hq as <-. unfold woken. rewrite decide_True; [done|].
    apply andb_prop in E as [E1 [E2 E3]%andb_prop].
    apply negb_true_iff, bool_decide_eq_false in E1. apply bool_decide_eq_true in E2, E3. done.
  - rewrite alter_same; [by destruct s'|]. intros q Hq. apply pr_lookup in Hq as <-.
    unfold woken. rewrite decide_False; [done|]. intros (H1 & H2 & H3).
    by rewrite (bool_decide_false _ H1), (bool_decide_true _ H2), (bool_decide_true _ H3) in E.
Qed.

(** ** The scheduler's choice *)

(** Reference definition: the processes in circular order from [start]; the
    first RUNNABLE one of a level; the first level that has one. *)
Definition rr_order (start : Z) : list nat :=
  (fun k => Z.to_nat (Z.rem (start + k) NPROC)) <$> seqZ 0 NPROC.
Definition ready_at (s : kstate) (level : Z) (i : nat) : bool :=
  bool_decide (p_state (pr s i) = RUNNABLE) && (p_level (pr s i) =? level).
Definition mlfq_start (s : kstate) (level : Z) : Z := default 0 (k_mlfq_head s !! Z.to_nat level).
Definition level_pick (s : kstate) (level : Z) : option nat :=
  find (ready_at s level) (rr_order (mlfq_start s level)).
Definition mlfq_pick (s : kstate) : option (Z * nat) :=
  head (omap (fun l => pair l <$> level_pick s l) (seqZ 0 MLFQ_LEVELS)).

(** The state in which process [i], found at [level], starts its slice. *)
Definition dispatched (s : kstate) (level : Z) (i : nat) : kstate :=
  s <| k_proc := alter (fun q =>
         q <| p_state := RUNNING |> <| p_current_ticks := 0 |> <| p_time_slice_expired := 0 |>
           <| p_slice_start_syscalls := p_syscall_count q |>
           <| p_times_scheduled := i32 (p_times_scheduled q + 1) |>) i (k_proc s) |>
    <| k_cur := Some i |>
    <| k_mlfq_head := <[Z.to_nat level := Z.of_nat i]> (k_mlfq_head s) |>.

Lemma sched_scan_eq n level start i s :
  0 <= start + i ->
  sched_scan n level start i s =
  match find (ready_at s level) ((fun k => Z.to_nat (Z.rem (start + k) NPROC)) <$> seqZ i (Z.of_nat n)) with
  | Some p => Ret true (dispatched s level p)
  | None => Ret false s
  end.
Proof.
  revert i. induction n as [|n IH]; intros i Hi; [done|].
  replace (seqZ i (Z.of_nat (S n))) with (i :: seqZ (i + 1) (Z.of_nat n)).
  2:{ rewrite (seqZ_cons i) by lia. f_equal. f_equal; lia. }
  cbn [sched_scan fmap list_fmap find]. run. unfold ready_at at 1.
  assert (0 <= Z.rem (start + i) NPROC) by (apply Z.rem_nonneg; done).
  destruct (bool_decide _ && _).
  - unfold set_pr, dispatched. run. by rewrite Z2Nat.id.
  - rewrite IH by lia. done.
Qed.

Lemma sched_levels_eq n level s :
  (forall l, 0 <= mlfq_start s l) ->
  sched_levels n level s =
  match head (omap (fun l => pair l <$> level_pick s l) (seqZ level (Z.of_nat n))) with
  | Some (l, p) => Ret true (dispatched s l p)
  | None => Ret false s
  end.
Proof.
  intros Hs. revert level. induction n as [|n IH]; intros level; [done|].
  replace (seqZ level (Z.of_nat (S n))) with (level :: seqZ (level + 1) (Z.of_nat n)).
  2:{ rewrite (seqZ_cons level) by lia. f_equal. f_equal; lia. }
  cbn [sched_levels omap list_omap]. specialize (Hs level).
  rewrite (bind_ret (gets _) _ s (mlfq_start s level) s eq_refl).
  pose proof (sched_scan_eq (Z.to_nat NPROC) level (mlfq_start s level) 0 s) as Hscan.
  rewrite Z2Nat.id in Hscan by done. specialize (Hscan ltac:(lia)). change (find _ _) with (level_pick s level) in Hscan.
  destruct (level_pick s level) as [p|]; rewrite (bind_ret _ _ _ _ _ Hscan); [done|]. by rewrite IH.
Qed.

Lemma scheduler_round_eq s :
  (forall l, 0 <= mlfq_start s l) ->
  scheduler_round s =
  match mlfq_pick s with Some (l, p) => Ret true (dispatched s l p) | None => Ret false s end.
Proof. intros Hs. by apply sched_levels_eq. Qed.

Lemma elem_of_rr_order start i :
  0 <= start -> i ∈ rr_order start <-> (i < Z.to_nat NPROC)%nat.
Proof.
  intros Hs. unfold rr_order. rewrite list_elem_of_fmap. setoid_rewrite elem_of_seqZ.
  change NPROC with 64. split.
  - intros (k & -> & Hk). rewrite Z.rem_mod_nonneg by lia. div_lia.
  - intros Hi. exists ((Z.of_nat i - start) `mod` 64). rewrite Z.rem_mod_nonneg; [|div_lia..].
    split; [|div_lia]. rewrite Zplus_mod_idemp_r. rewrite Z.mod_small; lia.
Qed.

(** ** The invariant of the scheduler *)

Definition proc_ok (q : proc) : Prop :=
  0 <= p_level q < MLFQ_LEVELS /\ length (p_ticks q) = Z.to_nat MLFQ_LEVELS.

(** Every process is on a level of the MLFQ, every head is an index of the
    table, and the running process is the CPU's. *)
Record sched_wf (s : kstate) : Prop := {
  sw_procs : length (k_proc s) = Z.to_nat NPROC;
  sw_heads : length (k_mlfq_head s) = Z.to_nat MLFQ_LEVELS /\ Forall (fun h => 0 <= h < NPROC) (k_mlfq_head s);
  sw_proc : Forall proc_ok (k_proc s);
  sw_cur : forall i, p_state (pr s i) = RUNNING <-> k_cur s = Some i
}.

Lemma sw_start s l : sched_wf s -> 0 <= mlfq_start s l < NPROC.
Proof.
  intros Hwf. destruct (sw_heads s Hwf) as [_ Hh]. unfold mlfq_start.
  destruct (k_mlfq_head s !! Z.to_nat l) as [h|] eqn:E; [|done].
  rewrite Forall_forall in Hh. by apply Hh, (list_elem_of_lookup_2 _ _ _ E).
Qed.
Lemma sw_level s i : sched_wf s -> 0 <= p_level (pr s i) < MLFQ_LEVELS /\ length (p_ticks (pr s i)) = Z.to_nat MLFQ_LEVELS.
Proof.
  intros Hwf. unfold pr, procs_at. destruct (k_proc s !! i) as [q|] eqn:E; [|done].
  pose proof (sw_proc s Hwf) as Hp. rewrite Forall_forall in Hp. by apply Hp, (list_elem_of_lookup_2 _ _ _ E).
Qed.
Lemma sw_index s i : sched_wf s -> p_state (pr s i) <> UNUSED -> (i < length (k_proc s))%nat.
Proof.
  intros Hwf Hst. destruct (decide (i < length (k_proc s))%nat); [done|].
  unfold pr, procs_at in Hst. by rewrite lookup_ge_None_2 in Hst by lia.
Qed.

(** Updates of the table that keep the invariant. *)
Lemma pr_alter s p f i :
  pr (s <| k_proc := alter f p (k_proc s) |>) i =
  if decide (i = p /\ (i < length (k_proc s))%nat) then f (pr s i) else pr s i.
Proof.
  unfold pr, procs_at. cbn. destruct (decide (i = p)) as [->|Hne].
  - rewrite list_lookup_alter_eq. destruct (decide (p < length (k_proc s))%nat) as [Hl|Hl].
    + rewrite decide_True by done. by destruct (lookup_lt_is_Some_2 _ _ Hl) as [q ->].
    + rewrite decide_False by naive_solver. by rewrite lookup_ge_None_2 by lia.
  - rewrite list_lookup_alter_ne by done. rewrite decide_False by naive_solver. done.
Qed.
Lemma pr_alter_eq s p f : (p < length (k_proc s))%nat -> pr (s <| k_proc := alter f p (k_proc s) |>) p = f (pr s p).
Proof. intros Hp. by rewrite pr_alter, decide_True. Qed.
Lemma wf_imap s g :
  sched_wf s -> (forall i q, proc_ok q -> proc_ok (g i q)) ->
  (forall i q, p_state (g i q) = RUNNING <-> p_state q = RUNNING) ->
  sched_wf (s <| k_proc := imap g (k_proc s) |>).
Proof.
  intros Hwf Hok Hst. split; cbn.
  - rewrite length_imap. apply Hwf.
  - apply Hwf.
  - apply Forall_lookup. intros i q. rewrite list_lookup_imap. intros (q' & Hq & ->)%fmap_Some.
    apply Hok. pose proof (sw_proc s Hwf) as Hp. rewrite Forall_lookup in Hp. by eapply Hp.
  - intros i. rewrite <- (sw_cur s Hwf i). destruct (decide (i < length (k_proc s))%nat) as [Hl|Hl].
    + by rewrite pr_imap.
    + unfold pr, procs_at. cbn. by rewrite !lookup_ge_None_2 by (rewrite ?length_imap; lia).
Qed.
Lemma wf_alter s f i cur :
  sched_wf s -> (forall q, proc_ok q -> proc_ok (f q)) ->
  (forall j, p_state (pr (s <| k_proc := alter f i (k_proc s) |>) j) = RUNNING <-> cur = Some j) ->
  sched_wf (s <| k_proc := alter f i (k_proc s) |> <| k_cur := cur |>).
Proof.
  intros Hwf Hok Hst. split; [cbn; rewrite length_alter; apply Hwf|apply Hwf| |exact Hst].
  apply Forall_alter; [apply Hwf|]. intros q _. apply Hok.
Qed.
(** The same, when the update keeps the state of the process. *)
Lemma wf_alter_same s f i :
  sched_wf s -> (forall q, proc_ok q -> proc_ok (f q)) ->
  (forall q, p_state (f q) = RUNNING <-> p_state q = RUNNING) ->
  sched_wf (s <| k_proc := alter f i (k_proc s) |>).
Proof.
  intros Hwf Hok Hst. split; [cbn; rewrite length_alter; apply Hwf|apply Hwf| |].
  - apply Forall_alter; [apply Hwf|]. intros q _. apply Hok.
  - intros j. rewrite pr_alter. change (k_cur (s <| k_proc := _ |>)) with (k_cur s).
    rewrite <- (sw_cur s Hwf j). case_decide; [apply Hst|done].
Qed.

(** The events of one CPU that touch the scheduler's data: the scheduler picks
    a process, the timer interrupts, the running process yields or sleeps, and
    code in the kernel wakes or kills processes. *)
Inductive sched_step : kstate -> kstate -> Prop :=
| step_dispatch s s' : k_cur s = None -> scheduler_round s = Ret true s' -> sched_step s s'
| step_tick s s' : clockintr s = Ret tt s' -> sched_step s s'
| step_yield s s1 s' : yield s = Asleep s1 -> scheduler_return s1 = Ret tt s' -> sched_step s s'
| step_sleep ch s s1 s' : sleep ch s = Asleep s1 -> scheduler_return s1 = Ret tt s' -> sched_step s s'
| step_sleep_return s s' : sleep_return s = Ret tt s' -> sched_step s s'
| step_wakeup ch s s' : wakeup ch s = Ret tt s' -> sched_step s s'
| step_kill pid r s s' : kkill pid s = Ret r s' -> sched_step s s'.

(** *** Each event *)
Lemma head_omap_Some {A B} (f : A -> option B) l b :
  head (omap f l) = Some b -> exists l1 a l2, l = l1 ++ a :: l2 /\ f a = Some b /\ Forall (fun x => f x = None) l1.
Proof.
  induction l as [|a l IH]; [done|]. cbn. destruct (f a) as [b'|] eqn:E; cbn.
  - intros [= ->]. exists [], a, l. done.
  - intros (l1 & a' & l2 & -> & Ha & Hl)%IH. exists (a :: l1), a', l2. split_and!; [done..|by constructor].
Qed.
Lemma head_omap_None {A B} (f : A -> option B) l : head (omap f l) = None -> Forall (fun x => f x = None) l.
Proof. induction l as [|a l IH]; [done|]. cbn. destruct (f a) eqn:E; cbn; [done|]. intros Hn. constructor; auto. Qed.

Lemma level_pick_Some s l i :
  sched_wf s -> level_pick s l = Some i ->
  (i < Z.to_nat NPROC)%nat /\ p_state (pr s i) = RUNNABLE /\ p_level (pr s i) = l.
Proof.
  intros Hwf [Hin Hr]%find_some. split.
  - apply (elem_of_rr_order (mlfq_start s l)); [apply (sw_start s l Hwf)|by apply list_elem_of_In].
  - unfold ready_at in Hr. apply andb_prop in Hr as [Hr Hl]. by apply bool_decide_eq_true in Hr; apply Z.eqb_eq in Hl.
Qed.
Lemma level_pick_None s l i :
  sched_wf s -> level_pick s l = None -> p_state (pr s i) = RUNNABLE -> p_level (pr s i) <> l.
Proof.
  intros Hwf Hn Hst <-. assert (Hi : (i < Z.to_nat NPROC)%nat).
  { rewrite <- (sw_procs s Hwf). apply sw_index; [done|]. by rewrite Hst. }
  eapply find_none in Hn; [|apply list_elem_of_In, elem_of_rr_order; [apply (sw_start s _ Hwf)|exact Hi]].
  unfold ready_at in Hn. by rewrite bool_decide_true, Z.eqb_refl in Hn by done.
Qed.

Lemma mlfq_pick_Some s l i :
  sched_wf s -> mlfq_pick s = Some (l, i) ->
  0 <= l < MLFQ_LEVELS /\ level_pick s l = Some i /\
  (forall j, p_state (pr s j) = RUNNABLE -> l <= p_level (pr s j)).
Proof.
  intros Hwf (l1 & l' & l2 & Hl & Hp & Hnone)%head_omap_Some.
  destruct (level_pick s l') as [i'|] eqn:E; [|done]. cbn in Hp. injection Hp as -> ->.
  assert (Hin : l ∈ seqZ 0 MLFQ_LEVELS) by (rewrite Hl; apply elem_of_app; right; left).
  apply elem_of_seqZ in Hin. split; [lia|]. split; [done|]. intros j Hj.
  destruct (sw_level s j Hwf) as [Hlev _].
  assert (Hin2 : p_level (pr s j) ∈ seqZ 0 MLFQ_LEVELS) by (apply elem_of_seqZ; lia).
  rewrite Hl in Hin2. apply elem_of_app in Hin2 as [Hin2|Hin2].
  - rewrite Forall_forall in Hnone. specialize (Hnone _ Hin2). cbn in Hnone.
    destruct (level_pick s (p_level (pr s j))) eqn:E2; [done|]. by eapply level_pick_None in E2.
  - change (seqZ 0 MLFQ_LEVELS) with [0; 1; 2; 3] in Hl.
    destruct l1 as [|a [|b [|c [|d l1]]]]; cbn in Hl; simplify_eq; [..|by destruct l1];
      rewrite !elem_of_cons, elem_of_nil in Hin2; lia.
Qed.
Lemma mlfq_pick_None s i : sched_wf s -> mlfq_pick s = None -> p_state (pr s i) <> RUNNABLE.
Proof.
  intros Hwf Hn%head_omap_None Hst. destruct (sw_level s i Hwf) as [Hlev _].
  rewrite Forall_forall in Hn. specialize (Hn (p_level (pr s i)) ltac:(apply elem_of_seqZ; lia)). cbn in Hn.
  destruct (level_pick s (p_level (pr s i))) eqn:E; [done|]. by eapply level_pick_None in E.
Qed.

Lemma wf_dispatched s l i :
  sched_wf s -> k_cur s = None -> 0 <= l < MLFQ_LEVELS -> (i < Z.to_nat NPROC)%nat -> sched_wf (dispatched s l i).
Proof.
  intros Hwf Hcur Hl Hi. unfold dispatched.
  set (f := fun q : proc => _). assert (Ha : sched_wf (s <| k_proc := alter f i (k_proc s) |> <| k_cur := Some i |>)).
  { apply wf_alter; [done|done|]. intros j. rewrite pr_alter, (sw_procs s Hwf).
    case_decide as Hd; [destruct Hd as [-> _]; done|]. rewrite (sw_cur s Hwf j), Hcur. naive_solver. }
  destruct Ha as [H1 H2 H3 H4]. split; [exact H1| |exact H3|exact H4].
  cbn. rewrite length_insert. split; [apply Hwf|]. apply Forall_insert; [apply Hwf|]. change NPROC with 64 in *. lia.
Qed.

(** One tick of the running process. *)
Definition quantum (l : Z) : Z := default 0 (mlfq_quantum !! Z.to_nat l).
Definition ticked (q : proc) : proc :=
  q <| p_current_ticks := i32 (p_current_ticks q + 1) |>
    <| p_ticks := alter (fun t => i32 (t + 1)) (Z.to_nat (p_level q)) (p_ticks q) |>
    <| p_time_slice_expired :=
         if quantum (p_level q) <=? i32 (p_current_ticks q + 1) then 1 else p_time_slice_expired q |>.
Lemma alter_fuse {A} (f g : A -> A) i (l : list A) : alter g i (alter f i l) = alter (fun x => g (f x)) i l.
Proof.
  apply list_eq. intros j. destruct (decide (j = i)) as [->|Hne].
  - rewrite !list_lookup_alter_eq. by destruct (l !! i).
  - by rewrite !list_lookup_alter_ne.
Qed.
Lemma alter_pr s p f g : f (pr s p) = g (pr s p) -> alter f p (k_proc s) = alter g p (k_proc s).
Proof. intros E. apply list_alter_ext; [|done]. by intros q <-%pr_lookup. Qed.

Lemma ret_procs s (l l' : list proc) :
  l = l' -> Ret tt (s <| k_proc := l |>) = Ret tt (s <| k_proc := l' |>) :> outcome kstate unit.
Proof. by intros ->. Qed.
Lemma st_procs (s : kstate) (l l' : list proc) : l = l' -> s <| k_proc := l |> = s <| k_proc := l' |>.
Proof. by intros ->. Qed.
Lemma procs_procs (s : kstate) (l l' : list proc) : s <| k_proc := l |> <| k_proc := l' |> = s <| k_proc := l' |>.
Proof. done. Qed.

Lemma clock_account_eq s p :
  sched_wf s -> k_cur s = Some p ->
  clock_account s = Ret tt (s <| k_proc := alter ticked p (k_proc s) |>).
Proof.
  intros Hwf Hcur. unfold clock_account. run. rewrite Hcur.
  pose proof (proj2 (sw_cur s Hwf p) Hcur) as Hst. rewrite bool_decide_true by done.
  destruct (sw_level s p Hwf) as [Hl _].
  assert (Hp : (p < length (k_proc s))%nat) by (apply sw_index; [done|by rewrite Hst]).
  destruct (Z.ltb_spec (p_level (pr s p)) 0); [lia|]. destruct (Z.leb_spec MLFQ_LEVELS (p_level (pr s p))); [lia|].
  cbn [orb]. unfold set_pr. cbv beta iota delta [modify]. rewrite pr_alter, decide_True by done.
  set (q1 := (pr s p) <| p_current_ticks := _ |>).
  change (p_level q1) with (p_level (pr s p)). change (p_current_ticks q1) with (i32 (p_current_ticks (pr s p) + 1)).
  destruct (Z.leb_spec 0 (p_level (pr s p))); [|lia]. destruct (Z.ltb_spec (p_level (pr s p)) MLFQ_LEVELS); [|lia].
  cbn [andb]. change (default 0 _) with (quantum (p_level (pr s p))).
  destruct (quantum (p_level (pr s p)) <=? i32 (p_current_ticks (pr s p) + 1)) eqn:E; cbv beta iota; cbn;
    rewrite !alter_fuse, !procs_procs; apply ret_procs, alter_pr; unfold ticked; cbn; rewrite E; done.
Qed.

Lemma wf_same s s' :
  k_proc s' = k_proc s -> k_mlfq_head s' = k_mlfq_head s -> k_cur s' = k_cur s -> sched_wf s -> sched_wf s'.
Proof.
  intros Hp Hh Hc [H1 H2 H3 H4]. split; [by rewrite Hp|by rewrite Hh|by rewrite Hp|].
  intros i. rewrite Hc, <- H4. unfold pr. by rewrite Hp.
Qed.
Lemma ticked_ok q : proc_ok q -> proc_ok (ticked q).
Proof. intros [Hl Ht]. split; [done|]. cbn. by rewrite length_alter. Qed.
Lemma boosted_ok q : proc_ok q -> proc_ok (boosted q).
Proof. intros [Hl Ht]. unfold boosted. by destruct (_ || _). Qed.
Lemma boosted_state q : p_state (boosted q) = p_state q.
Proof. unfold boosted. by destruct (_ || _). Qed.
Lemma woken_ok cur ch i q : proc_ok q -> proc_ok (woken cur ch i q).
Proof. intros Hq. unfold woken. by case_decide. Qed.
Lemma woken_running cur ch i q : p_state (woken cur ch i q) = RUNNING <-> p_state q = RUNNING.
Proof. unfold woken. case_decide as Hd; [|done]. destruct Hd as (_ & -> & _). done. Qed.

(** The state after a timer interrupt. *)
Definition after_account (s : kstate) : kstate :=
  match k_cur s with Some p => s <| k_proc := alter ticked p (k_proc s) |> | None => s end.
Definition woken_all (ch : chan) (s : kstate) : kstate :=
  s <| k_proc := imap (woken (k_cur s) ch) (k_proc s) |>.
Definition boosted_all (s : kstate) : kstate := s <| k_proc := imap (fun _ => boosted) (k_proc s) |>.
Definition after_clock (s : kstate) : kstate :=
  if k_cpuid s =? 0 then
    let t := u32 (k_ticks s + 1) in
    let s1 := woken_all ChTicks ((after_account s) <| k_ticks := t |>) in
    if t `mod` BOOST_INTERVAL =? 0 then boosted_all s1 else s1
  else after_account s.

Lemma wf_after_account s : sched_wf s -> sched_wf (after_account s).
Proof.
  intros Hwf. unfold after_account. destruct (k_cur s) as [p|]; [|done].
  by apply wf_alter_same; [|apply ticked_ok|].
Qed.
Lemma wf_woken_all ch s : sched_wf s -> sched_wf (woken_all ch s).
Proof. intros Hwf. apply wf_imap; [done|intros; by apply woken_ok|intros; apply woken_running]. Qed.
Lemma wf_boosted_all s : sched_wf s -> sched_wf (boosted_all s).
Proof. intros Hwf. apply wf_imap; [done|intros; by apply boosted_ok|intros; by rewrite boosted_state]. Qed.
Lemma after_account_frame s : k_ticks (after_account s) = k_ticks s /\ k_cpuid (after_account s) = k_cpuid s.
Proof. unfold after_account. by destruct (k_cur s). Qed.

Lemma clockintr_eq s : sched_wf s -> clockintr s = Ret tt (after_clock s) /\ sched_wf (after_clock s).
Proof.
  intros Hwf. pose proof (wf_after_account s Hwf) as Hwf1. destruct (after_account_frame s) as [Ht Hc].
  assert (E1 : clock_account s = Ret tt (after_account s)).
  { unfold after_account. destruct (k_cur s) as [p|] eqn:E; [by apply clock_account_eq|].
    unfold clock_account. run. by rewrite E. }
  unfold clockintr. rewrite (bind_ret _ _ _ _ _ E1). clear E1.
  rewrite (bind_ret (gets _) _ _ (k_cpuid (after_account s)) _ eq_refl), Hc. unfold after_clock.
  destruct (k_cpuid s =? 0); [|done]. rewrite (bind_ret (modify _) _ _ tt _ eq_refl), Ht.
  set (s1 := (after_account s) <| k_ticks := u32 (k_ticks s + 1) |>).
  assert (Hwf2 : sched_wf s1) by (by apply (wf_same (after_account s))).
  rewrite (bind_ret (gets k_ticks) _ s1 (k_ticks s1) s1 eq_refl).
  rewrite (bind_ret _ _ _ _ _ (wakeup_eq s1 ChTicks (sw_procs _ Hwf2))).
  change (s1 <| k_proc := _ |>) with (woken_all ChTicks s1). pose proof (wf_woken_all ChTicks s1 Hwf2) as Hwf3.
  change (k_ticks s1) with (u32 (k_ticks s + 1)).
  destruct (u32 (k_ticks s + 1) `mod` BOOST_INTERVAL =? 0); [|done].
  split; [by apply mlfq_boost_eq, Hwf3|by apply wf_boosted_all].
Qed.

(** yield and sleep of the running process. *)
Definition demotes (q : proc) : bool :=
  (i32 (p_syscall_count q - p_slice_start_syscalls q) <?
     (if p_current_ticks q <? 0 then 0 else p_current_ticks q)) &&
  (p_level q <? MLFQ_LEVELS - 1).
Definition yielded (q : proc) : proc :=
  (if p_time_slice_expired q =? 0 then q
   else q <| p_level := if demotes q then p_level q + 1 else p_level q |>
          <| p_current_ticks := 0 |> <| p_time_slice_expired := 0 |>) <| p_state := RUNNABLE |>.

Lemma sched_asleep s p : k_cur s = Some p -> p_state (pr s p) <> RUNNING -> sched s = Asleep s.
Proof.
  intros Hcur Hst. unfold sched, myproc. run. rewrite Hcur. cbv beta iota. by rewrite bool_decide_false.
Qed.
Lemma yield_eq s p :
  sched_wf s -> k_cur s = Some p -> yield s = Asleep (s <| k_proc := alter yielded p (k_proc s) |>).
Proof.
  intros Hwf Hcur. assert (Hp : (p < length (k_proc s))%nat).
  { apply sw_index; [done|]. by rewrite (proj2 (sw_cur s Hwf p) Hcur). }
  assert (Hs : sched (s <| k_proc := alter yielded p (k_proc s) |>) = Asleep (s <| k_proc := alter yielded p (k_proc s) |>)).
  { apply (sched_asleep _ p); [done|]. by rewrite pr_alter, decide_True. }
  unfold yield. rewrite (bind_ret myproc _ s p s) by (unfold myproc; run; by rewrite Hcur).
  rewrite (bind_ret (gets _) _ s (pr s p) s eq_refl). rewrite <- Hs. unfold set_pr. run.
  destruct (p_time_slice_expired (pr s p) =? 0) eqn:E; cbn [negb].
  - apply (f_equal sched), st_procs, alter_pr. unfold yielded. by rewrite E.
  - change (_ && _) with (demotes (pr s p)). destruct (demotes (pr s p)) eqn:Ed; cbn;
      rewrite !alter_fuse, !procs_procs; apply (f_equal sched), st_procs, alter_pr; unfold yielded; rewrite E, Ed; done.
Qed.
Lemma sleep_eq s p ch :
  sched_wf s -> k_cur s = Some p ->
  sleep ch s = Asleep (s <| k_proc := alter (fun q => q <| p_chan := ch |> <| p_state := SLEEPING |>) p (k_proc s) |>).
Proof.
  intros Hwf Hcur. assert (Hp : (p < length (k_proc s))%nat).
  { apply sw_index; [done|]. by rewrite (proj2 (sw_cur s Hwf p) Hcur). }
  unfold sleep. rewrite (bind_ret myproc _ s p s) by (unfold myproc; run; by rewrite Hcur).
  rewrite (bind_ret (set_pr p _) _ s tt _ eq_refl). apply (sched_asleep _ p); [done|].
  by rewrite pr_alter, decide_True.
Qed.

(** The running process gives up the CPU in a state other than RUNNING. *)
Lemma wf_switch_out s p f :
  sched_wf s -> k_cur s = Some p -> (forall q, proc_ok q -> proc_ok (f q)) -> (forall q, p_state (f q) <> RUNNING) ->
  sched_wf (s <| k_proc := alter f p (k_proc s) |> <| k_cur := None |>).
Proof.
  intros Hwf Hcur Hok Hst. apply wf_alter; [done|done|]. intros j. rewrite pr_alter.
  case_decide as Hd; [by split; intros Hr; [destruct (Hst (pr s j))|]|].
  rewrite (sw_cur s Hwf j), Hcur. split; [|done].
  intros [= <-]. exfalso. apply Hd. split; [done|]. apply sw_index; [done|].
  by rewrite (proj2 (sw_cur s Hwf p) Hcur).
Qed.
Lemma yielded_ok q : proc_ok q -> proc_ok (yielded q).
Proof.
  intros [Hl Ht]. unfold yielded, demotes. destruct (p_time_slice_expired q =? 0); [done|]. split; [|done]. cbn.
  destruct (_ <? _); [|done]. cbn [andb]. destruct (Z.ltb_spec (p_level q) (MLFQ_LEVELS - 1)); lia.
Qed.

(** kkill acts on the first entry with the pid. *)
Definition killed_entry (q : proc) : proc :=
  q <| p_killed := 1 |> <| p_state := if decide (p_state q = SLEEPING) then RUNNABLE else p_state q |>.
Definition has_pid (s : kstate) (pid : Z) (i : nat) : bool := p_pid (pr s i) =? pid.
Lemma kkill_eq s pid :
  kkill pid s =
  match find (has_pid s pid) (seq 0 (Z.to_nat NPROC)) with
  | Some i => Ret 0 (s <| k_proc := alter killed_entry i (k_proc s) |>)
  | None => Ret (-1) s
  end.
Proof.
  unfold kkill. generalize (Z.to_nat NPROC) 0%nat. intros n. induction n as [|n IH]; intros i; [done|].
  cbn [kkill_loop seq find]. run. fold (has_pid s pid i). destruct (has_pid s pid i); [|apply IH].
  unfold set_pr. run. destruct (bool_decide (p_state (pr s i) = SLEEPING)) eqn:E; cbn.
  - rewrite alter_fuse, procs_procs. f_equal. apply st_procs, alter_pr. unfold killed_entry.
    apply bool_decide_eq_true in E. by rewrite decide_True.
  - f_equal. apply st_procs, alter_pr. unfold killed_entry. apply bool_decide_eq_false in E.
    rewrite decide_False by done. by destruct (pr s i).
Qed.

(** ** A time slice: ticks and system calls of the running process *)
Inductive slice_event := Tick | Syscall.
Fixpoint run_slice (es : list slice_event) : K unit :=
  match es with
  | [] => mret tt
  | Tick :: es' => clockintr;; run_slice es'
  | Syscall :: es' => count_syscall;; run_slice es'
  end.
Fixpoint ticks_of (es : list slice_event) : Z :=
  match es with [] => 0 | Tick :: es' => 1 + ticks_of es' | Syscall :: es' => ticks_of es' end.
Fixpoint syscalls_of (es : list slice_event) : Z :=
  match es with [] => 0 | Tick :: es' => syscalls_of es' | Syscall :: es' => 1 + syscalls_of es' end.

(** No boost falls into the next [n] ticks. *)
Definition no_boost (s : kstate) (n : Z) : Prop :=
  k_cpuid s <> 0 \/ forall k, 0 < k <= n -> (k_ticks s + k) `mod` BOOST_INTERVAL <> 0.

Lemma u32_boost x : u32 x `mod` BOOST_INTERVAL = x `mod` BOOST_INTERVAL.
Proof.
  unfold u32, BOOST_INTERVAL. pose proof (Z.div_mod x (2 ^ 32) ltac:(done)) as E.
  rewrite E at 2. change (2 ^ 32) with (33554432 * 128). rewrite (Z.mul_comm (33554432 * 128)), Z.mul_assoc.
  by rewrite Z.add_comm, Z.mod_add.
Qed.

Lemma after_clock_running s p :
  sched_wf s -> k_cur s = Some p -> no_boost s 1 ->
  pr (after_clock s) p = ticked (pr s p) /\ k_cur (after_clock s) = Some p /\
  k_cpuid (after_clock s) = k_cpuid s /\ (k_cpuid s = 0 -> k_ticks (after_clock s) = u32 (k_ticks s + 1)).
Proof.
  intros Hwf Hcur Hnb. pose proof (proj2 (sw_cur s Hwf p) Hcur) as Hst.
  assert (Hp : (p < length (k_proc s))%nat) by (apply sw_index; [done|by rewrite Hst]).
  assert (Ht : pr (s <| k_proc := alter ticked p (k_proc s) |>) p = ticked (pr s p)) by (by rewrite pr_alter, decide_True).
  unfold after_clock, after_account. rewrite Hcur. destruct (Z.eqb_spec (k_cpuid s) 0) as [Hc|]; [|done].
  rewrite u32_boost. destruct (Z.eqb_spec ((k_ticks s + 1) `mod` BOOST_INTERVAL) 0) as [Hb|].
  { exfalso. destruct Hnb as [|Hnb]; [done|]. by apply (Hnb 1). }
  split_and!; [|done..]. unfold woken_all. rewrite pr_imap by (cbn; by rewrite length_alter).
  unfold woken. rewrite decide_False; [exact Ht|]. intros (Hne & _). by apply Hne.
Qed.

(** The expiry flag says that the quantum is used up. *)
Definition slice_ok (q : proc) : Prop :=
  p_time_slice_expired q = if quantum (p_level q) <=? p_current_ticks q then 1 else 0.
Definition slice_of (q q' : proc) (t c : Z) : Prop :=
  p_level q' = p_level q /\ p_slice_start_syscalls q' = p_slice_start_syscalls q /\ p_state q' = p_state q /\
  p_current_ticks q' = p_current_ticks q + t /\ p_syscall_count q' = p_syscall_count q + c /\ slice_ok q'.

Lemma ticked_slice q : slice_ok q -> 0 <= p_current_ticks q < 2 ^ 31 - 1 -> slice_of q (ticked q) 1 0.
Proof.
  intros Hok Hr. unfold slice_of, slice_ok, ticked. cbn.
  rewrite (i32_small (p_current_ticks q + 1)), Z.add_0_r by lia. split_and!; try done.
  unfold slice_ok in Hok. rewrite Hok. destruct (Z.leb_spec (quantum (p_level q)) (p_current_ticks q + 1)); [done|].
  destruct (Z.leb_spec (quantum (p_level q)) (p_current_ticks q)); [lia|done].
Qed.
Lemma slice_of_trans q1 q2 q3 t t' c c' : slice_of q1 q2 t c -> slice_of q2 q3 t' c' -> slice_of q1 q3 (t + t') (c + c').
Proof. unfold slice_of. intros (-> & -> & -> & -> & -> & _) (-> & -> & -> & -> & -> & ?). split_and!; [done..|lia|lia|done]. Qed.

Lemma no_boost_sub s s' n :
  no_boost s (1 + n) -> k_cpuid s' = k_cpuid s -> (k_cpuid s = 0 -> k_ticks s' = u32 (k_ticks s + 1)) -> no_boost s' n.
Proof.
  intros Hnb Hc Ht. destruct (Z.eq_dec (k_cpuid s) 0) as [E|]; [|left; by rewrite Hc].
  destruct Hnb as [|Hnb]; [done|]. right. intros k Hk. rewrite Ht by done.
  rewrite <- u32_boost. unfold u32. rewrite Zplus_mod_idemp_l. fold (u32 (k_ticks s + 1 + k)). rewrite u32_boost.
  rewrite <- Z.add_assoc. apply Hnb. lia.
Qed.

Lemma ticks_of_nonneg es : 0 <= ticks_of es /\ 0 <= syscalls_of es.
Proof. induction es as [|[] es IH]; cbn; lia. Qed.

Lemma run_slice_spec es s p :
  sched_wf s -> k_cur s = Some p -> slice_ok (pr s p) -> no_boost s (ticks_of es) ->
  0 <= p_current_ticks (pr s p) -> p_current_ticks (pr s p) + ticks_of es < 2 ^ 31 ->
  0 <= p_syscall_count (pr s p) -> p_syscall_count (pr s p) + syscalls_of es < 2 ^ 31 ->
  exists s', run_slice es s = Ret tt s' /\ sched_wf s' /\ k_cur s' = Some p /\
    slice_of (pr s p) (pr s' p) (ticks_of es) (syscalls_of es).
Proof.
  revert s. induction es as [|[] es IH]; intros s Hwf Hcur Hok Hnb Ht0 Ht Hc0 Hc; cbn in *.
  - exists s. unfold slice_of. rewrite !Z.add_0_r. done.
  - pose proof (ticks_of_nonneg es). destruct (clockintr_eq s Hwf) as [E Hwf1]. rewrite (bind_ret _ _ _ _ _ E).
    destruct (after_clock_running s p Hwf Hcur) as (Hpr & Hcur1 & Hid & Htk).
    { destruct Hnb as [?|Hnb]; [by left|right]. intros k Hk. apply Hnb. lia. }
    pose proof (ticked_slice _ Hok ltac:(lia)) as Hsl. rewrite <- Hpr in Hsl.
    pose proof Hsl as (_ & _ & _ & Hct & Hsc & Hok1).
    destruct (IH (after_clock s)) as (s' & E' & Hwf' & Hcur' & Hsl'); try done; try lia.
    { by apply (no_boost_sub s). }
    exists s'. split_and!; try done. by apply (slice_of_trans _ _ _ 1 _ 0 _ Hsl).
  - pose proof (ticks_of_nonneg es). set (f := fun q : proc => q <| p_syscall_count := i32 (p_syscall_count q + 1) |>).
    set (s1 := s <| k_proc := alter f p (k_proc s) |>).
    rewrite (bind_ret count_syscall _ s tt s1) by (unfold count_syscall, myproc; run; by rewrite Hcur).
    assert (Hp : (p < length (k_proc s))%nat).
    { apply sw_index; [done|]. by rewrite (proj2 (sw_cur s Hwf p) Hcur). }
    assert (Hpr : pr s1 p = f (pr s p)) by (unfold s1; by rewrite pr_alter, decide_True).
    assert (Hsl : slice_of (pr s p) (pr s1 p) 0 1).
    { rewrite Hpr. unfold slice_of, f. cbn. rewrite i32_small by lia. by rewrite Z.add_0_r. }
    pose proof Hsl as (_ & _ & _ & Hct & Hsc & Hok1).
    destruct (IH s1) as (s' & E' & Hwf' & Hcur' & Hsl'); try done; try lia.
    { by apply wf_alter_same. }
    exists s'. split_and!; try done. by apply (slice_of_trans _ _ _ 0 _ 1 _ Hsl).
Qed.

(** Ticks on CPU 0, and the boost. *)
Lemma after_clock_ticks s : k_cpuid s = 0 -> k_cpuid (after_clock s) = 0 /\ k_ticks (after_clock s) = u32 (k_ticks s + 1).
Proof.
  intros Hc. destruct (after_account_frame s) as [_ Hc']. unfold after_clock. rewrite Hc. cbn [Z.eqb].
  by destruct (_ =? 0); cbn; rewrite Hc', Hc.
Qed.
Lemma clock_run n s :
  sched_wf s -> k_cpuid s = 0 -> 0 <= k_ticks s < 2 ^ 32 ->
  exists s', run_slice (replicate n Tick) s = Ret tt s' /\ sched_wf s' /\ k_cpuid s' = 0 /\
    k_ticks s' = u32 (k_ticks s + Z.of_nat n).
Proof.
  revert s. induction n as [|n IH]; intros s Hwf Hc Ht; cbn [replicate run_slice].
  - exists s. rewrite Z.add_0_r, u32_small by done. done.
  - destruct (clockintr_eq s Hwf) as [E Hwf1]. rewrite (bind_ret _ _ _ _ _ E).
    destruct (after_clock_ticks s Hc) as [Hc1 Ht1].
    destruct (IH (after_clock s) Hwf1 Hc1) as (s' & E' & Hwf' & Hc' & Ht'); [rewrite Ht1; apply u32_range|].
    exists s'. split_and!; try done. rewrite Ht', Ht1. unfold u32. rewrite Zplus_mod_idemp_l. f_equal. lia.
Qed.
Lemma run_slice_app es es' s : run_slice (es ++ es') s = (run_slice es;; run_slice es') s.
Proof.
  revert s. induction es as [|[] es IH]; intros s; cbn [app run_slice]; [done|..]; unfold mbind, M_bind;
    [destruct (clockintr s)|destruct (count_syscall s)]; try done; apply IH.
Qed.
Lemma after_clock_boost s i :
  sched_wf s -> k_cpuid s = 0 -> (k_ticks s + 1) `mod` BOOST_INTERVAL = 0 ->
  p_state (pr (after_clock s) i) <> UNUSED -> p_state (pr (after_clock s) i) <> ZOMBIE ->
  p_level (pr (after_clock s) i) = 0 /\ p_current_ticks (pr (after_clock s) i) = 0 /\
  p_time_slice_expired (pr (after_clock s) i) = 0.
Proof.
  intros Hwf Hc Hb. destruct (clockintr_eq s Hwf) as [_ Hwf']. intros Hu.
  pose proof (sw_index _ i Hwf' Hu) as Hi. revert Hu Hi. unfold after_clock. rewrite Hc, u32_boost, Hb. cbn [Z.eqb].
  set (s1 := woken_all _ _). intros Hu Hi Hz. unfold boosted_all in *.
  rewrite pr_imap in * by (cbn in Hi; by rewrite length_imap in Hi).
  rewrite boosted_state in Hu, Hz. unfold boosted. by rewrite !bool_decide_false.
Qed.
