(* ===== verification/SchedProps.v ===== *)
(** * kernel/proc.c and kernel/trap.c: the properties of the scheduler *)

From S2P Require Import Prelude Memory FsState State Sched SchedSpec.

(** ** An example: two processes at level 0, the first running *)
Definition ex_procs : kstate :=
  kstate0 <| k_proc := [proc0 <| p_state := RUNNING |> <| p_pid := 1 |>; proc0 <| p_state := RUNNABLE |> <| p_pid := 2 |>]
               ++ replicate 62 proc0 |>
    <| k_cur := Some 0%nat |> <| k_nextpid := 3 |>.
Lemma ex_procs_wf : sched_wf ex_procs.
Proof.
  split; [done|split; [done|repeat constructor; done]| |].
  - by apply Forall_cons_2, Forall_cons_2, Forall_replicate.
  - intros [|[|i]]; [by vm_compute..|]. assert (E : pr ex_procs (S (S i)) = proc0).
    { unfold pr, procs_at. change (k_proc ex_procs !! S (S i)) with (replicate 62 proc0 !! i).
      destruct (replicate 62 proc0 !! i) as [q|] eqn:E; [by apply lookup_replicate in E as [-> _]|done]. }
    by rewrite E.
Qed.

(** ** The scheduler's choice *)

(** C4. One turn of the scheduler.  Either some process is RUNNABLE, and the one
    that is switched to is RUNNABLE on the highest level that has a RUNNABLE
    process (none has a smaller level number), the first of its level in
    circular order from the level's head; it starts a new slice as the CPU's
    process.  Or no process is RUNNABLE and nothing changes. *)
Theorem scheduler_picks (s : kstate) (Hwf : sched_wf s) :
  (exists l i, scheduler_round s = Ret true (dispatched s l i) /\
     p_state (pr s i) = RUNNABLE /\ p_level (pr s i) = l /\
     (forall j, p_state (pr s j) = RUNNABLE -> l <= p_level (pr s j)) /\
     find (ready_at s l) (rr_order (mlfq_start s l)) = Some i) \/
  (scheduler_round s = Ret false s /\ forall j, p_state (pr s j) <> RUNNABLE).
Proof.
  rewrite scheduler_round_eq by (intros l; apply (sw_start s l Hwf)).
  destruct (mlfq_pick s) as [[l i]|] eqn:E.
  - left. destruct (mlfq_pick_Some s l i Hwf E) as (_ & Hp & Hmin).
    destruct (level_pick_Some s l i Hwf Hp) as (_ & Hst & Hl). by exists l, i.
  - right. split; [done|]. intros j. by apply mlfq_pick_None.
Qed.
Definition ex_idle : kstate := ex_procs <| k_proc := alter (fun q => q <| p_state := RUNNABLE |>) 0%nat (k_proc ex_procs) |> <| k_cur := None |>.
Lemma ex_idle_wf : sched_wf ex_idle.
Proof. by apply wf_switch_out; [apply ex_procs_wf|..]. Qed.
Lemma scheduler_picks_witness :
  (exists l i, scheduler_round ex_idle = Ret true (dispatched ex_idle l i) /\
     p_state (pr ex_idle i) = RUNNABLE /\ p_level (pr ex_idle i) = l /\
     (forall j, p_state (pr ex_idle j) = RUNNABLE -> l <= p_level (pr ex_idle j)) /\
     find (ready_at ex_idle l) (rr_order (mlfq_start ex_idle l)) = Some i) \/
  (scheduler_round ex_idle = Ret false ex_idle /\ forall j, p_state (pr ex_idle j) <> RUNNABLE).
Proof. apply (scheduler_picks ex_idle ex_idle_wf). Defined.

(** ** The invariant *)


(** ** Time slices *)

(** C24. A slice of the running process on level [l], with [t] timer ticks and
    [c] system calls in any order, no boost among the ticks: the slice is
    marked expired exactly when [t] has reached the level's quantum (2, 4, 8,
    16), and the yield that follows moves the process one level down exactly
    when it made fewer system calls than it used ticks and is not on the last
    level; it is RUNNABLE again either way. *)
Theorem time_slice (s : kstate) (p : nat) (es : list slice_event) (l t c : Z)
  (Hwf : sched_wf s) (Hcur : k_cur s = Some p) (Hl : p_level (pr s p) = l)
  (Hct : p_current_ticks (pr s p) = 0) (Hex : p_time_slice_expired (pr s p) = 0)
  (Hst : p_slice_start_syscalls (pr s p) = p_syscall_count (pr s p))
  (Ht : ticks_of es = t) (Hc : syscalls_of es = c)
  (Hnb : no_boost s t) (Htr : t < 2 ^ 31) (Hc0 : 0 <= p_syscall_count (pr s p))
  (Hcr : p_syscall_count (pr s p) + c < 2 ^ 31) :
  exists s', run_slice es s = Ret tt s' /\
    p_time_slice_expired (pr s' p) = (if quantum l <=? t then 1 else 0) /\
    (quantum l <= t -> exists s'', yield s' = Asleep s'' /\ p_state (pr s'' p) = RUNNABLE /\
       p_level (pr s'' p) = if (c <? t) && (l <? MLFQ_LEVELS - 1) then l + 1 else l).
Proof.
  subst l t c. pose proof (ticks_of_nonneg es). destruct (sw_level s p Hwf) as [Hlev _].
  assert (Hq : 0 < quantum (p_level (pr s p))).
  { change MLFQ_LEVELS with 4 in Hlev. assert (Hcs : p_level (pr s p) ∈ [0; 1; 2; 3]) by (rewrite !elem_of_cons; lia).
    rewrite !elem_of_cons, elem_of_nil in Hcs. by destruct Hcs as [->|[->|[->|[->|[]]]]]. }
  destruct (run_slice_spec es s p Hwf Hcur) as (s' & E & Hwf' & Hcur' & (Hl' & Hs' & _ & Ht' & Hc' & Hok')); try done; try lia.
  { unfold slice_ok. rewrite Hct, Hex. destruct (Z.leb_spec (quantum (p_level (pr s p))) 0); [lia|done]. }
  unfold slice_ok in Hok'. rewrite Hl', Ht', Hct, Z.add_0_l in Hok'.
  exists s'. split; [done|]. split; [done|]. intros Hover.
  eexists. split; [by apply yield_eq|]. assert (Hp : (p < length (k_proc s'))%nat).
  { apply sw_index; [done|]. by rewrite (proj2 (sw_cur s' Hwf' p) Hcur'). }
  rewrite pr_alter, decide_True by done. unfold yielded.
  destruct (Z.leb_spec (quantum (p_level (pr s p))) (ticks_of es)); [|lia]. rewrite Hok'. cbn. split; [done|].
  unfold demotes. rewrite Hl', Hs', Hst, Hc', Ht', Hct, Z.add_0_l.
  replace (_ + syscalls_of es - _) with (syscalls_of es) by lia. rewrite i32_small by lia.
  by destruct (Z.ltb_spec (ticks_of es) 0); [lia|].
Qed.
Lemma time_slice_witness :
  exists s', run_slice [Tick; Syscall; Tick] ex_procs = Ret tt s' /\ p_time_slice_expired (pr s' 0%nat) = 1 /\
    (2 <= 2 -> exists s'', yield s' = Asleep s'' /\ p_state (pr s'' 0%nat) = RUNNABLE /\ p_level (pr s'' 0%nat) = 1).
Proof.
  apply (time_slice ex_procs 0 [Tick; Syscall; Tick] 0 2 1 ex_procs_wf); concrete.
  right. intros k Hk. assert (Hc : k = 1 \/ k = 2) by lia. destruct Hc as [->| ->]; vm_compute; congruence.
Defined.

(** C25. The priority boost comes in time: on CPU 0, within any 128 timer
    interrupts there is one after which every process that is neither UNUSED
    nor ZOMBIE is on level 0 with a fresh slice. *)
Theorem boost_in_time (s : kstate) (Hwf : sched_wf s) (Hid : k_cpuid s = 0) (Ht : 0 <= k_ticks s < 2 ^ 32) :
  exists n s', (0 < n <= 128)%nat /\ run_slice (replicate n Tick) s = Ret tt s' /\
    forall i, p_state (pr s' i) <> UNUSED -> p_state (pr s' i) <> ZOMBIE ->
      p_level (pr s' i) = 0 /\ p_current_ticks (pr s' i) = 0 /\ p_time_slice_expired (pr s' i) = 0.
Proof.
  set (k := Z.to_nat (127 - k_ticks s `mod` 128)).
  destruct (clock_run k s Hwf Hid Ht) as (s1 & E1 & Hwf1 & Hid1 & Ht1).
  destruct (clockintr_eq s1 Hwf1) as [E2 _].
  exists (k + 1)%nat, (after_clock s1). split; [unfold k; div_lia|]. split.
  - rewrite replicate_add, run_slice_app, (bind_ret _ _ _ _ _ E1). cbn [replicate run_slice].
    by rewrite (bind_ret _ _ _ _ _ E2).
  - intros i. apply after_clock_boost; [done|done|]. rewrite Ht1, <- u32_boost. unfold u32.
    rewrite Zplus_mod_idemp_l. fold (u32 (k_ticks s + Z.of_nat k + 1)). rewrite u32_boost.
    unfold BOOST_INTERVAL, k. div_lia.
Qed.
Lemma boost_in_time_witness :
  exists n s', (0 < n <= 128)%nat /\ run_slice (replicate n Tick) ex_procs = Ret tt s' /\
    forall i, p_state (pr s' i) <> UNUSED -> p_state (pr s' i) <> ZOMBIE ->
      p_level (pr s' i) = 0 /\ p_current_ticks (pr s' i) = 0 /\ p_time_slice_expired (pr s' i) = 0.
Proof. apply (boost_in_time ex_procs ex_procs_wf); concrete. Defined.

(** Inside a level there is no round robin: the scheduler leaves the level's
    head at the process it has picked.  When that process yields and stays on
    its level (its slice has not expired, or it is on the last level, or it
    made enough system calls) and no higher level has a RUNNABLE process, the
    next turn of the scheduler picks it again, whatever other processes are
    RUNNABLE on the level, and the head is where it was. *)
Theorem yield_repicks (s : kstate) (l : Z) (p : nat)
  (Hwf : sched_wf s) (Hcur : k_cur s = Some p) (Hhead : mlfq_start s l = Z.of_nat p)
  (Hlev : p_level (pr s p) = l) (Hstay : p_level (yielded (pr s p)) = l)
  (Hmin : forall j, p_state (pr s j) = RUNNABLE -> l <= p_level (pr s j)) :
  exists s1 s2, yield s = Asleep s1 /\ scheduler_return s1 = Ret tt s2 /\
    scheduler_round s2 = Ret true (dispatched s2 l p) /\ mlfq_start (dispatched s2 l p) l = Z.of_nat p.
Proof.
  set (s2 := s <| k_proc := alter yielded p (k_proc s) |> <| k_cur := None |>).
  assert (Hwf2 : sched_wf s2).
  { apply wf_switch_out; [done|done|apply yielded_ok|]. intros q. unfold yielded. by destruct (_ =? _). }
  assert (Hp : (p < length (k_proc s))%nat).
  { apply sw_index; [done|]. by rewrite (proj2 (sw_cur s Hwf p) Hcur). }
  assert (Hpr : forall j, pr s2 j = if decide (j = p) then yielded (pr s p) else pr s j).
  { intros j. change (pr s2 j) with (pr (s <| k_proc := alter yielded p (k_proc s) |>) j). rewrite pr_alter.
    do 2 case_decide; naive_solver. }
  assert (Hready : ready_at s2 l p = true).
  { unfold ready_at. rewrite Hpr, decide_True, Hstay, Z.eqb_refl by done. unfold yielded. by destruct (_ =? _). }
  eexists _, s2. split; [by apply yield_eq|]. split; [done|]. rewrite scheduler_round_eq by (intros x; apply (sw_start s2 x Hwf2)).
  pose proof (sw_procs s Hwf) as Hlen. change (Z.to_nat NPROC) with 64%nat in Hlen.
  destruct (mlfq_pick s2) as [[l' i]|] eqn:E.
  2:{ exfalso. apply (mlfq_pick_None s2 p Hwf2 E). by apply andb_prop in Hready as [Hr%bool_decide_eq_true _]. }
  destruct (mlfq_pick_Some s2 l' i Hwf2 E) as (Hl' & Hpick & Hmin').
  destruct (level_pick_Some s2 l' i Hwf2 Hpick) as (_ & Hst & Hli).
  assert (l' = l) as ->.
  { apply Z.le_antisymm.
    - apply andb_prop in Hready as [Hr%bool_decide_eq_true Hq%Z.eqb_eq]. rewrite <- Hq. by apply Hmin'.
    - rewrite <- Hli. rewrite Hpr in *. case_decide; [by rewrite Hstay|by apply Hmin]. }
  assert (Hf : level_pick s2 l = Some p).
  { unfold level_pick. change (mlfq_start s2 l) with (mlfq_start s l). rewrite Hhead. unfold rr_order.
    rewrite (seqZ_cons 0) by done. cbn [fmap list_fmap find]. rewrite Z.add_0_r, Z.rem_small, Nat2Z.id by (change NPROC with 64; lia).
    by rewrite Hready. }
  rewrite Hf in Hpick. injection Hpick as <-. split; [done|].
  unfold mlfq_start. cbn. rewrite list_lookup_insert_eq; [done|].
  rewrite (proj1 (sw_heads s Hwf)). change (Z.to_nat MLFQ_LEVELS) with 4%nat. change MLFQ_LEVELS with 4 in Hl'. lia.
Qed.
Lemma yield_repicks_witness :
  exists s1 s2, yield ex_procs = Asleep s1 /\ scheduler_return s1 = Ret tt s2 /\
    scheduler_round s2 = Ret true (dispatched s2 0 0) /\ mlfq_start (dispatched s2 0 0) 0 = Z.of_nat 0.
Proof.
  apply (yield_repicks ex_procs 0 0 ex_procs_wf); concrete.
  intros j _. apply (sw_level ex_procs j ex_procs_wf).
Defined.

(** ** Killing *)

(** kill works on the first table entry with the given pid: it sets killed,
    makes the process RUNNABLE if it was asleep, and returns 0; with no such
    entry it returns -1 and changes nothing.  Free entries have pid 0, so
    kill(0) reports success and marks the first free entry as killed. *)
Theorem kkill_first (s : kstate) (pid : Z) :
  (forall i, (i < Z.to_nat NPROC)%nat -> p_pid (pr s i) = pid ->
     (forall j, (j < i)%nat -> p_pid (pr s j) <> pid) ->
     kkill pid s = Ret 0 (s <| k_proc := alter killed_entry i (k_proc s) |>)) /\
  ((forall i, (i < Z.to_nat NPROC)%nat -> p_pid (pr s i) <> pid) -> kkill pid s = Ret (-1) s).
Proof.
  rewrite kkill_eq. split.
  - intros i Hi Hp Hj. replace (find _ _) with (Some i); [done|]. symmetry.
    replace (seq 0 (Z.to_nat NPROC)) with (seq 0 i ++ i :: seq (S i) (Z.to_nat NPROC - S i)).
    2:{ replace (Z.to_nat NPROC) with (i + S (Z.to_nat NPROC - S i))%nat at 2 by lia. by rewrite seq_app. }
    assert (Hn : forall n k, (k + n <= i)%nat -> forall r, find (has_pid s pid) (seq k n ++ r) = find (has_pid s pid) r).
    { intros n. induction n as [|n IH]; intros k Hk r; [done|]. cbn [seq app find]. unfold has_pid at 1.
      destruct (Z.eqb_spec (p_pid (pr s k)) pid) as [E|_]; [by destruct (Hj k); [lia|]|]. apply IH. lia. }
    rewrite Hn by lia. cbn. unfold has_pid. by rewrite Hp, Z.eqb_refl.
  - intros Hno. destruct (find _ _) as [i|] eqn:E; [|done]. apply find_some in E as [Hin Hp].
    apply in_seq in Hin. unfold has_pid in Hp. apply Z.eqb_eq in Hp. destruct (Hno i); [lia|done].
Qed.
