(* ===== verification/Printf.v ===== *)
(** * kernel/printf.c: formatted output

    [printf] appends the bytes it sends to the serial line to [fs_out]; the
    lock around it is elided.  A variable argument is an integer or a string. *)

From S2P Require Import Prelude Memory FsState State.
From Stdlib Require Import Ascii.

(** uartputc_sync: one byte on the serial line *)
Definition uartputc_sync (c : Z) : K unit :=
  modify (fun s => s <| k_fs := (k_fs s) <| fs_out := fs_out (k_fs s) ++ [u8 c] |> |>).

(** consputc (console.c) *)
Definition BACKSPACE : Z := 0x100.
Definition consputc (c : Z) : K unit :=
  if c =? BACKSPACE then uartputc_sync 8;; uartputc_sync 32;; uartputc_sync 8
  else uartputc_sync c.
Fixpoint consputs (l : list Z) : K unit :=
  match l with [] => mret tt | c :: l' => consputc c;; consputs l' end.

(** String literals as bytes. *)
Fixpoint bytes_of (s : string) : list Z :=
  match s with
  | EmptyString => []
  | String c s' => Z.of_N (N_of_ascii c) :: bytes_of s'
  end.
Definition chr (c : ascii) : Z := Z.of_N (N_of_ascii c).

Definition digits : list Z := bytes_of "0123456789abcdef".
Definition digit (d : Z) : Z := default 0 (digits !! Z.to_nat d).

(** printint: the do-while loop fills [buf], lowest digit first; 64 steps are
    enough for a 64-bit number in any base from 2 on *)
Fixpoint printint_loop (fuel : nat) (x base : Z) : list Z :=
  match fuel with
  | O => []
  | S fuel' => digit (x `mod` base) :: (if x / base =? 0 then [] else printint_loop fuel' (x / base) base)
  end.
Definition printint_bytes (xx base : Z) (sign : bool) : list Z :=
  let neg := sign && (xx <? 0) in
  let x := if neg then u64 (- xx) else u64 xx in
  let buf := printint_loop 64 x base in
  rev (if neg then buf ++ [chr "-"] else buf).
Definition printint (xx base : Z) (sign : bool) : K unit := consputs (printint_bytes xx base sign).

(** printptr *)
Fixpoint printptr_loop (n : nat) (x : Z) : list Z :=
  match n with
  | O => []
  | S n' => digit (Z.shiftr x 60) :: printptr_loop n' (u64 (Z.shiftl x 4))
  end.
Definition printptr (x : Z) : K unit := consputs (chr "0" :: chr "x" :: printptr_loop 16 x).

(** printf *)
Inductive va_arg := VInt (z : Z) | VStr (s : option (list Z)).
Definition va_int (ap : list va_arg) : Z := match ap with VInt z :: _ => z | _ => 0 end.
Definition va_str (ap : list va_arg) : list Z :=
  match ap with VStr (Some l) :: _ => l | _ => bytes_of "(null)" end.
Fixpoint printf_loop (fmt : list Z) (ap : list va_arg) : K unit :=
  match fmt with
  | [] => mret tt
  | cx :: rest =>
      if negb (cx =? chr "%") then consputc cx;; printf_loop rest ap
      else
        match rest with
        | [] => mret tt
        | c0 :: r0 =>
            if c0 =? chr "d" then printint (i32 (va_int ap)) 10 true;; printf_loop r0 (tail ap)
            else if c0 =? chr "u" then printint (u32 (va_int ap)) 10 false;; printf_loop r0 (tail ap)
            else if c0 =? chr "x" then printint (u32 (va_int ap)) 16 false;; printf_loop r0 (tail ap)
            else if c0 =? chr "p" then printptr (u64 (va_int ap));; printf_loop r0 (tail ap)
            else if c0 =? chr "c" then consputc (u32 (va_int ap));; printf_loop r0 (tail ap)
            else if c0 =? chr "s" then consputs (va_str ap);; printf_loop r0 (tail ap)
            else if c0 =? chr "%" then consputc (chr "%");; printf_loop r0 ap
            else
              match r0 with
              | c1 :: r1 =>
                  if (c0 =? chr "l") && (c1 =? chr "d") then printint (i64 (va_int ap)) 10 true;; printf_loop r1 (tail ap)
                  else if (c0 =? chr "l") && (c1 =? chr "u") then printint (u64 (va_int ap)) 10 false;; printf_loop r1 (tail ap)
                  else if (c0 =? chr "l") && (c1 =? chr "x") then printint (u64 (va_int ap)) 16 false;; printf_loop r1 (tail ap)
                  else
                    match r1 with
                    | c2 :: r2 =>
                        if (c0 =? chr "l") && (c1 =? chr "l") && (c2 =? chr "d")
                        then printint (i64 (va_int ap)) 10 true;; printf_loop r2 (tail ap)
                        else if (c0 =? chr "l") && (c1 =? chr "l") && (c2 =? chr "u")
                        then printint (u64 (va_int ap)) 10 false;; printf_loop r2 (tail ap)
                        else if (c0 =? chr "l") && (c1 =? chr "l") && (c2 =? chr "x")
                        then printint (u64 (va_int ap)) 16 false;; printf_loop r2 (tail ap)
                        else consputc (chr "%");; consputc c0;; printf_loop r0 ap
                    | [] => consputc (chr "%");; consputc c0;; printf_loop r0 ap
                    end
              | [] => consputc (chr "%");; consputc c0;; printf_loop r0 ap
              end
        end
  end.
Definition printf (fmt : string) (ap : list va_arg) : K unit := printf_loop (bytes_of fmt) ap.

(** printf only appends to the output. *)
Definition with_out (s : kstate) (o : list Z) : kstate := s <| k_fs := (k_fs s) <| fs_out := o |> |>.
Definition outputs (m : K unit) : Prop := forall s, exists o, m s = Ret tt (with_out s o).
Lemma outputs_ret : outputs (mret tt).
Proof. intros s. exists (fs_out (k_fs s)). by destruct s as [? ? ? ? ? ? ? ? ? ? ? ? ? ? ? ? ? ? ? ? ? ? ? ? []]. Qed.
Lemma outputs_bind m (f : unit -> K unit) : outputs m -> outputs (f tt) -> outputs (m ≫= f).
Proof.
  intros Hm Hf s. destruct (Hm s) as [o E]. rewrite (bind_ret _ _ _ _ _ E).
  destruct (Hf (with_out s o)) as [o' E']. rewrite E'. by exists o'.
Qed.
Lemma outputs_consputc c : outputs (consputc c).
Proof.
  assert (Hu : forall c, outputs (uartputc_sync c)) by (intros c' s; by eexists).
  unfold consputc. destruct (c =? BACKSPACE); [|apply Hu]. repeat (apply outputs_bind; [apply Hu|]). apply Hu.
Qed.
Lemma outputs_consputs l : outputs (consputs l).
Proof. induction l as [|c l IH]; [apply outputs_ret|]. apply outputs_bind; [apply outputs_consputc|apply IH]. Qed.
Lemma outputs_printf fmt ap : outputs (printf fmt ap).
Proof.
  unfold printf. generalize (bytes_of fmt) ap. clear. intros l. remember (length l) as n eqn:Hn. revert l Hn.
  induction (lt_wf n) as [n _ IH]. intros [|cx rest] -> ap; [apply outputs_ret|]. cbn [printf_loop].
  assert (Hrec : forall r ap, (length r <= length rest)%nat -> outputs (printf_loop r ap)).
  { intros r ap' Hr. eapply (IH (length r)); [cbn; lia|done]. }
  unfold printint, printptr.
  repeat first [apply outputs_ret | apply outputs_consputc | apply outputs_consputs
    | apply Hrec; cbn; lia | apply outputs_bind | case_match; subst].
Qed.
