(* ===== verification/PrintfProps.v ===== *)
(** * printf: what it prints of a number reads back as the number *)

From S2P Require Import Prelude Memory FsState State Printf.
From Stdlib Require Import Ascii.

(** Reading a number: digits in a base, and an optional sign. *)
Definition digit_value (c : Z) : Z := if c <=? chr "9" then c - chr "0" else c - chr "a" + 10.
Definition read_digits (base : Z) (l : list Z) : Z := fold_left (fun acc c => acc * base + digit_value c) l 0.
Definition read_int (base : Z) (l : list Z) : Z :=
  match l with
  | [] => 0
  | c :: r => if c =? chr "-" then - read_digits base r else read_digits base l
  end.

Lemma digit_ok d : 0 <= d < 16 -> digit_value (digit d) = d /\ digit d <> chr "-" /\ 0 <= digit d < 256.
Proof.
  intros Hd. assert (Hall : forallb (fun d => (digit_value (digit d) =? d) && negb (digit d =? chr "-") && ((0 <=? digit d) && (digit d <? 256)))
    (seqZ 0 16) = true) by reflexivity.
  rewrite forallb_forall in Hall. specialize (Hall d). rewrite !andb_true_iff, Z.eqb_eq, negb_true_iff, Z.eqb_neq, Z.leb_le, Z.ltb_lt in Hall.
  destruct Hall as [[? ?] [? ?]]; [|by split_and!]. apply list_elem_of_In, elem_of_seqZ. lia.
Qed.
Lemma read_digits_snoc base l c : read_digits base (l ++ [c]) = read_digits base l * base + digit_value c.
Proof. unfold read_digits. by rewrite fold_left_app. Qed.

(** The loop writes the digits of [x], lowest first. *)
Lemma printint_loop_spec base fuel : 2 <= base <= 16 -> forall x n, (0 < n <= fuel)%nat -> 0 <= x < base ^ Z.of_nat n ->
  let l := printint_loop fuel x base in
  read_digits base (rev l) = x /\ (0 < length l <= n)%nat /\ Forall (fun c => c <> chr "-" /\ 0 <= c < 256) l.
Proof.
  intros Hb. induction fuel as [|fuel IH]; intros x n Hn Hx; [lia|]. cbn [printint_loop].
  destruct (digit_ok (x `mod` base)) as (Hv & Hd & Hr); [pose proof (Z.mod_pos_bound x base); lia|].
  destruct (Z.eqb_spec (x / base) 0) as [E|E].
  - cbn [rev app length]. split_and!; [|lia|lia|by apply Forall_singleton].
    unfold read_digits. cbn. rewrite Hv. rewrite (Z.div_mod x base) at 2 by lia. lia.
  - destruct n as [|n]; [lia|]. destruct (decide (n = 0)%nat) as [->|Hn0].
    { exfalso. apply E. apply Z.div_small. replace (Z.of_nat 1) with 1 in Hx by lia. rewrite Z.pow_1_r in Hx. lia. }
    destruct (IH (x / base) n) as (H1 & H2 & H3); [lia| |].
    { split; [apply Z.div_pos; lia|]. apply Z.div_lt_upper_bound; [lia|]. rewrite Nat2Z.inj_succ, Z.pow_succ_r in Hx by lia. lia. }
    cbn [rev length]. rewrite read_digits_snoc, H1, Hv. split_and!; [|lia|lia|by constructor].
    rewrite (Z.div_mod x base) at 3 by lia. lia.
Qed.

Lemma consputs_eq l s : Forall (fun c => 0 <= c < 256) l -> consputs l s = Ret tt (with_out s (fs_out (k_fs s) ++ l)).
Proof.
  revert s. induction l as [|c l IH]; intros s Hl.
  { rewrite app_nil_r. unfold with_out. cbn. destruct s as [? ? ? ? ? ? ? ? ? ? ? ? ? ? ? ? ? ? ? ? ? ? ? ? []]. done. }
  apply Forall_cons in Hl as [Hc Hl]. cbn [consputs]. unfold consputc. destruct (Z.eqb_spec c BACKSPACE); [unfold BACKSPACE in *; lia|].
  unfold uartputc_sync. rewrite bind_modify, IH by done. unfold with_out. cbn [k_fs fs_out upd]. rewrite u8_small by lia.
  by rewrite <- app_assoc.
Qed.

(** C40. Numbers are printed so that they can be read back, and printint stays in
    its 20-byte buffer.  For every 64-bit value and every base from 10 to 16,
    printint sends at most 20 bytes, and these read back as the value: as a
    signed number with a minus sign where [sign] is set, as an unsigned one
    where it is not. *)
Theorem printint_roundtrip (s : kstate) (xx base : Z) (sign : bool)
  (Hb : 10 <= base <= 16) (Hx : - 2 ^ 63 <= xx < 2 ^ 63) :
  exists l, printint xx base sign s = Ret tt (with_out s (fs_out (k_fs s) ++ l)) /\
    (0 < length l <= 20)%nat /\ read_int base l = if sign then xx else u64 xx.
Proof.
  unfold printint, printint_bytes. set (neg := sign && (xx <? 0)).
  set (x := if neg then u64 (- xx) else u64 xx).
  assert (Hp : 2 ^ 63 < base ^ 19 /\ 2 ^ 64 < base ^ 20).
  { split; [apply Z.lt_le_trans with (10 ^ 19)|apply Z.lt_le_trans with (10 ^ 20)]; try lia; apply Z.pow_le_mono_l; lia. }
  assert (Hx0 : 0 <= x < base ^ (if neg then 19 else 20)).
  { unfold x, neg in *. pose proof (u64_range xx). destruct sign; cbn [andb]; [|lia].
    destruct (Z.ltb_spec xx 0); [rewrite u64_small; lia|lia]. }
  destruct (printint_loop_spec base 64 ltac:(lia) x (if neg then 19 else 20)%nat) as (H1 & H2 & H3); [by destruct neg; lia|by destruct neg|].
  set (l := printint_loop 64 x base) in *.
  assert (Hbytes : Forall (fun c => 0 <= c < 256) l) by (eapply Forall_impl; [exact H3|]; by intros c [_ ?]).
  eexists. split; [apply consputs_eq|]. 2: split; [rewrite length_rev; destruct neg; rewrite ?length_app; cbn [length]; lia|].
  - apply Forall_rev. destruct neg; [|done]. apply Forall_app. split; [done|]. constructor; [by vm_compute|constructor].
  - destruct neg eqn:En.
    + rewrite rev_app_distr. cbn [rev app read_int]. rewrite Z.eqb_refl, H1. unfold x, neg in *. apply andb_true_iff in En as [Es En%Z.ltb_lt].
      rewrite Es, u64_small; lia.
    + assert (Hr : read_int base (rev l) = read_digits base (rev l)).
      { destruct (rev l) as [|c r] eqn:Er; [done|]. cbn [read_int]. destruct (Z.eqb_spec c (chr "-")) as [->|]; [|done].
        exfalso. rewrite Forall_forall in H3. destruct (H3 (chr "-")) as [Hne _]; [|done]. apply list_elem_of_In, in_rev. rewrite Er. by left. }
      rewrite Hr, H1. unfold x, neg in *. destruct sign; [|done]. cbn [andb] in En. apply Z.ltb_ge in En. apply u64_small. lia.
Qed.
Lemma printint_roundtrip_witness : exists l,
  printint (-4210) 10 true kstate0 = Ret tt (with_out kstate0 (fs_out (k_fs kstate0) ++ l)) /\
  (0 < length l <= 20)%nat /\ read_int 10 l = -4210.
Proof. apply (printint_roundtrip kstate0 (-4210) 10 true); lia. Defined.
