(* ===== verification/Sleeplock.v ===== *)
(** * kernel/sleeplock.c: long-term locks

    A sleep lock is a field of a buffer or an inode: a [lockref] says how to
    read and write it and which channel its waiters sleep on. *)

From S2P Require Import Prelude Memory FsState State Sched.

Record lockref := mkref {
  lr_get : kstate -> sleeplock;
  lr_set : sleeplock -> kstate -> kstate;
  lr_chan : chan
}.

Definition initsleeplock (lk : lockref) : K unit := modify (lr_set lk (mklock false 0)).

Definition acquiresleep (lk : lockref) : K unit :=
  l ← gets (lr_get lk);
  if sl_locked l then sleep (lr_chan lk)
  else
    p ← myproc;
    pid ← gets (fun s => p_pid (pr s p));
    modify (lr_set lk (mklock true pid)).

Definition releasesleep (lk : lockref) : K unit :=
  modify (lr_set lk (mklock false 0));;
  wakeup (lr_chan lk).

Definition holdingsleep (lk : lockref) : K bool :=
  l ← gets (lr_get lk);
  if sl_locked l then
    p ← myproc;
    pid ← gets (fun s => p_pid (pr s p));
    mret (sl_pid l =? pid)
  else mret false.
