(* ===== verification/Bio.v ===== *)
(** * kernel/bio.c: the buffer cache

    [fs_buf] is bcache.buf, the list [fs_order] the chain of the buffers
    through prev and next from [head].  The data of buffer [i] are the BSIZE
    bytes at [kbuf i].  [virtio_disk_rw] stands for the driver: a block goes to
    the disk, or comes from it, as a whole. *)

From S2P Require Import Prelude Memory FsState State Sched Sleeplock.
Import Mem.

(** Bytes of memory as lists. *)
Definition bytes (m : mem) (a n : Z) : list Z := (fun k => ld8 m (a + k)) <$> seqZ 0 n.
Fixpoint store_bytes (m : mem) (a : Z) (l : list Z) : mem :=
  match l with [] => m | x :: l' => store_bytes (st8 m a x) (a + 1) l' end.

(** The content of a block: that of the latest write; the disk starts zeroed. *)
Definition zero_block : list Z := replicate (Z.to_nat BSIZE) 0.
Fixpoint disk_block (h : list (Z * list Z)) (b : Z) : list Z :=
  match h with
  | [] => zero_block
  | (b', data) :: h' => if b' =? b then data else disk_block h' b
  end.

Definition modify_fs (f : fsst -> fsst) : K unit := modify (fun s => s <| k_fs := f (k_fs s) |>).
Definition bf (s : kstate) (i : nat) : buf := default buf0 (fs_buf (k_fs s) !! i).
Definition set_buf (i : nat) (f : buf -> buf) : K unit :=
  modify_fs (fun t => t <| fs_buf := alter f i (fs_buf t) |>).
Definition buf_lock (i : nat) : lockref :=
  mkref (fun s => b_lock (bf s i))
    (fun l s => s <| k_fs := (k_fs s) <| fs_buf := alter (fun b => b <| b_lock := l |>) i (fs_buf (k_fs s)) |> |>)
    (ChBuf i).

Section Bio.
Context `{KernelImage}.

Definition virtio_disk_rw (i : nat) (write : bool) : K unit :=
  modify (fun s =>
    let b := b_blockno (bf s i) in
    if write then s <| k_fs := (k_fs s) <| fs_disk := (b, bytes (k_mem s) (kbuf i) BSIZE) :: fs_disk (k_fs s) |> |>
    else s <| k_mem := store_bytes (k_mem s) (kbuf i) (disk_block (fs_disk (k_fs s)) b) |>).

(** binit: each buffer goes to the front of the chain *)
Fixpoint binit_loop (n i : nat) : K unit :=
  match n with
  | O => mret tt
  | S n' =>
      initsleeplock (buf_lock i);;
      modify_fs (fun t => t <| fs_order := i :: fs_order t |>);;
      binit_loop n' (S i)
  end.
Definition binit : K unit :=
  modify_fs (fun t => t <| fs_order := [] |>);; binit_loop (Z.to_nat NBUF) 0.

(** bget *)
Definition holds_block (s : kstate) (dev blockno : Z) (i : nat) : bool :=
  (b_dev (bf s i) =? dev) && (b_blockno (bf s i) =? blockno).
Definition unreferenced (s : kstate) (i : nat) : bool := b_refcnt (bf s i) =? 0.
Definition bget (dev blockno : Z) : K nat :=
  hit ← gets (fun s => find (holds_block s dev blockno) (fs_order (k_fs s)));
  match hit with
  | Some i =>
      set_buf i (fun b => b <| b_refcnt := u32 (b_refcnt b + 1) |>);;
      acquiresleep (buf_lock i);;
      mret i
  | None =>
      free ← gets (fun s => find (unreferenced s) (rev (fs_order (k_fs s))));
      match free with
      | Some i =>
          set_buf i (fun b => b <| b_dev := dev |> <| b_blockno := blockno |> <| b_valid := false |> <| b_refcnt := 1 |>);;
          acquiresleep (buf_lock i);;
          mret i
      | None => panic "bget: no buffers"
      end
  end.

(** bread *)
Definition bread (dev blockno : Z) : K nat :=
  i ← bget dev blockno;
  valid ← gets (fun s => b_valid (bf s i));
  (if negb valid then virtio_disk_rw i false;; set_buf i (fun b => b <| b_valid := true |>) else mret tt);;
  mret i.

(** bwrite *)
Definition bwrite (i : nat) : K unit :=
  h ← holdingsleep (buf_lock i);
  if negb h then panic "bwrite" else virtio_disk_rw i true.

(** brelse *)
Definition brelse (i : nat) : K unit :=
  h ← holdingsleep (buf_lock i);
  if negb h then panic "brelse"
  else
    releasesleep (buf_lock i);;
    set_buf i (fun b => b <| b_refcnt := u32 (b_refcnt b - 1) |>);;
    r ← gets (fun s => b_refcnt (bf s i));
    if r =? 0 then
      modify_fs (fun t => t <| fs_order := i :: List.filter (fun j => negb (Nat.eqb j i)) (fs_order t) |>)
    else mret tt.

(** bpin, bunpin *)
Definition bpin (i : nat) : K unit := set_buf i (fun b => b <| b_refcnt := u32 (b_refcnt b + 1) |>).
Definition bunpin (i : nat) : K unit := set_buf i (fun b => b <| b_refcnt := u32 (b_refcnt b - 1) |>).

End Bio.
