(* ===== verification/BioSpec.v ===== *)
(** * The buffer cache: its invariant and the specifications of its operations

    [cache_inv s p L held]: process [p] runs, the blocks in [L] are pinned (they
    are in the log), and [p] has locked the buffers in [held]; every other
    valid buffer of an unpinned block agrees with the disk.  [lc s b] is the
    content of block [b] as the file system sees it: the cached one if there is
    one, the disk's otherwise. *)

From S2P Require Import Prelude Memory FsState State Sched SchedSpec Sleeplock Bio.
Import Mem KString.

(** ** Lists of bytes *)
Definition block_ok (d : list Z) : Prop := length d = Z.to_nat BSIZE /\ Forall (fun x => 0 <= x < 256) d.
Definition disk_ok (h : list (Z * list Z)) : Prop := Forall (fun w => block_ok (snd w)) h.

Lemma disk_block_ok h b : disk_ok h -> block_ok (disk_block h b).
Proof.
  induction 1 as [|[b' d] h Hd _ IH]; cbn.
  - split; [apply length_replicate|by apply Forall_replicate].
  - by destruct (b' =? b).
Qed.
Lemma bytes_lookup m a n k : 0 <= k < n -> bytes m a n !! Z.to_nat k = Some (ld8 m (a + k)).
Proof.
  intros Hk. unfold bytes. rewrite list_lookup_fmap, lookup_seqZ_lt by lia. cbn. do 2 f_equal. lia.
Qed.
Lemma length_bytes m a n : length (bytes m a n) = Z.to_nat n.
Proof. unfold bytes. by rewrite length_fmap, length_seqZ. Qed.
Lemma bytes_eq m m' a a' n : (forall k, 0 <= k < n -> ld8 m (a + k) = ld8 m' (a' + k)) -> bytes m a n = bytes m' a' n.
Proof.
  intros Hk. apply list_eq. intros i. destruct (decide (i < Z.to_nat n)%nat) as [Hi|Hi].
  - replace i with (Z.to_nat (Z.of_nat i)) by lia. rewrite !bytes_lookup by lia. f_equal. apply Hk. lia.
  - by rewrite !lookup_ge_None_2 by (rewrite length_bytes; lia).
Qed.
Lemma bytes_ok m a : block_ok (bytes m a BSIZE).
Proof.
  split; [apply length_bytes|]. unfold bytes. apply Forall_fmap, Forall_forall. intros k _. apply ld8_range.
Qed.
Lemma ld8_store_bytes m a l b :
  ld8 (store_bytes m a l) b = if decide (a <= b < a + Z.of_nat (length l)) then u8 (default 0 (l !! Z.to_nat (b - a))) else ld8 m b.
Proof.
  revert m a. induction l as [|x l IH]; intros m a; cbn [store_bytes length].
  { by rewrite decide_False by lia. }
  rewrite IH. destruct (decide (b = a)) as [->|Hne].
  - rewrite decide_False, decide_True by lia. rewrite Z.sub_diag, ld8_st8_eq. done.
  - destruct (decide (a + 1 <= b < a + 1 + Z.of_nat (length l))) as [Hin|Hout].
    + rewrite decide_True by lia. replace (Z.to_nat (b - a)) with (S (Z.to_nat (b - (a + 1)))) by lia. done.
    + rewrite decide_False by lia. by rewrite ld8_st8_ne.
Qed.
Lemma bytes_store m a d : block_ok d -> bytes (store_bytes m a d) a BSIZE = d.
Proof.
  intros [Hlen Hr]. apply list_eq. intros i. destruct (decide (i < Z.to_nat BSIZE)%nat) as [Hi|Hi].
  - replace i with (Z.to_nat (Z.of_nat i)) at 1 by lia. rewrite bytes_lookup by lia.
    rewrite ld8_store_bytes, decide_True by lia. replace (Z.to_nat (a + Z.of_nat i - a)) with i by lia.
    destruct (lookup_lt_is_Some_2 d i) as [x Hx]; [by rewrite Hlen|]. rewrite Hx. cbn. f_equal. apply u8_small.
    rewrite Forall_lookup in Hr. by apply (Hr i).
  - by rewrite !lookup_ge_None_2 by (rewrite ?length_bytes, ?Hlen; lia).
Qed.

(** ** The invariant *)
Section Cache.
Context `{KernelImage}.

Definition bc (s : kstate) (i : nat) : list Z := bytes (k_mem s) (kbuf i) BSIZE.
Definition disk (s : kstate) : list (Z * list Z) := fs_disk (k_fs s).
Definition cached (s : kstate) (b : Z) (i : nat) : bool :=
  (b_dev (bf s i) =? ROOTDEV) && (b_blockno (bf s i) =? b) && b_valid (bf s i).
Definition lc (s : kstate) (b : Z) : list Z :=
  match find (cached s b) (seq 0 30) with Some i => bc s i | None => disk_block (disk s) b end.
Definition pinned (s : kstate) (L : list Z) (i : nat) : bool :=
  (b_dev (bf s i) =? ROOTDEV) && bool_decide (b_blockno (bf s i) ∈ L).

Record cache_inv (s : kstate) (p : nat) (L : list Z) (held : list nat) : Prop := {
  ci_cur : k_cur s = Some p;
  ci_procs : length (k_proc s) = Z.to_nat NPROC;
  ci_len : length (fs_buf (k_fs s)) = 30%nat;
  ci_order : fs_order (k_fs s) ≡ₚ seq 0 30;
  ci_disk : disk_ok (disk s);
  ci_uniq : forall i j, (i < 30)%nat -> (j < 30)%nat -> b_dev (bf s i) = ROOTDEV -> b_dev (bf s j) = ROOTDEV ->
    b_blockno (bf s i) = b_blockno (bf s j) -> i = j;
  ci_dev : forall i, (i < 30)%nat -> b_valid (bf s i) = true <-> b_dev (bf s i) = ROOTDEV;
  ci_lock : forall i, (i < 30)%nat ->
    b_lock (bf s i) = if decide (i ∈ held) then mklock true (p_pid (pr s p)) else mklock false 0;
  ci_ref : forall i, (i < 30)%nat ->
    b_refcnt (bf s i) = (if decide (i ∈ held) then 1 else 0) + (if pinned s L i then 1 else 0);
  ci_clean : forall i, (i < 30)%nat -> b_valid (bf s i) = true -> i ∉ held -> b_blockno (bf s i) ∉ L ->
    bc s i = disk_block (disk s) (b_blockno (bf s i));
  ci_pin : forall b, b ∈ L -> exists i, (i < 30)%nat /\ cached s b i = true;
  ci_held : NoDup held /\ forall i, i ∈ held -> (i < 30)%nat /\ b_dev (bf s i) = ROOTDEV
}.

Lemma cached_spec s b i : cached s b i = true <-> b_dev (bf s i) = ROOTDEV /\ b_blockno (bf s i) = b /\ b_valid (bf s i) = true.
Proof. unfold cached. rewrite !andb_true_iff, !Z.eqb_eq. tauto. Qed.
Lemma lc_cached s p L held b i : cache_inv s p L held -> (i < 30)%nat -> cached s b i = true -> lc s b = bc s i.
Proof.
  intros Hci Hi Hc. unfold lc. destruct (find _ _) as [j|] eqn:E.
  - apply find_some in E as [Hj Hcj]. apply in_seq in Hj. apply cached_spec in Hc as (Hd & Hb & _), Hcj as (Hdj & Hbj & _).
    assert (i = j) as ->; [|done]. apply (ci_uniq _ _ _ _ Hci); [lia|lia|done|done|congruence].
  - eapply find_none in E; [|apply in_seq; split; [apply le_0_n|exact Hi]]. by rewrite Hc in E.
Qed.
Lemma lc_uncached s b : (forall i, (i < 30)%nat -> cached s b i = false) -> lc s b = disk_block (disk s) b.
Proof.
  intros Hn. unfold lc. destruct (find _ _) as [j|] eqn:E; [|done]. apply find_some in E as [Hj Hcj].
  apply in_seq in Hj. rewrite Hn in Hcj; [done|lia].
Qed.
Lemma cached_dec s b : (exists i, (i < 30)%nat /\ cached s b i = true) \/ (forall i, (i < 30)%nat -> cached s b i = false).
Proof.
  destruct (find (cached s b) (seq 0 30)) as [i|] eqn:E.
  - left. apply find_some in E as [Hi Hc]. apply in_seq in Hi. exists i. split; [lia|done].
  - right. intros i Hi. eapply find_none in E; [exact E|]. apply in_seq. lia.
Qed.

(** ** Updates of one buffer *)
Definition upd_buf (s : kstate) (i : nat) (f : buf -> buf) : kstate :=
  s <| k_fs := (k_fs s) <| fs_buf := alter f i (fs_buf (k_fs s)) |> |>.
Lemma set_buf_eq s i f : set_buf i f s = Ret tt (upd_buf s i f).
Proof. done. Qed.
Lemma bf_upd s i f j :
  (j < length (fs_buf (k_fs s)))%nat -> bf (upd_buf s i f) j = if decide (j = i) then f (bf s j) else bf s j.
Proof.
  intros Hj. unfold bf, upd_buf. cbn. case_decide as Hd.
  - subst j. rewrite list_lookup_alter_eq. by destruct (lookup_lt_is_Some_2 _ _ Hj) as [b ->].
  - by rewrite list_lookup_alter_ne.
Qed.
Lemma length_upd s i f : length (fs_buf (k_fs (upd_buf s i f))) = length (fs_buf (k_fs s)).
Proof. cbn. by rewrite length_alter. Qed.

Lemma acquiresleep_eq s i p :
  k_cur s = Some p -> b_lock (bf s i) = mklock false 0 ->
  acquiresleep (buf_lock i) s = Ret tt (upd_buf s i (fun b => b <| b_lock := mklock true (p_pid (pr s p)) |>)).
Proof.
  intros Hcur Hl. unfold acquiresleep. rewrite (bind_ret (gets _) _ s (b_lock (bf s i)) s eq_refl), Hl.
  cbn [sl_locked]. rewrite (bind_ret myproc _ s p s) by (unfold myproc; run; by rewrite Hcur). done.
Qed.
Lemma holdingsleep_eq s i p :
  k_cur s = Some p -> b_lock (bf s i) = mklock true (p_pid (pr s p)) -> holdingsleep (buf_lock i) s = Ret true s.
Proof.
  intros Hcur Hl. unfold holdingsleep. rewrite (bind_ret (gets _) _ s (b_lock (bf s i)) s eq_refl), Hl.
  cbn [sl_locked]. rewrite (bind_ret myproc _ s p s) by (unfold myproc; run; by rewrite Hcur).
  rewrite (bind_ret (gets _) _ s (p_pid (pr s p)) s eq_refl). cbn [sl_pid]. by rewrite Z.eqb_refl.
Qed.

(** Finding a buffer along the chain. *)
Lemma find_order s p L held f i :
  cache_inv s p L held -> find f (fs_order (k_fs s)) = Some i -> (i < 30)%nat /\ f i = true.
Proof.
  intros Hci [Hin Hf]%find_some. apply list_elem_of_In in Hin. rewrite (ci_order _ _ _ _ Hci) in Hin.
  apply elem_of_seq in Hin. split; [lia|done].
Qed.
Lemma find_order_none s p L held f i :
  cache_inv s p L held -> find f (fs_order (k_fs s)) = None -> (i < 30)%nat -> f i = false.
Proof.
  intros Hci Hn Hi. eapply find_none in Hn; [exact Hn|]. apply list_elem_of_In. rewrite (ci_order _ _ _ _ Hci).
  apply elem_of_seq. lia.
Qed.

(** With fewer than 30 locked buffers and pinned blocks, some buffer is free. *)
Lemma free_buffer s p L held :
  cache_inv s p L held -> (length held + length L < 30)%nat ->
  exists i, (i < 30)%nat /\ unreferenced s i = true.
Proof.
  intros Hci Hlt. destruct (find (unreferenced s) (seq 0 30)) as [i|] eqn:E.
  { apply find_some in E as [Hi Hu]. apply in_seq in Hi. exists i. split; [lia|done]. }
  exfalso. set (f := fun i => if decide (i ∈ held) then inl i else inr (b_blockno (bf s i)) : nat + Z).
  assert (Hpin : forall i, (i < 30)%nat -> i ∉ held -> b_dev (bf s i) = ROOTDEV /\ b_blockno (bf s i) ∈ L).
  { intros i Hi Hh. eapply find_none in E; [|apply in_seq; split; [apply le_0_n|exact Hi]].
    unfold unreferenced in E. rewrite (ci_ref _ _ _ _ Hci i Hi), decide_False in E by done. unfold pinned in E.
    destruct (Z.eqb_spec (b_dev (bf s i)) ROOTDEV) as [Hd|]; [|done]. cbn [andb] in E.
    destruct (bool_decide _) eqn:Eb; [|done]. by apply bool_decide_eq_true in Eb. }
  assert (Hsub : (f <$> seq 0 30) ⊆+ ((inl <$> held) ++ (inr <$> L))).
  { apply NoDup_submseteq.
    - apply (NoDup_fmap_2_strong f); [|apply NoDup_seq]. intros i j Hi%elem_of_seq Hj%elem_of_seq. unfold f.
      do 2 case_decide; intros Hij; simplify_eq; try done.
      destruct (Hpin i ltac:(lia) ltac:(done)), (Hpin j ltac:(lia) ltac:(done)). apply (ci_uniq _ _ _ _ Hci); [lia|lia|done..].
    - intros x (i & -> & Hi%elem_of_seq)%list_elem_of_fmap. unfold f. apply elem_of_app. case_decide.
      + left. by apply list_elem_of_fmap_2.
      + right. apply list_elem_of_fmap_2. apply Hpin; [lia|done]. }
  apply submseteq_length in Hsub. rewrite length_app, !length_fmap, length_seq in Hsub. lia.
Qed.

Lemma upd_upd s i f g : upd_buf (upd_buf s i f) i g = upd_buf s i (fun b => g (f b)).
Proof. unfold upd_buf. cbn. by rewrite alter_fuse. Qed.

(** [lc] depends on the buffers and on the disk. *)
Lemma lc_ext s s' p L held p' L' held' :
  cache_inv s p L held -> cache_inv s' p' L' held' -> disk s' = disk s ->
  (forall b i, (i < 30)%nat -> cached s' b i = cached s b i) ->
  (forall i, (i < 30)%nat -> bc s' i = bc s i) -> forall b, lc s' b = lc s b.
Proof.
  intros Hci Hci' Hd Hc Hb b. destruct (cached_dec s b) as [(i & Hi & Hci2)|Hn].
  - rewrite (lc_cached s p L held b i), (lc_cached s' p' L' held' b i); try done; [by apply Hb|by rewrite Hc].
  - rewrite !lc_uncached by (try done; intros i Hi; rewrite Hc by done; by apply Hn). by rewrite Hd.
Qed.

(** Changing the lock and the reference count of buffer [i]. *)
Lemma cache_inv_meta s p L held i f L' held' :
  cache_inv s p L held -> (i < 30)%nat ->
  (forall b, b_dev (f b) = b_dev b /\ b_blockno (f b) = b_blockno b /\ b_valid (f b) = b_valid b) ->
  (forall j, j <> i -> j ∈ held' <-> j ∈ held) -> NoDup held' ->
  (forall b, b <> b_blockno (bf s i) -> b ∈ L' <-> b ∈ L) ->
  b_lock (f (bf s i)) = (if decide (i ∈ held') then mklock true (p_pid (pr s p)) else mklock false 0) ->
  b_refcnt (f (bf s i)) = (if decide (i ∈ held') then 1 else 0) + (if pinned s L' i then 1 else 0) ->
  b_dev (bf s i) = ROOTDEV ->
  (i ∉ held' -> b_blockno (bf s i) ∉ L' -> bc s i = disk_block (disk s) (b_blockno (bf s i))) ->
  cache_inv (upd_buf s i f) p L' held' /\ forall b, lc (upd_buf s i f) b = lc s b.
Proof.
  intros Hci Hi Hf Hh Hnd HL Hlock Href Hdev Hclean. pose proof (ci_len _ _ _ _ Hci) as Hlen.
  assert (Hbf : forall j, (j < 30)%nat -> bf (upd_buf s i f) j = if decide (j = i) then f (bf s j) else bf s j).
  { intros j Hj. apply bf_upd. by rewrite Hlen. }
  assert (Hk : forall j, (j < 30)%nat -> b_dev (bf (upd_buf s i f) j) = b_dev (bf s j) /\
    b_blockno (bf (upd_buf s i f) j) = b_blockno (bf s j) /\ b_valid (bf (upd_buf s i f) j) = b_valid (bf s j)).
  { intros j Hj. rewrite Hbf by done. destruct (decide (j = i)); [apply Hf|done]. }
  assert (Hne : forall j, (j < 30)%nat -> j <> i -> b_dev (bf s j) = ROOTDEV -> b_blockno (bf s j) <> b_blockno (bf s i)).
  { intros j Hj Hji Hd E. apply Hji. by apply (ci_uniq _ _ _ _ Hci). }
  assert (Hca : forall b j, (j < 30)%nat -> cached (upd_buf s i f) b j = cached s b j).
  { intros b j Hj. unfold cached. by destruct (Hk j Hj) as (-> & -> & ->). }
  assert (Hinv : cache_inv (upd_buf s i f) p L' held'); [|split; [done|by apply (lc_ext _ _ _ _ _ _ _ _ Hci Hinv)]].
  split.
  - exact (ci_cur _ _ _ _ Hci).
  - exact (ci_procs _ _ _ _ Hci).
  - cbn. rewrite length_alter. exact Hlen.
  - exact (ci_order _ _ _ _ Hci).
  - exact (ci_disk _ _ _ _ Hci).
  - intros a b Ha Hb. destruct (Hk a Ha) as (-> & -> & _), (Hk b Hb) as (-> & -> & _). by apply (ci_uniq _ _ _ _ Hci).
  - intros a Ha. destruct (Hk a Ha) as (-> & _ & ->). by apply (ci_dev _ _ _ _ Hci).
  - intros a Ha. rewrite Hbf by done. destruct (decide (a = i)) as [->|Hd]; [done|]. rewrite (ci_lock _ _ _ _ Hci a Ha).
    pose proof (Hh a Hd). destruct (decide (a ∈ held)), (decide (a ∈ held')); naive_solver.
  - intros a Ha. unfold pinned. destruct (Hk a Ha) as (-> & -> & _). rewrite Hbf by done.
    destruct (decide (a = i)) as [->|Hd]; [done|]. rewrite (ci_ref _ _ _ _ Hci a Ha). unfold pinned. pose proof (Hh a Hd) as Hha.
    destruct (Z.eqb_spec (b_dev (bf s a)) ROOTDEV) as [Hda|].
    + pose proof (HL _ (Hne a Ha Hd Hda)) as HLa. cbn [andb].
      rewrite (bool_decide_ext (b_blockno (bf s a) ∈ L') (b_blockno (bf s a) ∈ L) HLa).
      destruct (decide (a ∈ held)), (decide (a ∈ held')); naive_solver.
    + cbn [andb]. destruct (decide (a ∈ held)), (decide (a ∈ held')); naive_solver.
  - intros a Ha. destruct (Hk a Ha) as (_ & -> & ->). intros Hv Hah Hal. destruct (decide (a = i)) as [->|Hd]; [by apply Hclean|].
    apply (ci_clean _ _ _ _ Hci a Ha Hv); [by rewrite <- Hh|]. rewrite <- HL; [done|].
    apply Hne; [done|done|by apply (ci_dev _ _ _ _ Hci)].
  - intros b Hb. destruct (decide (b = b_blockno (bf s i))) as [->|Hbne].
    + exists i. split; [done|]. rewrite Hca by done. apply cached_spec. split_and!; [done|done|by apply (ci_dev _ _ _ _ Hci)].
    + destruct (ci_pin _ _ _ _ Hci b) as (j & Hj & Hcj); [by apply HL|]. exists j. by rewrite Hca.
  - split; [done|]. intros a Ha. destruct (decide (a = i)) as [->|Hd].
    + split; [done|]. destruct (Hk i Hi) as (-> & _). done.
    + destruct (proj2 (ci_held _ _ _ _ Hci) a) as [Ha30 Hda]; [by apply Hh|]. split; [done|]. by destruct (Hk a Ha30) as (-> & _).
Qed.

(** ** bread *)
Record bread_post (s s' : kstate) (p : nat) (L : list Z) (held : list nat) (b : Z) (i : nat) : Prop := {
  br_inv : cache_inv s' p L (i :: held);
  br_block : b_blockno (bf s' i) = b;
  br_data : bc s' i = lc s b;
  br_held : forall j, j ∈ held -> bf s' j = bf s j /\ bc s' j = bc s j;
  br_lc : forall b', lc s' b' = lc s b';
  br_disk : disk s' = disk s;
  br_log : fs_log (k_fs s') = fs_log (k_fs s)
}.

Lemma bc_sep s i l j :
  (i < 30)%nat -> (j < 30)%nat -> i <> j -> length l = Z.to_nat BSIZE ->
  bytes (store_bytes (k_mem s) (kbuf i) l) (kbuf j) BSIZE = bc s j.
Proof.
  intros Hi Hj Hne Hl. apply bytes_eq. intros k Hk. rewrite ld8_store_bytes, decide_False; [done|].
  rewrite Hl. destruct (kbuf_sep i j Hi Hj Hne); unfold BSIZE in *; lia.
Qed.

(** The state after buffer [i] has been recycled for block [b]. *)
Definition refilled (s : kstate) (i : nat) (b pid : Z) : kstate :=
  (upd_buf s i (fun _ => mkbuf true ROOTDEV b (mklock true pid) 1))
    <| k_mem := store_bytes (k_mem s) (kbuf i) (disk_block (disk s) b) |>.

Section Refill.
Context (s : kstate) (p : nat) (L : list Z) (held : list nat) (b : Z) (i : nat).
Context (Hci : cache_inv s p L held) (Hi : (i < 30)%nat) (Hun : unreferenced s i = true).
Context (Hno : forall j, (j < 30)%nat -> holds_block s ROOTDEV b j = false).
Let new : buf := mkbuf true ROOTDEV b (mklock true (p_pid (pr s p))) 1.
Let s' : kstate := refilled s i b (p_pid (pr s p)).

Lemma refill_free : i ∉ held /\ pinned s L i = false.
Proof.
  pose proof Hun as Hu. unfold unreferenced in Hu. rewrite (ci_ref _ _ _ _ Hci i Hi) in Hu. apply Z.eqb_eq in Hu.
  destruct (decide (i ∈ held)), (pinned s L i); try lia; done.
Qed.
Lemma refill_buf : bf s' i = new /\ forall j, (j < 30)%nat -> j <> i -> bf s' j = bf s j.
Proof.
  assert (Hbf : forall j, (j < 30)%nat -> bf s' j = if decide (j = i) then new else bf s j).
  { intros j Hj. change (bf s' j) with (bf (upd_buf s i (fun _ => new)) j). by rewrite bf_upd by (by rewrite (ci_len _ _ _ _ Hci)). }
  split; [by rewrite Hbf, decide_True|]. intros j Hj Hne. by rewrite Hbf, decide_False.
Qed.
Lemma refill_data : bc s' i = disk_block (disk s) b /\ forall j, (j < 30)%nat -> j <> i -> bc s' j = bc s j.
Proof.
  pose proof (disk_block_ok _ b (ci_disk _ _ _ _ Hci)) as Hok. split; [by apply bytes_store|].
  intros j Hj Hne. apply bc_sep; [done..|]. apply Hok.
Qed.
Lemma refill_new : (forall j, (j < 30)%nat -> b_dev (bf s j) = ROOTDEV -> b_blockno (bf s j) <> b) /\ b ∉ L.
Proof.
  assert (Hnb : forall j, (j < 30)%nat -> b_dev (bf s j) = ROOTDEV -> b_blockno (bf s j) <> b).
  { intros j Hj Hd E. specialize (Hno j Hj). unfold holds_block in Hno. by rewrite Hd, E, !Z.eqb_refl in Hno. }
  split; [done|]. intros HL. destruct (ci_pin _ _ _ _ Hci b HL) as (j & Hj & (Hd & E & _)%cached_spec). by apply (Hnb j).
Qed.

Lemma refill_inv : cache_inv s' p L (i :: held).
Proof.
  destruct refill_free as [Hih Hpin], refill_buf as [Hbi Hbj], refill_data as [Hbci Hbc], refill_new as [Hnb HbL].
  assert (Hin : forall a, a <> i -> a ∈ i :: held <-> a ∈ held) by (intros a Ha; rewrite elem_of_cons; naive_solver).
  split; try exact (ci_cur _ _ _ _ Hci); try exact (ci_procs _ _ _ _ Hci); try exact (ci_order _ _ _ _ Hci);
    try exact (ci_disk _ _ _ _ Hci).
  - change (length (fs_buf (k_fs s'))) with (length (fs_buf (k_fs (upd_buf s i (fun _ => new))))).
    rewrite length_upd. apply Hci.
  - intros a c Ha Hc. destruct (decide (a = i)) as [->|Hai], (decide (c = i)) as [->|Hci']; try done.
    + rewrite Hbi, Hbj by done. intros _ Hd E. by destruct (Hnb c Hc Hd).
    + rewrite Hbi, Hbj by done. intros Hd _ E. by destruct (Hnb a Ha Hd).
    + rewrite !Hbj by done. by apply (ci_uniq _ _ _ _ Hci).
  - intros a Ha. destruct (decide (a = i)) as [->|Hai]; [by rewrite Hbi|]. rewrite Hbj by done. by apply (ci_dev _ _ _ _ Hci).
  - intros a Ha. destruct (decide (a = i)) as [->|Hai]; [by rewrite Hbi, decide_True by left|].
    rewrite Hbj, (ci_lock _ _ _ _ Hci a Ha) by done. by rewrite (decide_ext _ _ _ _ (Hin a Hai)).
  - intros a Ha. unfold pinned. destruct (decide (a = i)) as [->|Hai].
    + rewrite Hbi, decide_True by left. cbn. by rewrite bool_decide_false.
    + rewrite Hbj, (ci_ref _ _ _ _ Hci a Ha) by done. by rewrite (decide_ext _ _ _ _ (Hin a Hai)).
  - intros a Ha. rewrite not_elem_of_cons. intros Hv [Hai Hah] HL. rewrite Hbj in * by done. rewrite Hbc by done.
    by apply (ci_clean _ _ _ _ Hci).
  - intros c Hc. destruct (ci_pin _ _ _ _ Hci c Hc) as (j & Hj & Hcj). exists j. split; [done|].
    apply cached_spec. rewrite Hbj; [by apply cached_spec|done|]. intros ->. unfold pinned in Hpin.
    apply cached_spec in Hcj as (Hd & E & _). by rewrite Hd, E, bool_decide_true in Hpin.
  - destruct (ci_held _ _ _ _ Hci) as [Hnd Hh]. split; [by apply NoDup_cons|].
    intros a [->|Ha]%elem_of_cons; [by rewrite Hbi|]. destruct (Hh a Ha) as [Ha30 Hd]. split; [done|].
    rewrite Hbj; [done|done|]. by intros ->.
Qed.
Lemma refill_post : bread_post s s' p L held b i.
Proof.
  destruct refill_free as [Hih Hpin], refill_buf as [Hbi Hbj], refill_data as [Hbci Hbc], refill_new as [Hnb HbL].
  pose proof refill_inv as Hinv.
  assert (Hlb : lc s b = disk_block (disk s) b).
  { apply lc_uncached. intros j Hj. destruct (cached s b j) eqn:E; [|done]. apply cached_spec in E as (Hd & E & _). by destruct (Hnb j Hj Hd). }
  split; [done|by rewrite Hbi|by rewrite Hlb| | |done|done].
  - intros j Hj. assert (j <> i) by (by intros ->). destruct (proj2 (ci_held _ _ _ _ Hci) j Hj) as [Hj30 _]. by rewrite Hbj, Hbc.
  - intros c. destruct (decide (c = b)) as [->|Hcb].
    { rewrite (lc_cached s' p L (i :: held) b i Hinv Hi), Hlb; [done|]. apply cached_spec. by rewrite Hbi. }
    destruct (cached_dec s' c) as [(j & Hj & Hcj)|Hn].
    + assert (Hji : j <> i). { intros ->. apply cached_spec in Hcj as (_ & E & _). rewrite Hbi in E. by apply Hcb. }
      rewrite (lc_cached s' p L (i :: held) c j Hinv Hj Hcj), Hbc by done. symmetry. apply (lc_cached s p L held); [done|done|].
      apply cached_spec. apply cached_spec in Hcj. by rewrite Hbj in Hcj.
    + rewrite lc_uncached by done. change (disk s') with (disk s).
      destruct (cached_dec s c) as [(j & Hj & Hcj)|Hn']; [|by rewrite lc_uncached].
      assert (j = i) as ->.
      { destruct (decide (j = i)) as [|Hji]; [done|]. specialize (Hn j Hj). apply cached_spec in Hcj.
        rewrite <- (Hbj j Hj Hji) in Hcj. apply cached_spec in Hcj. by rewrite Hcj in Hn. }
      rewrite (lc_cached s p L held c i Hci Hi Hcj). apply cached_spec in Hcj as (Hd & E & Hv). rewrite <- E.
      symmetry. apply (ci_clean _ _ _ _ Hci); [done..|]. unfold pinned in Hpin. rewrite Hd, Z.eqb_refl in Hpin. cbn in Hpin.
      by apply bool_decide_eq_false in Hpin.
Qed.
End Refill.

Lemma bread_hit s p L held b i :
  cache_inv s p L held -> (i < 30)%nat -> holds_block s ROOTDEV b i = true -> i ∉ held ->
  let s' := upd_buf s i (fun x => x <| b_refcnt := u32 (b_refcnt x + 1) |> <| b_lock := mklock true (p_pid (pr s p)) |>) in
  bread_post s s' p L held b i /\ b_valid (bf s' i) = true.
Proof.
  intros Hci Hi Hb Hih s'. apply andb_prop in Hb as [Hd%Z.eqb_eq Hb%Z.eqb_eq].
  destruct (cache_inv_meta s p L held i (fun x => x <| b_refcnt := u32 (b_refcnt x + 1) |> <| b_lock := mklock true (p_pid (pr s p)) |>)
    L (i :: held)) as [Hinv Hlc]; try done.
  - intros j Hj. rewrite elem_of_cons. naive_solver.
  - apply NoDup_cons. split; [done|apply Hci].
  - by rewrite decide_True by left.
  - rewrite decide_True by left. cbn. rewrite (ci_ref _ _ _ _ Hci i Hi), decide_False by done.
    rewrite u32_small; destruct (pinned s L i); lia.
  - intros Hn. exfalso. apply Hn. left.
  - assert (Hbf : forall j, (j < 30)%nat -> b_blockno (bf s' j) = b_blockno (bf s j) /\ b_valid (bf s' j) = b_valid (bf s j)).
    { intros j Hj. unfold s'. rewrite bf_upd by (by rewrite (ci_len _ _ _ _ Hci)). by destruct (decide (j = i)). }
    split; [split; try done|].
    + by rewrite (proj1 (Hbf i Hi)).
    + symmetry. apply (lc_cached s p L held); [done|done|]. apply cached_spec. split_and!; [done|done|by apply (ci_dev _ _ _ _ Hci)].
    + intros j Hj. split; [|done]. unfold s'. destruct (proj2 (ci_held _ _ _ _ Hci) j Hj).
      rewrite bf_upd, decide_False; [done| |by rewrite (ci_len _ _ _ _ Hci)]. by intros ->.
    + rewrite (proj2 (Hbf i Hi)). by apply (ci_dev _ _ _ _ Hci).
Qed.

Lemma bget_hit s p L held b i :
  cache_inv s p L held -> find (holds_block s ROOTDEV b) (fs_order (k_fs s)) = Some i -> (i < 30)%nat -> i ∉ held ->
  bget ROOTDEV b s = Ret i (upd_buf s i (fun x => x <| b_refcnt := u32 (b_refcnt x + 1) |> <| b_lock := mklock true (p_pid (pr s p)) |>)).
Proof.
  intros Hci E Hi Hih. unfold bget.
  rewrite (bind_ret (gets _) _ s _ s eq_refl), E, (bind_ret _ _ _ _ _ (set_buf_eq s i _)).
  set (f := fun x : buf => _). assert (Hl : b_lock (bf (upd_buf s i f) i) = mklock false 0).
  { rewrite bf_upd, decide_True by (done || by rewrite (ci_len _ _ _ _ Hci)). cbn.
    by rewrite (ci_lock _ _ _ _ Hci i Hi), decide_False. }
  rewrite (bind_ret _ _ _ _ _ (acquiresleep_eq (upd_buf s i f) i p (ci_cur _ _ _ _ Hci) Hl)). by rewrite upd_upd.
Qed.
Lemma bget_miss s p L held b i :
  cache_inv s p L held -> find (holds_block s ROOTDEV b) (fs_order (k_fs s)) = None ->
  find (unreferenced s) (rev (fs_order (k_fs s))) = Some i -> (i < 30)%nat -> i ∉ held ->
  bget ROOTDEV b s = Ret i (upd_buf s i (fun _ => mkbuf false ROOTDEV b (mklock true (p_pid (pr s p))) 1)).
Proof.
  intros Hci E Ef Hi Hih. unfold bget.
  rewrite (bind_ret (gets _) _ s _ s eq_refl), E, (bind_ret (gets _) _ s _ s eq_refl), Ef.
  rewrite (bind_ret _ _ _ _ _ (set_buf_eq s i _)).
  set (f := fun x : buf => _). assert (Hl : b_lock (bf (upd_buf s i f) i) = mklock false 0).
  { rewrite bf_upd, decide_True by (done || by rewrite (ci_len _ _ _ _ Hci)). cbn.
    by rewrite (ci_lock _ _ _ _ Hci i Hi), decide_False. }
  rewrite (bind_ret _ _ _ _ _ (acquiresleep_eq (upd_buf s i f) i p (ci_cur _ _ _ _ Hci) Hl)). by rewrite upd_upd.
Qed.
Lemma find_unreferenced s p L held :
  cache_inv s p L held -> (length held + length L < 30)%nat ->
  exists i, find (unreferenced s) (rev (fs_order (k_fs s))) = Some i /\ (i < 30)%nat /\ unreferenced s i = true.
Proof.
  intros Hci Hfree. assert (Hin : forall i, In i (rev (fs_order (k_fs s))) <-> (i < 30)%nat).
  { intros i. rewrite <- in_rev, <- list_elem_of_In, (ci_order _ _ _ _ Hci), elem_of_seq. lia. }
  destruct (find (unreferenced s) (rev (fs_order (k_fs s)))) as [i|] eqn:Ef.
  - exists i. apply find_some in Ef as [Hi Hu]. by apply Hin in Hi.
  - destruct (free_buffer s p L held Hci Hfree) as (i & Hi & Hu). eapply find_none in Ef; [|by apply Hin].
    by rewrite Hu in Ef.
Qed.

Lemma bread_spec s p L held b :
  cache_inv s p L held -> (length held + length L < 30)%nat \/ b ∈ L ->
  (forall i, i ∈ held -> b_blockno (bf s i) <> b) ->
  exists i s', bread ROOTDEV b s = Ret i s' /\ i ∉ held /\ bread_post s s' p L held b i.
Proof.
  intros Hci Hfree Hheld. unfold bread.
  destruct (find (holds_block s ROOTDEV b) (fs_order (k_fs s))) as [i|] eqn:E.
  - destruct (find_order _ _ _ _ _ _ Hci E) as [Hi Hb].
    assert (Hih : i ∉ held). { intros Hh. apply (Hheld i Hh). by apply andb_prop in Hb as [_ Hb%Z.eqb_eq]. }
    destruct (bread_hit s p L held b i Hci Hi Hb Hih) as [Hpost Hv].
    rewrite (bind_ret _ _ _ _ _ (bget_hit s p L held b i Hci E Hi Hih)).
    set (s1 := upd_buf _ _ _) in *. exists i, s1. split; [|done].
    rewrite (bind_ret (gets _) _ s1 (b_valid (bf s1 i)) s1 eq_refl), Hv. done.
  - assert (Hno : forall j, (j < 30)%nat -> holds_block s ROOTDEV b j = false) by (intros j Hj; by eapply find_order_none).
    destruct Hfree as [Hfree|HL].
    2:{ destruct (refill_new s p L held b Hci Hno) as [_ HnL]. done. }
    destruct (find_unreferenced s p L held Hci Hfree) as (i & Ef & Hi & Hu).
    destruct (refill_free s p L held i Hci Hi Hu) as [Hih _].
    rewrite (bind_ret _ _ _ _ _ (bget_miss s p L held b i Hci E Ef Hi Hih)).
    exists i, (refilled s i b (p_pid (pr s p))). split; [|split; [done|by apply refill_post]].
    set (s1 := upd_buf _ _ _). assert (Hb1 : bf s1 i = mkbuf false ROOTDEV b (mklock true (p_pid (pr s p))) 1).
    { unfold s1. by rewrite bf_upd, decide_True by (done || by rewrite (ci_len _ _ _ _ Hci)). }
    rewrite (bind_ret (gets _) _ s1 (b_valid (bf s1 i)) s1 eq_refl), Hb1. cbn [b_valid negb].
    unfold virtio_disk_rw, set_buf, modify_fs. run. rewrite Hb1. cbn [b_blockno]. f_equal.
    unfold refilled, s1, upd_buf. cbn. by rewrite alter_fuse.
Qed.

(** ** Writing the data of a locked buffer *)
Lemma cache_inv_data s p L held i m :
  cache_inv s p L held -> i ∈ held ->
  (forall j, (j < 30)%nat -> j <> i -> bytes m (kbuf j) BSIZE = bc s j) ->
  let s' := s <| k_mem := m |> in
  cache_inv s' p L held /\
  forall b, lc s' b = if decide (b = b_blockno (bf s i)) then bytes m (kbuf i) BSIZE else lc s b.
Proof.
  intros Hci Hih Hm s'. destruct (proj2 (ci_held _ _ _ _ Hci) i Hih) as [Hi Hd].
  assert (Hinv : cache_inv s' p L held).
  { destruct Hci as [H1 H2 H3 H4 H5 H6 H7 H8 H9 H10 H11 H12]. split; try assumption.
    intros j Hj Hv Hjh HL. change (bc s' j) with (bytes m (kbuf j) BSIZE). rewrite Hm; [by apply H10|done|]. by intros ->. }
  split; [done|]. intros b. destruct (cached_dec s' b) as [(j & Hj & Hcj)|Hn].
  - rewrite (lc_cached s' p L held b j Hinv Hj Hcj). change (bc s' j) with (bytes m (kbuf j) BSIZE).
    change (cached s' b j) with (cached s b j) in Hcj. destruct (decide (j = i)) as [->|Hji].
    + apply cached_spec in Hcj as (_ & E & _). by rewrite decide_True.
    + rewrite Hm, decide_False by (done || intros ->; apply Hji; apply cached_spec in Hcj as (Hdj & E & _);
        by apply (ci_uniq _ _ _ _ Hci)). symmetry. by apply (lc_cached s p L held).
  - rewrite lc_uncached by done. change (disk s') with (disk s).
    rewrite decide_False; [by rewrite (lc_uncached s)|]. intros ->.
    specialize (Hn i Hi). change (cached s' _ i) with (cached s (b_blockno (bf s i)) i) in Hn.
    assert (Hc : cached s (b_blockno (bf s i)) i = true); [|by rewrite Hn in Hc].
    apply cached_spec. split_and!; [done|done|by apply (ci_dev _ _ _ _ Hci)].
Qed.

(** ** bwrite *)
Definition written (s : kstate) (b : Z) (d : list Z) : kstate :=
  s <| k_fs := (k_fs s) <| fs_disk := (b, d) :: fs_disk (k_fs s) |> |>.
Lemma bwrite_spec s p L held i :
  cache_inv s p L held -> i ∈ held ->
  bwrite i s = Ret tt (written s (b_blockno (bf s i)) (bc s i)) /\
  cache_inv (written s (b_blockno (bf s i)) (bc s i)) p L held /\
  forall b, lc (written s (b_blockno (bf s i)) (bc s i)) b = lc s b.
Proof.
  intros Hci Hih. destruct (proj2 (ci_held _ _ _ _ Hci) i Hih) as [Hi Hd]. set (s' := written _ _ _).
  assert (Hdb : forall b, b <> b_blockno (bf s i) -> disk_block (disk s') b = disk_block (disk s) b).
  { intros b Hb. cbn. destruct (Z.eqb_spec (b_blockno (bf s i)) b); [congruence|done]. }
  assert (Hinv : cache_inv s' p L held).
  { destruct Hci as [H1 H2 H3 H4 H5 H6 H7 H8 H9 H10 H11 H12]. split; try assumption.
    - apply Forall_cons. split; [apply bytes_ok|exact H5].
    - intros j Hj Hv Hjh HL. change (bf s' j) with (bf s j) in *. change (bc s' j) with (bc s j).
      rewrite Hdb; [by apply H10|]. intros E. apply Hjh. rewrite (H6 j i Hj Hi); [done| |done|done]. by apply H7. }
  split_and!; [|done|].
  - unfold bwrite. rewrite (bind_ret _ _ s true s); [done|]. apply (holdingsleep_eq s i p (ci_cur _ _ _ _ Hci)).
    by rewrite (ci_lock _ _ _ _ Hci i Hi), decide_True.
  - intros b. destruct (cached_dec s b) as [(j & Hj & Hcj)|Hn].
    + rewrite (lc_cached s p L held b j), (lc_cached s' p L held b j); done.
    + rewrite !lc_uncached by done. apply Hdb. intros ->. specialize (Hn i Hi).
      assert (Hc : cached s (b_blockno (bf s i)) i = true); [|by rewrite Hn in Hc].
      apply cached_spec. split_and!; [done|done|by apply (ci_dev _ _ _ _ Hci)].
Qed.

(** ** bunpin, and releasing a buffer *)
Lemma bunpin_spec s p L held i :
  cache_inv s p L held -> i ∈ held -> b_blockno (bf s i) ∈ L -> NoDup L ->
  let L' := List.filter (fun b => negb (b =? b_blockno (bf s i))) L in
  exists s', bunpin i s = Ret tt s' /\ cache_inv s' p L' held /\ (forall b, lc s' b = lc s b) /\
    disk s' = disk s /\ fs_log (k_fs s') = fs_log (k_fs s) /\ (forall j, bc s' j = bc s j) /\
    (forall j, (j < 30)%nat -> b_blockno (bf s' j) = b_blockno (bf s j)).
Proof.
  intros Hci Hih HL Hnd L'. destruct (proj2 (ci_held _ _ _ _ Hci) i Hih) as [Hi Hd].
  assert (HL' : forall b, b ∈ L' <-> b ∈ L /\ b <> b_blockno (bf s i)).
  { intros b. unfold L'. rewrite !list_elem_of_In, filter_In, negb_true_iff, Z.eqb_neq. done. }
  destruct (cache_inv_meta s p L held i (fun b => b <| b_refcnt := u32 (b_refcnt b - 1) |>) L' held) as [Hinv Hlc]; try done.
  - apply Hci.
  - intros b Hb. rewrite HL'. naive_solver.
  - cbn. by rewrite (ci_lock _ _ _ _ Hci i Hi).
  - cbn. rewrite (ci_ref _ _ _ _ Hci i Hi), decide_True by done. unfold pinned. rewrite Hd, Z.eqb_refl. cbn [andb].
    rewrite bool_decide_true, bool_decide_false by (done || rewrite HL'; naive_solver). done.
  - eexists. split; [reflexivity|]. split_and!; try done. intros j Hj.
    change (b_blockno (bf (upd_buf s i (fun b => b <| b_refcnt := u32 (b_refcnt b - 1) |>)) j) = b_blockno (bf s j)).
    rewrite bf_upd by (by rewrite (ci_len _ _ _ _ Hci)). by case_decide.
Qed.

Lemma cache_inv_procs s p L held l :
  cache_inv s p L held -> length l = length (k_proc s) -> procs_at l p = pr s p ->
  cache_inv (s <| k_proc := l |>) p L held.
Proof.
  intros [H1 H2 H3 H4 H5 H6 H7 H8 H9 H10 H11 H12] Hl Hp. split; try assumption.
  - cbn. congruence.
  - intros i Hi. change (pr (s <| k_proc := l |>) p) with (procs_at l p). rewrite Hp. by apply H8.
Qed.
Lemma cache_inv_order s p L held o :
  cache_inv s p L held -> o ≡ₚ seq 0 30 -> cache_inv (s <| k_fs := (k_fs s) <| fs_order := o |> |>) p L held.
Proof. intros [H1 H2 H3 H4 H5 H6 H7 H8 H9 H10 H11 H12] Ho. split; assumption. Qed.

Lemma woken_current s p ch : k_cur s = Some p -> procs_at (imap (woken (k_cur s) ch) (k_proc s)) p = pr s p.
Proof.
  intros Hc. unfold procs_at, pr, procs_at. rewrite list_lookup_imap. destruct (k_proc s !! p); [|done]. cbn.
  unfold woken. rewrite decide_False; [done|]. intros [Hn _]. by apply Hn.
Qed.
Lemma order_front (o : list nat) i n : o ≡ₚ seq 0 n -> (i < n)%nat -> i :: List.filter (fun j => negb (Nat.eqb j i)) o ≡ₚ seq 0 n.
Proof.
  intros Ho Hi. rewrite <- Ho. assert (Hnd : NoDup o) by (rewrite Ho; apply NoDup_seq).
  apply NoDup_Permutation; [|done|].
  - apply NoDup_cons. rewrite NoDup_ListNoDup in Hnd |- *. split; [|by apply List.NoDup_filter].
    rewrite list_elem_of_In, filter_In, Nat.eqb_refl. naive_solver.
  - intros j. rewrite elem_of_cons, !list_elem_of_In, filter_In, negb_true_iff, Nat.eqb_neq, <- list_elem_of_In, Ho, elem_of_seq.
    destruct (decide (j = i)); naive_solver lia.
Qed.

Record brelse_post (s s' : kstate) (p : nat) (L : list Z) (held : list nat) : Prop := {
  rl_inv : cache_inv s' p L held;
  rl_lc : forall b, lc s' b = lc s b;
  rl_disk : disk s' = disk s;
  rl_log : fs_log (k_fs s') = fs_log (k_fs s);
  rl_data : forall j, bc s' j = bc s j;
  rl_block : forall j, (j < 30)%nat -> b_blockno (bf s' j) = b_blockno (bf s j)
}.

Lemma brelse_spec s p L held held' i :
  cache_inv s p L held -> held ≡ₚ i :: held' ->
  (b_blockno (bf s i) ∉ L -> bc s i = disk_block (disk s) (b_blockno (bf s i))) ->
  exists s', brelse i s = Ret tt s' /\ brelse_post s s' p L held'.
Proof.
  intros Hci Hperm Hclean. assert (Hih : i ∈ held) by (rewrite Hperm; left).
  destruct (proj2 (ci_held _ _ _ _ Hci) i Hih) as [Hi Hd]. pose proof (ci_len _ _ _ _ Hci) as Hlen.
  assert (Hnd : NoDup (i :: held')) by (rewrite <- Hperm; apply Hci). apply NoDup_cons in Hnd as [Hi' Hnd'].
  set (f := fun b : buf => b <| b_lock := mklock false 0 |> <| b_refcnt := u32 (b_refcnt b - 1) |>).
  destruct (cache_inv_meta s p L held i f L held') as [Hinv Hlc]; try done.
  { intros j Hj. rewrite Hperm, elem_of_cons. naive_solver. }
  { by rewrite decide_False. }
  { unfold f. cbn. rewrite (ci_ref _ _ _ _ Hci i Hi), decide_True, decide_False by done. destruct (pinned s L i); done. }
  set (s1 := upd_buf s i (fun b => b <| b_lock := mklock false 0 |>)).
  set (sm := upd_buf s i f) in *. set (l := imap (woken (k_cur s) (ChBuf i)) (k_proc s)).
  assert (Hinv3 : cache_inv (sm <| k_proc := l |>) p L held').
  { apply cache_inv_procs; [done|unfold l; by rewrite length_imap|]. apply (woken_current s p). apply Hci. }
  assert (Hlc3 : forall b, lc (sm <| k_proc := l |>) b = lc s b) by (intros b; rewrite <- Hlc; done).
  assert (Hbn : forall j, (j < 30)%nat -> b_blockno (bf (sm <| k_proc := l |>) j) = b_blockno (bf s j)).
  { intros j Hj. change (bf (sm <| k_proc := l |>) j) with (bf sm j). unfold sm. rewrite bf_upd by (by rewrite Hlen).
    by destruct (decide (j = i)). }
  unfold brelse. rewrite (bind_ret _ _ s true s).
  2:{ apply (holdingsleep_eq s i p (ci_cur _ _ _ _ Hci)). by rewrite (ci_lock _ _ _ _ Hci i Hi), decide_True. }
  cbn [negb]. unfold releasesleep.
  rewrite (bind_ret _ _ s tt (s1 <| k_proc := l |>)).
  2:{ rewrite (bind_ret (modify (lr_set (buf_lock i) (mklock false 0))) _ s tt s1 eq_refl). apply (wakeup_eq s1 (ChBuf i)). apply Hci. }
  rewrite (bind_ret (set_buf i _) _ _ tt (sm <| k_proc := l |>)).
  2:{ rewrite set_buf_eq. unfold sm, s1, upd_buf, f. cbn. by rewrite alter_fuse. }
  set (s3 := sm <| k_proc := l |>) in *. rewrite (bind_ret (gets _) _ s3 (b_refcnt (bf s3 i)) s3 eq_refl).
  destruct (b_refcnt (bf s3 i) =? 0); [|by exists s3].
  eexists. split; [reflexivity|]. set (o := i :: List.filter (fun j => negb (Nat.eqb j i)) (fs_order (k_fs s3))).
  assert (Hinv4 : cache_inv (s3 <| k_fs := (k_fs s3) <| fs_order := o |> |>) p L held').
  { apply cache_inv_order; [done|]. apply order_front; [apply Hci|done]. }
  by split.
Qed.

(** With no buffer locked, an unpinned block is as on the disk. *)
Lemma lc_clean s p L b : cache_inv s p L [] -> b ∉ L -> lc s b = disk_block (disk s) b.
Proof.
  intros Hci HL. destruct (cached_dec s b) as [(i & Hi & Hc)|Hn]; [|by apply lc_uncached].
  rewrite (lc_cached s p L [] b i Hci Hi Hc). apply cached_spec in Hc as (_ & <- & Hv).
  apply (ci_clean _ _ _ _ Hci); [done|done|apply not_elem_of_nil|done].
Qed.
(** Copying the data of one locked buffer to another. *)
Lemma memmove_buf s i j :
  (i < 30)%nat -> (j < 30)%nat -> i <> j ->
  bytes (memmove (k_mem s) (kbuf i) (kbuf j) BSIZE) (kbuf i) BSIZE = bc s j /\
  forall k, (k < 30)%nat -> k <> i -> bytes (memmove (k_mem s) (kbuf i) (kbuf j) BSIZE) (kbuf k) BSIZE = bc s k.
Proof.
  intros Hi Hj Hne. unfold BSIZE, bc. split.
  - apply bytes_eq. intros k Hk. unfold BSIZE in Hk. rewrite ld8_memmove, decide_True by lia. f_equal. lia.
  - intros k Hk Hki. apply bytes_eq. intros x Hx. rewrite ld8_memmove by lia. rewrite decide_False; [done|].
    unfold BSIZE in Hx. destruct (kbuf_sep i k Hi Hk ltac:(done)); lia.
Qed.
End Cache.
