(* ===== verification/Virtio.v ===== *)
(** * kernel/virtio_disk.c: the driver of the disk

    The queue of the device as the driver and the device share it: descriptors,
    available ring, used ring.  Addresses that go into descriptors are
    symbolic: the request header [AOps i] (disk.ops[i]), the data of a buffer
    [AData b], the status byte [AStatus i] (disk.info[i].status).  What a
    section under vdisk_lock does is one step; [disk_rw] goes from where the
    process is to where it sleeps next or returns.  wakeup only records the
    channel, in [v_wake]; the system's step relation wakes the processes.  The
    memory barriers order the driver's writes for the device; as the device
    looks at the queue only between the steps, they need no counterpart. *)

From S2P Require Import Prelude FsState.

Definition VIRTIO_MMIO_MAGIC_VALUE : Z := 0x000.
Definition VIRTIO_MMIO_VERSION : Z := 0x004.
Definition VIRTIO_MMIO_DEVICE_ID : Z := 0x008.
Definition VIRTIO_MMIO_VENDOR_ID : Z := 0x00c.
Definition VIRTIO_MMIO_DEVICE_FEATURES : Z := 0x010.
Definition VIRTIO_MMIO_DRIVER_FEATURES : Z := 0x020.
Definition VIRTIO_MMIO_QUEUE_SEL : Z := 0x030.
Definition VIRTIO_MMIO_QUEUE_NUM_MAX : Z := 0x034.
Definition VIRTIO_MMIO_QUEUE_NUM : Z := 0x038.
Definition VIRTIO_MMIO_QUEUE_READY : Z := 0x044.
Definition VIRTIO_MMIO_QUEUE_NOTIFY : Z := 0x050.
Definition VIRTIO_MMIO_INTERRUPT_ACK : Z := 0x064.
Definition VIRTIO_MMIO_STATUS : Z := 0x070.
Definition VIRTIO_MMIO_QUEUE_DESC_LOW : Z := 0x080.
Definition VIRTIO_MMIO_QUEUE_DESC_HIGH : Z := 0x084.
Definition VIRTIO_MMIO_DRIVER_DESC_LOW : Z := 0x090.
Definition VIRTIO_MMIO_DRIVER_DESC_HIGH : Z := 0x094.
Definition VIRTIO_MMIO_DEVICE_DESC_LOW : Z := 0x0a0.
Definition VIRTIO_MMIO_DEVICE_DESC_HIGH : Z := 0x0a4.
Definition VIRTIO_CONFIG_S_ACKNOWLEDGE : Z := 1.
Definition VIRTIO_CONFIG_S_DRIVER : Z := 2.
Definition VIRTIO_CONFIG_S_DRIVER_OK : Z := 4.
Definition VIRTIO_CONFIG_S_FEATURES_OK : Z := 8.
Definition VIRTIO_BLK_F_RO : Z := 5.
Definition VIRTIO_BLK_F_SCSI : Z := 7.
Definition VIRTIO_BLK_F_CONFIG_WCE : Z := 11.
Definition VIRTIO_BLK_F_MQ : Z := 12.
Definition VIRTIO_F_ANY_LAYOUT : Z := 27.
Definition VIRTIO_RING_F_INDIRECT_DESC : Z := 28.
Definition VIRTIO_RING_F_EVENT_IDX : Z := 29.
Definition NUM : nat := 8.
Definition VRING_DESC_F_NEXT : Z := 1.
Definition VRING_DESC_F_WRITE : Z := 2.
Definition VIRTIO_BLK_T_IN : Z := 0.
Definition VIRTIO_BLK_T_OUT : Z := 1.

Inductive vaddr := ANull | AOps (i : nat) | AData (b : nat) | AStatus (i : nat).
(** struct virtq_desc *)
Record virtq_desc := mkdesc { d_addr : vaddr; d_len : Z; d_flags : Z; d_next : Z }.
Definition desc0 : virtq_desc := mkdesc ANull 0 0 0.
(** struct virtio_blk_req *)
Record virtio_blk_req := mkreq { r_type : Z; r_reserved : Z; r_sector : Z }.
Definition req0 : virtio_blk_req := mkreq 0 0 0.
(** What processes sleep on: [&disk.free[0]] or a buffer. *)
Inductive vchan := CFree | CBuf (b : nat).
#[global] Instance vchan_eq : EqDecision vchan.
Proof. solve_decision. Defined.

(** struct disk, with the pages of the queue, [b->disk] and [b->data] of the
    buffers, and the medium by sectors *)
Record vdisk := mkvd {
  v_desc : list virtq_desc;
  v_avail : list Z; v_avail_idx : Z;
  v_used : list Z; v_used_dev : Z;
  v_free : list bool;
  v_used_idx : Z;
  v_info_b : list (option nat); v_info_status : list Z;
  v_ops : list virtio_blk_req;
  v_bdisk : gmap nat Z;
  v_data : gmap nat (list Z);
  v_sect : gmap Z (list Z);
  v_regs : list (Z * Z);
  v_wake : list vchan
}.
#[global] Instance eta_vdisk : Eta vdisk := fun r => mkvd (v_desc r) (v_avail r) (v_avail_idx r) (v_used r) (v_used_dev r) (v_free r)
  (v_used_idx r) (v_info_b r) (v_info_status r) (v_ops r) (v_bdisk r) (v_data r) (v_sect r) (v_regs r) (v_wake r).
Notation V := (M vdisk).
Definition wake_chan (c : vchan) : V unit := modify (fun s => s <| v_wake := v_wake s ++ [c] |>).
Definition set_desc (i : nat) (d : virtq_desc) : V unit := modify (fun s => s <| v_desc := <[i := d]> (v_desc s) |>).
Definition desc_at (s : vdisk) (i : nat) : virtq_desc := default desc0 (v_desc s !! i).
Definition req_at (s : vdisk) (i : nat) : virtio_blk_req := default req0 (v_ops s !! i).
Definition bdisk (s : vdisk) (b : nat) : Z := default 0 (v_bdisk s !! b).
(** [*R(r) = x] *)
Definition wreg (r x : Z) : V unit := modify (fun s => s <| v_regs := v_regs s ++ [(r, u32 x)] |>).

(** ** Descriptors *)

(** alloc_desc *)
Definition alloc_desc : V Z :=
  r ← gets (fun s => find (fun i => default false (v_free s !! i)) (seq 0 NUM));
  match r with
  | Some i => modify (fun s => s <| v_free := <[i := false]> (v_free s) |>);; mret (Z.of_nat i)
  | None => mret (-1)
  end.
(** free_desc *)
Definition free_desc (i : Z) : V unit :=
  if Z.of_nat NUM <=? i then panic "free_desc 1"
  else
    f ← gets (fun s => default false (v_free s !! Z.to_nat i));
    if (f : bool) then panic "free_desc 2"
    else
      set_desc (Z.to_nat i) desc0;;
      modify (fun s => s <| v_free := <[Z.to_nat i := true]> (v_free s) |>);;
      wake_chan CFree.
(** free_chain; a chain that is longer than the table has a loop *)
Fixpoint free_chain_loop (k : nat) (i : Z) : V unit :=
  match k with
  | O => no_fuel
  | S k' =>
      flag ← gets (fun s => d_flags (desc_at s (Z.to_nat i)));
      nxt ← gets (fun s => d_next (desc_at s (Z.to_nat i)));
      free_desc i;;
      if negb (Z.land flag VRING_DESC_F_NEXT =? 0) then free_chain_loop k' nxt else mret tt
  end.
Definition free_chain (i : Z) : V unit := free_chain_loop (S NUM) i.
(** alloc3_desc: the indices, or nothing *)
Fixpoint free_all (idx : list Z) : V unit := match idx with [] => mret tt | i :: r => free_desc i;; free_all r end.
Fixpoint alloc3_loop (n : nat) (idx : list Z) : V (option (list Z)) :=
  match n with
  | O => mret (Some idx)
  | S n' =>
      i ← alloc_desc;
      if i <? 0 then free_all idx;; mret None else alloc3_loop n' (idx ++ [i])
  end.
Definition alloc3_desc : V (option (list Z)) := alloc3_loop 3 [].

(** ** Requests *)
(** sizeof(struct virtio_blk_req) *)
Definition REQ_SIZE : Z := 16.
(** Where a process is in virtio_disk_rw. *)
Inductive vpc := PStart | PWait (i0 i1 i2 : nat) | PDone.

(** The part from the formatting of the descriptors to the notification *)
Definition submit (b : nat) (blockno : Z) (write : bool) (i0 i1 i2 : nat) : V unit :=
  let sector := u32 (blockno * (BSIZE `quot` 512)) in
  modify (fun s => s <| v_ops := <[i0 := mkreq (if write then VIRTIO_BLK_T_OUT else VIRTIO_BLK_T_IN) 0 sector]> (v_ops s) |>);;
  set_desc i0 (mkdesc (AOps i0) REQ_SIZE VRING_DESC_F_NEXT (Z.of_nat i1));;
  set_desc i1 (mkdesc (AData b) BSIZE (Z.lor (if write then 0 else VRING_DESC_F_WRITE) VRING_DESC_F_NEXT) (Z.of_nat i2));;
  modify (fun s => s <| v_info_status := <[i0 := 0xff]> (v_info_status s) |>);;
  set_desc i2 (mkdesc (AStatus i0) 1 VRING_DESC_F_WRITE 0);;
  modify (fun s => s <| v_bdisk := <[b := 1]> (v_bdisk s) |>);;
  modify (fun s => s <| v_info_b := <[i0 := Some b]> (v_info_b s) |>);;
  modify (fun s => s <| v_avail := <[Z.to_nat (v_avail_idx s `mod` Z.of_nat NUM) := Z.of_nat i0]> (v_avail s) |>);;
  modify (fun s => s <| v_avail_idx := u16 (v_avail_idx s + 1) |>);;
  wreg VIRTIO_MMIO_QUEUE_NOTIFY 0.
(** The loop that waits for the interrupt, and what follows it *)
Definition wait_turn (b i0 i1 i2 : nat) : V (vpc * option vchan) :=
  d ← gets (fun s => bdisk s b);
  if d =? 1 then mret (PWait i0 i1 i2, Some (CBuf b))
  else
    modify (fun s => s <| v_info_b := <[i0 := None]> (v_info_b s) |>);;
    free_chain (Z.of_nat i0);;
    mret (PDone, None).
(** virtio_disk_rw: where the process is next, and on what it sleeps *)
Definition disk_rw (b : nat) (blockno : Z) (write : bool) (pc : vpc) : V (vpc * option vchan) :=
  match pc with
  | PStart =>
      r ← alloc3_desc;
      match r with
      | Some [i0; i1; i2] =>
          submit b blockno write (Z.to_nat i0) (Z.to_nat i1) (Z.to_nat i2);;
          wait_turn b (Z.to_nat i0) (Z.to_nat i1) (Z.to_nat i2)
      | _ => mret (PStart, Some CFree)
      end
  | PWait i0 i1 i2 => wait_turn b i0 i1 i2
  | PDone => mret (PDone, None)
  end.

(** ** The interrupt *)

(** virtio_disk_intr; [st] is what the interrupt status register reads *)
Fixpoint intr_loop (k : nat) : V unit :=
  match k with
  | O => no_fuel
  | S k' =>
      i ← gets v_used_idx;
      d ← gets v_used_dev;
      if i =? d then mret tt
      else
        id ← gets (fun s => default 0 (v_used s !! Z.to_nat (i `mod` Z.of_nat NUM)));
        st ← gets (fun s => default 0 (v_info_status s !! Z.to_nat id));
        if negb (st =? 0) then panic "virtio_disk_intr status"
        else
          b ← gets (fun s => default None (v_info_b s !! Z.to_nat id));
          match b with
          | None => fault "virtio_disk_intr: b"
          | Some b =>
              modify (fun s => s <| v_bdisk := <[b := 0]> (v_bdisk s) |>);;
              wake_chan (CBuf b);;
              modify (fun s => s <| v_used_idx := u16 (v_used_idx s + 1) |>);;
              intr_loop k'
          end
  end.
Definition disk_intr (st : Z) : V unit :=
  wreg VIRTIO_MMIO_INTERRUPT_ACK (Z.land st 0x3);;
  k ← gets (fun s => S (Z.to_nat (u16 (v_used_dev s - v_used_idx s))));
  intr_loop k.

(** ** Setting up the device *)
Section Init.
(** What the register reads, after the writes so far. *)
Context (rdreg : list (Z * Z) -> Z -> Z).
Definition rreg (r : Z) : V Z := gets (fun s => rdreg (v_regs s) r).
Definition clear_feature (features bit : Z) : Z := Z.land features (u64 (Z.lnot (Z.shiftl 1 bit))).
(** The features that the driver does not want, in the order it clears them *)
Definition unwanted : list Z :=
  [VIRTIO_BLK_F_RO; VIRTIO_BLK_F_SCSI; VIRTIO_BLK_F_CONFIG_WCE; VIRTIO_BLK_F_MQ; VIRTIO_F_ANY_LAYOUT; VIRTIO_RING_F_EVENT_IDX; VIRTIO_RING_F_INDIRECT_DESC].
(** virtio_disk_init; [desc], [avail] and [used] are the pages that kalloc gives *)
Definition disk_init (desc avail used : Z) : V unit :=
  magic ← rreg VIRTIO_MMIO_MAGIC_VALUE;
  version ← rreg VIRTIO_MMIO_VERSION;
  device ← rreg VIRTIO_MMIO_DEVICE_ID;
  vendor ← rreg VIRTIO_MMIO_VENDOR_ID;
  if negb (magic =? 0x74726976) || negb (version =? 2) || negb (device =? 2) || negb (vendor =? 0x554d4551)
  then panic "could not find virtio disk"
  else
    wreg VIRTIO_MMIO_STATUS 0;;
    wreg VIRTIO_MMIO_STATUS VIRTIO_CONFIG_S_ACKNOWLEDGE;;
    wreg VIRTIO_MMIO_STATUS (Z.lor VIRTIO_CONFIG_S_ACKNOWLEDGE VIRTIO_CONFIG_S_DRIVER);;
    features ← rreg VIRTIO_MMIO_DEVICE_FEATURES;
    wreg VIRTIO_MMIO_DRIVER_FEATURES (foldl clear_feature features unwanted);;
    wreg VIRTIO_MMIO_STATUS (Z.lor (Z.lor VIRTIO_CONFIG_S_ACKNOWLEDGE VIRTIO_CONFIG_S_DRIVER) VIRTIO_CONFIG_S_FEATURES_OK);;
    status ← rreg VIRTIO_MMIO_STATUS;
    if Z.land status VIRTIO_CONFIG_S_FEATURES_OK =? 0 then panic "virtio disk FEATURES_OK unset"
    else
      wreg VIRTIO_MMIO_QUEUE_SEL 0;;
      ready ← rreg VIRTIO_MMIO_QUEUE_READY;
      if negb (ready =? 0) then panic "virtio disk should not be ready"
      else
        max ← rreg VIRTIO_MMIO_QUEUE_NUM_MAX;
        if max =? 0 then panic "virtio disk has no queue 0"
        else if max <? Z.of_nat NUM then panic "virtio disk max queue too short"
        else if (desc =? 0) || (avail =? 0) || (used =? 0) then panic "virtio disk kalloc"
        else
          modify (fun s => s <| v_desc := replicate NUM desc0 |>);;
          modify (fun s => s <| v_avail := replicate NUM 0 |> <| v_avail_idx := 0 |>);;
          modify (fun s => s <| v_used := replicate NUM 0 |> <| v_used_dev := 0 |>);;
          wreg VIRTIO_MMIO_QUEUE_NUM (Z.of_nat NUM);;
          wreg VIRTIO_MMIO_QUEUE_DESC_LOW desc;;
          wreg VIRTIO_MMIO_QUEUE_DESC_HIGH (Z.shiftr desc 32);;
          wreg VIRTIO_MMIO_DRIVER_DESC_LOW avail;;
          wreg VIRTIO_MMIO_DRIVER_DESC_HIGH (Z.shiftr avail 32);;
          wreg VIRTIO_MMIO_DEVICE_DESC_LOW used;;
          wreg VIRTIO_MMIO_DEVICE_DESC_HIGH (Z.shiftr used 32);;
          wreg VIRTIO_MMIO_QUEUE_READY 0x1;;
          modify (fun s => s <| v_free := replicate NUM true |>);;
          wreg VIRTIO_MMIO_STATUS (Z.lor status VIRTIO_CONFIG_S_DRIVER_OK).
End Init.
