(* ===== verification/VirtioSpec.v ===== *)
(** * The disk driver, its device and the invariant of their queue

    Processes in virtio_disk_rw, the interrupt handler and the device as a step
    relation.  The device is a parameter: for a chain of descriptors in the
    form that the virtio specification gives a block request it does the
    transfer, writes the status and appends to the used ring; for anything else
    nothing is known.  It takes requests from the available ring in order and
    completes those it has taken in any order.

    The abstract system has no queue: a request is idle, pending, served or
    returned, and serving it transfers the block between the medium and its
    buffer.

    The invariant [core]: the descriptors of the requests under way and the free
    ones are the eight, each once; every request's chain says what the request
    is; a request is in exactly one of the available ring, the device and the
    used ring as long as its buffer belongs to the disk. *)

From S2P Require Import Prelude FsState Virtio.

(** ** Requests *)
Record vreq := mkrq { rq_b : nat; rq_blockno : Z; rq_write : bool }.
Definition sector (r : vreq) : Z := u32 (rq_blockno r * (BSIZE `quot` 512)).
(** The block of a request as the medium holds it: two sectors. *)
Definition block_of (sect : gmap Z (list Z)) (n : Z) : list Z := default [] (sect !! n) ++ default [] (sect !! (n + 1)).
Definition store_block (sect : gmap Z (list Z)) (n : Z) (bs : list Z) : gmap Z (list Z) :=
  <[n + 1 := drop 512 bs]> (<[n := take 512 bs]> sect).
(** The transfer of a request. *)
Definition transfer_data (r : vreq) (data : gmap nat (list Z)) (sect : gmap Z (list Z)) : gmap nat (list Z) :=
  if rq_write r then data else <[rq_b r := block_of sect (sector r)]> data.
Definition transfer_sect (r : vreq) (data : gmap nat (list Z)) (sect : gmap Z (list Z)) : gmap Z (list Z) :=
  if rq_write r then store_block sect (sector r) (default [] (data !! rq_b r)) else sect.

(** ** The device *)
Record chain (d : vdisk) (r : vreq) (i0 i1 i2 : nat) : Prop := {
  ch_head : desc_at d i0 = mkdesc (AOps i0) REQ_SIZE VRING_DESC_F_NEXT (Z.of_nat i1);
  ch_data : desc_at d i1 = mkdesc (AData (rq_b r)) BSIZE (Z.lor (if rq_write r then 0 else VRING_DESC_F_WRITE) VRING_DESC_F_NEXT) (Z.of_nat i2);
  ch_status : desc_at d i2 = mkdesc (AStatus i0) 1 VRING_DESC_F_WRITE 0;
  ch_req : req_at d i0 = mkreq (if rq_write r then VIRTIO_BLK_T_OUT else VIRTIO_BLK_T_IN) 0 (sector r)
}.
Definition ring_pos (x : Z) : nat := Z.to_nat (x `mod` Z.of_nat NUM).
Definition perform (r : vreq) (i : nat) (d : vdisk) : vdisk :=
  d <| v_data := transfer_data r (v_data d) (v_sect d) |> <| v_sect := transfer_sect r (v_data d) (v_sect d) |>
    <| v_info_status := <[i := 0]> (v_info_status d) |>
    <| v_used := <[ring_pos (v_used_dev d) := Z.of_nat i]> (v_used d) |> <| v_used_dev := u16 (v_used_dev d + 1) |>.

(** ** The system *)
Record vproc := mkvp { q_req : vreq; q_pc : vpc; q_sleep : option vchan }.
Record vsys := mkvs { y_disk : vdisk; y_procs : list vproc; y_seen : Z; y_taken : list Z }.
Definition wake_one (cs : list vchan) (p : vproc) : vproc :=
  match q_sleep p with Some c => if bool_decide (c ∈ cs) then mkvp (q_req p) (q_pc p) None else p | None => p end.
(** The state after a section of the driver: its wakeups take effect. *)
Definition after (d : vdisk) (ps : list vproc) (seen : Z) (taken : list Z) : vsys :=
  mkvs (d <| v_wake := [] |>) (wake_one (v_wake d) <$> ps) seen taken.
Definition rw_of (p : vproc) : V (vpc * option vchan) := disk_rw (rq_b (q_req p)) (rq_blockno (q_req p)) (rq_write (q_req p)) (q_pc p).

Section System.
Context (device : nat -> vdisk -> vdisk -> Prop).
Inductive vstep : vsys -> vsys -> Prop :=
| vs_rw d ps seen taken k p pc sl d' : ps !! k = Some p -> q_sleep p = None -> q_pc p <> PDone -> rw_of p d = Ret (pc, sl) d' ->
    vstep (mkvs d ps seen taken)
      (let y := after d' ps seen taken in mkvs (y_disk y) (<[k := mkvp (q_req p) pc sl]> (y_procs y)) seen taken)
| vs_intr d ps seen taken st d' : disk_intr st d = Ret tt d' -> vstep (mkvs d ps seen taken) (after d' ps seen taken)
| vs_take d ps seen taken : seen <> v_avail_idx d ->
    vstep (mkvs d ps seen taken) (mkvs d ps (u16 (seen + 1)) (default 0 (v_avail d !! ring_pos seen) :: taken))
| vs_complete d ps seen t1 i t2 d' : device i d d' ->
    vstep (mkvs d ps seen (t1 ++ Z.of_nat i :: t2)) (mkvs d' ps seen (t1 ++ t2)).
(** The state that virtio_disk_init leaves, and processes about to start. *)
Record vinit (y : vsys) : Prop := {
  vi_desc : length (v_desc (y_disk y)) = NUM; vi_avail : length (v_avail (y_disk y)) = NUM; vi_used : length (v_used (y_disk y)) = NUM;
  vi_info_b : length (v_info_b (y_disk y)) = NUM; vi_status : length (v_info_status (y_disk y)) = NUM; vi_ops : length (v_ops (y_disk y)) = NUM;
  vi_free : v_free (y_disk y) = replicate NUM true;
  vi_idx : v_avail_idx (y_disk y) = 0 /\ v_used_dev (y_disk y) = 0 /\ v_used_idx (y_disk y) = 0 /\ y_seen y = 0 /\ y_taken y = [];
  vi_wake : v_wake (y_disk y) = [];
  vi_procs : Forall (fun p => q_pc p = PStart /\ q_sleep p = None) (y_procs y);
  vi_bufs : NoDup ((fun p => rq_b (q_req p)) <$> y_procs y)
}.
Inductive vreach : vsys -> Prop :=
| vr_init y : vinit y -> vreach y
| vr_step y y' : vreach y -> vstep y y' -> vreach y'.
End System.

(** ** The abstract system *)
Inductive phase := Idle | Pending | Served | Returned.
Record asys := mkas { a_procs : list (vreq * phase); a_data : gmap nat (list Z); a_sect : gmap Z (list Z) }.
Inductive astep : asys -> asys -> Prop :=
| as_submit ps data sect k r : ps !! k = Some (r, Idle) -> astep (mkas ps data sect) (mkas (<[k := (r, Pending)]> ps) data sect)
| as_serve ps data sect k r : ps !! k = Some (r, Pending) ->
    astep (mkas ps data sect) (mkas (<[k := (r, Served)]> ps) (transfer_data r data sect) (transfer_sect r data sect))
| as_return ps data sect k r : ps !! k = Some (r, Served) -> astep (mkas ps data sect) (mkas (<[k := (r, Returned)]> ps) data sect).

(** The requests between two positions of a ring. *)
Definition ring (l : list Z) (a b : Z) : list Z := (fun k => default 0 (l !! ring_pos (a + Z.of_nat k))) <$> seq 0 (Z.to_nat (u16 (b - a))).
Definition queued (d : vdisk) (seen : Z) : list Z := ring (v_avail d) seen (v_avail_idx d).
Definition finished (d : vdisk) : list Z := ring (v_used d) (v_used_idx d) (v_used_dev d).
Definition phase_of (busy : list Z) (pc : vpc) : phase :=
  match pc with
  | PStart => Idle
  | PWait i _ _ => if bool_decide (Z.of_nat i ∈ busy) then Pending else Served
  | PDone => Returned
  end.
Definition abs (y : vsys) : asys :=
  mkas ((fun p => (q_req p, phase_of (queued (y_disk y) (y_seen y) ++ y_taken y) (q_pc p))) <$> y_procs y) (v_data (y_disk y)) (v_sect (y_disk y)).

(** ** Rings *)
Lemma u16_range x : 0 <= u16 x < 2 ^ 16.
Proof. apply Z.mod_pos_bound. lia. Qed.
Lemma ring_pos_u16 x k : ring_pos (u16 x + k) = ring_pos (x + k).
Proof.
  unfold ring_pos, u16. f_equal. change (Z.of_nat NUM) with 8. rewrite <- (Z.add_mod_idemp_l (x `mod` 2 ^ 16)), <- (Z.add_mod_idemp_l x) by lia.
  f_equal. f_equal. change (2 ^ 16) with (8 * 8192). rewrite Z.rem_mul_r by lia. rewrite Z.mul_comm, Z_mod_plus_full. apply Z.mod_mod. lia.
Qed.
Lemma ring_pos_lt x : (ring_pos x < NUM)%nat.
Proof. unfold ring_pos. pose proof (Z.mod_pos_bound x (Z.of_nat NUM) ltac:(done)). lia. Qed.
Lemma ring_pos_ne x k m : (k < m)%nat -> (m < NUM)%nat -> ring_pos (x + Z.of_nat k) <> ring_pos (x + Z.of_nat m).
Proof.
  unfold ring_pos. change (Z.of_nat NUM) with 8. unfold NUM. intros Hk Hm E.
  pose proof (Z.mod_pos_bound (x + Z.of_nat k) 8 ltac:(lia)). pose proof (Z.mod_pos_bound (x + Z.of_nat m) 8 ltac:(lia)).
  assert (E' : (x + Z.of_nat k) `mod` 8 = (x + Z.of_nat m) `mod` 8) by lia. clear E. Z.div_mod_to_equations. lia.
Qed.
Lemma ring_push l a b x : length l = NUM -> 0 <= a < 2 ^ 16 -> 0 <= b < 2 ^ 16 -> (length (ring l a b) < NUM)%nat ->
  ring (<[ring_pos b := x]> l) a (u16 (b + 1)) = ring l a b ++ [x].
Proof.
  intros Hl Ha Hb. unfold ring. rewrite length_fmap, length_seq. intros Hlt. set (m := Z.to_nat (u16 (b - a))) in *.
  assert (Em : Z.to_nat (u16 (u16 (b + 1) - a)) = S m).
  { unfold m, u16 in *. change (2 ^ 16) with 65536 in *. unfold NUM in *. rewrite Zminus_mod_idemp_l. clear Hl. Z.div_mod_to_equations. lia. }
  assert (Eb : ring_pos b = ring_pos (a + Z.of_nat m)).
  { unfold m. rewrite Z2Nat.id by apply u16_range. rewrite Z.add_comm, ring_pos_u16. f_equal. lia. }
  rewrite Em, seq_S, fmap_app. cbn [fmap list_fmap]. rewrite Eb, list_lookup_insert_eq by (rewrite Hl; apply ring_pos_lt). cbn. f_equal.
  apply list_fmap_ext. intros i k Hk. apply lookup_seq in Hk as [-> Hi]. cbn [Nat.add]. rewrite list_lookup_insert_ne; [done|].
  intros E. by apply (ring_pos_ne a i m Hi Hlt).
Qed.
Lemma ring_pop l a b : 0 <= a < 2 ^ 16 -> 0 <= b < 2 ^ 16 -> a <> b ->
  ring l a b = default 0 (l !! ring_pos a) :: ring l (u16 (a + 1)) b.
Proof.
  intros Ha Hb Hne. unfold ring.
  assert (Em : Z.to_nat (u16 (b - a)) = S (Z.to_nat (u16 (b - u16 (a + 1))))).
  { unfold u16. change (2 ^ 16) with 65536 in *. rewrite Zminus_mod_idemp_r. Z.div_mod_to_equations. lia. }
  rewrite Em. cbn [seq fmap list_fmap]. f_equal; [by rewrite Z.add_0_r|]. rewrite <- fmap_S_seq, <- list_fmap_compose. apply list_fmap_ext. intros i k _. cbn [compose].
  rewrite ring_pos_u16. do 3 f_equal. lia.
Qed.
Lemma ring_same l a : ring l a a = [].
Proof. unfold ring. by rewrite Z.sub_diag. Qed.

(** ** Free descriptors *)
Definition flist (free : list bool) : list nat := List.filter (fun i => default false (free !! i)) (seq 0 NUM).
Lemma find_filter {A} (f : A -> bool) l : find f l = head (List.filter f l).
Proof. induction l as [|x l IH]; [done|]. cbn. by destruct (f x). Qed.
Lemma filter_drop_head (f g : nat -> bool) l x r : NoDup l -> List.filter f l = x :: r -> g x = false -> (forall y, y <> x -> g y = f y) -> List.filter g l = r.
Proof.
  intros Hnd. revert r. induction Hnd as [|y l Hy Hnd IH]; intros r E Hx Hg; [done|]. cbn in *. destruct (f y) eqn:Ef; simplify_eq.
  - rewrite Hx. apply filter_ext_in. intros z Hz. apply Hg. intros ->. apply Hy. by apply list_elem_of_In.
  - rewrite Hg, Ef by (intros ->; destruct (List.filter f l) eqn:El; simplify_eq; assert (Hin : x ∈ List.filter f l) by (rewrite El; constructor); apply list_elem_of_In, filter_In in Hin as [_ ?]; congruence).
    by apply IH.
Qed.
Lemma elem_flist free i : i ∈ flist free <-> (i < NUM)%nat /\ free !! i = Some true.
Proof.
  unfold flist. rewrite list_elem_of_In, filter_In, in_seq. split.
  - intros [? E]. split; [lia|]. by destruct (free !! i) as [[]|].
  - intros [? ->]. split; [lia|done].
Qed.
Lemma flist_nodup free : NoDup (flist free).
Proof. unfold flist. apply NoDup_ListNoDup, List.NoDup_filter, seq_NoDup. Qed.
Lemma flist_take free i rest : length free = NUM -> flist free = i :: rest -> flist (<[i := false]> free) = rest.
Proof.
  intros Hl E. assert (Hi : i ∈ flist free) by (rewrite E; constructor). apply elem_flist in Hi as [Hi _].
  eapply (filter_drop_head _ _ _ i); [apply NoDup_ListNoDup, seq_NoDup|exact E| |]; cbv beta.
  - by rewrite list_lookup_insert_eq by lia.
  - intros y Hy. by rewrite list_lookup_insert_ne by done.
Qed.
Lemma flist_give free i : length free = NUM -> (i < NUM)%nat -> i ∉ flist free -> flist (<[i := true]> free) ≡ₚ i :: flist free.
Proof.
  intros Hl Hi Hn. apply NoDup_Permutation; [apply flist_nodup|by constructor; [|apply flist_nodup]|]. intros x. rewrite elem_of_cons, !elem_flist.
  destruct (decide (x = i)) as [->|N]; [rewrite list_lookup_insert_eq by lia; naive_solver|]. rewrite list_lookup_insert_ne by done. naive_solver.
Qed.

(** ** The operations on descriptors *)
Lemma alloc_desc_some d i rest : flist (v_free d) = i :: rest -> alloc_desc d = Ret (Z.of_nat i) (d <| v_free := <[i := false]> (v_free d) |>).
Proof. intros E. unfold alloc_desc. rewrite bind_gets, find_filter. unfold flist in E. by rewrite E. Qed.
Lemma alloc_desc_none d : flist (v_free d) = [] -> alloc_desc d = Ret (-1) d.
Proof. intros E. unfold alloc_desc. rewrite bind_gets, find_filter. unfold flist in E. by rewrite E. Qed.
Definition freed (i : nat) (d : vdisk) : vdisk :=
  d <| v_desc := <[i := desc0]> (v_desc d) |> <| v_free := <[i := true]> (v_free d) |> <| v_wake := v_wake d ++ [CFree] |>.
Lemma free_desc_ok d i : (i < NUM)%nat -> i ∉ flist (v_free d) -> free_desc (Z.of_nat i) d = Ret tt (freed i d).
Proof.
  intros Hi Hn. unfold free_desc. destruct (Z.leb_spec (Z.of_nat NUM) (Z.of_nat i)); [lia|]. rewrite bind_gets, Nat2Z.id.
  destruct (v_free d !! i) as [[]|] eqn:E; [|done..]. by destruct Hn; apply elem_flist.
Qed.
Definition with_free (d : vdisk) (f : list bool) : vdisk := d <| v_free := f |>.
Lemma alloc3_next n idx d f i rest : flist f = i :: rest -> alloc3_loop (S n) idx (with_free d f) = alloc3_loop n (idx ++ [Z.of_nat i]) (with_free d (<[i := false]> f)).
Proof.
  intros E. cbn [alloc3_loop]. rewrite (bind_ret _ _ _ _ _ (alloc_desc_some (with_free d f) i rest E)). by destruct (Z.ltb_spec (Z.of_nat i) 0); [lia|].
Qed.
Lemma alloc3_ok d a b c rest : length (v_free d) = NUM -> flist (v_free d) = a :: b :: c :: rest ->
  exists free', alloc3_desc d = Ret (Some [Z.of_nat a; Z.of_nat b; Z.of_nat c]) (with_free d free') /\ length free' = NUM /\ flist free' = rest.
Proof.
  intros Hl E0. set (f := v_free d) in *. pose proof (flist_take _ _ _ Hl E0) as E1.
  assert (Hl1 : length (<[a := false]> f) = NUM) by (by rewrite length_insert). pose proof (flist_take _ _ _ Hl1 E1) as E2.
  assert (Hl2 : length (<[b := false]> (<[a := false]> f)) = NUM) by (by rewrite length_insert). pose proof (flist_take _ _ _ Hl2 E2) as E3.
  exists (<[c := false]> (<[b := false]> (<[a := false]> f))). split_and!; [|by rewrite length_insert|done].
  unfold alloc3_desc. assert (Ed : d = with_free d f) by (by destruct d). rewrite Ed at 1. by rewrite (alloc3_next _ _ _ _ _ _ E0), (alloc3_next _ _ _ _ _ _ E1), (alloc3_next _ _ _ _ _ _ E2).
Qed.
(** With fewer than three free descriptors nothing is taken in the end. *)
Lemma flist_back f i : i ∈ flist f -> <[i := true]> (<[i := false]> f) = f.
Proof. intros [_ Hi]%elem_flist. rewrite list_insert_insert_eq. by apply list_insert_id. Qed.
Lemma flist_unset f i : i ∉ flist (<[i := false]> f).
Proof.
  intros [_ Hi]%elem_flist. destruct (decide (i < length f)%nat); [by rewrite list_lookup_insert_eq in Hi|].
  by rewrite lookup_ge_None_2 in Hi by (rewrite length_insert; lia).
Qed.
Definition scrubbed (d : vdisk) (ds : list virtq_desc) (w : list vchan) : vdisk := d <| v_desc := ds |> <| v_wake := v_wake d ++ w |>.
Lemma free_again d f i ds w : (i < NUM)%nat -> i ∉ flist f ->
  free_desc (Z.of_nat i) (scrubbed (with_free d f) ds w) = Ret tt (scrubbed (with_free d (<[i := true]> f)) (<[i := desc0]> ds) (w ++ [CFree])).
Proof. intros Hi Hn. rewrite free_desc_ok by done. unfold freed, scrubbed, with_free. cbn. by rewrite <- app_assoc. Qed.
Lemma alloc3_full d f : length f = NUM -> (length (flist f) < 3)%nat ->
  exists ds w, alloc3_desc (with_free d f) = Ret None (scrubbed (with_free d f) ds w) /\ length ds = length (v_desc d) /\
    (forall i, i ∉ flist f -> ds !! i = v_desc d !! i) /\ Forall (eq CFree) w.
Proof.
  intros Hl Hlt. assert (Es : forall f, with_free d f = scrubbed (with_free d f) (v_desc d) []) by (intros; unfold scrubbed, with_free; cbn; by rewrite app_nil_r).
  assert (Hin : forall i, i ∈ flist f -> (i < NUM)%nat) by (intros i Hi; by apply elem_flist in Hi as [? _]). pose proof (flist_nodup f) as Hnd. unfold alloc3_desc.
  destruct (flist f) as [|a [|b [|c rest]]] eqn:E0; cbn [length] in Hlt; [..|lia].
  - exists (v_desc d), []. cbn [alloc3_loop]. rewrite (bind_ret _ _ _ _ _ (alloc_desc_none (with_free d f) E0)). rewrite <- Es. by split_and!.
  - rewrite (alloc3_next _ _ _ _ _ _ E0). pose proof (flist_take _ _ _ Hl E0) as E1. exists (<[a := desc0]> (v_desc d)), [CFree].
    cbn [alloc3_loop app]. rewrite (bind_ret _ _ _ _ _ (alloc_desc_none (with_free d _) E1)). change (-1 <? 0) with true. cbv iota. cbn [free_all].
    rewrite bind_assoc, Es, (bind_ret _ _ _ _ _ (free_again d _ a _ _ (Hin a ltac:(set_solver)) ltac:(rewrite E1; set_solver))).
    rewrite flist_back by (rewrite E0; set_solver). split_and!; [done|by rewrite length_insert| |by repeat constructor]. intros i Hi. rewrite list_lookup_insert_ne by set_solver. done.
  - rewrite (alloc3_next _ _ _ _ _ _ E0). pose proof (flist_take _ _ _ Hl E0) as E1. assert (Hl1 : length (<[a := false]> f) = NUM) by (by rewrite length_insert).
    pose proof (flist_take _ _ _ Hl1 E1) as E2. rewrite (alloc3_next _ _ _ _ _ _ E1). exists (<[b := desc0]> (<[a := desc0]> (v_desc d))), [CFree; CFree].
    apply NoDup_cons in Hnd as [Hab _]. cbn [alloc3_loop app]. rewrite (bind_ret _ _ _ _ _ (alloc_desc_none (with_free d _) E2)). change (-1 <? 0) with true. cbv iota. cbn [free_all].
    rewrite bind_assoc, Es, (bind_ret _ _ _ _ _ (free_again d _ a _ _ (Hin a ltac:(set_solver)) ltac:(rewrite E2; set_solver))).
    rewrite (list_insert_insert_ne _ a b), flist_back by (set_solver || (rewrite E0; set_solver)).
    rewrite bind_assoc, (bind_ret _ _ _ _ _ (free_again d _ b _ _ (Hin b ltac:(set_solver)) (flist_unset f b))).
    rewrite flist_back by (rewrite E0; set_solver). split_and!; [done|by rewrite !length_insert| |by repeat constructor].
    intros i Hi. rewrite !list_lookup_insert_ne by set_solver. done.
Qed.

(** ** The invariant of the queue

    [A] has the request and the place of every process. *)
Definition act (p : vproc) : vreq * vpc := (q_req p, q_pc p).
Definition hold (x : vreq * vpc) : list nat := match snd x with PWait a b c => [a; b; c] | _ => [] end.
Definition busy (d : vdisk) (seen : Z) (taken : list Z) : list Z := queued d seen ++ taken ++ finished d.
Record live (d : vdisk) (bz : list Z) (r : vreq) (i0 i1 i2 : nat) : Prop := {
  lv_chain : chain d r i0 i1 i2;
  lv_info : v_info_b d !! i0 = Some (Some (rq_b r));
  lv_busy : Z.of_nat i0 ∈ bz <-> bdisk d (rq_b r) = 1
}.
Record core (d : vdisk) (A : list (vreq * vpc)) (seen : Z) (taken : list Z) : Prop := {
  c_len : Forall (fun n => n = NUM) [length (v_desc d); length (v_avail d); length (v_used d); length (v_free d); length (v_info_b d);
    length (v_info_status d); length (v_ops d)];
  c_idx : Forall (fun i => 0 <= i < 2 ^ 16) [v_avail_idx d; v_used_dev d; v_used_idx d; seen];
  c_perm : flist (v_free d) ++ flat_map hold A ≡ₚ seq 0 NUM;
  c_bufs : NoDup ((fun x => rq_b (fst x)) <$> A);
  c_live : forall k r i0 i1 i2, A !! k = Some (r, PWait i0 i1 i2) -> live d (busy d seen taken) r i0 i1 i2;
  c_nodup : NoDup (busy d seen taken);
  c_busy : forall i, i ∈ busy d seen taken -> exists k r i0 i1 i2, A !! k = Some (r, PWait i0 i1 i2) /\ i = Z.of_nat i0;
  c_status : forall i, i ∈ finished d -> v_info_status d !! Z.to_nat i = Some 0
}.

Lemma flat_map_insert {X} (f : X -> list nat) A k x y : A !! k = Some x -> flat_map f (<[k := y]> A) ++ f x ≡ₚ flat_map f A ++ f y.
Proof.
  revert k. induction A as [|z A IH]; intros [|k] E; cbn in E; simplify_eq; cbn [flat_map insert list_insert].
  - rewrite (Permutation_app_comm (f y)), (Permutation_app_comm (f x)), <- !app_assoc. by rewrite (Permutation_app_comm (f x) (f y)).
  - change (insert k y A) with (<[k := y]> A). rewrite <- !app_assoc. by rewrite (IH k E).
Qed.
Lemma flat_map_elem {X} (f : X -> list nat) A k x i : A !! k = Some x -> i ∈ f x -> i ∈ flat_map f A.
Proof. intros Hk Hi. apply list_elem_of_In, in_flat_map. exists x. split; apply list_elem_of_In; [by eapply list_elem_of_lookup_2|done]. Qed.
Lemma flat_map_disjoint {X} (f : X -> list nat) A j k x y i : NoDup (flat_map f A) -> A !! j = Some x -> A !! k = Some y -> i ∈ f x -> i ∈ f y -> j = k.
Proof.
  revert j k. induction A as [|z A IH]; intros j k Hnd Hj Hk Hx Hy; [done|]. cbn [flat_map] in Hnd. apply NoDup_app in Hnd as (_ & Hd & Hnd).
  destruct j as [|j], k as [|k]; cbn in Hj, Hk; simplify_eq; [done|..].
  - destruct (Hd i Hx). by eapply flat_map_elem.
  - destruct (Hd i Hy). by eapply flat_map_elem.
  - f_equal. by eapply IH.
Qed.
Lemma length_hold A : length (flat_map hold A) = (3 * length (flat_map (fun x => take 1 (hold x)) A))%nat.
Proof. induction A as [|[r pc] A IH]; [done|]. cbn [flat_map]. rewrite !length_app, IH. destruct pc; cbn; lia. Qed.

Section Core.
Context (d : vdisk) (A : list (vreq * vpc)) (seen : Z) (taken : list Z) (Hc : core d A seen taken).
Lemma core_nodup : NoDup (flist (v_free d) ++ flat_map hold A).
Proof. rewrite (c_perm _ _ _ _ Hc). apply NoDup_ListNoDup, seq_NoDup. Qed.
Lemma core_held k x i : A !! k = Some x -> i ∈ hold x -> (i < NUM)%nat /\ i ∉ flist (v_free d).
Proof.
  intros Hk Hi. pose proof (flat_map_elem hold A k x i Hk Hi) as Hin. split.
  - assert (i ∈ seq 0 NUM) as [_ ?]%elem_of_seq by (rewrite <- (c_perm _ _ _ _ Hc); set_solver). done.
  - intros Hf. pose proof core_nodup as (_ & Hd & _)%NoDup_app. by destruct (Hd i Hf).
Qed.
Lemma core_apart j k x y i : A !! j = Some x -> A !! k = Some y -> i ∈ hold x -> i ∈ hold y -> j = k.
Proof. intros. pose proof core_nodup as (_ & _ & Hnd)%NoDup_app. by eapply (flat_map_disjoint hold A). Qed.
Lemma core_buf j k x y : A !! j = Some x -> A !! k = Some y -> rq_b (fst x) = rq_b (fst y) -> j = k.
Proof. intros Hj Hk E. eapply (NoDup_lookup _ _ _ _ (c_bufs _ _ _ _ Hc)); rewrite list_lookup_fmap; [by rewrite Hj|by rewrite Hk, E]. Qed.
(** At most two requests are under way: three descriptors each. *)
Lemma core_few : (length (busy d seen taken) <= 2)%nat.
Proof.
  set (heads := Z.of_nat <$> flat_map (fun x => take 1 (hold x)) A).
  assert (Hsub : busy d seen taken ⊆+ heads).
  { apply NoDup_submseteq; [apply Hc|]. intros i (k & r & i0 & i1 & i2 & Hk & ->)%(c_busy _ _ _ _ Hc). apply list_elem_of_fmap_2.
    eapply flat_map_elem; [exact Hk|]. cbn. constructor. }
  apply submseteq_length in Hsub. unfold heads in Hsub. rewrite length_fmap in Hsub.
  assert (Hl : (length (flist (v_free d)) + length (flat_map hold A) = NUM)%nat) by (rewrite <- length_app, (c_perm _ _ _ _ Hc); apply length_seq).
  rewrite length_hold in Hl. unfold NUM in Hl. lia.
Qed.
End Core.

(** ** Every step keeps it *)
Lemma chain_frame d d' r i0 i1 i2 : (forall i, i ∈ [i0; i1; i2] -> v_desc d' !! i = v_desc d !! i) -> v_ops d' !! i0 = v_ops d !! i0 ->
  chain d r i0 i1 i2 -> chain d' r i0 i1 i2.
Proof.
  intros Hd Ho [H0 H1 H2 H3]. unfold desc_at, req_at in *.
  split; unfold desc_at, req_at; [rewrite Hd by set_solver|rewrite Hd by set_solver|rewrite Hd by set_solver|rewrite Ho]; done.
Qed.
Lemma core_scrub d A seen taken ds w : core d A seen taken -> length ds = length (v_desc d) ->
  (forall i, i ∉ flist (v_free d) -> ds !! i = v_desc d !! i) -> core (scrubbed d ds w) A seen taken.
Proof.
  intros Hc Hl Hds. pose proof Hc as [Hlen Hidx Hperm Hbufs Hlive Hnd Hbz Hst]. split; try done; [cbn; by rewrite Hl|].
  intros k r i0 i1 i2 Hk. destruct (Hlive k r i0 i1 i2 Hk) as [Hch Hi Hb]. split; [|done|done].
  apply (chain_frame d); [|done|exact Hch]. intros i Hin. apply Hds. by eapply (core_held d A seen taken Hc k).
Qed.

Definition submitted (r : vreq) (a b c : nat) (d : vdisk) : vdisk :=
  d <| v_ops := <[a := mkreq (if rq_write r then VIRTIO_BLK_T_OUT else VIRTIO_BLK_T_IN) 0 (sector r)]> (v_ops d) |>
    <| v_desc := <[c := mkdesc (AStatus a) 1 VRING_DESC_F_WRITE 0]>
        (<[b := mkdesc (AData (rq_b r)) BSIZE (Z.lor (if rq_write r then 0 else VRING_DESC_F_WRITE) VRING_DESC_F_NEXT) (Z.of_nat c)]>
        (<[a := mkdesc (AOps a) REQ_SIZE VRING_DESC_F_NEXT (Z.of_nat b)]> (v_desc d))) |>
    <| v_info_status := <[a := 0xff]> (v_info_status d) |>
    <| v_bdisk := <[rq_b r := 1]> (v_bdisk d) |>
    <| v_info_b := <[a := Some (rq_b r)]> (v_info_b d) |>
    <| v_avail := <[ring_pos (v_avail_idx d) := Z.of_nat a]> (v_avail d) |>
    <| v_avail_idx := u16 (v_avail_idx d + 1) |>
    <| v_regs := v_regs d ++ [(VIRTIO_MMIO_QUEUE_NOTIFY, u32 0)] |>.
Lemma submit_eq r a b c d : submit (rq_b r) (rq_blockno r) (rq_write r) a b c d = Ret tt (submitted r a b c d).
Proof.
  destruct d. unfold submit, set_desc, wreg. cbv zeta. rewrite !bind_modify. unfold submitted, sector, ring_pos.
  cbn -[u16 u32 Z.quot Z.modulo BSIZE NUM Z.of_nat]. reflexivity.
Qed.
Lemma submitted_chain r a b c d : length (v_desc d) = NUM -> length (v_ops d) = NUM -> (a < NUM)%nat -> (b < NUM)%nat -> (c < NUM)%nat -> NoDup [a; b; c] ->
  chain (submitted r a b c d) r a b c.
Proof.
  intros Hd Ho Ha Hb Hc Hnd. apply NoDup_cons in Hnd as [Na Hnd]. apply NoDup_cons in Hnd as [Nb _]. assert (a <> b /\ a <> c /\ b <> c) as (? & ? & ?) by set_solver.
  split; unfold desc_at, req_at; cbn [v_desc v_ops submitted upd].
  - unfold submitted; cbn. rewrite !list_lookup_insert_ne by done. by rewrite list_lookup_insert_eq by lia.
  - unfold submitted; cbn. rewrite list_lookup_insert_ne by done. by rewrite list_lookup_insert_eq by (rewrite length_insert; lia).
  - unfold submitted; cbn. by rewrite list_lookup_insert_eq by (rewrite !length_insert; lia).
  - unfold submitted; cbn. by rewrite list_lookup_insert_eq by lia.
Qed.
Lemma core_submit d A seen taken k r a b c rest free' : core d A seen taken -> A !! k = Some (r, PStart) -> flist (v_free d) = a :: b :: c :: rest ->
  length free' = NUM -> flist free' = rest ->
  core (submitted r a b c (with_free d free')) (<[k := (r, PWait a b c)]> A) seen taken /\
  queued (submitted r a b c (with_free d free')) seen = queued d seen ++ [Z.of_nat a].
Proof.
  intros Hc Hk Ef Hlf Ef'. pose proof Hc as [Hlen Hidx Hperm Hbufs Hlive Hnd Hbz Hst].
  repeat (apply Forall_cons in Hlen as [? Hlen]). repeat (apply Forall_cons in Hidx as [? Hidx]).
  pose proof (core_nodup _ _ _ _ Hc) as Hn. rewrite Ef in Hn.
  assert (Hin : forall i, i ∈ [a; b; c] -> (i < NUM)%nat) by (intros i Hi; assert (Hi' : i ∈ flist (v_free d)) by (rewrite Ef; set_solver); by apply elem_flist in Hi' as [? _]).
  assert (Hfresh : forall j x i, A !! j = Some x -> i ∈ hold x -> i ∉ [a; b; c]).
  { intros j x i Hj Hi. pose proof (core_held _ _ _ _ Hc j x i Hj Hi) as [_ Hni]. rewrite Ef in Hni. set_solver. }
  set (d' := submitted r a b c (with_free d free')).
  assert (Eq : queued d' seen = queued d seen ++ [Z.of_nat a]).
  { assert (Hf : (length (queued d seen) < NUM)%nat) by (pose proof (core_few _ _ _ _ Hc) as Hf; unfold busy in Hf; rewrite length_app in Hf; unfold NUM; lia).
    by apply (ring_push (v_avail d) seen (v_avail_idx d)). }
  assert (Hna : Z.of_nat a ∉ busy d seen taken).
  { intros (j & r' & i0 & i1 & i2 & Hj & E)%Hbz. apply Nat2Z.inj in E. subst i0. apply (Hfresh j _ a Hj); cbn; set_solver. }
  assert (Ebz : forall i, i ∈ busy d' seen taken <-> i = Z.of_nat a \/ i ∈ busy d seen taken) by (intros i; unfold busy; rewrite Eq; change (finished d') with (finished d); rewrite !elem_of_app, list_elem_of_singleton; tauto).
  assert (Hne : forall j x, A !! j = Some x -> j <> k -> rq_b (fst x) <> rq_b r) by (intros j x Hj N E; destruct N; by apply (core_buf _ _ _ _ Hc j k x (r, PStart))).
  split; [|done]. split.
  - cbn. rewrite !length_insert. by repeat constructor.
  - apply Forall_cons. split; [apply u16_range|]. by repeat (apply Forall_cons; split).
  - change (v_free d') with free'. rewrite Ef'. pose proof (flat_map_insert hold A k (r, PStart) (r, PWait a b c) Hk) as Hp. cbn [hold snd] in Hp. rewrite app_nil_r in Hp.
    rewrite Hp, <- Hperm, Ef. cbn. rewrite (Permutation_app_comm (flat_map hold A)), app_assoc, (Permutation_app_comm rest). done.
  - rewrite list_fmap_insert, list_insert_id; [done|]. by rewrite list_lookup_fmap, Hk.
  - intros j r' i0 i1 i2 Hj. destruct (decide (j = k)) as [->|N].
    + rewrite list_lookup_insert_eq in Hj by (by eapply lookup_lt_Some). simplify_eq. split.
      * apply submitted_chain; try done; try (apply Hin; set_solver). apply NoDup_cons in Hn as [? Hn]. apply NoDup_cons in Hn as [? Hn]. apply NoDup_cons in Hn as [? Hn].
        repeat constructor; set_solver.
      * cbn. rewrite list_lookup_insert_eq; [done|]. pose proof (Hin i0 ltac:(set_solver)). lia.
      * rewrite Ebz. unfold bdisk. cbn. rewrite lookup_insert_eq. naive_solver.
    + rewrite list_lookup_insert_ne in Hj by done. destruct (Hlive j r' i0 i1 i2 Hj) as [Hch Hi Hb].
      assert (Hfr : forall i, i ∈ [i0; i1; i2] -> i ∉ [a; b; c]) by (intros i Hii; by apply (Hfresh j _ i Hj)).
      pose proof (Hfr i0 ltac:(set_solver)) as Hf0. split.
      * apply (chain_frame d); [|cbn; by rewrite list_lookup_insert_ne by set_solver|done]. intros i Hii. pose proof (Hfr i Hii). cbn. rewrite !list_lookup_insert_ne by set_solver. done.
      * cbn. by rewrite list_lookup_insert_ne by set_solver.
      * rewrite Ebz. unfold bdisk in *. cbn. rewrite lookup_insert_ne by (intros E; by apply (Hne j (r', PWait i0 i1 i2) Hj N)). rewrite <- Hb.
        split; [|by right]. intros [E|?]; [|done]. apply Nat2Z.inj in E. set_solver.
  - unfold busy. rewrite Eq. change (finished d') with (finished d). rewrite <- app_assoc. cbn [app]. rewrite <- Permutation_middle. by apply NoDup_cons.
  - intros i [->|Hi]%Ebz.
    + exists k, r, a, b, c. split; [|done]. apply list_lookup_insert_eq. by eapply lookup_lt_Some.
    + destruct (Hbz i Hi) as (j & r' & i0 & i1 & i2 & Hj & ->). exists j, r', i0, i1, i2. split; [|done]. rewrite list_lookup_insert_ne; [done|]. intros ->. congruence.
  - intros i Hi. change (finished d') with (finished d) in Hi. cbn. rewrite list_lookup_insert_ne; [by apply Hst|]. intros E. apply Hna.
    destruct (Hbz i ltac:(unfold busy; set_solver)) as (j & r' & i0 & i1 & i2 & Hj & ->). rewrite Nat2Z.id in E. subst i0. unfold busy. set_solver.
Qed.

Definition released (i0 i1 i2 : nat) (d : vdisk) : vdisk := freed i2 (freed i1 (freed i0 (d <| v_info_b := <[i0 := None]> (v_info_b d) |>))).
Lemma desc_freed d i j : i <> j -> desc_at (freed i d) j = desc_at d j.
Proof. intros N. unfold desc_at, freed. cbn. by rewrite list_lookup_insert_ne. Qed.
Lemma flist_freed d i : length (v_free d) = NUM -> (i < NUM)%nat -> i ∉ flist (v_free d) -> flist (v_free (freed i d)) ≡ₚ i :: flist (v_free d) /\ length (v_free (freed i d)) = NUM.
Proof. intros Hl Hi Hn. split; [by apply flist_give|]. unfold freed. cbn. by rewrite length_insert. Qed.
Lemma free_chain_step k i d : (i < NUM)%nat -> i ∉ flist (v_free d) ->
  free_chain_loop (S k) (Z.of_nat i) d =
  (if negb (Z.land (d_flags (desc_at d i)) VRING_DESC_F_NEXT =? 0) then free_chain_loop k (d_next (desc_at d i)) else mret tt) (freed i d).
Proof. intros Hi Hn. cbn [free_chain_loop]. rewrite !bind_gets, Nat2Z.id. by rewrite (bind_ret _ _ _ _ _ (free_desc_ok d i Hi Hn)). Qed.
Lemma released_free d i0 i1 i2 : length (v_free d) = NUM -> (forall i, i ∈ [i0; i1; i2] -> (i < NUM)%nat /\ i ∉ flist (v_free d)) -> NoDup [i0; i1; i2] ->
  flist (v_free (freed i0 d)) ≡ₚ i0 :: flist (v_free d) /\ flist (v_free (freed i1 (freed i0 d))) ≡ₚ i1 :: i0 :: flist (v_free d) /\
  flist (v_free (freed i2 (freed i1 (freed i0 d)))) ≡ₚ i2 :: i1 :: i0 :: flist (v_free d).
Proof.
  intros Hl Hi Hnd. apply NoDup_cons in Hnd as [N0 Hnd]. apply NoDup_cons in Hnd as [N1 _].
  destruct (Hi i0 ltac:(set_solver)) as [? F0], (Hi i1 ltac:(set_solver)) as [? F1], (Hi i2 ltac:(set_solver)) as [? F2].
  destruct (flist_freed d i0 Hl ltac:(done) F0) as [P0 L0].
  destruct (flist_freed (freed i0 d) i1 L0 ltac:(done)) as [P1 L1]; [rewrite P0; set_solver|].
  destruct (flist_freed (freed i1 (freed i0 d)) i2 L1 ltac:(done)) as [P2 _]; [rewrite P1, P0; set_solver|].
  split_and!; [done|by rewrite P1, P0|by rewrite P2, P1, P0].
Qed.
Lemma wait_turn_done d r i0 i1 i2 : length (v_free d) = NUM -> (forall i, i ∈ [i0; i1; i2] -> (i < NUM)%nat /\ i ∉ flist (v_free d)) -> NoDup [i0; i1; i2] ->
  chain d r i0 i1 i2 -> bdisk d (rq_b r) <> 1 -> wait_turn (rq_b r) i0 i1 i2 d = Ret (PDone, None) (released i0 i1 i2 d).
Proof.
  intros Hl Hi Hnd [C0 C1 C2 _] Hb. unfold wait_turn. rewrite bind_gets. destruct (Z.eqb_spec (bdisk d (rq_b r)) 1); [done|]. rewrite bind_modify.
  set (d1 := d <| v_info_b := _ |>). destruct (released_free d1 i0 i1 i2 Hl Hi Hnd) as (P0 & P1 & _). change (v_free d1) with (v_free d) in *.
  pose proof Hnd as [N0 Hnd']%NoDup_cons. apply NoDup_cons in Hnd' as [N1 _]. unfold free_chain.
  destruct (Hi i0 ltac:(set_solver)) as [? F0], (Hi i1 ltac:(set_solver)) as [? F1], (Hi i2 ltac:(set_solver)) as [? F2].
  assert (E : free_chain_loop (S NUM) (Z.of_nat i0) d1 = Ret tt (released i0 i1 i2 d)); [|by rewrite (bind_ret _ _ _ _ _ E)]. unfold NUM.
  rewrite free_chain_step by done. change (desc_at d1 i0) with (desc_at d i0). rewrite C0. cbn [d_flags d_next]. change (negb (Z.land _ _ =? 0)) with true. cbv iota.
  rewrite free_chain_step by (done || (rewrite P0; set_solver)). rewrite desc_freed by set_solver. change (desc_at d1 i1) with (desc_at d i1). rewrite C1. cbn [d_flags d_next].
  replace (negb _) with true by (by destruct (rq_write r)). rewrite free_chain_step by (done || (rewrite P1; set_solver)).
  rewrite !desc_freed by set_solver. change (desc_at d1 i2) with (desc_at d i2). rewrite C2. done.
Qed.
Lemma core_chain d A seen taken k r i0 i1 i2 : core d A seen taken -> A !! k = Some (r, PWait i0 i1 i2) ->
  (forall i, i ∈ [i0; i1; i2] -> (i < NUM)%nat /\ i ∉ flist (v_free d)) /\ NoDup [i0; i1; i2].
Proof.
  intros Hc Hk. split; [intros i Hi; by apply (core_held _ _ _ _ Hc k _ i Hk)|].
  pose proof (core_nodup _ _ _ _ Hc) as (_ & _ & Hnd)%NoDup_app. apply list_elem_of_split_length in Hk as (A1 & A2 & -> & _).
  rewrite flat_map_app in Hnd. apply NoDup_app in Hnd as (_ & _ & Hnd). cbn [flat_map] in Hnd. by apply NoDup_app in Hnd as (? & _ & _).
Qed.
Lemma core_finish d A seen taken k r i0 i1 i2 : core d A seen taken -> A !! k = Some (r, PWait i0 i1 i2) -> bdisk d (rq_b r) <> 1 ->
  core (released i0 i1 i2 d) (<[k := (r, PDone)]> A) seen taken.
Proof.
  intros Hc Hk Hb. destruct (core_chain _ _ _ _ _ _ _ _ _ Hc Hk) as [Hi Hnd3]. pose proof Hc as [Hlen Hidx Hperm Hbufs Hlive Hnd Hbz Hst].
  assert (Hl : length (v_free d) = NUM) by (by repeat (apply Forall_cons in Hlen as [? Hlen])).
  assert (P : flist (v_free (released i0 i1 i2 d)) ≡ₚ i2 :: i1 :: i0 :: flist (v_free d)).
  { by destruct (released_free (d <| v_info_b := <[i0 := None]> (v_info_b d) |>) i0 i1 i2 Hl Hi Hnd3) as (_ & _ & P). }
  set (d' := released i0 i1 i2 d) in *. change (busy d seen taken) with (busy d' seen taken) in *.
  split; try done.
  - cbn. rewrite !length_insert. done.
  - rewrite P. pose proof (flat_map_insert hold A k (r, PWait i0 i1 i2) (r, PDone) Hk) as Hp. change (hold (r, PDone)) with (@nil nat) in Hp.
    change (hold (r, PWait i0 i1 i2)) with [i0; i1; i2] in Hp. rewrite app_nil_r in Hp. rewrite <- Hperm, <- Hp. rewrite (Permutation_app_comm (flat_map _ _)), app_assoc.
    f_equiv. rewrite (Permutation_app_comm _ [i0; i1; i2]). cbn [app]. rewrite (Permutation_swap i1 i2), (Permutation_swap i0 i2), (Permutation_swap i0 i1). done.
  - rewrite list_fmap_insert, list_insert_id; [done|]. by rewrite list_lookup_fmap, Hk.
  - intros j r' j0 j1 j2 Hj. assert (N : j <> k) by (intros ->; rewrite list_lookup_insert_eq in Hj; [done|by eapply lookup_lt_Some]).
    rewrite list_lookup_insert_ne in Hj by done. destruct (Hlive j r' j0 j1 j2 Hj) as [Hch Hin Hbu].
    assert (Hap : forall i, i ∈ [j0; j1; j2] -> i <> i0 /\ i <> i1 /\ i <> i2).
    { intros i Hii. split_and!; intros ->; apply N; eapply (core_apart _ _ _ _ Hc j k); [exact Hj|exact Hk|exact Hii|cbn; set_solver +|exact Hj|exact Hk|exact Hii|cbn; set_solver +|exact Hj|exact Hk|exact Hii|cbn; set_solver +]. }
    split; [|cbn; rewrite list_lookup_insert_ne; [done|apply not_eq_sym, Hap; set_solver +]|done].
    apply (chain_frame d); [|done|done]. intros i Hii. destruct (Hap i Hii) as (? & ? & ?). cbn. by rewrite !list_lookup_insert_ne.
  - intros i Hii. destruct (Hbz i Hii) as (j & r' & j0 & j1 & j2 & Hj & ->). exists j, r', j0, j1, j2. split; [|done]. rewrite list_lookup_insert_ne; [done|].
    intros ->. rewrite Hk in Hj. simplify_eq. apply Hb. by apply (lv_busy _ _ _ _ _ _ (Hlive _ _ _ _ _ Hk)).
Qed.

(** One entry of the used ring. *)
Definition noted (b : nat) (d : vdisk) : vdisk :=
  d <| v_bdisk := <[b := 0]> (v_bdisk d) |> <| v_wake := v_wake d ++ [CBuf b] |> <| v_used_idx := u16 (v_used_idx d + 1) |>.
Lemma core_ranges d A seen taken : core d A seen taken ->
  0 <= v_avail_idx d < 2 ^ 16 /\ 0 <= v_used_dev d < 2 ^ 16 /\ 0 <= v_used_idx d < 2 ^ 16 /\ 0 <= seen < 2 ^ 16.
Proof. intros Hc. pose proof (c_idx _ _ _ _ Hc) as H. by repeat (apply Forall_cons in H as [? H]). Qed.
Lemma finished_noted b d : 0 <= v_used_dev d < 2 ^ 16 -> 0 <= v_used_idx d < 2 ^ 16 -> v_used_idx d <> v_used_dev d ->
  finished d = default 0 (v_used d !! ring_pos (v_used_idx d)) :: finished (noted b d).
Proof. intros. unfold finished, noted. by apply ring_pop. Qed.
Lemma core_noted d A seen taken k r i0 i1 i2 rest : core d A seen taken -> A !! k = Some (r, PWait i0 i1 i2) ->
  finished d = Z.of_nat i0 :: rest -> finished (noted (rq_b r) d) = rest -> core (noted (rq_b r) d) A seen taken.
Proof.
  intros Hc Hk E E'. pose proof Hc as [Hlen Hidx Hperm Hbufs Hlive Hnd Hbz Hst]. set (d' := noted (rq_b r) d) in *.
  assert (Ebz : busy d seen taken ≡ₚ Z.of_nat i0 :: busy d' seen taken).
  { unfold busy. rewrite E, E'. change (queued d' seen) with (queued d seen). rewrite !app_assoc. symmetry. apply Permutation_middle. }
  assert (Hni : Z.of_nat i0 ∉ busy d' seen taken /\ NoDup (busy d' seen taken)) by (rewrite Ebz in Hnd; by apply NoDup_cons in Hnd). destruct Hni as [Hni Hnd'].
  split; try done.
  - destruct (core_ranges _ _ _ _ Hc) as (? & ? & ? & ?). repeat (apply Forall_cons; split); try done; apply u16_range.
  - intros j r' j0 j1 j2 Hj. destruct (Hlive j r' j0 j1 j2 Hj) as [Hch Hin Hbu]. split; [exact (chain_frame d d' _ _ _ _ ltac:(done) ltac:(done) Hch)|done|].
    unfold bdisk in *. cbn. destruct (decide (rq_b r' = rq_b r)) as [Eb|Nb].
    + assert (j = k) as -> by (by apply (core_buf _ _ _ _ Hc j k (r', PWait j0 j1 j2) (r, PWait i0 i1 i2))). rewrite Hk in Hj. simplify_eq. rewrite lookup_insert_eq. cbn. split; [done|lia].
    + rewrite lookup_insert_ne by done. rewrite <- Hbu, Ebz, elem_of_cons. split; [by right|]. intros [Ej|?]; [|done]. apply Nat2Z.inj in Ej. subst j0.
      assert (j = k) as -> by (eapply (core_apart _ _ _ _ Hc j k _ _ i0 Hj Hk); cbn; constructor). congruence.
  - intros i Hi. apply Hbz. rewrite Ebz. by right.
  - intros i Hi. apply Hst. rewrite E. right. by rewrite <- E'.
Qed.
Lemma core_take d A seen taken : core d A seen taken -> seen <> v_avail_idx d ->
  let x := default 0 (v_avail d !! ring_pos seen) in
  core d A (u16 (seen + 1)) (x :: taken) /\ queued d seen ++ taken ≡ₚ queued d (u16 (seen + 1)) ++ x :: taken.
Proof.
  intros Hc Hne x. destruct (core_ranges _ _ _ _ Hc) as (? & ? & ? & ?). pose proof Hc as [Hlen Hidx Hperm Hbufs Hlive Hnd Hbz Hst].
  assert (Eq : queued d seen = x :: queued d (u16 (seen + 1))) by (by apply ring_pop).
  assert (Ebz : busy d seen taken ≡ₚ busy d (u16 (seen + 1)) (x :: taken)) by (unfold busy; rewrite Eq; cbn [app]; apply Permutation_middle).
  split; [|rewrite Eq; cbn [app]; apply Permutation_middle]. split; try done.
  - repeat (apply Forall_cons; split); try done; apply u16_range.
  - intros j r i0 i1 i2 Hj. destruct (Hlive j r i0 i1 i2 Hj) as [Hch Hin Hbu]. split; [done|done|]. by rewrite <- Ebz.
  - by rewrite <- Ebz.
  - intros i Hi. apply Hbz. by rewrite Ebz.
Qed.
Lemma core_perform d A seen t1 t2 k r i0 i1 i2 : core d A seen (t1 ++ Z.of_nat i0 :: t2) -> A !! k = Some (r, PWait i0 i1 i2) ->
  core (perform r i0 d) A seen (t1 ++ t2).
Proof.
  intros Hc Hk. destruct (core_ranges _ _ _ _ Hc) as (? & ? & ? & ?). pose proof Hc as [Hlen Hidx Hperm Hbufs Hlive Hnd Hbz Hst]. set (d' := perform r i0 d).
  assert (Eu : finished d' = finished d ++ [Z.of_nat i0]).
  { assert (Hf : (length (finished d) < NUM)%nat) by (pose proof (core_few _ _ _ _ Hc) as Hf; unfold busy in Hf; rewrite !length_app in Hf; unfold NUM; lia).
    apply (ring_push (v_used d) (v_used_idx d) (v_used_dev d)); [by repeat (apply Forall_cons in Hlen as [? Hlen])|done..]. }
  assert (Ebz : busy d seen (t1 ++ Z.of_nat i0 :: t2) ≡ₚ busy d' seen (t1 ++ t2)).
  { unfold busy. rewrite Eu. change (queued d' seen) with (queued d seen). f_equiv. rewrite <- (Permutation_middle t1 t2), (Permutation_app_comm (finished d)). cbn [app].
    apply Permutation_middle. }
  split; try done.
  - cbn. by rewrite !length_insert.
  - repeat (apply Forall_cons; split); try done; apply u16_range.
  - intros j r' j0 j1 j2 Hj. destruct (Hlive j r' j0 j1 j2 Hj) as [Hch Hin Hbu]. split; [exact (chain_frame d d' _ _ _ _ ltac:(done) ltac:(done) Hch)|done|]. by rewrite <- Ebz.
  - by rewrite <- Ebz.
  - intros i Hi. apply Hbz. by rewrite Ebz.
  - intros i Hi. rewrite Eu in Hi. cbn. destruct (decide (Z.to_nat i = i0)) as [E|N].
    + rewrite E. apply list_lookup_insert_eq. pose proof (core_chain _ _ _ _ _ _ _ _ _ Hc Hk) as [Hr _]. destruct (Hr i0 ltac:(set_solver +)) as [? _].
      repeat (apply Forall_cons in Hlen as [? Hlen]). lia.
    + rewrite list_lookup_insert_ne by done. apply Hst. apply elem_of_app in Hi as [?|Hi]; [done|]. apply list_elem_of_singleton in Hi. subst i. by rewrite Nat2Z.id in N.
Qed.

(** ** Sleeping processes *)
Definition asleep (d : vdisk) (p : vproc) : Prop :=
  match q_sleep p with
  | None => True
  | Some CFree => q_pc p = PStart /\ (length (flist (v_free d)) < 3)%nat
  | Some (CBuf b) => b = rq_b (q_req p) /\ (exists i0 i1 i2, q_pc p = PWait i0 i1 i2) /\ bdisk d b = 1
  end.
(** From [d] to [d'] with the wakeups [w]: who is not woken still has to wait. *)
Definition quiet (d d' : vdisk) (w : list vchan) : Prop :=
  (CFree ∉ w -> (length (flist (v_free d)) < 3)%nat -> (length (flist (v_free d')) < 3)%nat) /\
  (forall b, CBuf b ∉ w -> bdisk d b = 1 -> bdisk d' b = 1).
Lemma asleep_quiet d d' w p : quiet d d' w -> asleep d p -> asleep d' (wake_one w p).
Proof.
  intros [Hf Hb] Hp. unfold asleep, wake_one in *. destruct (q_sleep p) as [[|b]|] eqn:E; [..|by rewrite E];
    (case_bool_decide; [done|]); rewrite E; naive_solver.
Qed.
Lemma act_wake w (ps : list vproc) : act <$> (wake_one w <$> ps) = act <$> ps.
Proof. rewrite <- list_fmap_compose. apply list_fmap_ext. intros i p _. cbn. unfold act, wake_one. destruct (q_sleep p); [case_bool_decide|]; done. Qed.

(** ** The sections of the driver in a state of the invariant *)

(** What one turn of virtio_disk_rw can do to the place of its process. *)
Inductive moved (d d' : vdisk) (A : list (vreq * vpc)) (seen : Z) (taken : list Z) : vpc -> vpc -> Prop :=
| mv_same pc : queued d' seen = queued d seen -> moved d d' A seen taken pc pc
| mv_submit i0 i1 i2 : queued d' seen = queued d seen ++ [Z.of_nat i0] -> (forall j x, A !! j = Some x -> i0 ∉ hold x) ->
    moved d d' A seen taken PStart (PWait i0 i1 i2)
| mv_finish i0 i1 i2 : queued d' seen = queued d seen -> Z.of_nat i0 ∉ busy d seen taken -> moved d d' A seen taken (PWait i0 i1 i2) PDone.
Record turned (d : vdisk) (A : list (vreq * vpc)) (seen : Z) (taken : list Z) (k : nat) (p : vproc) (pc : vpc) (sl : option vchan) (d' : vdisk) : Prop := {
  tn_core : core d' (<[k := (q_req p, pc)]> A) seen taken;
  tn_self : asleep d' (mkvp (q_req p) pc sl);
  tn_wake : exists w, v_wake d' = v_wake d ++ w /\ quiet d d' w;
  tn_data : v_data d' = v_data d;
  tn_sect : v_sect d' = v_sect d;
  tn_moved : moved d d' A seen taken (q_pc p) pc
}.
Lemma turn_full d A seen taken k p : core d A seen taken -> A !! k = Some (act p) -> q_pc p = PStart -> (length (flist (v_free d)) < 3)%nat ->
  exists d', rw_of p d = Ret (PStart, Some CFree) d' /\ turned d A seen taken k p PStart (Some CFree) d'.
Proof.
  intros Hc Hk Hpc Hlt. assert (Ed : d = with_free d (v_free d)) by (by destruct d). assert (Hl : length (v_free d) = NUM).
  { pose proof (c_len _ _ _ _ Hc) as Hlen. by repeat (apply Forall_cons in Hlen as [? Hlen]). }
  destruct (alloc3_full d (v_free d) Hl Hlt) as (ds & w & E & Hds & Hfr & Hw). rewrite <- Ed in E. exists (scrubbed d ds w). split.
  - unfold rw_of, disk_rw. rewrite Hpc. by rewrite (bind_ret _ _ _ _ _ E).
  - split; try done; [|by exists w; split; [|split]|rewrite Hpc; by apply mv_same]. rewrite <- Hpc. fold (act p). rewrite list_insert_id by done. by apply core_scrub.
Qed.
Lemma turn_submit d A seen taken k p a b c rest : core d A seen taken -> A !! k = Some (act p) -> q_pc p = PStart -> flist (v_free d) = a :: b :: c :: rest ->
  exists d', rw_of p d = Ret (PWait a b c, Some (CBuf (rq_b (q_req p)))) d' /\ turned d A seen taken k p (PWait a b c) (Some (CBuf (rq_b (q_req p)))) d'.
Proof.
  intros Hc Hk Hpc Ef. unfold act in Hk. rewrite Hpc in Hk. assert (Hl : length (v_free d) = NUM).
  { pose proof (c_len _ _ _ _ Hc) as Hlen. by repeat (apply Forall_cons in Hlen as [? Hlen]). }
  destruct (alloc3_ok d a b c rest Hl Ef) as (free' & E & Hl' & Ef'). destruct (core_submit d A seen taken k (q_req p) a b c rest free' Hc Hk Ef Hl' Ef') as [Hc' Eq].
  set (d' := submitted (q_req p) a b c (with_free d free')) in *. assert (Hb : bdisk d' (rq_b (q_req p)) = 1) by (unfold bdisk; cbn; by rewrite lookup_insert_eq).
  exists d'. split.
  - unfold rw_of, disk_rw. rewrite Hpc, (bind_ret _ _ _ _ _ E). cbv beta iota. rewrite !Nat2Z.id, (bind_ret _ _ _ _ _ (submit_eq _ _ _ _ _)).
    unfold wait_turn. rewrite bind_gets. fold d'. by rewrite Hb.
  - split; try done.
    + split_and!; [done|by eexists _, _, _|done].
    + exists []. split; [by rewrite app_nil_r|]. split; [change (v_free d') with free'; rewrite Ef', Ef; cbn; lia|].
      intros b' _ Hb'. unfold bdisk in *. cbn. destruct (decide (b' = rq_b (q_req p))) as [->|N]; [by rewrite lookup_insert_eq|by rewrite lookup_insert_ne].
    + rewrite Hpc. apply mv_submit; [done|]. intros j x Hj Hin. pose proof (core_held _ _ _ _ Hc j x a Hj Hin) as [_ Hni]. apply Hni. rewrite Ef. constructor.
Qed.
Lemma turn_wait d A seen taken k p i0 i1 i2 : core d A seen taken -> A !! k = Some (act p) -> q_pc p = PWait i0 i1 i2 ->
  exists pc sl d', rw_of p d = Ret (pc, sl) d' /\ turned d A seen taken k p pc sl d'.
Proof.
  intros Hc Hk Hpc. pose proof Hk as Hk'. unfold act in Hk'. rewrite Hpc in Hk'. destruct (c_live _ _ _ _ Hc _ _ _ _ _ Hk') as [Hch Hin Hbu].
  unfold rw_of, disk_rw. rewrite Hpc. destruct (decide (bdisk d (rq_b (q_req p)) = 1)) as [Hb|Hb].
  - exists (PWait i0 i1 i2), (Some (CBuf (rq_b (q_req p)))), d. split; [unfold wait_turn; rewrite bind_gets; by rewrite Hb|]. split; try done.
    + rewrite <- Hpc. fold (act p). by rewrite list_insert_id.
    + split_and!; [done|by eexists _, _, _|done].
    + exists []. split; [by rewrite app_nil_r|by split].
    + rewrite Hpc. by apply mv_same.
  - destruct (core_chain _ _ _ _ _ _ _ _ _ Hc Hk') as [Hi Hnd]. exists PDone, None, (released i0 i1 i2 d). split.
    + apply (wait_turn_done d (q_req p)); [|done..]. pose proof (c_len _ _ _ _ Hc) as Hlen. by repeat (apply Forall_cons in Hlen as [? Hlen]).
    + split; try done; [by apply core_finish| |rewrite Hpc; apply mv_finish; [done|by rewrite Hbu]].
      exists [CFree; CFree; CFree]. split; [unfold released, freed; cbn; by rewrite <- !app_assoc|]. split; [|done]. intros Hn. destruct Hn. constructor.
Qed.
Lemma rw_turn d A seen taken k p : core d A seen taken -> A !! k = Some (act p) -> q_pc p <> PDone ->
  exists pc sl d', rw_of p d = Ret (pc, sl) d' /\ turned d A seen taken k p pc sl d'.
Proof.
  intros Hc Hk Hpc. destruct (q_pc p) as [|i0 i1 i2|] eqn:E; [|by eapply turn_wait|done].
  destruct (flist (v_free d)) as [|a [|b [|c rest]]] eqn:Ef.
  1-3: destruct (turn_full d A seen taken k p Hc Hk E ltac:(rewrite Ef; cbn; lia)) as (d' & E1 & H1); by exists PStart, (Some CFree), d'.
  destruct (turn_submit d A seen taken k p a b c rest Hc Hk E Ef) as (d' & E1 & H1). by eexists _, _, d'.
Qed.

Record swept (d : vdisk) (A : list (vreq * vpc)) (seen : Z) (taken : list Z) (d' : vdisk) : Prop := {
  sw_core : core d' A seen taken;
  sw_done : finished d' = [];
  sw_queued : queued d' seen = queued d seen;
  sw_wake : exists w, v_wake d' = v_wake d ++ w /\ quiet d d' w;
  sw_data : v_data d' = v_data d;
  sw_sect : v_sect d' = v_sect d
}.
Lemma length_finished d : length (finished d) = Z.to_nat (u16 (v_used_dev d - v_used_idx d)).
Proof. unfold finished, ring. by rewrite length_fmap, length_seq. Qed.
Lemma intr_next n d i b : v_used_idx d <> v_used_dev d -> default 0 (v_used d !! ring_pos (v_used_idx d)) = Z.of_nat i ->
  v_info_status d !! i = Some 0 -> v_info_b d !! i = Some (Some b) -> intr_loop (S n) d = intr_loop n (noted b d).
Proof.
  intros N Ei Es Eb. cbn [intr_loop]. rewrite !bind_gets. destruct (Z.eqb_spec (v_used_idx d) (v_used_dev d)); [done|].
  rewrite !bind_gets. fold (ring_pos (v_used_idx d)). rewrite Ei, Nat2Z.id, Es. change (negb (default 0 (Some 0) =? 0)) with false. cbv iota.
  by rewrite bind_gets, Eb.
Qed.
Lemma intr_swept A seen taken n : forall d, core d A seen taken -> length (finished d) = n -> exists d', intr_loop (S n) d = Ret tt d' /\ swept d A seen taken d'.
Proof.
  induction n as [|n IH]; intros d Hc Hn; destruct (core_ranges _ _ _ _ Hc) as (_ & Hr1 & Hr2 & _).
  - assert (E : v_used_idx d = v_used_dev d).
    { destruct (decide (v_used_idx d = v_used_dev d)) as [?|N]; [done|]. rewrite (finished_noted 0 d Hr1 Hr2 N) in Hn. done. }
    exists d. cbn [intr_loop]. rewrite !bind_gets, E, Z.eqb_refl. split; [done|]. split; try done.
    + unfold finished. rewrite E. apply ring_same.
    + exists []. split; [by rewrite app_nil_r|by split].
  - assert (N : v_used_idx d <> v_used_dev d) by (intros E; unfold finished in Hn; rewrite E, ring_same in Hn; done).
    pose proof (finished_noted 0 d Hr1 Hr2 N) as E0. remember (default 0 (v_used d !! ring_pos (v_used_idx d))) as id eqn:Ed in E0.
    destruct (c_busy _ _ _ _ Hc id) as (k & r & i0 & i1 & i2 & Hk & Eid); [unfold busy; rewrite E0, !elem_of_app; right; right; constructor|].
    assert (E1 : finished d = Z.of_nat i0 :: finished (noted (rq_b r) d)) by (rewrite <- Eid, Ed; by apply finished_noted).
    pose proof (core_noted d A seen taken k r i0 i1 i2 _ Hc Hk E1 eq_refl) as Hc1.
    destruct (IH (noted (rq_b r) d) Hc1) as (d' & E2 & [S1 S2 S3 (w & S4 & S5 & S6) S7 S8]); [rewrite E1 in Hn; cbn in Hn; lia|].
    exists d'. split.
    + rewrite (intr_next _ d i0 (rq_b r) N ltac:(congruence)); [done| |apply (c_live _ _ _ _ Hc _ _ _ _ _ Hk)].
      pose proof (c_status _ _ _ _ Hc (Z.of_nat i0) ltac:(rewrite E1; constructor)) as Hst. by rewrite Nat2Z.id in Hst.
    + split; try done. exists (CBuf (rq_b r) :: w). split; [rewrite S4; cbn; by rewrite <- app_assoc|]. split.
      * intros Hn1 Hl. apply S5; [|done]. intros Hw. apply Hn1. by right.
      * intros b Hb Hb1. apply S6; [intros Hw; apply Hb; by right|]. unfold bdisk in *. cbn. rewrite lookup_insert_ne; [done|]. intros E. apply Hb. rewrite E. constructor.
Qed.
