(* ===== verification/VirtioProps.v ===== *)
(** * The disk driver carries out every request once *)

From S2P Require Import Prelude FsState Virtio VirtioSpec.

Lemma core_wake d A seen taken w : core d A seen taken -> core (d <| v_wake := w |>) A seen taken.
Proof.
  intros [Hlen Hidx Hperm Hbufs Hlive Hnd Hbz Hst]. split; try done. intros k r i0 i1 i2 Hk. destruct (Hlive k r i0 i1 i2 Hk) as [Hch Hin Hbu].
  split; [by apply (chain_frame d)|done|done].
Qed.
Lemma core_regs d A seen taken w : core d A seen taken -> core (d <| v_regs := w |>) A seen taken.
Proof.
  intros [Hlen Hidx Hperm Hbufs Hlive Hnd Hbz Hst]. split; try done. intros k r i0 i1 i2 Hk. destruct (Hlive k r i0 i1 i2 Hk) as [Hch Hin Hbu].
  split; [by apply (chain_frame d)|done|done].
Qed.
Lemma disk_intr_swept st d A seen taken : core d A seen taken -> exists d', disk_intr st d = Ret tt d' /\ swept d A seen taken d'.
Proof.
  intros Hc. set (d1 := d <| v_regs := v_regs d ++ [(VIRTIO_MMIO_INTERRUPT_ACK, u32 (Z.land st 0x3))] |>).
  destruct (intr_swept A seen taken _ d1 (core_regs _ _ _ _ _ Hc) eq_refl) as (d' & E & [S1 S2 S3 S4 S5 S6]). exists d'. split; [|by split].
  unfold disk_intr, wreg. rewrite bind_modify. fold d1. rewrite bind_gets. by rewrite <- length_finished.
Qed.

(** ** The invariant of the system *)
Record sinv (y : vsys) : Prop := {
  si_core : core (y_disk y) (act <$> y_procs y) (y_seen y) (y_taken y);
  si_sleep : Forall (asleep (y_disk y)) (y_procs y);
  si_wake : v_wake (y_disk y) = []
}.
Definition absA (bz : list Z) (A : list (vreq * vpc)) : list (vreq * phase) := (fun x => (fst x, phase_of bz (snd x))) <$> A.
Lemma abs_eq y : abs y = mkas (absA (queued (y_disk y) (y_seen y) ++ y_taken y) (act <$> y_procs y)) (v_data (y_disk y)) (v_sect (y_disk y)).
Proof. unfold abs, absA. by rewrite <- list_fmap_compose. Qed.
Lemma absA_ext bz bz' A : (forall k r i0 i1 i2, A !! k = Some (r, PWait i0 i1 i2) -> Z.of_nat i0 ∈ bz <-> Z.of_nat i0 ∈ bz') -> absA bz A = absA bz' A.
Proof.
  intros H. apply list_fmap_ext. intros k [r pc] Hk. cbn. f_equal. destruct pc as [|i0 i1 i2|]; [done| |done]. cbn.
  pose proof (H k r i0 i1 i2 Hk) as Hi. by repeat case_bool_decide; [|tauto|tauto|].
Qed.

Lemma sinv_init y : vinit y -> sinv y.
Proof.
  intros [H1 H2 H3 H4 H5 H6 H7 (I1 & I2 & I3 & I4 & I5) Hw Hp Hb]. assert (Hpc : forall k r i0 i1 i2, (act <$> y_procs y) !! k = Some (r, PWait i0 i1 i2) -> False).
  { intros k r i0 i1 i2 Hk. rewrite list_lookup_fmap_Some in Hk. destruct Hk as (p & E & Hk). pose proof (Forall_lookup_1 _ _ _ _ Hp Hk) as [Hpp _]. unfold act in E. congruence. }
  assert (Hbz : busy (y_disk y) (y_seen y) (y_taken y) = []) by (unfold busy, queued, finished; by rewrite I1, I2, I3, I4, I5, !ring_same).
  split; [|eapply Forall_impl; [exact Hp|]; intros p [_ E]; unfold asleep; by rewrite E|done]. split.
  - rewrite H1, H2, H3, H4, H5, H6, H7. by repeat constructor.
  - rewrite I1, I2, I3, I4. repeat (apply Forall_cons; split); done.
  - rewrite H7. assert (E : flat_map hold (act <$> y_procs y) = []); [|by rewrite E].
    clear - Hp. induction Hp as [|p ps [Ep _] _ IH]; [done|]. cbn [fmap list_fmap flat_map]. rewrite IH. unfold hold, act. cbn [snd]. by rewrite Ep.
  - rewrite <- list_fmap_compose. exact Hb.
  - intros k r i0 i1 i2 Hk. by destruct (Hpc _ _ _ _ _ Hk).
  - rewrite Hbz. constructor.
  - intros i Hi. rewrite Hbz in Hi. by apply not_elem_of_nil in Hi.
  - intros i Hi. assert (Hi' : i ∈ busy (y_disk y) (y_seen y) (y_taken y)) by (unfold busy; rewrite !elem_of_app; auto). rewrite Hbz in Hi'. by apply not_elem_of_nil in Hi'.
Qed.

(** ** Steps *)
Lemma absA_lookup bz A k r pc : A !! k = Some (r, pc) -> absA bz A !! k = Some (r, phase_of bz pc).
Proof. intros Hk. unfold absA. by rewrite list_lookup_fmap, Hk. Qed.
Lemma absA_moved d d' A seen taken k r pc0 pc data sect : core d A seen taken -> A !! k = Some (r, pc0) -> moved d d' A seen taken pc0 pc ->
  let a := mkas (absA (queued d seen ++ taken) A) data sect in
  let a' := mkas (absA (queued d' seen ++ taken) (<[k := (r, pc)]> A)) data sect in
  a' = a \/ astep a a'.
Proof.
  intros Hc Hk Hm a a'. unfold a, a'. unfold absA at 1 4. rewrite list_fmap_insert. cbn [fst snd]. fold (absA (queued d' seen ++ taken) A).
  destruct Hm as [pc0 Eq|i0 i1 i2 Eq Hf|i0 i1 i2 Eq Hn]; rewrite Eq.
  - left. f_equal. apply list_insert_id. by apply absA_lookup.
  - right. rewrite <- app_assoc. cbn [app]. rewrite (absA_ext (queued d seen ++ Z.of_nat i0 :: taken) (queued d seen ++ taken) A).
    + cbn [phase_of]. rewrite bool_decide_eq_true_2 by (rewrite elem_of_app; right; constructor). apply (as_submit _ _ _ _ r). apply (absA_lookup _ _ _ _ PStart Hk).
    + intros j r' j0 j1 j2 Hj. rewrite !elem_of_app, elem_of_cons. assert (j0 <> i0); [|naive_solver lia]. intros ->. apply (Hf j _ Hj). cbn. constructor.
  - right. apply (as_return _ _ _ _ r). rewrite (absA_lookup _ _ _ _ _ Hk). cbn [phase_of]. rewrite bool_decide_eq_false_2; [done|]. unfold busy in Hn. rewrite !elem_of_app in *. tauto.
Qed.

Lemma absA_perform d A seen t1 t2 k r i i1 i2 : core d A seen (t1 ++ Z.of_nat i :: t2) -> A !! k = Some (r, PWait i i1 i2) ->
  absA (queued d seen ++ t1 ++ Z.of_nat i :: t2) A !! k = Some (r, Pending) /\
  absA (queued d seen ++ t1 ++ t2) A = <[k := (r, Served)]> (absA (queued d seen ++ t1 ++ Z.of_nat i :: t2) A).
Proof.
  intros Hc Hk. assert (Hn : Z.of_nat i ∉ queued d seen ++ t1 ++ t2).
  { pose proof (c_nodup _ _ _ _ Hc) as Hnd. unfold busy in Hnd. rewrite <- (Permutation_middle t1 t2), app_assoc in Hnd. apply NoDup_app in Hnd as (Hnd & _ & _).
    rewrite <- Permutation_middle in Hnd. by apply NoDup_cons in Hnd as [? _]. }
  split.
  - rewrite (absA_lookup _ _ _ _ _ Hk). cbn [phase_of]. rewrite bool_decide_eq_true_2; [done|]. rewrite !elem_of_app, elem_of_cons. tauto.
  - apply list_eq. intros j. destruct (decide (j = k)) as [->|N].
    + rewrite list_lookup_insert_eq by (unfold absA; rewrite length_fmap; by eapply lookup_lt_Some). rewrite (absA_lookup _ _ _ _ _ Hk). cbn [phase_of].
      by rewrite bool_decide_eq_false_2.
    + rewrite list_lookup_insert_ne by done. unfold absA. rewrite !list_lookup_fmap. destruct (A !! j) as [[r' pc]|] eqn:Hj; [|done]. cbn [fmap option_fmap option_map fst snd]. do 2 f_equal.
      destruct pc as [|j0 j1 j2|]; [done| |done]. cbn [phase_of]. assert (j0 <> i) by (intros ->; apply N; eapply (core_apart _ _ _ _ Hc j k _ _ i Hj Hk); cbn; constructor).
      erewrite bool_decide_ext; [done|]. rewrite !elem_of_app, elem_of_cons. naive_solver lia.
Qed.

Section Device.
Context (device : nat -> vdisk -> vdisk -> Prop).
(** The virtio specification, 5.2.6: a block request in the form of the chain. *)
Context (device_serves : forall i d d' r i1 i2, chain d r i i1 i2 -> device i d d' -> d' = perform r i d).

Lemma sinv_step y y' : sinv y -> vstep device y y' -> sinv y' /\ (abs y' = abs y \/ astep (abs y) (abs y')).
Proof.
  intros [Hc Hs Hw] Hst. destruct Hst as [d ps seen taken k p pc sl d' Hk Hp Hpc E|d ps seen taken st d' E|d ps seen taken Hne|d ps seen t1 i t2 d' Hdev]; cbn [y_disk y_procs y_seen y_taken] in *; rewrite !abs_eq.
  - assert (HA : (act <$> ps) !! k = Some (act p)) by (by rewrite list_lookup_fmap, Hk).
    destruct (rw_turn d _ seen taken k p Hc HA Hpc) as (pc1 & sl1 & d1 & E1 & Ht). rewrite E in E1. simplify_eq.
    destruct Ht as [Tc Ts (w & Tw & Tq) Td Te Tm]. rewrite Hw in Tw. cbn [app] in Tw. cbn [after y_disk y_procs y_seen y_taken].
    assert (EA : act <$> <[k := mkvp (q_req p) pc1 sl1]> (wake_one (v_wake d1) <$> ps) = <[k := (q_req p, pc1)]> (act <$> ps)) by (by rewrite list_fmap_insert, act_wake).
    rewrite EA. split.
    + split; cbn [y_disk y_procs y_seen y_taken]; [rewrite EA; by apply core_wake| |done]. apply Forall_insert; [|done]. apply Forall_fmap. eapply Forall_impl; [exact Hs|].
      intros q Hq. cbn. apply (asleep_quiet d); [by rewrite Tw|done].
    + change (v_data (d1 <| v_wake := [] |>)) with (v_data d1). change (v_sect (d1 <| v_wake := [] |>)) with (v_sect d1). rewrite Td, Te.
      by apply (absA_moved d d1 (act <$> ps) seen taken k (q_req p) (q_pc p) pc1).
  - destruct (disk_intr_swept st d _ seen taken Hc) as (d1 & E1 & [S1 S2 S3 (w & S4 & S5) S6 S7]). rewrite E in E1. simplify_eq. rewrite Hw in S4. cbn [app] in S4.
    cbn [after y_disk y_procs y_seen y_taken]. rewrite act_wake. split.
    + split; cbn [after y_disk y_procs y_seen y_taken]; [rewrite act_wake; by apply core_wake| |done]. apply Forall_fmap. eapply Forall_impl; [exact Hs|].
      intros q Hq. cbn. apply (asleep_quiet d); [by rewrite S4|done].
    + left. change (queued (d1 <| v_wake := [] |>) seen) with (queued d1 seen). rewrite S3. f_equal; [exact S6|exact S7].
  - destruct (core_take d _ seen taken Hc Hne) as [Hc' Hp]. split; [by split|]. left. f_equal. apply absA_ext. intros. by rewrite Hp.
  - destruct (c_busy _ _ _ _ Hc (Z.of_nat i)) as (k & r & i0 & i1 & i2 & Hk & Ei).
    { unfold busy. rewrite !elem_of_app, elem_of_cons. tauto. }
    apply Nat2Z.inj in Ei. subst i0. pose proof (device_serves i d d' r i1 i2 (lv_chain _ _ _ _ _ _ (c_live _ _ _ _ Hc _ _ _ _ _ Hk)) Hdev) as ->.
    pose proof (core_perform d _ seen t1 t2 k r i i1 i2 Hc Hk) as Hc'. split; [split; [done| |done]; eapply Forall_impl; [exact Hs|]; intros q Hq; unfold asleep in *; by destruct (q_sleep q) as [[]|]|].
    right. cbn [y_disk y_procs y_seen y_taken]. change (queued (perform r i d) seen) with (queued d seen). destruct (absA_perform d _ seen t1 t2 k r i i1 i2 Hc Hk) as [Hpe ->]. exact (as_serve _ (v_data d) (v_sect d) k r Hpe).
Qed.
Lemma reach_sinv y : vreach device y -> sinv y.
Proof. induction 1 as [y Hi|y y' _ IH Hst]; [by apply sinv_init|]. by apply (sinv_step y y' IH Hst). Qed.

(** A process that waits for its request is awake or the request is under way. *)
Lemma waiting_busy y k p i0 i1 i2 : sinv y -> y_procs y !! k = Some p -> q_pc p = PWait i0 i1 i2 ->
  q_sleep p = None \/ busy (y_disk y) (y_seen y) (y_taken y) <> [].
Proof.
  intros [Hc Hs _] Hk Hpc. pose proof (Forall_lookup_1 _ _ _ _ Hs Hk) as Ha. unfold asleep in Ha. destruct (q_sleep p) as [[|b]|]; [destruct Ha; congruence| |by left].
  destruct Ha as (-> & _ & Hb). right. intros E. destruct (c_live _ _ _ _ Hc k (q_req p) i0 i1 i2) as [_ _ Hbu].
  - rewrite list_lookup_fmap, Hk. unfold act. cbn. by rewrite Hpc.
  - rewrite E in Hbu. apply Hbu in Hb. by apply not_elem_of_nil in Hb.
Qed.
(** With fewer than three free descriptors some process waits for a request. *)
Lemma full_waiting y : sinv y -> (length (flist (v_free (y_disk y))) < 3)%nat -> exists k p i0 i1 i2, y_procs y !! k = Some p /\ q_pc p = PWait i0 i1 i2.
Proof.
  intros [Hc _ _] Hl. pose proof (Permutation_length (c_perm _ _ _ _ Hc)) as Hp. rewrite length_app, length_seq in Hp. unfold NUM in Hp.
  destruct (flat_map hold (act <$> y_procs y)) as [|i l] eqn:E; [cbn [length] in Hp; lia|].
  assert (Hi : In i (flat_map hold (act <$> y_procs y))) by (rewrite E; by left). apply in_flat_map in Hi as (x & Hx & Hi).
  apply list_elem_of_In, list_elem_of_fmap in Hx as (p & -> & Hp'). apply list_elem_of_lookup_1 in Hp' as (k & Hk).
  unfold hold, act in Hi. cbn in Hi. destruct (q_pc p) as [|i0 i1 i2|] eqn:Epc; [done| |done]. by exists k, p, i0, i1, i2.
Qed.

(** C12. The driver carries out each request exactly once and as asked.  In every
    run of processes in virtio_disk_rw, of virtio_disk_intr and of a device that
    serves block requests in the form the virtio specification gives them, in
    whatever order it completes those it has taken, the requests go through the
    states of a disk without a queue: idle, pending, served by one transfer
    between the request's buffer and the request's block, returned.  So a call
    returns only after its own transfer, and no other changes its buffer or the
    medium. *)
Theorem virtio_refines y0 y : vinit y0 -> rtc (vstep device) y0 y ->
  rtc astep (abs y0) (abs y) /\ Forall (fun x => snd x = Idle) (a_procs (abs y0)).
Proof.
  intros Hi Hr. split.
  - pose proof (sinv_init y0 Hi) as Hs. clear Hi. induction Hr as [y|y y1 y2 Hst _ IH]; [done|]. destruct (sinv_step y y1 Hs Hst) as [Hs1 [E|Ha]].
    + rewrite <- E. by apply IH.
    + eapply rtc_l; [exact Ha|by apply IH].
  - unfold abs. cbn [a_procs]. apply Forall_fmap. eapply Forall_impl; [exact (vi_procs _ Hi)|]. intros p [E _]. cbn. by rewrite E.
Qed.

(** C23. The driver neither panics nor loses a wakeup.  In every reachable state
    each process that has not returned can take its next turn of virtio_disk_rw
    and the interrupt handler runs to its end, without the panics of free_desc
    and virtio_disk_intr; the free descriptors and those of the requests under
    way are the eight of the queue, each exactly once; and as long as some
    process has not returned, one of them is awake or a request is in the
    available ring, in the device or in the used ring. *)
Theorem virtio_live y : vreach device y ->
  (forall p, p ∈ y_procs y -> q_pc p <> PDone -> exists r d', rw_of p (y_disk y) = Ret r d') /\
  (forall st, exists d', disk_intr st (y_disk y) = Ret tt d') /\
  flist (v_free (y_disk y)) ++ flat_map (fun p => hold (act p)) (y_procs y) ≡ₚ seq 0 NUM /\
  ((exists p, p ∈ y_procs y /\ q_pc p <> PDone) ->
   (exists p, p ∈ y_procs y /\ q_pc p <> PDone /\ q_sleep p = None) \/ busy (y_disk y) (y_seen y) (y_taken y) <> []).
Proof.
  intros Hsi%reach_sinv. pose proof Hsi as [Hc Hs _]. split_and!.
  - intros p (k & Hk)%list_elem_of_lookup_1 Hpc.
    destruct (rw_turn _ _ _ _ k p Hc ltac:(by rewrite list_lookup_fmap, Hk) Hpc) as (pc & sl & d' & E & _). by eexists _, d'.
  - intros st. destruct (disk_intr_swept st _ _ _ _ Hc) as (d' & E & _). by exists d'.
  - rewrite <- (c_perm _ _ _ _ Hc). f_equiv. clear. induction (y_procs y) as [|p ps IH]; [done|]. cbn [flat_map fmap list_fmap]. by rewrite IH.
  - intros (p & (k & Hk)%list_elem_of_lookup_1 & Hpc). assert (Hw : forall k p i0 i1 i2, y_procs y !! k = Some p -> q_pc p = PWait i0 i1 i2 ->
      (exists p, p ∈ y_procs y /\ q_pc p <> PDone /\ q_sleep p = None) \/ busy (y_disk y) (y_seen y) (y_taken y) <> []).
    { intros k1 p1 i0 i1 i2 Hk1 Hp1. destruct (waiting_busy y k1 p1 i0 i1 i2 Hsi Hk1 Hp1) as [?|?]; [left|by right]. exists p1. split_and!; [by eapply list_elem_of_lookup_2|congruence|done]. }
    destruct (q_pc p) as [|i0 i1 i2|] eqn:Epc; [|by eapply Hw|done]. pose proof (Forall_lookup_1 _ _ _ _ Hs Hk) as Ha. unfold asleep in Ha. rewrite Epc in Ha.
    destruct (q_sleep p) as [[|b]|] eqn:Esl; [|naive_solver|left; exists p; split_and!; [by eapply list_elem_of_lookup_2|congruence|done]].
    destruct Ha as [_ Hl]. destruct (full_waiting y Hsi Hl) as (k1 & p1 & i0 & i1 & i2 & Hk1 & Hp1). by eapply Hw.
Qed.
End Device.

(** ** Setting up *)

(** The answers that virtio_disk_init expects of a device. *)
Record virtio_ready (rdreg : list (Z * Z) -> Z -> Z) : Prop := {
  vy_magic : forall h, rdreg h VIRTIO_MMIO_MAGIC_VALUE = 0x74726976;
  vy_version : forall h, rdreg h VIRTIO_MMIO_VERSION = 2;
  vy_device : forall h, rdreg h VIRTIO_MMIO_DEVICE_ID = 2;
  vy_vendor : forall h, rdreg h VIRTIO_MMIO_VENDOR_ID = 0x554d4551;
  vy_features : forall h, Z.land (rdreg (h ++ [(VIRTIO_MMIO_STATUS, 11)]) VIRTIO_MMIO_STATUS) VIRTIO_CONFIG_S_FEATURES_OK <> 0;
  vy_queue : forall h, rdreg h VIRTIO_MMIO_QUEUE_READY = 0;
  vy_max : forall h, Z.of_nat NUM <= rdreg h VIRTIO_MMIO_QUEUE_NUM_MAX
}.
Ltac flat := cbn -[u32 Z.shiftr Z.lor Z.land foldl NUM replicate app Z.of_nat].
(** virtio_disk_init leaves the queue in the state from which the driver starts. *)
Lemma disk_init_vinit rdreg desc avail used d ps : virtio_ready rdreg -> desc <> 0 -> avail <> 0 -> used <> 0 ->
  length (v_info_b d) = NUM -> length (v_info_status d) = NUM -> length (v_ops d) = NUM -> v_used_idx d = 0 -> v_wake d = [] ->
  Forall (fun p => q_pc p = PStart /\ q_sleep p = None) ps -> NoDup ((fun p => rq_b (q_req p)) <$> ps) ->
  exists d', disk_init rdreg desc avail used d = Ret tt d' /\ vinit (mkvs d' ps 0 []).
Proof.
  intros [V1 V2 V3 V4 V5 V6 V7] Hd Ha Hu L1 L2 L3 Hi Hw Hps Hnd. destruct d. unfold disk_init, rreg, wreg. rewrite !bind_gets, V1, V2, V3, V4.
  change (negb (0x74726976 =? 0x74726976) || negb (2 =? 2) || negb (2 =? 2) || negb (0x554d4551 =? 0x554d4551)) with false. cbv iota.
  repeat (rewrite bind_modify; flat). rewrite bind_gets. repeat (rewrite bind_modify; flat). rewrite bind_gets. change (u32 (Z.lor (Z.lor VIRTIO_CONFIG_S_ACKNOWLEDGE VIRTIO_CONFIG_S_DRIVER) VIRTIO_CONFIG_S_FEATURES_OK)) with 11.
  match goal with |- context [if ?b then panic "virtio disk FEATURES_OK unset" else _] => replace b with false end.
  2:{ symmetry. apply Z.eqb_neq. apply V5. }
  rewrite bind_modify, bind_gets, V6. change (negb (0 =? 0)) with false. cbv iota. flat. rewrite bind_gets.
  match goal with |- context [rdreg ?h VIRTIO_MMIO_QUEUE_NUM_MAX] => pose proof (V7 h) as Hm; set (m := rdreg h VIRTIO_MMIO_QUEUE_NUM_MAX) in * end. change (Z.of_nat NUM) with 8 in *.
  destruct (Z.eqb_spec m 0); [lia|]. destruct (Z.ltb_spec m 8); [lia|]. destruct (Z.eqb_spec desc 0); [done|]. destruct (Z.eqb_spec avail 0); [done|].
  destruct (Z.eqb_spec used 0); [done|]. cbn [orb]. repeat (rewrite bind_modify; flat). unfold modify. flat. eexists. split; [reflexivity|]. by split.
Qed.

(** ** A run *)
Inductive action := ARw (k : nat) | AIntr | ATake | AComplete (k : nat).
Fixpoint remove1 (x : Z) (l : list Z) : option (list Z) :=
  match l with [] => None | y :: r => if y =? x then Some r else cons y <$> remove1 x r end.
Definition act_step (a : action) (y : vsys) : option vsys :=
  let '(mkvs d ps seen taken) := y in
  match a with
  | ARw k =>
      match ps !! k with
      | Some p =>
          if bool_decide (q_sleep p = None) && match q_pc p with PDone => false | _ => true end then
            match rw_of p d with
            | Ret (pc, sl) d' => let y' := after d' ps seen taken in Some (mkvs (y_disk y') (<[k := mkvp (q_req p) pc sl]> (y_procs y')) seen taken)
            | _ => None
            end
          else None
      | None => None
      end
  | AIntr => match disk_intr 1 d with Ret _ d' => Some (after d' ps seen taken) | _ => None end
  | ATake => if seen =? v_avail_idx d then None else Some (mkvs d ps (u16 (seen + 1)) (default 0 (v_avail d !! ring_pos seen) :: taken))
  | AComplete k =>
      match ps !! k with
      | Some (mkvp r (PWait i _ _) _) => (fun t => mkvs (perform r i d) ps seen t) <$> remove1 (Z.of_nat i) taken
      | _ => None
      end
  end.
Fixpoint act_run (l : list action) (y : vsys) : option vsys := match l with [] => Some y | a :: r => act_step a y ≫= act_run r end.
(** A device that serves well-formed requests and does nothing else. *)
Definition good_device (i : nat) (d d' : vdisk) : Prop := exists r i1 i2, chain d r i i1 i2 /\ d' = perform r i d.
Lemma good_device_serves i d d' r i1 i2 : chain d r i i1 i2 -> good_device i d d' -> d' = perform r i d.
Proof.
  intros [H0 H1 H2 H3] (r' & j1 & j2 & [G0 G1 G2 G3] & ->). rewrite H0 in G0. simplify_eq. rewrite H1 in G1. rewrite H3 in G3.
  assert (Ew : rq_write r' = rq_write r) by (destruct (rq_write r), (rq_write r'); done). injection G1 as Eb _ _. injection G3 as _ Es.
  unfold perform, transfer_data, transfer_sect. by rewrite Ew, <- Eb, <- Es.
Qed.
Lemma remove1_split x l t : remove1 x l = Some t -> exists t1 t2, l = t1 ++ x :: t2 /\ t = t1 ++ t2.
Proof.
  revert t. induction l as [|y l IH]; intros t E; [done|]. cbn in E. destruct (Z.eqb_spec y x) as [->|]; [simplify_eq; by exists [], t|].
  destruct (remove1 x l) as [r|] eqn:Er; [|done]. cbn in E. simplify_eq. destruct (IH r eq_refl) as (t1 & t2 & -> & ->). by exists (y :: t1), t2.
Qed.
Lemma act_step_vstep a y y' : sinv y -> act_step a y = Some y' -> vstep good_device y y'.
Proof.
  intros [Hc _ _] E. destruct y as [d ps seen taken]. cbn [y_disk y_procs y_seen y_taken] in Hc. destruct a as [k| | |k]; cbn [act_step] in E.
  - destruct (ps !! k) as [p|] eqn:Hk; [|done]. destruct (bool_decide _ && _) eqn:Eb; [|done]. apply andb_true_iff in Eb as [Es%bool_decide_eq_true_1 Ep].
    destruct (rw_of p d) as [[pc sl] d'| | | |] eqn:Er; [|done..]. simplify_eq. apply (vs_rw good_device d ps seen taken k p pc sl d'); [done|done| |done]. intros Ed. by rewrite Ed in Ep.
  - destruct (disk_intr 1 d) as [[] d'| | | |] eqn:Er; [|done..]. simplify_eq. by apply vs_intr with 1.
  - destruct (Z.eqb_spec seen (v_avail_idx d)); [done|]. simplify_eq. by apply vs_take.
  - destruct (ps !! k) as [[r [|i i1 i2|] sl]|] eqn:Hk; [done| |done..]. destruct (remove1 _ _) as [t|] eqn:Et; [|done]. cbn in E. simplify_eq.
    apply remove1_split in Et as (t1 & t2 & -> & ->). apply vs_complete. exists r, i1, i2. split; [|done].
    apply (lv_chain _ _ _ _ _ _ (c_live _ _ _ _ Hc k r i i1 i2 ltac:(by rewrite list_lookup_fmap, Hk))).
Qed.
Lemma act_run_rtc l : forall y y', sinv y -> act_run l y = Some y' -> rtc (vstep good_device) y y'.
Proof.
  induction l as [|a l IH]; intros y y' Hs E; cbn in E; [by simplify_eq|]. destruct (act_step a y) as [y1|] eqn:E1; [|done]. cbn in E.
  pose proof (act_step_vstep a y y1 Hs E1) as Hst. eapply rtc_l; [exact Hst|]. apply IH; [|done]. by apply (sinv_step good_device good_device_serves y y1).
Qed.

(** Three processes: block 3 into buffer 7, buffer 8 to block 5, block 5 into
    buffer 9.  The third finds no descriptors; the device completes the second
    request before the first. *)
Definition ex_reg (h : list (Z * Z)) (r : Z) : Z :=
  if r =? VIRTIO_MMIO_MAGIC_VALUE then 0x74726976 else if r =? VIRTIO_MMIO_VERSION then 2 else if r =? VIRTIO_MMIO_DEVICE_ID then 2 else if r =? VIRTIO_MMIO_VENDOR_ID then 0x554d4551
  else if r =? VIRTIO_MMIO_STATUS then default 0 (snd <$> last (List.filter (fun x => fst x =? VIRTIO_MMIO_STATUS) h)) else if r =? VIRTIO_MMIO_QUEUE_NUM_MAX then 1024 else 0.
Definition ex_boot : vdisk :=
  mkvd [] [] 0 [] 0 [] 0 (replicate NUM None) (replicate NUM 0) (replicate NUM req0) ∅ {[8%nat := [1; 2; 3]]} {[6 := [4; 5]]} [] [].
Definition ex_disk : vdisk := match disk_init ex_reg 4096 8192 12288 ex_boot with Ret _ d => d | _ => ex_boot end.
Definition ex_y0 : vsys :=
  mkvs ex_disk [mkvp (mkrq 7 3 false) PStart None; mkvp (mkrq 8 5 true) PStart None; mkvp (mkrq 9 5 false) PStart None] 0 [].
Definition ex_acts : list action :=
  [ARw 0; ARw 1; ARw 2; ATake; ATake; AComplete 1; AIntr; ARw 1; ARw 2; AComplete 0; ATake; AIntr; ARw 0; AComplete 2; AIntr; ARw 2].
Definition ex_y : vsys := default ex_y0 (act_run ex_acts ex_y0).
Lemma ex_reg_ready : virtio_ready ex_reg.
Proof.
  split; intros h; try done. change (ex_reg ?l VIRTIO_MMIO_STATUS) with (default 0 (snd <$> last (List.filter (fun x => fst x =? VIRTIO_MMIO_STATUS) l))).
  rewrite List.filter_app. cbn. by rewrite last_snoc.
Qed.
Lemma ex_y0_init : vinit ex_y0.
Proof.
  destruct (disk_init_vinit ex_reg 4096 8192 12288 ex_boot (y_procs ex_y0) ex_reg_ready) as (d & E & Hi); try done; [by repeat constructor|cbn; repeat constructor; set_solver|].
  unfold ex_y0, ex_disk. rewrite E. exact Hi.
Qed.
Lemma ex_y_run : act_run ex_acts ex_y0 = Some ex_y.
Proof. vm_compute. reflexivity. Qed.
Lemma virtio_refines_witness :
  rtc (vstep good_device) ex_y0 ex_y /\ Forall (fun p => q_pc p = PDone) (y_procs ex_y) /\
  rtc astep (abs ex_y0) (abs ex_y) /\ v_data (y_disk ex_y) !! 7%nat = Some [4; 5] /\ v_data (y_disk ex_y) !! 9%nat = Some [1; 2; 3].
Proof.
  assert (Hr : rtc (vstep good_device) ex_y0 ex_y) by (apply (act_run_rtc ex_acts); [apply sinv_init, ex_y0_init|apply ex_y_run]).
  split_and!; [exact Hr|vm_compute; by repeat constructor| |vm_compute; reflexivity|vm_compute; reflexivity].
  apply (virtio_refines good_device good_device_serves ex_y0 ex_y); [apply ex_y0_init|exact Hr].
Defined.
Lemma reach_rtc device y y' : vreach device y -> rtc (vstep device) y y' -> vreach device y'.
Proof. intros Hy Hr. induction Hr as [|y1 y2 y3 Hst _ IH]; [done|]. apply IH. by eapply vr_step. Qed.
(** After the first three turns: two requests queued, the third process asleep. *)
Definition ex_full : vsys := default ex_y0 (act_run [ARw 0; ARw 1; ARw 2] ex_y0).
Lemma virtio_live_witness :
  q_sleep <$> y_procs ex_full = [Some (CBuf 7); Some (CBuf 8); Some CFree] /\ busy (y_disk ex_full) (y_seen ex_full) (y_taken ex_full) <> [].
Proof.
  split; [vm_compute; reflexivity|].
  assert (Hr : vreach good_device ex_full).
  { apply (reach_rtc _ ex_y0); [apply vr_init, ex_y0_init|]. apply (act_run_rtc [ARw 0; ARw 1; ARw 2]); [apply sinv_init, ex_y0_init|vm_compute; reflexivity]. }
  destruct (virtio_live good_device good_device_serves ex_full Hr) as (_ & _ & _ & Hl). destruct Hl as [(p & Hp & _ & Hs)|Hb]; [|exfalso|exact Hb].
  - exists (mkvp (mkrq 9 5 false) PStart (Some CFree)). split; [|done]. vm_compute. repeat constructor.
  - revert Hp Hs. vm_compute. intros Hp Hs. repeat (apply elem_of_cons in Hp as [->|Hp]; [done|]). by apply not_elem_of_nil in Hp.
Defined.
