(* ===== verification/Log.v ===== *)
(** * kernel/log.c: the write-ahead log *)

From S2P Require Import Prelude Memory FsState State Sched Printf Sleeplock Bio.
Import Mem KString.

Definition lg (s : kstate) : logst := fs_log (k_fs s).
Definition set_log (f : logst -> logst) : K unit := modify_fs (fun t => t <| fs_log := f (fs_log t) |>).

(** log.lh.block[i], and its assignment; an index outside the array is a fault *)
Definition log_block (i : Z) : K Z :=
  l ← gets (fun s => lg_block (lg s));
  match l !! Z.to_nat i with
  | Some b => if i <? 0 then fault "log.lh.block" else mret b
  | None => fault "log.lh.block"
  end.
Definition set_log_block (i b : Z) : K unit :=
  if (0 <=? i) && (i <? LOGBLOCKS)
  then set_log (fun l => l <| lg_block := <[Z.to_nat i := b]> (lg_block l) |>)
  else fault "log.lh.block".

Section Log.
Context `{KernelImage}.

(** install_trans *)
Definition install_block (recovering : bool) (tail : Z) : K unit :=
  (if recovering then b ← log_block tail; printf "recovering tail %d dst %d
" [VInt tail; VInt b] else mret tt);;
  dev ← gets (fun s => lg_dev (lg s));
  start ← gets (fun s => lg_start (lg s));
  lbuf ← bread dev (u32 (start + tail + 1));
  b ← log_block tail;
  dbuf ← bread dev (u32 b);
  modify (fun s => s <| k_mem := memmove (k_mem s) (kbuf dbuf) (kbuf lbuf) BSIZE |>);;
  bwrite dbuf;;
  (if recovering then mret tt else bunpin dbuf);;
  brelse lbuf;;
  brelse dbuf.
Definition install_trans (recovering : bool) : K unit :=
  n ← gets (fun s => lg_n (lg s));
  for_loop (Z.to_nat n) 0 (install_block recovering).

(** read_head: the header block is [int n; int block[LOGBLOCKS]] *)
Definition read_head : K unit :=
  dev ← gets (fun s => lg_dev (lg s));
  start ← gets (fun s => lg_start (lg s));
  i ← bread dev (u32 start);
  n ← gets (fun s => i32 (ld32 (k_mem s) (kbuf i)));
  set_log (fun l => l <| lg_n := n |>);;
  for_loop (Z.to_nat n) 0 (fun k =>
    b ← gets (fun s => i32 (ld32 (k_mem s) (kbuf i + 4 + 4 * k)));
    set_log_block k b);;
  brelse i.

(** write_head *)
Definition write_head : K unit :=
  dev ← gets (fun s => lg_dev (lg s));
  start ← gets (fun s => lg_start (lg s));
  i ← bread dev (u32 start);
  n ← gets (fun s => lg_n (lg s));
  modify (fun s => s <| k_mem := st32 (k_mem s) (kbuf i) n |>);;
  for_loop (Z.to_nat n) 0 (fun k =>
    b ← log_block k;
    modify (fun s => s <| k_mem := st32 (k_mem s) (kbuf i + 4 + 4 * k) b |>));;
  bwrite i;;
  brelse i.

(** recover_from_log *)
Definition recover_from_log : K unit :=
  read_head;;
  install_trans true;;
  set_log (fun l => l <| lg_n := 0 |>);;
  write_head.

(** initlog: struct logheader takes 4 + 4 * LOGBLOCKS bytes *)
Definition initlog (dev logstart : Z) : K unit :=
  if BSIZE <=? 4 + 4 * LOGBLOCKS then panic "initlog: too big logheader"
  else
    set_log (fun l => l <| lg_start := i32 logstart |> <| lg_dev := dev |>);;
    recover_from_log.

(** begin_op: one turn of its loop; it sleeps while the log is committing or
    may be short of space *)
Definition begin_op : K unit :=
  l ← gets lg;
  if lg_committing l then sleep ChLog
  else if LOGBLOCKS <? lg_n l + (lg_outstanding l + 1) * MAXOPBLOCKS then sleep ChLog
  else set_log (fun l => l <| lg_outstanding := lg_outstanding l + 1 |>).

(** write_log *)
Definition write_log_block (tail : Z) : K unit :=
  dev ← gets (fun s => lg_dev (lg s));
  start ← gets (fun s => lg_start (lg s));
  to ← bread dev (u32 (start + tail + 1));
  b ← log_block tail;
  from ← bread dev (u32 b);
  modify (fun s => s <| k_mem := memmove (k_mem s) (kbuf to) (kbuf from) BSIZE |>);;
  bwrite to;;
  brelse from;;
  brelse to.
Definition write_log : K unit :=
  n ← gets (fun s => lg_n (lg s));
  for_loop (Z.to_nat n) 0 write_log_block.

(** commit *)
Definition commit : K unit :=
  n ← gets (fun s => lg_n (lg s));
  if 0 <? n then
    write_log;;
    write_head;;
    install_trans false;;
    set_log (fun l => l <| lg_n := 0 |>);;
    write_head
  else mret tt.

(** end_op *)
Definition end_op : K unit :=
  set_log (fun l => l <| lg_outstanding := lg_outstanding l - 1 |>);;
  l ← gets lg;
  if lg_committing l then panic "log.committing"
  else if lg_outstanding l =? 0 then
    set_log (fun l => l <| lg_committing := true |>);;
    commit;;
    set_log (fun l => l <| lg_committing := false |>);;
    wakeup ChLog
  else wakeup ChLog.

(** log_write: the slot of the block, or the first free one *)
Fixpoint log_slot (n : nat) (i : Z) (blockno : Z) : K Z :=
  match n with
  | O => mret i
  | S n' =>
      b ← log_block i;
      if u32 b =? blockno then mret i else log_slot n' (i + 1) blockno
  end.
Definition log_write (b : nat) : K unit :=
  l ← gets lg;
  if LOGBLOCKS <=? lg_n l then panic "too big a transaction"
  else if lg_outstanding l <? 1 then panic "log_write outside of trans"
  else
    blockno ← gets (fun s => b_blockno (bf s b));
    i ← log_slot (Z.to_nat (lg_n l)) 0 blockno;
    set_log_block i (i32 blockno);;
    if i =? lg_n l then
      bpin b;;
      set_log (fun l => l <| lg_n := lg_n l + 1 |>)
    else mret tt.

End Log.
