(* ===== verification/LogSpec.v ===== *)
(** * The log: specifications of its steps

    Every step is described by what it does to the disk (the writes it adds)
    and to [lc], the blocks as the file system sees them. *)

From S2P Require Import Prelude Memory FsState State Sched SchedSpec Printf Sleeplock Bio BioSpec Log.
Import Mem KString.

Section Log.
Context `{KernelImage}.

(** ** Copying one block to another, through the cache *)
Lemma two_breads s p L b1 b2 :
  cache_inv s p L [] -> (length L < 30)%nat -> b1 <> b2 -> (length L < 29)%nat \/ b2 ∈ L ->
  exists i1 s1 i2 s2, bread ROOTDEV b1 s = Ret i1 s1 /\ bread ROOTDEV b2 s1 = Ret i2 s2 /\
    i1 <> i2 /\ cache_inv s2 p L [i2; i1] /\ b_blockno (bf s2 i1) = b1 /\ b_blockno (bf s2 i2) = b2 /\
    bc s2 i1 = lc s b1 /\ bc s2 i2 = lc s b2 /\ (forall b, lc s2 b = lc s b) /\ disk s2 = disk s /\
    fs_log (k_fs s1) = fs_log (k_fs s) /\ fs_log (k_fs s2) = fs_log (k_fs s).
Proof.
  intros Hci Hlt Hne Hfree.
  destruct (bread_spec s p L [] b1 Hci) as (i1 & s1 & E1 & _ & [Hi1 Hb1 Hd1 _ Hlc1 Hdk1 Hlg1]); [by left|by intros i ?%not_elem_of_nil|].
  destruct (bread_spec s1 p L [i1] b2 Hi1) as (i2 & s2 & E2 & Hi2 & [Hinv Hb2 Hd2 Hh2 Hlc2 Hdk2 Hlg2]).
  { destruct Hfree; [left; cbn; lia|by right]. }
  { intros i ->%list_elem_of_singleton. by rewrite Hb1. }
  rewrite list_elem_of_singleton in Hi2. destruct (Hh2 i1) as [Hbf Hbc]; [by apply list_elem_of_singleton|].
  exists i1, s1, i2, s2. split_and!; try done; try congruence.
Qed.

Lemma copy_write s p L held dst src :
  cache_inv s p L held -> dst ∈ held -> src ∈ held -> dst <> src ->
  let d := bc s src in
  exists s', (modify (fun s => s <| k_mem := memmove (k_mem s) (kbuf dst) (kbuf src) BSIZE |>);; bwrite dst) s = Ret tt s' /\
    cache_inv s' p L held /\ disk s' = (b_blockno (bf s dst), d) :: disk s /\
    (forall b, lc s' b = if decide (b = b_blockno (bf s dst)) then d else lc s b) /\
    bc s' dst = d /\ bc s' src = d /\ (forall i, bf s' i = bf s i) /\ fs_log (k_fs s') = fs_log (k_fs s).
Proof.
  intros Hci Hdst Hsrc Hne d. destruct (proj2 (ci_held _ _ _ _ Hci) dst Hdst) as [Hd30 _], (proj2 (ci_held _ _ _ _ Hci) src Hsrc) as [Hs30 _].
  destruct (memmove_buf s dst src Hd30 Hs30 Hne) as [Hm Hmo]. set (m := memmove _ _ _ _) in *.
  destruct (cache_inv_data s p L held dst m Hci Hdst Hmo) as [Hci1 Hlc1]. set (s1 := s <| k_mem := m |>) in *.
  destruct (bwrite_spec s1 p L held dst Hci1 Hdst) as (E & Hci2 & Hlc2).
  change (bc s1 dst) with (bytes m (kbuf dst) BSIZE) in *. rewrite Hm in *.
  eexists. split; [rewrite bind_modify; exact E|]. split_and!; try done.
  - intros b. rewrite Hlc2, Hlc1. done.
  - change (bytes m (kbuf src) BSIZE = d). by apply Hmo.
Qed.

(** Two buffers released, in either order. *)
Lemma two_brelse s p L i j :
  cache_inv s p L [i; j] ->
  (b_blockno (bf s i) ∉ L -> bc s i = disk_block (disk s) (b_blockno (bf s i))) ->
  (b_blockno (bf s j) ∉ L -> bc s j = disk_block (disk s) (b_blockno (bf s j))) ->
  forall a b, (a = i /\ b = j) \/ (a = j /\ b = i) ->
  exists s', (brelse a;; brelse b) s = Ret tt s' /\ brelse_post s s' p L [].
Proof.
  intros Hci Hi Hj a b Hab.
  destruct (ci_held _ _ _ _ Hci) as [Hnd Hh]. destruct (Hh i) as [Hi30 _]; [left|]. destruct (Hh j) as [Hj30 _]; [right; left|].
  destruct (brelse_spec s p L [i; j] [b] a Hci) as (s1 & E1 & [H1 H2 H3 H4 H5 H6]).
  { destruct Hab as [[-> ->]|[-> ->]]; [done|]. apply Permutation_swap. }
  { by destruct Hab as [[-> _]|[-> _]]. }
  destruct (brelse_spec s1 p L [b] [] b H1 ltac:(done)) as (s2 & E2 & [G1 G2 G3 G4 G5 G6]).
  { assert (b < 30)%nat by (by destruct Hab as [[_ ->]|[_ ->]]). rewrite H6, H5, H3 by done. by destruct Hab as [[_ ->]|[_ ->]]. }
  exists s2. split; [by rewrite (bind_ret _ _ _ _ _ E1)|]. split; [done|..|congruence|congruence| |].
  - intros c. by rewrite G2, H2.
  - intros c. by rewrite G5, H5.
  - intros c Hc. by rewrite G6, H6.
Qed.

(** ** Writes as overlays *)
Fixpoint overlay (ws : list (Z * list Z)) (f : Z -> list Z) (x : Z) : list Z :=
  match ws with
  | [] => f x
  | (b, d) :: ws' => if b =? x then d else overlay ws' f x
  end.
Lemma disk_block_app ws h x : disk_block (ws ++ h) x = overlay ws (disk_block h) x.
Proof. induction ws as [|[b d] ws IH]; cbn; [done|]. by rewrite IH. Qed.
Lemma overlay_app ws ws' f x : overlay (ws ++ ws') f x = overlay ws (overlay ws' f) x.
Proof. induction ws as [|[b d] ws IH]; cbn; [done|]. by rewrite IH. Qed.
Lemma overlay_ext ws f g x : (forall y, f y = g y) -> overlay ws f x = overlay ws g x.
Proof. intros E. induction ws as [|[b d] ws IH]; cbn; [done|]. by rewrite IH. Qed.
Lemma overlay_out ws f x : (forall b d, (b, d) ∈ ws -> b <> x) -> overlay ws f x = f x.
Proof.
  induction ws as [|[b d] ws IH]; intros Hn; cbn; [done|]. destruct (Z.eqb_spec b x) as [E|_].
  - exfalso. eapply Hn; [left|exact E].
  - apply IH. intros b' d' Hin. eapply Hn. by right.
Qed.

(** A step of the log: [ws] are the writes it adds, latest first. *)
Record wrote (s s' : kstate) (p : nat) (L : list Z) (ws : list (Z * list Z)) : Prop := {
  wr_inv : cache_inv s' p L [];
  wr_disk : disk s' = ws ++ disk s;
  wr_lc : forall b, lc s' b = overlay ws (lc s) b;
  wr_log : fs_log (k_fs s') = fs_log (k_fs s)
}.
Lemma wrote_trans s1 s2 s3 p L L' ws ws' : wrote s1 s2 p L ws -> wrote s2 s3 p L' ws' -> wrote s1 s3 p L' (ws' ++ ws).
Proof.
  intros [H1 H2 H3 H4] [G1 G2 G3 G4]. split; [done|by rewrite G2, H2, app_assoc| |congruence].
  intros b. rewrite G3, overlay_app. by apply overlay_ext.
Qed.

(** ** The in-memory log header *)
Record log_ok (l : logst) (start : Z) (bs : list Z) : Prop := {
  lo_start : lg_start l = start;
  lo_dev : lg_dev l = ROOTDEV;
  lo_n : lg_n l = Z.of_nat (length bs);
  lo_len : length (lg_block l) = 30%nat;
  lo_block : take (length bs) (lg_block l) = bs
}.
Definition in_log (start b : Z) : Prop := start <= b <= start + LOGBLOCKS.
Record layout (start : Z) (bs : list Z) : Prop := {
  la_start : 0 <= start /\ start + LOGBLOCKS < 2 ^ 31;
  la_blocks : forall b, b ∈ bs -> 0 <= b < 2 ^ 31 /\ ~ in_log start b;
  la_nodup : NoDup bs;
  la_len : (length bs <= 29)%nat
}.
Lemma log_block_eq s start bs k b :
  log_ok (lg s) start bs -> bs !! k = Some b -> log_block (Z.of_nat k) s = Ret b s.
Proof.
  intros Hl Hk. unfold log_block. rewrite bind_gets, Nat2Z.id.
  assert (Hb : lg_block (lg s) !! k = Some b).
  { pose proof (lookup_lt_Some _ _ _ Hk). rewrite <- (lo_block _ _ _ Hl) in Hk. rewrite lookup_take_lt in Hk; [done|].
    by rewrite (lo_block _ _ _ Hl) in Hk. }
  rewrite Hb. destruct (Z.ltb_spec (Z.of_nat k) 0); [lia|done].
Qed.

Definition with_log (s : kstate) (l : logst) : kstate := s <| k_fs := (k_fs s) <| fs_log := l |> |>.
Lemma cache_inv_log s p L held l : cache_inv s p L held -> cache_inv (with_log s l) p L held.
Proof. intros [H1 H2 H3 H4 H5 H6 H7 H8 H9 H10 H11 H12]. split; assumption. Qed.

(** ** write_log *)
Lemma write_log_block_spec s p start bs k b :
  cache_inv s p bs [] -> log_ok (lg s) start bs -> layout start bs -> bs !! k = Some b ->
  exists s', write_log_block (Z.of_nat k) s = Ret tt s' /\ wrote s s' p bs [(start + Z.of_nat k + 1, lc s b)].
Proof.
  intros Hci Hl Hlay Hk. assert (Hb : b ∈ bs) by (by eapply list_elem_of_lookup_2).
  destruct (la_blocks _ _ Hlay b Hb) as [Hbr Hbl]. pose proof (la_start _ _ Hlay). pose proof (la_len _ _ Hlay) as Hlen.
  pose proof (lookup_lt_Some _ _ _ Hk) as Hklt. set (lb := start + Z.of_nat k + 1).
  assert (Hlb : in_log start lb) by (unfold in_log, lb, LOGBLOCKS, MAXOPBLOCKS in *; lia).
  assert (Hlr : 0 <= lb < 2 ^ 31) by (unfold in_log, LOGBLOCKS, MAXOPBLOCKS in *; lia).
  assert (HnL : lb ∉ bs) by (intros Hin; by apply (la_blocks _ _ Hlay lb Hin)).
  assert (Hne : lb <> b) by (by intros ->).
  destruct (two_breads s p bs lb b Hci) as (to & s1 & from & s2 & E1 & E2 & Hft & Hci2 & Hb1 & Hb2 & Hd1 & Hd2 & Hlc2 & Hdk2 & Hlg1 & Hlg2);
    [lia|done|by right|].
  destruct (copy_write s2 p bs [from; to] to from Hci2) as (s3 & E3 & Hci3 & Hdk3 & Hlc3 & Hto3 & Hfr3 & Hbf3 & Hlg3);
    [right; left|left|done|].
  destruct (two_brelse s3 p bs from to Hci3) with (a := from) (b := to) as (s4 & E4 & [H1 H2 H3 H4 H5 H6]).
  { rewrite Hbf3, Hb2. done. }
  { intros _. rewrite Hto3, Hdk3, Hbf3. cbn. by rewrite Z.eqb_refl. }
  { by left. }
  exists s4. split.
  - unfold write_log_block. rewrite !bind_gets, (lo_dev _ _ _ Hl), (lo_start _ _ _ Hl).
    change (start + Z.of_nat k + 1) with lb. rewrite u32_small by lia. rewrite (bind_ret _ _ _ _ _ E1).
    rewrite (bind_ret _ _ s1 b s1) by (apply (log_block_eq s1 start bs); [unfold lg in *; by rewrite Hlg1|done]).
    rewrite u32_small by lia. rewrite (bind_ret _ _ _ _ _ E2).
    rewrite bind_modify in E3 |- *. by rewrite (bind_ret _ _ _ _ _ E3).
  - rewrite Hb1, Hd2 in *. split; [done|by rewrite H3, Hdk3, Hdk2| |congruence]. intros x. rewrite H2, Hlc3. cbn.
    destruct (Z.eqb_spec lb x) as [->|]; [by rewrite decide_True|by rewrite decide_False, Hlc2].
Qed.

Fixpoint log_writes (start k : Z) (bs : list Z) (f : Z -> list Z) : list (Z * list Z) :=
  match bs with
  | [] => []
  | b :: bs' => log_writes start (k + 1) bs' f ++ [(start + k + 1, f b)]
  end.
Lemma log_writes_in start k bs f b d :
  (b, d) ∈ log_writes start k bs f -> exists j, 0 <= j < Z.of_nat (length bs) /\ b = start + k + j + 1.
Proof.
  revert k. induction bs as [|c bs IH]; intros k; cbn; [by intros ?%not_elem_of_nil|].
  intros [(j & Hj & ->)%IH|[= -> _]%list_elem_of_singleton]%elem_of_app; [exists (j + 1)|exists 0]; lia.
Qed.
Lemma log_writes_ext start k bs f g : (forall b, b ∈ bs -> f b = g b) -> log_writes start k bs f = log_writes start k bs g.
Proof.
  revert k. induction bs as [|c bs IH]; intros k E; cbn; [done|]. rewrite IH, (E c) by (left || intros; apply E; by right). done.
Qed.
Lemma write_log_spec s p start bs :
  cache_inv s p bs [] -> log_ok (lg s) start bs -> layout start bs ->
  exists s', write_log s = Ret tt s' /\ wrote s s' p bs (log_writes start 0 bs (lc s)).
Proof.
  intros Hci Hl Hlay. unfold write_log. rewrite bind_gets, (lo_n _ _ _ Hl), Nat2Z.id.
  assert (Hgen : forall bs2 bs1 s, bs = bs1 ++ bs2 -> cache_inv s p bs [] -> log_ok (lg s) start bs ->
    exists s', for_loop (length bs2) (Z.of_nat (length bs1)) write_log_block s = Ret tt s' /\
      wrote s s' p bs (log_writes start (Z.of_nat (length bs1)) bs2 (lc s))); [|by apply (Hgen bs [] s)].
  clear s Hci Hl. induction bs2 as [|b bs2 IH]; intros bs1 s Ebs Hci Hl.
  { exists s. split; [done|]. by split. }
  destruct (write_log_block_spec s p start bs (length bs1) b Hci Hl Hlay) as (s1 & E1 & Hw1).
  { rewrite Ebs, lookup_app_r, Nat.sub_diag by lia. done. }
  destruct (IH (bs1 ++ [b]) s1) as (s2 & E2 & Hw2).
  { by rewrite <- app_assoc. }
  { apply Hw1. }
  { unfold lg in *. by rewrite (wr_log _ _ _ _ _ Hw1). }
  rewrite length_app in E2, Hw2. cbn [length] in E2, Hw2.
  replace (Z.of_nat (length bs1 + 1)) with (Z.of_nat (length bs1) + 1) in E2, Hw2 by lia.
  exists s2. split; [cbn [length for_loop]; by rewrite (bind_ret _ _ _ _ _ E1)|]. cbn [log_writes].
  rewrite (log_writes_ext _ _ _ (lc s) (lc s1)); [by eapply wrote_trans|].
  intros c Hc. rewrite (wr_lc _ _ _ _ _ Hw1). cbn. destruct (Z.eqb_spec (start + Z.of_nat (length bs1) + 1) c) as [E|]; [|done].
  exfalso. apply (la_blocks _ _ Hlay c); [rewrite Ebs; apply elem_of_app; right; by right|].
  pose proof (la_len _ _ Hlay) as Hlen. rewrite Ebs, length_app in Hlen. cbn in Hlen. unfold in_log, LOGBLOCKS, MAXOPBLOCKS. lia.
Qed.

(** ** install_trans *)
Lemma filter_ne (b : Z) l : b ∉ l -> List.filter (fun c => negb (c =? b)) l = l.
Proof.
  induction l as [|c l IH]; intros Hn; [done|]. apply not_elem_of_cons in Hn as [Hc Hl]. cbn.
  destruct (Z.eqb_spec c b); [congruence|]. cbn. by rewrite IH.
Qed.

(** The home block is unpinned, unless [recovering]. *)
Lemma install_unpin (recovering : bool) s p b L2 i j :
  cache_inv s p (if recovering then [] else b :: L2) [j; i] -> b_blockno (bf s j) = b -> NoDup (b :: L2) ->
  exists s', (if recovering then mret tt else bunpin j) s = Ret tt s' /\
    cache_inv s' p (if recovering then [] else L2) [j; i] /\ (forall b, lc s' b = lc s b) /\ disk s' = disk s /\
    fs_log (k_fs s') = fs_log (k_fs s) /\ (forall x, bc s' x = bc s x) /\
    (forall x, (x < 30)%nat -> b_blockno (bf s' x) = b_blockno (bf s x)).
Proof.
  intros Hci Hb Hnd. destruct recovering; [exists s; split_and!; [reflexivity|exact Hci|reflexivity..]|].
  destruct (bunpin_spec s p (b :: L2) [j; i] j Hci) as (s' & E & Hci' & Hrest); [left|rewrite Hb; left|done|].
  exists s'. split; [done|]. split; [|done]. rewrite Hb in Hci'. cbn in Hci'. rewrite Z.eqb_refl in Hci'. cbn in Hci'.
  apply NoDup_cons in Hnd as [HbL2 _]. by rewrite filter_ne in Hci'.
Qed.

(** Block [k] of the log is copied home; with [recovering] nothing is pinned. *)
Lemma install_block_spec (recovering : bool) s p start bs k b L2 :
  let L := if recovering then [] else b :: L2 in
  cache_inv s p L [] -> log_ok (lg s) start bs -> bs !! k = Some b ->
  0 <= start -> start + LOGBLOCKS < 2 ^ 31 -> 0 <= b < 2 ^ 31 -> ~ in_log start b -> (k < 30)%nat ->
  (forall x, x ∈ L -> ~ in_log start x) -> NoDup (b :: L2) -> (length L < 30)%nat ->
  exists s', install_block recovering (Z.of_nat k) s = Ret tt s' /\
    wrote s s' p (if recovering then [] else L2) [(b, lc s (start + Z.of_nat k + 1))].
Proof.
  intros L Hci Hl Hk Hst0 Hst Hbr Hbl Hklt HLlog Hnd Hlen. set (lb := start + Z.of_nat k + 1).
  assert (Hlb : in_log start lb) by (unfold in_log, lb, LOGBLOCKS, MAXOPBLOCKS in *; lia).
  assert (Hlr : 0 <= lb < 2 ^ 31) by (unfold in_log, LOGBLOCKS, MAXOPBLOCKS in *; lia).
  assert (HnL : lb ∉ L) by (intros Hin; by apply (HLlog lb Hin)). assert (Hne : lb <> b) by (by intros ->).
  (* the message *)
  assert (Hout : exists o, (if recovering then b ← log_block (Z.of_nat k); printf "recovering tail %d dst %d
" [VInt (Z.of_nat k); VInt b] else mret tt) s = Ret tt (with_out s o)).
  { destruct recovering; [|apply outputs_ret]. rewrite (bind_ret _ _ _ _ _ (log_block_eq s start bs k b Hl Hk)). apply outputs_printf. }
  destruct Hout as [o Eo]. set (s0 := with_out s o) in *.
  assert (Hci0 : cache_inv s0 p L []) by (destruct Hci as [H1 H2 H3 H4 H5 H6 H7 H8 H9 H10 H11 H12]; split; assumption).
  destruct (two_breads s0 p L lb b Hci0) as (i & s1 & j & s2 & E1 & E2 & Hij & Hci2 & Hb1 & Hb2 & Hd1 & Hd2 & Hlc2 & Hdk2 & Hlg1 & Hlg2);
    [lia|done|unfold L; destruct recovering; [left; cbn; lia|right; left]|].
  destruct (copy_write s2 p L [j; i] j i Hci2) as (s3 & E3 & Hci3 & Hdk3 & Hlc3 & Hj3 & Hi3 & Hbf3 & Hlg3);
    [left|right; left|by intros ->|].
  (* the pin *)
  destruct (install_unpin recovering s3 p b L2 i j Hci3) as (s4 & E4 & Hci4 & Hlc4 & Hdk4 & Hlg4 & Hbc4 & Hbn4);
    [by rewrite Hbf3, Hb2|done|]. set (L' := if recovering then [] else L2) in *.
  destruct (proj2 (ci_held _ _ _ _ Hci4) j) as [Hj30 _]; [left|]. destruct (proj2 (ci_held _ _ _ _ Hci4) i) as [Hi30 _]; [right; left|].
  pose proof (lc_clean s0 p L lb Hci0 HnL) as Hclean.
  destruct (two_brelse s4 p L' j i Hci4) with (a := i) (b := j) as (s5 & E5 & [H1 H2 H3 H4 H5 H6]).
  { intros _. rewrite Hbc4, Hj3, Hdk4, Hdk3, Hbn4, Hbf3 by done. cbn. by rewrite Z.eqb_refl. }
  { intros _. rewrite Hbc4, Hi3, Hdk4, Hdk3, Hbn4, Hbf3, Hb1, Hb2, Hd1, Hdk2 by done. cbn.
    destruct (Z.eqb_spec b lb); [congruence|done]. }
  { by right. }
  exists s5. split.
  - unfold install_block. assert (Eo' : forall f : unit -> K unit, ((if recovering then b0 ← log_block (Z.of_nat k); printf "recovering tail %d dst %d
" [VInt (Z.of_nat k); VInt b0] else mret tt) ≫= f) s = f tt s0).
    { intros f. apply bind_ret. rewrite <- Eo. destruct recovering; [|done].
      by rewrite !(bind_ret _ _ _ _ _ (log_block_eq s start bs k b Hl Hk)). }
    rewrite Eo', !bind_gets. change (lg s0) with (lg s). rewrite (lo_dev _ _ _ Hl), (lo_start _ _ _ Hl).
    change (start + Z.of_nat k + 1) with lb. rewrite u32_small by lia. rewrite (bind_ret _ _ _ _ _ E1).
    rewrite (bind_ret _ _ s1 b s1) by (apply (log_block_eq s1 start bs); [unfold lg in *; by rewrite Hlg1|done]).
    rewrite u32_small by lia. rewrite (bind_ret _ _ _ _ _ E2).
    rewrite bind_modify in E3 |- *. rewrite (bind_ret _ _ _ _ _ E3).
    assert (E4' : forall f : unit -> K unit, ((if recovering then mret tt else bunpin j) ≫= f) s3 = f tt s4) by (intros f; by apply bind_ret).
    by rewrite E4'.
  - split; [done| | |].
    + by rewrite H3, Hdk4, Hdk3, Hdk2, Hb2, Hd1.
    + intros x. rewrite H2, Hlc4, Hlc3, Hb2, Hd1. cbn. destruct (Z.eqb_spec b x) as [->|]; [by rewrite decide_True|].
      by rewrite decide_False, Hlc2.
    + rewrite H4, Hlg4, Hlg3, Hlg2. done.
Qed.

Fixpoint home_writes (start k : Z) (bs : list Z) (f : Z -> list Z) : list (Z * list Z) :=
  match bs with
  | [] => []
  | b :: bs' => home_writes start (k + 1) bs' f ++ [(b, f (start + k + 1))]
  end.
Lemma home_writes_in start k bs f b d : (b, d) ∈ home_writes start k bs f -> b ∈ bs.
Proof.
  revert k. induction bs as [|c bs IH]; intros k; cbn; [by intros ?%not_elem_of_nil|].
  intros [Hin%IH|[= -> _]%list_elem_of_singleton]%elem_of_app; [by right|left].
Qed.
Lemma home_writes_ext start k bs f g :
  (forall j, 0 <= j < Z.of_nat (length bs) -> f (start + k + j + 1) = g (start + k + j + 1)) ->
  home_writes start k bs f = home_writes start k bs g.
Proof.
  revert k. induction bs as [|c bs IH]; intros k E; cbn in *; [done|].
  rewrite IH by (intros j Hj; replace (start + (k + 1) + j + 1) with (start + k + (j + 1) + 1) by lia; apply E; lia).
  replace (start + k + 1) with (start + k + 0 + 1) by lia. by rewrite E by lia.
Qed.

Record installable (start : Z) (bs : list Z) (recovering : bool) : Prop := {
  in_start : 0 <= start /\ start + LOGBLOCKS < 2 ^ 31;
  in_blocks : forall b, b ∈ bs -> 0 <= b < 2 ^ 31 /\ ~ in_log start b;
  in_len : (length bs <= 30)%nat;
  in_pins : recovering = false -> NoDup bs /\ (length bs < 30)%nat
}.
Lemma layout_installable start bs : layout start bs -> installable start bs false.
Proof. intros [H1 H2 H3 H4]. split; [done|done|lia|]. intros _. split; [done|lia]. Qed.

Lemma install_trans_spec (recovering : bool) s p start bs :
  cache_inv s p (if recovering then [] else bs) [] -> log_ok (lg s) start bs -> installable start bs recovering ->
  exists s', install_trans recovering s = Ret tt s' /\ wrote s s' p [] (home_writes start 0 bs (lc s)).
Proof.
  intros Hci Hl Hins. unfold install_trans. rewrite bind_gets, (lo_n _ _ _ Hl), Nat2Z.id.
  assert (Hgen : forall bs2 bs1 s, bs = bs1 ++ bs2 -> cache_inv s p (if recovering then [] else bs2) [] -> log_ok (lg s) start bs ->
    exists s', for_loop (length bs2) (Z.of_nat (length bs1)) (install_block recovering) s = Ret tt s' /\
      wrote s s' p [] (home_writes start (Z.of_nat (length bs1)) bs2 (lc s))); [|by apply (Hgen bs [] s)].
  clear s Hci Hl. induction bs2 as [|b bs2 IH]; intros bs1 s Ebs Hci Hl.
  { exists s. split; [done|]. split; try done. by destruct recovering. }
  destruct (in_start _ _ _ Hins) as [Hst0 Hst]. pose proof (in_len _ _ _ Hins) as Hlen. rewrite Ebs, length_app in Hlen. cbn in Hlen.
  assert (Hsub : forall c, c ∈ b :: bs2 -> c ∈ bs) by (intros c Hc; rewrite Ebs; apply elem_of_app; by right).
  destruct (in_blocks _ _ _ Hins b) as [Hbr Hbl]; [apply Hsub; left|].
  destruct (install_block_spec recovering s p start bs (length bs1) b (if recovering then [] else bs2)) as (s1 & E1 & Hw1); try done; try lia.
  { by destruct recovering. }
  { rewrite Ebs, lookup_app_r, Nat.sub_diag by lia. done. }
  { intros x. destruct recovering; [by intros ?%not_elem_of_nil|]. intros Hx. by apply (in_blocks _ _ _ Hins), Hsub. }
  { destruct recovering; [apply NoDup_singleton|]. destruct (in_pins _ _ _ Hins) as [Hnd _]; [done|].
    rewrite Ebs in Hnd. by apply NoDup_app in Hnd as (_ & _ & Hnd). }
  { destruct recovering; [cbn; lia|]. destruct (in_pins _ _ _ Hins) as [_ Hl29]; [done|]. rewrite Ebs, length_app in Hl29. cbn in *. lia. }
  destruct (IH (bs1 ++ [b]) s1) as (s2 & E2 & Hw2).
  { by rewrite <- app_assoc. }
  { pose proof (wr_inv _ _ _ _ _ Hw1) as Hi. by destruct recovering. }
  { unfold lg in *. by rewrite (wr_log _ _ _ _ _ Hw1). }
  rewrite length_app in E2, Hw2. cbn [length] in E2, Hw2.
  replace (Z.of_nat (length bs1 + 1)) with (Z.of_nat (length bs1) + 1) in E2, Hw2 by lia.
  exists s2. split; [cbn [length for_loop]; by rewrite (bind_ret _ _ _ _ _ E1)|]. cbn [home_writes].
  rewrite (home_writes_ext _ _ _ (lc s) (lc s1)); [by eapply wrote_trans|].
  intros j Hj. rewrite (wr_lc _ _ _ _ _ Hw1). cbn [overlay].
  destruct (Z.eqb_spec b (start + (Z.of_nat (length bs1) + 1) + j + 1)) as [E|]; [|done].
  exfalso. apply Hbl. rewrite E. unfold in_log, LOGBLOCKS, MAXOPBLOCKS. lia.
Qed.

(** ** The header block *)
Definition le32 (d : list Z) (off : Z) : Z :=
  let x (k : Z) : Z := default 0 (d !! Z.to_nat (off + k)) in x 0 + 256 * (x 1 + 256 * (x 2 + 256 * (x 3 + 256 * 0))).
Definition parse_head (d : list Z) : list Z :=
  (fun k => i32 (le32 d (4 + 4 * k))) <$> seqZ 0 (i32 (le32 d 0)).
Lemma ld32_bytes m a off : 0 <= off -> off + 4 <= BSIZE -> ld32 m (a + off) = le32 (bytes m a BSIZE) off.
Proof.
  intros H0 H1. unfold ld32, le32. cbn [ld]. rewrite !bytes_lookup by lia. cbn [default].
  replace (a + off + 1 + 1 + 1) with (a + (off + 3)) by lia. replace (a + off + 1 + 1) with (a + (off + 2)) by lia.
  replace (a + off + 1) with (a + (off + 1)) by lia. by replace (a + off) with (a + (off + 0)) by lia.
Qed.

Lemma ld32_st32_eq m a v : ld32 (st32 m a v) a = u32 v.
Proof. unfold ld32, st32. by rewrite ld_st_eq. Qed.
Lemma ld32_ext m m' a : (forall b, a <= b < a + 4 -> ld8 m' b = ld8 m b) -> ld32 m' a = ld32 m a.
Proof. intros E. apply ld_ext. intros b Hb. apply E. lia. Qed.
Lemma i32_u32 x : - 2 ^ 31 <= x < 2 ^ 31 -> i32 (u32 x) = x.
Proof.
  intros Hx. unfold i32, u32. rewrite Zplus_mod_idemp_l. rewrite Z.mod_small; lia.
Qed.

Lemma head_loop i bs2 : forall bs bs1 s start, bs = bs1 ++ bs2 -> log_ok (lg s) start bs ->
  exists m, for_loop (length bs2) (Z.of_nat (length bs1)) (fun k =>
      b ← log_block k; modify (fun s => s <| k_mem := st32 (k_mem s) (kbuf i + 4 + 4 * k) b |>)) s = Ret tt (s <| k_mem := m |>) /\
    (forall x, ~ (kbuf i + 4 + 4 * Z.of_nat (length bs1) <= x < kbuf i + 4 + 4 * Z.of_nat (length bs)) -> ld8 m x = ld8 (k_mem s) x) /\
    (forall k b, bs2 !! k = Some b -> ld32 m (kbuf i + 4 + 4 * (Z.of_nat (length bs1) + Z.of_nat k)) = u32 b).
Proof.
  induction bs2 as [|b bs2 IH]; intros bs bs1 s start Ebs Hl.
  { exists (k_mem s). split; [by destruct s|done]. }
  assert (Hk : bs !! length bs1 = Some b) by (rewrite Ebs, lookup_app_r, Nat.sub_diag by lia; done).
  set (n1 := Z.of_nat (length bs1)). set (s1 := s <| k_mem := st32 (k_mem s) (kbuf i + 4 + 4 * n1) b |>).
  destruct (IH bs (bs1 ++ [b]) s1 start) as (m & E & Hout & Hin); [by rewrite <- app_assoc|exact Hl|].
  rewrite length_app in E, Hout, Hin. cbn [length] in E, Hout, Hin.
  replace (Z.of_nat (length bs1 + 1)) with (n1 + 1) in E, Hout, Hin by (unfold n1; lia).
  pose proof (f_equal length Ebs) as Hlen. rewrite length_app in Hlen. cbn in Hlen.
  exists m. split_and!.
  - cbn [length for_loop]. rewrite bind_assoc, (bind_ret _ _ _ _ _ (log_block_eq s start bs _ b Hl Hk)).
    rewrite bind_modify. fold n1. exact E.
  - intros x Hx. rewrite Hout by lia. change (ld8 (st 4 (k_mem s) (kbuf i + 4 + 4 * n1) b) x = ld8 (k_mem s) x). rewrite ld8_st_out; [done|]. unfold n1 in *. lia.
  - intros [|k] b' Hb'; [injection Hb' as <-|].
    + rewrite (ld32_ext (st32 (k_mem s) (kbuf i + 4 + 4 * n1) b)); [replace (n1 + Z.of_nat 0) with n1 by lia; apply ld32_st32_eq|].
      intros x Hx. rewrite Hout by lia. done.
    + replace (n1 + Z.of_nat (S k)) with (n1 + 1 + Z.of_nat k) by lia. by apply Hin.
Qed.

Lemma parse_head_eq d bs :
  le32 d 0 = u32 (Z.of_nat (length bs)) -> (length bs <= 30)%nat -> (forall b, b ∈ bs -> 0 <= b < 2 ^ 31) ->
  (forall k b, bs !! k = Some b -> le32 d (4 + 4 * Z.of_nat k) = u32 b) -> parse_head d = bs.
Proof.
  intros Hn Hlen Hr Hk. unfold parse_head. rewrite Hn, i32_u32 by lia. apply list_eq. intros j.
  destruct (decide (j < length bs)%nat) as [Hj|Hj].
  - destruct (lookup_lt_is_Some_2 bs j Hj) as [b Hb]. rewrite Hb, list_lookup_fmap, lookup_seqZ_lt by lia. cbn [fmap option_fmap option_map].
    rewrite Z.add_0_l, (Hk j b Hb), i32_u32; [done|]. pose proof (Hr b ltac:(by eapply list_elem_of_lookup_2)). lia.
  - rewrite !lookup_ge_None_2; [done|lia|]. rewrite length_fmap, length_seqZ. lia.
Qed.

Lemma write_head_spec s p L start bs :
  cache_inv s p L [] -> (length L < 30)%nat -> start ∉ L -> log_ok (lg s) start bs -> 0 <= start < 2 ^ 31 ->
  (length bs <= 30)%nat -> (forall b, b ∈ bs -> 0 <= b < 2 ^ 31) ->
  exists s' d, write_head s = Ret tt s' /\ wrote s s' p L [(start, d)] /\ parse_head d = bs.
Proof.
  intros Hci HL HnL Hl Hst Hlen Hr. unfold write_head. rewrite !bind_gets, (lo_dev _ _ _ Hl), (lo_start _ _ _ Hl), u32_small by lia.
  destruct (bread_spec s p L [] start Hci) as (i & s1 & E1 & _ & [Hci1 Hb1 Hd1 _ Hlc1 Hdk1 Hlg1]); [by left|by intros i ?%not_elem_of_nil|].
  rewrite (bind_ret _ _ _ _ _ E1). assert (Hl1 : log_ok (lg s1) start bs) by (unfold lg in *; by rewrite Hlg1).
  destruct (proj2 (ci_held _ _ _ _ Hci1) i) as [Hi _]; [left|].
  rewrite bind_gets, (lo_n _ _ _ Hl1), bind_modify, Nat2Z.id.
  set (n := Z.of_nat (length bs)). set (s2 := s1 <| k_mem := st32 (k_mem s1) (kbuf i) n |>).
  destruct (head_loop i bs bs [] s2 start eq_refl Hl1) as (m & E2 & Hout & Hin). cbn [length] in *. change (Z.of_nat 0) with 0 in *.
  rewrite (bind_ret _ _ _ _ _ E2). change (s2 <| k_mem := m |>) with (s1 <| k_mem := m |>).
  assert (Hm : forall x, ~ (kbuf i <= x < kbuf i + BSIZE) -> ld8 m x = ld8 (k_mem s1) x).
  { intros x Hx. unfold BSIZE in Hx. rewrite Hout by (unfold n in *; lia). change (ld8 (st 4 (k_mem s1) (kbuf i) n) x = ld8 (k_mem s1) x). rewrite ld8_st_out; [done|lia]. }
  destruct (cache_inv_data s1 p L [i] i m Hci1) as [Hci2 Hlc2]; [left|..].
  { intros j Hj Hji. apply bytes_eq. intros k Hk. apply Hm. unfold BSIZE in *. destruct (kbuf_sep i j Hi Hj ltac:(done)); lia. }
  set (s3 := s1 <| k_mem := m |>) in *. set (d := bytes m (kbuf i) BSIZE) in *.
  destruct (bwrite_spec s3 p L [i] i Hci2) as (E3 & Hci3 & Hlc3); [left|]. change (bc s3 i) with d in *.
  change (bf s3 i) with (bf s1 i) in *. rewrite Hb1 in *. rewrite (bind_ret _ _ _ _ _ E3).
  destruct (brelse_spec (written s3 start d) p L [i] [] i Hci3) as (s4 & E4 & [H1 H2 H3 H4 H5 H6]); [done| |].
  { intros _. change (bf (written s3 start d) i) with (bf s1 i). rewrite Hb1. cbn. by rewrite Z.eqb_refl. }
  exists s4, d. split; [done|]. split; [split; [done| | |]|].
  - rewrite H3. cbn. f_equal. exact Hdk1.
  - intros b. rewrite H2, Hlc3, Hlc2, Hlc1. cbn. destruct (Z.eqb_spec start b) as [->|]; [by rewrite decide_True|by rewrite decide_False].
  - rewrite H4. exact Hlg1.
  - apply parse_head_eq; [|done|done|].
    + unfold d. rewrite <- ld32_bytes, Z.add_0_r by (unfold BSIZE; lia).
      rewrite (ld32_ext (st32 (k_mem s1) (kbuf i) n)); [apply ld32_st32_eq|]. intros x Hx. apply Hout. lia.
    + intros k b Hkb. pose proof (lookup_lt_Some _ _ _ Hkb). unfold d. rewrite <- ld32_bytes by (unfold BSIZE; lia).
      rewrite <- (Hin k b Hkb). f_equal. lia.
Qed.

(** ** read_head *)
Definition head_ok (d : list Z) : Prop := 0 <= i32 (le32 d 0) <= LOGBLOCKS.
Lemma parse_head_len d : head_ok d -> Z.of_nat (length (parse_head d)) = i32 (le32 d 0).
Proof. intros Hh. unfold parse_head. rewrite length_fmap, length_seqZ. unfold head_ok in Hh. lia. Qed.
Lemma parse_head_lookup d k b : parse_head d !! k = Some b -> b = i32 (le32 d (4 + 4 * Z.of_nat k)).
Proof. unfold parse_head. rewrite list_lookup_fmap_Some. intros (x & -> & [-> _]%lookup_seqZ). by rewrite Z.add_0_l. Qed.

Lemma lg_block_same s : s <| k_fs := (k_fs s) <| fs_log := (lg s) <| lg_block := lg_block (lg s) |> |> |> = s.
Proof.
  unfold lg. assert (E : forall l : logst, l <| lg_block := lg_block l |> = l) by (by intros []). rewrite E.
  assert (E' : forall t : fsst, t <| fs_log := fs_log t |> = t) by (by intros []). rewrite E'. by destruct s.
Qed.
Lemma read_loop i bs2 : forall bs bs1 s, bs = bs1 ++ bs2 -> (length bs <= 30)%nat ->
  length (lg_block (lg s)) = 30%nat -> take (length bs1) (lg_block (lg s)) = bs1 ->
  (forall k b, bs !! k = Some b -> i32 (ld32 (k_mem s) (kbuf i + 4 + 4 * Z.of_nat k)) = b) ->
  exists l, for_loop (length bs2) (Z.of_nat (length bs1)) (fun k =>
      b ← gets (fun s => i32 (ld32 (k_mem s) (kbuf i + 4 + 4 * k))); set_log_block k b) s =
      Ret tt (s <| k_fs := (k_fs s) <| fs_log := (lg s) <| lg_block := l |> |> |>) /\
    length l = 30%nat /\ take (length bs) l = bs.
Proof.
  induction bs2 as [|b bs2 IH]; intros bs bs1 s Ebs Hle Hlen Ht Hb.
  { exists (lg_block (lg s)). rewrite Ebs, app_nil_r. split; [by rewrite lg_block_same|done]. }
  pose proof (f_equal length Ebs) as Hl. rewrite length_app in Hl. cbn in Hl.
  set (l1 := <[length bs1 := b]> (lg_block (lg s))).
  set (s1 := s <| k_fs := (k_fs s) <| fs_log := (lg s) <| lg_block := l1 |> |> |>).
  destruct (IH bs (bs1 ++ [b]) s1) as (l & E & Hl30 & Htk).
  { by rewrite <- app_assoc. } { done. } { change (length l1 = 30%nat). unfold l1. by rewrite length_insert. }
  { change (take (length (bs1 ++ [b])) l1 = bs1 ++ [b]). rewrite length_app. cbn [length]. rewrite Nat.add_1_r.
    rewrite (take_S_r _ _ b) by (unfold l1; rewrite list_lookup_insert_eq; [done|lia]).
    unfold l1. by rewrite take_insert_ge, Ht by lia. }
  { done. }
  exists l. split; [|done]. cbn [length for_loop]. rewrite bind_assoc, bind_gets.
  rewrite (Hb (length bs1) b) by (rewrite Ebs, lookup_app_r, Nat.sub_diag by lia; done).
  assert (E1 : set_log_block (Z.of_nat (length bs1)) b s = Ret tt s1).
  { unfold set_log_block. destruct (Z.leb_spec 0 (Z.of_nat (length bs1))); [|lia].
    destruct (Z.ltb_spec (Z.of_nat (length bs1)) LOGBLOCKS); [|unfold LOGBLOCKS, MAXOPBLOCKS in *; lia].
    cbn [andb]. rewrite Nat2Z.id. done. }
  rewrite (bind_ret _ _ _ _ _ E1). rewrite length_app in E. cbn [length] in E.
  replace (Z.of_nat (length bs1 + 1)) with (Z.of_nat (length bs1) + 1) in E by lia. exact E.
Qed.

Lemma read_head_spec s p start :
  let d := lc s start in let bs := parse_head d in
  cache_inv s p [] [] -> lg_start (lg s) = start -> lg_dev (lg s) = ROOTDEV -> length (lg_block (lg s)) = 30%nat ->
  0 <= start < 2 ^ 31 -> head_ok d ->
  exists s', read_head s = Ret tt s' /\ cache_inv s' p [] [] /\ disk s' = disk s /\ (forall b, lc s' b = lc s b) /\ log_ok (lg s') start bs.
Proof.
  intros d bs Hci Hs Hdev Hlen Hst Hh. pose proof (parse_head_len d Hh) as Hbl. fold bs in Hbl.
  assert (H30 : (length bs <= 30)%nat) by (unfold head_ok, LOGBLOCKS, MAXOPBLOCKS in Hh; lia).
  unfold read_head. rewrite !bind_gets, Hs, Hdev, u32_small by lia.
  destruct (bread_spec s p [] [] start Hci) as (i & s1 & E1 & _ & [Hci1 Hb1 Hd1 _ Hlc1 Hdk1 Hlg1]); [left; cbn; lia|by intros i ?%not_elem_of_nil|].
  rewrite (bind_ret _ _ _ _ _ E1), bind_gets. fold d in Hd1.
  assert (Hld : forall off, 0 <= off -> off + 4 <= BSIZE -> ld32 (k_mem s1) (kbuf i + off) = le32 d off).
  { intros off H0 H1. rewrite ld32_bytes by done. by rewrite <- Hd1. }
  replace (ld32 (k_mem s1) (kbuf i)) with (le32 d 0) by (rewrite <- Hld, Z.add_0_r; [done|lia|unfold BSIZE; lia]).
  set (s2 := s1 <| k_fs := (k_fs s1) <| fs_log := (fs_log (k_fs s1)) <| lg_n := i32 (le32 d 0) |> |> |>).
  assert (E2 : set_log (fun l => l <| lg_n := i32 (le32 d 0) |>) s1 = Ret tt s2) by reflexivity.
  rewrite (bind_ret _ _ _ _ _ E2), <- Hbl, Nat2Z.id.
  destruct (read_loop i bs bs [] s2) as (l & E3 & Hl30 & Htk); [done|done| |done| |].
  { change (length (lg_block (fs_log (k_fs s1))) = 30%nat). by rewrite Hlg1. }
  { intros k b Hk. pose proof (lookup_lt_Some _ _ _ Hk). change (k_mem s2) with (k_mem s1). rewrite <- Z.add_assoc, Hld by (unfold BSIZE; lia).
    symmetry. by apply parse_head_lookup. }
  change (Z.of_nat (length [])) with 0 in E3. rewrite (bind_ret _ _ _ _ _ E3).
  set (s3 := s2 <| k_fs := _ |>). assert (Hci3 : cache_inv s3 p [] [i]) by (destruct Hci1 as [H1 H2 H3 H4 H5 H6 H7 H8 H9 H10 H11 H12]; split; assumption).
  destruct (brelse_spec s3 p [] [i] [] i Hci3) as (s4 & E4 & [H1 H2 H3 H4 H5 H6]); [done| |].
  { intros _. change (bc s1 i = disk_block (disk s1) (b_blockno (bf s1 i))). rewrite Hd1, Hb1, Hdk1. apply (lc_clean s p []); [done|apply not_elem_of_nil]. }
  exists s4. split_and!; [done|done|by rewrite H3, <- Hdk1|intros b; rewrite H2; apply Hlc1|].
  unfold lg. rewrite H4. split; cbn; [|by rewrite Hlg1..|by rewrite Hbl|done|done]. by rewrite Hlg1.
Qed.
End Log.

(** ** Examples: a cache in which buffer [i < n] holds block [100 + i], changed
    and pinned, over the disk [h], and a log at block 2 *)
Definition ex_buf (n i : nat) : buf :=
  if (i <? n)%nat then mkbuf true ROOTDEV (100 + Z.of_nat i) sleeplock0 1 else buf0.
Definition ex_cache (n : nat) (h : list (Z * list Z)) : kstate :=
  kstate0 <| k_proc := replicate 64 proc0 |> <| k_cur := Some 0%nat |> <| k_mem := st8 ∅ (0x80010000 + 5) 7 |>
    <| k_fs := fsst0 <| fs_disk := h |> <| fs_buf := ex_buf n <$> seq 0 30 |> <| fs_order := seq 0 30 |>
         <| fs_log := logst0 <| lg_start := 2 |> <| lg_dev := ROOTDEV |> <| lg_n := Z.of_nat n |>
              <| lg_block := (fun i => 100 + Z.of_nat i) <$> seq 0 30 |> |> |>.
Definition ex_blocks (n : nat) : list Z := (fun i => 100 + Z.of_nat i) <$> seq 0 n.
Lemma ex_bf n h i : (i < 30)%nat -> bf (ex_cache n h) i = ex_buf n i.
Proof. intros Hi. unfold bf. cbn -[seq]. by rewrite list_lookup_fmap, lookup_seq_lt. Qed.
Lemma ex_blocks_in n b : b ∈ ex_blocks n <-> 100 <= b < 100 + Z.of_nat n.
Proof.
  unfold ex_blocks. rewrite list_elem_of_fmap. split.
  - intros (i & -> & Hi%elem_of_seq). lia.
  - intros Hb. exists (Z.to_nat (b - 100)). split; [lia|]. apply elem_of_seq. lia.
Qed.
Lemma ex_cache_inv n h : (n <= 30)%nat -> disk_ok h -> @cache_inv example_image (ex_cache n h) 0 (ex_blocks n) [].
Proof.
  intros Hn Hh. assert (Hroot : forall i, (i < 30)%nat -> b_dev (bf (ex_cache n h) i) = ROOTDEV -> (i < n)%nat).
  { intros i Hi. rewrite ex_bf by done. unfold ex_buf. by destruct (Nat.ltb_spec i n). }
  split; try done.
  - intros i j Hi Hj Hri Hrj. pose proof (Hroot i Hi Hri). pose proof (Hroot j Hj Hrj). rewrite !ex_bf by done. unfold ex_buf.
    destruct (Nat.ltb_spec i n), (Nat.ltb_spec j n); try lia. cbn. lia.
  - intros i Hi. rewrite ex_bf by done. unfold ex_buf. by destruct (Nat.ltb_spec i n).
  - intros i Hi. rewrite ex_bf by done. unfold ex_buf. by destruct (Nat.ltb_spec i n).
  - intros i Hi. unfold pinned. rewrite ex_bf by done. unfold ex_buf. destruct (Nat.ltb_spec i n); [|done].
    cbn [b_dev b_blockno b_refcnt]. rewrite bool_decide_true by (apply ex_blocks_in; lia). done.
  - intros i Hi. rewrite ex_bf by done. unfold ex_buf. destruct (Nat.ltb_spec i n); [|done]. cbn [b_blockno]. intros _ _ Hno.
    exfalso. apply Hno, ex_blocks_in. lia.
  - intros b Hb%ex_blocks_in. exists (Z.to_nat (b - 100)). split; [lia|]. unfold cached. rewrite ex_bf by lia. unfold ex_buf.
    destruct (Nat.ltb_spec (Z.to_nat (b - 100)) n); [|lia]. cbn. rewrite andb_true_r. apply Z.eqb_eq. lia.
  - split; [apply NoDup_nil_2|by intros i ?%not_elem_of_nil].
Qed.
Lemma ex_log_ok n h : (n <= 30)%nat -> log_ok (lg (ex_cache n h)) 2 (ex_blocks n).
Proof.
  intros Hn. unfold ex_blocks. split; cbn -[seq]; rewrite ?length_fmap, ?length_seq; try done.
  rewrite <- fmap_take. f_equal. rewrite take_seq. f_equal. lia.
Qed.
Lemma ex_nodup n : NoDup (ex_blocks n).
Proof. apply NoDup_fmap_2; [intros x y; lia|apply NoDup_seq]. Qed.
