(* ===== verification/LogProps.v ===== *)
(** * The log: crash safety of commit and of recovery

    The disk is the list of the writes it has taken, so a crash in the middle
    of an operation leaves a suffix of the writes the operation makes.
    [recovered start h] is what recovery makes of the disk [h]. *)

From S2P Require Import Prelude Memory FsState State Sched SchedSpec Printf Sleeplock Bio BioSpec Log LogSpec.
Import Mem KString.

Definition recovered (start : Z) (h : list (Z * list Z)) : Z -> list Z :=
  overlay (home_writes start 0 (parse_head (disk_block h start)) (disk_block h)) (disk_block h).

(** ** Overlays of the writes of the log and of the installation *)
Lemma home_overlay start k bs f g g' x :
  (forall j b, bs !! j = Some b -> f (start + k + Z.of_nat j + 1) = g' b) ->
  overlay (home_writes start k bs f) g x = if decide (x ∈ bs) then g' x else g x.
Proof.
  revert k. induction bs as [|c bs IH] using rev_ind; intros k E.
  { rewrite decide_False by apply not_elem_of_nil. done. }
  assert (Happ : forall l k, home_writes start k (l ++ [c]) f = (c, f (start + k + Z.of_nat (length l) + 1)) :: home_writes start k l f).
  { clear. induction l as [|b l IH]; intros k; cbn [app home_writes length]; [do 3 f_equal; lia|]. rewrite IH. cbn [app]. do 3 f_equal. lia. }
  rewrite Happ. cbn [overlay]. rewrite (E (length bs) c) by (rewrite lookup_app_r, Nat.sub_diag by lia; done).
  destruct (Z.eqb_spec c x) as [->|Hne].
  - rewrite decide_True; [done|]. apply elem_of_app. right. left.
  - rewrite IH by (intros j b Hj; apply E; by apply lookup_app_l_Some). destruct (decide (x ∈ bs)) as [Hx|Hx].
    + rewrite decide_True; [done|]. apply elem_of_app. by left.
    + rewrite decide_False; [done|]. intros [?|?%list_elem_of_singleton]%elem_of_app; [done|congruence].
Qed.
Lemma log_lookup start k bs f g j b :
  bs !! j = Some b -> overlay (log_writes start k bs f) g (start + k + Z.of_nat j + 1) = f b.
Proof.
  revert k j g. induction bs as [|c bs IH]; intros k j g Hj; [done|]. cbn [log_writes]. rewrite overlay_app. destruct j as [|j].
  - injection Hj as ->. rewrite overlay_out; [cbn [overlay]|].
    + destruct (Z.eqb_spec (start + k + 1) (start + k + Z.of_nat 0 + 1)); [done|lia].
    + intros x d (i & Hi & ->)%log_writes_in. lia.
  - replace (start + k + Z.of_nat (S j) + 1) with (start + (k + 1) + Z.of_nat j + 1) by lia. by apply IH.
Qed.
Lemma log_writes_out start k bs f g x :
  0 <= k -> k + Z.of_nat (length bs) <= LOGBLOCKS -> ~ in_log start x \/ x = start -> overlay (log_writes start k bs f) g x = g x.
Proof.
  intros Hk Hl Hx. apply overlay_out. intros b d (j & Hj & ->)%log_writes_in. unfold in_log in Hx. lia.
Qed.
Lemma suffix_app (ws1 ws2 w1 w2 : list (Z * list Z)) :
  ws1 ++ ws2 = w2 ++ w1 -> (exists w, ws2 = w ++ w1) \/ (exists w w', w <> [] /\ ws1 = w' ++ w /\ w1 = w ++ ws2).
Proof.
  revert w2. induction ws1 as [|y ws1 IH]; intros w2 E; cbn in E; [left; by exists w2|].
  destruct w2 as [|z w2]; [right; exists (y :: ws1), []; cbn in *; by subst|]. injection E as <- E.
  destruct (IH w2 E) as [[w ->]|(w & w' & Hw & -> & ->)]; [left; by exists w|]. right. by exists w, (y :: w').
Qed.

(** Installing writes only to the home blocks. *)
Lemma home_part_out start k bs f g w w' x :
  home_writes start k bs f = w' ++ w -> x ∉ bs -> overlay w g x = g x.
Proof.
  intros E Hx. apply overlay_out. intros b d Hin ->. apply Hx. apply (home_writes_in start k bs f x d). rewrite E.
  apply elem_of_app. by right.
Qed.

(** [h] holds a committed transaction: block [j] of the log is to become block
    [bs !! j], with content [g (bs !! j)]. *)
Definition holds_log (start : Z) (bs : list Z) (g : Z -> list Z) (h : list (Z * list Z)) : Prop :=
  parse_head (disk_block h start) = bs /\
  forall j b, bs !! j = Some b -> disk_block h (start + Z.of_nat j + 1) = g b.
Lemma recovered_holds start bs g h x :
  holds_log start bs g h -> recovered start h x = if decide (x ∈ bs) then g x else disk_block h x.
Proof.
  intros [Hp Hg]. unfold recovered. rewrite Hp. apply home_overlay. intros j b Hj. rewrite <- (Hg j b Hj). f_equal. lia.
Qed.
(** A part of the installation keeps it, and what it recovers to. *)
Lemma holds_install start bs g h f w w' :
  holds_log start bs g h -> (length bs <= 30)%nat -> (forall b, b ∈ bs -> ~ in_log start b) ->
  home_writes start 0 bs f = w' ++ w -> holds_log start bs g (w ++ h).
Proof.
  intros [Hp Hg] Hlen Hbs E.
  assert (Hout : forall x, in_log start x -> disk_block (w ++ h) x = disk_block h x).
  { intros x Hx. rewrite disk_block_app. eapply home_part_out; [done|]. intros Hin. by apply (Hbs x). }
  split; [rewrite Hout; [done|unfold in_log, LOGBLOCKS, MAXOPBLOCKS; lia]|].
  intros j b Hj. pose proof (lookup_lt_Some _ _ _ Hj). rewrite Hout; [by apply Hg|]. unfold in_log, LOGBLOCKS, MAXOPBLOCKS. lia.
Qed.
Lemma recovered_empty start h x : parse_head (disk_block h start) = [] -> recovered start h x = disk_block h x.
Proof. intros E. unfold recovered. by rewrite E. Qed.

(** Every point of the installation, and after the header is cleared. *)
Lemma installed_recovers start bs g h d w1 w2 x :
  holds_log start bs g h -> (length bs <= 30)%nat -> (forall b, b ∈ bs -> ~ in_log start b) -> parse_head d = [] ->
  ((start, d) :: home_writes start 0 bs (disk_block h)) = w2 ++ w1 -> ~ in_log start x ->
  recovered start (w1 ++ h) x = if decide (x ∈ bs) then g x else disk_block h x.
Proof.
  intros Hh Hlen Hbs Hd E Hx. destruct w2 as [|y w2]; cbn in E.
  - subst w1. cbn [app]. rewrite recovered_empty by (cbn; by rewrite Z.eqb_refl). cbn [disk_block].
    destruct (Z.eqb_spec start x) as [->|_]; [exfalso; apply Hx; unfold in_log, LOGBLOCKS, MAXOPBLOCKS; lia|].
    rewrite disk_block_app. apply home_overlay. intros j b Hj. destruct Hh as [_ Hg]. rewrite <- (Hg j b Hj). f_equal. lia.
  - injection E as _ E. rewrite (recovered_holds start bs g) by (by eapply holds_install).
    destruct (decide (x ∈ bs)); [done|]. rewrite disk_block_app. by eapply home_part_out.
Qed.

(** ** The disk while a transaction commits *)
Section CommitDisk.
Context (start : Z) (bs : list Z) (f : Z -> list Z) (h : list (Z * list Z)) (d1 d2 : list Z).
Hypothesis Hlen : (length bs <= 30)%nat.
Hypothesis Hbs : forall b, b ∈ bs -> ~ in_log start b.
Hypothesis Hd1 : parse_head d1 = bs.
Hypothesis Hd2 : parse_head d2 = [].
Hypothesis Hempty : parse_head (disk_block h start) = [].
Hypothesis Hclean : forall x, x ∉ bs -> disk_block h x = f x.
Let lws := log_writes start 0 bs f.
Let h1 := (start, d1) :: lws ++ h.
Let hws := (start, d2) :: home_writes start 0 bs (disk_block h1).

Lemma log_part_out w w' x :
  lws = w' ++ w -> ~ in_log start x \/ x = start -> disk_block (w ++ h) x = disk_block h x.
Proof.
  intros E Hx. rewrite disk_block_app. apply overlay_out. intros b d Hin.
  destruct (log_writes_in start 0 bs f b d) as (j & Hj & ->); [fold lws; rewrite E; apply elem_of_app; by right|].
  unfold in_log, LOGBLOCKS, MAXOPBLOCKS in Hx. lia.
Qed.
Lemma log_committed : holds_log start bs f h1.
Proof.
  split; [unfold h1; cbn; by rewrite Z.eqb_refl|]. intros j b Hj. unfold h1. cbn [disk_block].
  destruct (Z.eqb_spec start (start + Z.of_nat j + 1)); [lia|]. rewrite disk_block_app.
  replace (start + Z.of_nat j + 1) with (start + 0 + Z.of_nat j + 1) by lia. by apply log_lookup.
Qed.
Lemma committed_base x : ~ in_log start x -> (if decide (x ∈ bs) then f x else disk_block h1 x) = f x.
Proof.
  intros Hx. destruct (decide (x ∈ bs)) as [|Hn]; [done|]. unfold h1. cbn [disk_block].
  destruct (Z.eqb_spec start x) as [->|_]; [exfalso; apply Hx; unfold in_log, LOGBLOCKS, MAXOPBLOCKS; lia|].
  rewrite (log_part_out lws [] x); [by apply Hclean|done|by left].
Qed.

(** At each point of the commit the disk recovers to the old or to the new. *)
Lemma commit_crash w1 w2 :
  hws ++ (start, d1) :: lws = w2 ++ w1 ->
  (forall x, ~ in_log start x -> recovered start (w1 ++ h) x = disk_block h x) \/
  (forall x, ~ in_log start x -> recovered start (w1 ++ h) x = f x).
Proof.
  intros E. destruct (suffix_app _ _ _ _ E) as [[w E']|(w & w' & _ & E' & ->)].
  - destruct w as [|y w]; cbn in E'.
    + right. intros x Hx. subst w1. change (((start, d1) :: lws) ++ h) with h1. rewrite (recovered_holds _ bs f) by apply log_committed.
      by apply committed_base.
    + left. injection E' as _ E'. intros x Hx. rewrite recovered_empty; [apply (log_part_out w1 w); [done|by left]|].
      by rewrite (log_part_out w1 w) by (done || by right).
  - right. intros x Hx. rewrite <- app_assoc. change (((start, d1) :: lws) ++ h) with h1.
    rewrite (installed_recovers start bs f h1 d2 w w'); try done; [by apply committed_base|apply log_committed].
Qed.
(** And at its end it is the new one. *)
Lemma commit_end x : ~ in_log start x -> disk_block (hws ++ h1) x = f x.
Proof.
  intros Hx. rewrite <- committed_base by done. rewrite <- (installed_recovers start bs f h1 d2 hws [] x); try done; [|apply log_committed].
  rewrite recovered_empty; [done|]. cbn. by rewrite Z.eqb_refl.
Qed.
End CommitDisk.

Section Log.
Context `{KernelImage}.

Lemma log_ok_clear l start bs : log_ok l start bs -> log_ok (l <| lg_n := 0 |>) start [].
Proof. intros [H1 H2 H3 H4 H5]. by split. Qed.

(** The end of commit and of recovery: install, then clear the header. *)
Lemma install_and_clear (recovering : bool) s p start bs :
  cache_inv s p (if recovering then [] else bs) [] -> log_ok (lg s) start bs -> installable start bs recovering ->
  exists s' d, (install_trans recovering;; set_log (fun l => l <| lg_n := 0 |>);; write_head) s = Ret tt s' /\
    cache_inv s' p [] [] /\ disk s' = (start, d) :: home_writes start 0 bs (lc s) ++ disk s /\
    parse_head d = [] /\ log_ok (lg s') start [].
Proof.
  intros Hci Hl Hins. destruct (in_start _ _ _ Hins) as [Hs0 Hs1].
  destruct (install_trans_spec recovering s p start bs Hci Hl Hins) as (s1 & E1 & [Hci1 Hd1 Hlc1 Hl1]).
  rewrite (bind_ret _ _ _ _ _ E1).
  set (s2 := s1 <| k_fs := (k_fs s1) <| fs_log := (fs_log (k_fs s1)) <| lg_n := 0 |> |> |>).
  assert (E2 : set_log (fun l => l <| lg_n := 0 |>) s1 = Ret tt s2) by reflexivity. rewrite (bind_ret _ _ _ _ _ E2).
  assert (Hl2 : log_ok (lg s2) start []). { apply (log_ok_clear (fs_log (k_fs s1)) start bs). unfold lg in Hl. by rewrite Hl1. }
  destruct (write_head_spec s2 p [] start []) as (s3 & d & E3 & [Hci3 Hd3 Hlc3 Hl3] & Hp).
  { by apply cache_inv_log. } { cbn; lia. } { apply not_elem_of_nil. } { done. }
  { unfold LOGBLOCKS, MAXOPBLOCKS in *. lia. } { cbn; lia. } { by intros b ?%not_elem_of_nil. }
  exists s3, d. split_and!; [done|done| |done|unfold lg; by rewrite Hl3].
  rewrite Hd3. cbn. f_equal. exact Hd1.
Qed.

(** C1. A transaction is atomic.  [commit] writes the blocks of the log to the
    disk and installs them; it returns with an empty log and with every block
    outside the log area as the file system saw it.  Whatever part of its
    writes reached the disk before a crash, what recovery makes of the disk is,
    outside the log area, the disk before the commit or the disk after it. *)
Theorem commit_atomic s p start bs :
  cache_inv s p bs [] -> log_ok (lg s) start bs -> layout start bs -> bs <> [] ->
  parse_head (disk_block (disk s) start) = [] ->
  exists s' ws, commit s = Ret tt s' /\ cache_inv s' p [] [] /\ log_ok (lg s') start [] /\ disk s' = ws ++ disk s /\
    (forall x, ~ in_log start x -> disk_block (disk s') x = lc s x) /\
    forall w1 w2, ws = w2 ++ w1 ->
      (forall x, ~ in_log start x -> recovered start (w1 ++ disk s) x = disk_block (disk s) x) \/
      (forall x, ~ in_log start x -> recovered start (w1 ++ disk s) x = lc s x).
Proof.
  intros Hci Hl Hlay Hne Hempty. pose proof (la_len _ _ Hlay) as Hlen. destruct (la_start _ _ Hlay) as [Hs0 Hs1].
  assert (Hout : forall b, b ∈ bs -> ~ in_log start b) by (intros b Hb; by apply (la_blocks _ _ Hlay)).
  assert (Hclean : forall x, x ∉ bs -> disk_block (disk s) x = lc s x) by (intros x Hx; symmetry; by eapply lc_clean).
  destruct (write_log_spec s p start bs Hci Hl Hlay) as (s1 & E1 & [Hci1 Hd1 Hlc1 Hl1]).
  assert (Hlg1 : log_ok (lg s1) start bs) by (unfold lg in *; by rewrite Hl1).
  destruct (write_head_spec s1 p bs start bs Hci1) as (s2 & d1 & E2 & [Hci2 Hd2 Hlc2 Hl2] & Hp1); try done; try lia.
  { intros Hin. apply (Hout start Hin). unfold in_log, LOGBLOCKS, MAXOPBLOCKS. lia. }
  { unfold LOGBLOCKS, MAXOPBLOCKS in *. lia. }
  { intros b Hb. by apply (la_blocks _ _ Hlay). }
  assert (Hlg2 : log_ok (lg s2) start bs) by (unfold lg in *; by rewrite Hl2).
  destruct (install_and_clear false s2 p start bs Hci2 Hlg2 (layout_installable _ _ Hlay)) as (s3 & d2 & E3 & Hci3 & Hd3 & Hp2 & Hl3).
  rewrite (home_writes_ext _ _ _ (lc s2) (disk_block (disk s2))) in Hd3.
  2: { intros j Hj. apply (lc_clean s2 p bs); [done|]. intros Hin. apply (Hout _ Hin). unfold in_log, LOGBLOCKS, MAXOPBLOCKS. lia. }
  rewrite Hd2, Hd1 in Hd3. cbn [app] in Hd3.
  eexists s3, (_ :: _ ++ _ :: _). split_and!; [|done|done|rewrite Hd3; cbn [app]; rewrite <- app_assoc; reflexivity| |].
  - unfold commit. rewrite bind_gets, (lo_n _ _ _ Hl). destruct (Z.ltb_spec 0 (Z.of_nat (length bs))); [|destruct bs; cbn in *; [done|lia]].
    by rewrite (bind_ret _ _ _ _ _ E1), (bind_ret _ _ _ _ _ E2).
  - intros x Hx. rewrite Hd3. change (disk_block (?a :: ?b ++ ?c)) with (disk_block ((a :: b) ++ c)). apply (commit_end start bs (lc s)); try done; lia.
  - intros w1 w2 E. apply (commit_crash start bs (lc s) (disk s) d1 d2) with (w2 := w2); try done; lia.
Qed.

(** C2. Recovery is correct and can itself crash.  [recover_from_log] installs
    the transaction that the log on the disk holds and clears the log; if it
    is interrupted at any of its writes, the next recovery gives the same disk
    outside the log area. *)
Theorem recovery_idempotent s p start :
  let d := disk_block (disk s) start in let bs := parse_head d in
  cache_inv s p [] [] -> lg_start (lg s) = start -> lg_dev (lg s) = ROOTDEV -> length (lg_block (lg s)) = 30%nat ->
  head_ok d -> installable start bs true -> NoDup bs ->
  exists s' ws, recover_from_log s = Ret tt s' /\ cache_inv s' p [] [] /\ log_ok (lg s') start [] /\ disk s' = ws ++ disk s /\
    (forall x, ~ in_log start x -> disk_block (disk s') x = recovered start (disk s) x) /\
    forall w1 w2, ws = w2 ++ w1 -> forall x, ~ in_log start x -> recovered start (w1 ++ disk s) x = recovered start (disk s) x.
Proof.
  intros d bs Hci Hs Hdev Hlen Hh Hins Hnd. destruct (in_start _ _ _ Hins) as [Hs0 Hs1].
  assert (Hclean : forall x, lc s x = disk_block (disk s) x) by (intros x; apply (lc_clean s p []); [done|apply not_elem_of_nil]).
  destruct (read_head_spec s p start Hci Hs Hdev Hlen) as (s1 & E1 & Hci1 & Hd1 & Hlc1 & Hl1); rewrite ?Hclean; [unfold LOGBLOCKS, MAXOPBLOCKS in *; lia|done|].
  rewrite Hclean in Hl1. fold d bs in Hl1.
  destruct (install_and_clear true s1 p start bs Hci1 Hl1 Hins) as (s2 & d2 & E2 & Hci2 & Hd2 & Hp2 & Hl2).
  rewrite (home_writes_ext _ _ _ (lc s1) (disk_block (disk s))), Hd1 in Hd2 by (intros; by rewrite Hlc1).
  assert (Hg : exists g, holds_log start bs g (disk s)).
  { exists (fun x => match list_find (x =.) bs with Some (j, _) => disk_block (disk s) (start + Z.of_nat j + 1) | None => [] end).
    split; [done|]. intros j b Hj. destruct (list_find_elem_of (b =.) bs b) as [[j' b'] Ej]; [by eapply list_elem_of_lookup_2|done|].
    rewrite Ej. apply list_find_Some in Ej as (Hj' & <- & _). by rewrite (NoDup_lookup _ _ _ _ Hnd Hj Hj'). }
  destruct Hg as [g Hg]. assert (Hout : forall b, b ∈ bs -> ~ in_log start b) by (intros b Hb; by apply (in_blocks _ _ _ Hins)).
  assert (Hcrash : forall w1 w2, (start, d2) :: home_writes start 0 bs (disk_block (disk s)) = w2 ++ w1 ->
    forall x, ~ in_log start x -> recovered start (w1 ++ disk s) x = recovered start (disk s) x).
  { intros w1 w2 E x Hx. rewrite (recovered_holds start bs g (disk s)) by done.
    apply (installed_recovers start bs g (disk s) d2 w1 w2); try done. apply Hins. }
  exists s2, ((start, d2) :: home_writes start 0 bs (disk_block (disk s))). split_and!; [|done..| |done].
  - unfold recover_from_log. by rewrite (bind_ret _ _ _ _ _ E1).
  - intros x Hx. rewrite <- (Hcrash _ [] eq_refl x Hx), Hd2. symmetry. apply recovered_empty. cbn. by rewrite Z.eqb_refl.
Qed.

(** With NBUF distinct blocks in the log every buffer is pinned. *)
Lemma all_pinned s p L i :
  cache_inv s p L [] -> NoDup L -> length L = 30%nat -> (i < 30)%nat -> unreferenced s i = false /\ b_blockno (bf s i) ∈ L.
Proof.
  intros Hci Hnd Hlen Hi. set (F := filter (fun i => b_dev (bf s i) = ROOTDEV) (seq 0 30)).
  assert (Hsub : L ⊆+ ((fun i => b_blockno (bf s i)) <$> F)).
  { apply NoDup_submseteq; [done|]. intros b Hb. destruct (ci_pin _ _ _ _ Hci b Hb) as (j & Hj & (Hd & <- & _)%cached_spec).
    apply (list_elem_of_fmap_2 (fun i => b_blockno (bf s i))). apply list_elem_of_filter. split; [done|]. apply elem_of_seq. lia. }
  pose proof (length_filter (fun i => b_dev (bf s i) = ROOTDEV) (seq 0 30)) as Hf. fold F in Hf. rewrite length_seq in Hf.
  pose proof (submseteq_length _ _ Hsub) as Hs. rewrite length_fmap in Hs.
  assert (Hperm : L ≡ₚ (fun i => b_blockno (bf s i)) <$> F) by (apply submseteq_length_Permutation; [done|rewrite length_fmap; lia]).
  assert (HF : i ∈ F).
  { assert (EF : F ≡ₚ seq 0 30) by (apply submseteq_length_Permutation; [apply sublist_submseteq, sublist_filter|rewrite length_seq; lia]).
    rewrite EF. apply elem_of_seq. lia. }
  assert (Hb : b_blockno (bf s i) ∈ L) by (rewrite Hperm; by apply (list_elem_of_fmap_2 (fun i => b_blockno (bf s i)))).
  split; [|done]. apply list_elem_of_filter in HF as [Hd _]. unfold unreferenced. rewrite (ci_ref _ _ _ _ Hci i Hi), decide_False by apply not_elem_of_nil.
  unfold pinned. rewrite Hd, bool_decide_true by done. done.
Qed.

(** The log may fill up to LOGBLOCKS blocks, and the cache has NBUF =
    LOGBLOCKS buffers.  A transaction of that size pins every buffer, so its
    commit finds no buffer for the first block of the log and panics. *)
Theorem full_log_panics s p start bs :
  cache_inv s p bs [] -> log_ok (lg s) start bs -> NoDup bs -> Z.of_nat (length bs) = LOGBLOCKS ->
  0 <= start -> start + LOGBLOCKS < 2 ^ 31 -> (forall b, b ∈ bs -> ~ in_log start b) ->
  commit s = Panic "bget: no buffers" s.
Proof.
  intros Hci Hl Hnd Hlen Hs0 Hs1 Hout. change LOGBLOCKS with 30 in *. assert (H30 : length bs = 30%nat) by lia.
  unfold commit. rewrite bind_gets, (lo_n _ _ _ Hl). replace (0 <? Z.of_nat (length bs)) with true by (symmetry; apply Z.ltb_lt; lia).
  unfold write_log. rewrite bind_assoc, bind_gets, (lo_n _ _ _ Hl), Nat2Z.id, H30.
  assert (Hpan : write_log_block 0 s = Panic "bget: no buffers" s); [|cbn [for_loop]; unfold mbind, M_bind; by rewrite Hpan].
  unfold write_log_block. rewrite !bind_gets, (lo_dev _ _ _ Hl), (lo_start _ _ _ Hl), Z.add_0_r, u32_small by lia.
  assert (Hg : bget ROOTDEV (start + 1) s = Panic "bget: no buffers" s); [|unfold bread, mbind, M_bind; by rewrite Hg].
  assert (Hall : forall i, i ∈ fs_order (k_fs s) -> unreferenced s i = false /\ b_blockno (bf s i) ∈ bs).
  { intros i Hi. rewrite (ci_order _ _ _ _ Hci), elem_of_seq in Hi. eapply all_pinned; [done..|lia]. }
  unfold bget. rewrite bind_gets. destruct (find _ (fs_order _)) as [i|] eqn:E1.
  { exfalso. apply find_some in E1 as [Hi Hb]. apply list_elem_of_In, Hall in Hi as [_ Hi]. unfold holds_block in Hb.
    apply andb_true_iff in Hb as [_ Hb%Z.eqb_eq]. apply (Hout _ Hi). unfold in_log. change LOGBLOCKS with 30. lia. }
  rewrite bind_gets. destruct (find _ (rev _)) as [i|] eqn:E2; [|done].
  exfalso. apply find_some in E2 as [Hi Hb]. rewrite <- in_rev in Hi. apply list_elem_of_In, Hall in Hi as [Hi _]. congruence.
Qed.
End Log.

(** ** Examples *)

Lemma commit_atomic_witness : exists s', @commit example_image (ex_cache 2 []) = Ret tt s' /\
  nth 5 (disk_block (disk s') 100) 0 = 7.
Proof.
  destruct (@commit_atomic example_image (ex_cache 2 []) 0 2 (ex_blocks 2)) as (s' & ws & E & _ & _ & _ & Hd & _).
  - apply ex_cache_inv; [lia|constructor].
  - apply ex_log_ok. lia.
  - split; [concrete|intros b Hb%ex_blocks_in; split; [lia|unfold in_log, LOGBLOCKS, MAXOPBLOCKS; lia]|apply ex_nodup|cbn; lia].
  - done.
  - by vm_compute.
  - exists s'. split; [done|]. rewrite Hd by (unfold in_log, LOGBLOCKS, MAXOPBLOCKS; lia). by vm_compute.
Defined.

(** A disk whose log holds block 100, with content 9, 9, ... *)
Definition ex_disk : list (Z * list Z) :=
  [(2, [1; 0; 0; 0; 100; 0; 0; 0] ++ replicate 1016 0); (3, replicate 1024 9)].
Lemma recovery_idempotent_witness : exists s', @recover_from_log example_image (ex_cache 0 ex_disk) = Ret tt s' /\
  disk_block (disk s') 100 = replicate 1024 9.
Proof.
  destruct (@recovery_idempotent example_image (ex_cache 0 ex_disk) 0 2) as (s' & ws & E & _ & _ & _ & Hd & _).
  - apply ex_cache_inv; [lia|]. apply Forall_cons; split; [split; [done|]|apply Forall_singleton; split; [done|by apply Forall_replicate]].
    apply Forall_app; split; [repeat constructor; lia|by apply Forall_replicate].
  - done.
  - done.
  - done.
  - split; vm_compute; discriminate.
  - assert (Eb : parse_head (disk_block (disk (ex_cache 0 ex_disk)) 2) = [100]) by (by vm_compute). rewrite Eb.
    split; [concrete|intros b ->%list_elem_of_singleton; unfold in_log, LOGBLOCKS, MAXOPBLOCKS; lia|cbn; lia|done].
  - assert (Eb : parse_head (disk_block (disk (ex_cache 0 ex_disk)) 2) = [100]) by (by vm_compute). rewrite Eb. apply NoDup_singleton.
  - exists s'. split; [done|]. rewrite Hd by (unfold in_log, LOGBLOCKS, MAXOPBLOCKS; lia). by vm_compute.
Defined.

Lemma full_log_panics_witness : @commit example_image (ex_cache 30 []) = Panic "bget: no buffers" (ex_cache 30 []).
Proof.
  apply (@full_log_panics example_image (ex_cache 30 []) 0 2 (ex_blocks 30)).
  - apply ex_cache_inv; [lia|constructor].
  - apply ex_log_ok. lia.
  - apply ex_nodup.
  - done.
  - lia.
  - concrete.
  - intros b Hb%ex_blocks_in. unfold in_log, LOGBLOCKS, MAXOPBLOCKS. lia.
Defined.
