(* ===== verification/Kalloc.v ===== *)
(** * kernel/kalloc.c: the physical page allocator

    The free list is threaded through the free pages themselves: the first
    word of a free page is the address of the next one.  [kmem_inv s l] says
    that this chain in memory is the list [l] of distinct, page-aligned
    addresses between [end] and [PHYSTOP]; the theorems show that kinit
    establishes it and that kalloc and kfree are pop and push on [l]. *)

From S2P Require Import Prelude Memory State.
Import Mem KString.

(** ** Page arithmetic of riscv.h *)
Section Paging.

Lemma pgrounddown_eq a : 0 <= a -> PGROUNDDOWN a = a - a `mod` PGSIZE.
Proof.
  intros Ha. unfold PGROUNDDOWN, PGSIZE.
  rewrite <- (Z.ldiff_land a (4096 - 1)).
  change (4096 - 1) with (Z.ones 12). rewrite Z.ldiff_ones_r by lia.
  rewrite Z.shiftl_mul_pow2, Z.shiftr_div_pow2 by lia.
  change (2 ^ 12) with 4096. pose proof (Z.div_mod a 4096). lia.
Qed.
Lemma pgroundup_eq a :
  0 <= a -> a + PGSIZE - 1 < 2 ^ 64 ->
  PGROUNDUP a = (a + PGSIZE - 1) - (a + PGSIZE - 1) `mod` PGSIZE.
Proof.
  intros Ha Hb. unfold PGROUNDUP. rewrite u64_small by (unfold PGSIZE in *; lia).
  apply pgrounddown_eq. unfold PGSIZE in *; lia.
Qed.
Lemma pgroundup_bounds a :
  0 <= a -> a + PGSIZE - 1 < 2 ^ 64 ->
  a <= PGROUNDUP a < a + PGSIZE /\ PGROUNDUP a `mod` PGSIZE = 0.
Proof.
  intros Ha Hb. rewrite (pgroundup_eq a Ha Hb). unfold PGSIZE in *.
  pose proof (Z.mod_pos_bound (a + 4096 - 1) 4096).
  split; [lia|]. rewrite Zminus_mod, Z.mod_mod, Z.sub_diag by lia. done.
Qed.
Lemma pgroundup_id a :
  0 <= a -> a + PGSIZE - 1 < 2 ^ 64 -> a `mod` PGSIZE = 0 -> PGROUNDUP a = a.
Proof.
  intros Ha Hb Hm. destruct (pgroundup_bounds a Ha Hb) as [Hr Hm'].
  unfold PGSIZE in *. pose proof (Z.div_mod a 4096). pose proof (Z.div_mod (PGROUNDUP a) 4096).
  lia.
Qed.

End Paging.

Section Kalloc.
Context `{KernelImage}.

(** kfree *)
Definition kfree (pa : Z) : K unit :=
  if negb (pa `mod` PGSIZE =? 0) || (pa <? kend) || (PHYSTOP <=? pa)
  then panic "kfree"
  else
    modify (fun s => s <| k_mem := memset (k_mem s) pa 1 PGSIZE |>);;
    modify (fun s => s <| k_mem := st64 (k_mem s) pa (k_freelist s) |>);;
    modify (fun s => s <| k_freelist := pa |>).

(** kalloc *)
Definition kalloc : K Z :=
  r ← gets k_freelist;
  if r =? 0 then mret 0
  else
    modify (fun s => s <| k_freelist := ld64 (k_mem s) r |>);;
    modify (fun s => s <| k_mem := memset (k_mem s) r 5 PGSIZE |>);;
    mret r.

(** freerange: [for(; p + PGSIZE <= (char* )pa_end; p += PGSIZE) kfree(p);] *)
Fixpoint freerange_loop (fuel : nat) (p pa_end : Z) : K unit :=
  match fuel with
  | O => no_fuel
  | S fuel' =>
      if p + PGSIZE <=? pa_end
      then kfree p;; freerange_loop fuel' (p + PGSIZE) pa_end
      else mret tt
  end.
Definition freerange (pa_start pa_end : Z) : K unit :=
  freerange_loop (Z.to_nat ((pa_end - pa_start) / PGSIZE + 2)) (PGROUNDUP pa_start) pa_end.

(** kinit *)
Definition kinit : K unit := freerange kend PHYSTOP.

(** ** The free-list invariant *)

Definition page_ok (p : Z) : Prop := p `mod` PGSIZE = 0 /\ kend <= p < PHYSTOP.

Fixpoint chain (m : mem) (h : Z) (l : list Z) : Prop :=
  match l with
  | [] => h = 0
  | p :: l' => h = p /\ page_ok p /\ chain m (ld64 m p) l'
  end.

Definition kmem_inv (s : kstate) (l : list Z) : Prop :=
  chain (k_mem s) (k_freelist s) l /\ NoDup l.

Lemma page_ok_pos p : page_ok p -> 0 < p < 2 ^ 64.
Proof. intros [_ ?]. pose proof kend_range. unfold PHYSTOP, KERNBASE in *. lia. Qed.

(** Distinct pages do not overlap. *)
Lemma pages_disjoint p q :
  p `mod` PGSIZE = 0 -> q `mod` PGSIZE = 0 -> p <> q -> p + PGSIZE <= q \/ q + PGSIZE <= p.
Proof.
  unfold PGSIZE. intros Hp Hq Hne.
  pose proof (Z.div_mod p 4096). pose proof (Z.div_mod q 4096). lia.
Qed.

Lemma chain_ok m h l : chain m h l -> Forall page_ok l.
Proof. revert h. induction l as [|p l IH]; intros h; cbn; [by constructor|]. intros (->&?&?). eauto. Qed.

(** The chain only depends on the first word of its pages. *)
Lemma chain_ext m m' h l :
  (forall p, p ∈ l -> ld64 m p = ld64 m' p) -> chain m h l -> chain m' h l.
Proof.
  revert h. induction l as [|p l IH]; intros h Hx; cbn; [done|].
  intros (->&?&?). split_and!; try done.
  rewrite <- (Hx p) by set_solver. apply IH; [|done]. intros; apply Hx; set_solver.
Qed.

Lemma kmem_inv_ext s s' l :
  kmem_inv s l -> k_freelist s' = k_freelist s ->
  (forall p b, p ∈ l -> p <= b < p + PGSIZE -> ld8 (k_mem s') b = ld8 (k_mem s) b) ->
  kmem_inv s' l.
Proof.
  intros [Hc Hnd] Hf Hx. split; [|done]. rewrite Hf. eapply chain_ext; [|exact Hc].
  intros p Hp. apply ld64_ext. intros b Hb. symmetry. apply (Hx p); [done|].
  unfold PGSIZE; lia.
Qed.

Lemma kmem_inv_same s s' l :
  k_mem s' = k_mem s -> k_freelist s' = k_freelist s -> kmem_inv s l -> kmem_inv s' l.
Proof. unfold kmem_inv. intros -> ->. done. Qed.

(** Writing inside a page that is not free preserves the invariant. *)
Lemma kmem_inv_write s s' l q :
  kmem_inv s l -> k_freelist s' = k_freelist s -> q ∉ l -> q `mod` PGSIZE = 0 ->
  (forall b, ~ (q <= b < q + PGSIZE) -> ld8 (k_mem s') b = ld8 (k_mem s) b) ->
  kmem_inv s' l.
Proof.
  intros Hi Hf Hq Hm Hx. eapply kmem_inv_ext; [exact Hi|exact Hf|].
  intros p b Hp Hb. apply Hx. destruct Hi as [Hc _]. apply chain_ok in Hc.
  rewrite Forall_forall in Hc. destruct (Hc p Hp) as [Hpm _].
  assert (p <> q) by (intros ->; done).
  destruct (pages_disjoint p q Hpm Hm); unfold PGSIZE in *; lia.
Qed.

(** Popping the head: the page handed out and the state after. *)
Definition kalloc_state (s : kstate) (p : Z) : kstate :=
  s <| k_freelist := ld64 (k_mem s) p |> <| k_mem := memset (k_mem s) p 5 PGSIZE |>.
Definition kfree_state (s : kstate) (p : Z) : kstate :=
  s <| k_mem := st64 (memset (k_mem s) p 1 PGSIZE) p (k_freelist s) |> <| k_freelist := p |>.

Lemma kalloc_eq s p l : kmem_inv s (p :: l) -> kalloc s = Ret p (kalloc_state s p).
Proof.
  intros [(Hh & Hok & _) _]. pose proof (page_ok_pos p Hok).
  unfold kalloc, gets, mbind, M_bind. rewrite Hh.
  destruct (Z.eqb_spec p 0); [lia|]. done.
Qed.
Lemma kalloc_eq_empty s : kmem_inv s [] -> kalloc s = Ret 0 s.
Proof.
  intros [Hh _]. cbn in Hh. unfold kalloc, gets, mbind, M_bind. by rewrite Hh.
Qed.
Lemma kalloc_inv s p l : kmem_inv s (p :: l) -> kmem_inv (kalloc_state s p) l.
Proof.
  intros [(Hh & Hok & Hc) Hnd]. apply NoDup_cons in Hnd as [Hp Hnd].
  assert (Hi : kmem_inv (s <| k_freelist := ld64 (k_mem s) p |>) l) by done.
  eapply (kmem_inv_write _ _ _ p Hi); [done|done|apply Hok|].
  intros b Hb. cbn. rewrite ld8_memset by (unfold PGSIZE; lia). by rewrite decide_False.
Qed.
Lemma kfree_eq s p : page_ok p -> kfree p s = Ret tt (kfree_state s p).
Proof.
  intros [Hm Hr]. unfold kfree. rewrite Hm.
  destruct (Z.ltb_spec p kend); [lia|]. destruct (Z.leb_spec PHYSTOP p); [lia|]. done.
Qed.
Lemma kfree_inv s p l :
  kmem_inv s l -> page_ok p -> p ∉ l -> kmem_inv (kfree_state s p) (p :: l).
Proof.
  intros [Hc Hnd] Hok Hp. split; [|by apply NoDup_cons].
  cbn [chain kfree_state]. split; [done|]. split; [done|].
  change (k_mem _) with (st64 (memset (k_mem s) p 1 PGSIZE) p (k_freelist s)).
  rewrite ld64_st64_eq.
  assert (Hf : 0 <= k_freelist s < 2 ^ 64).
  { destruct l as [|q l]; cbn in Hc; [lia|]. destruct Hc as (->&Hq&_).
    pose proof (page_ok_pos q Hq). lia. }
  rewrite u64_small by done. eapply chain_ext; [|exact Hc].
  intros q Hq. pose proof (chain_ok _ _ _ Hc) as Ho. rewrite Forall_forall in Ho.
  destruct (Ho q Hq) as [Hqm _]. destruct Hok as [Hpm _].
  assert (q <> p) by (intros ->; done).
  apply ld64_ext. intros b Hb.
  destruct (pages_disjoint q p Hqm Hpm); [done| |]; unfold PGSIZE in *;
    rewrite ld8_st64_ne by lia; rewrite ld8_memset, decide_False by lia; done.
Qed.

(** ** kinit puts every page between [end] and [PHYSTOP] on the list *)

Fixpoint pages_from (p : Z) (n : nat) : list Z :=
  match n with O => [] | S n' => p :: pages_from (p + PGSIZE) n' end.

Lemma elem_of_pages_from p n q :
  q ∈ pages_from p n <-> exists i, 0 <= i < Z.of_nat n /\ q = p + i * PGSIZE.
Proof.
  revert p. induction n as [|n IH]; intros p; cbn [pages_from].
  - split; [intros Hq; inversion Hq|intros (i & ? & ?); lia].
  - rewrite elem_of_cons, IH. split.
    + intros [->|(i & Hi & ->)]; [exists 0; lia|exists (i + 1); lia].
    + intros (i & Hi & ->). destruct (decide (i = 0)) as [->|]; [left; lia|].
      right. exists (i - 1). lia.
Qed.

Lemma freerange_loop_spec fuel p pa_end s l n :
  kmem_inv s l -> Z.of_nat n = Z.max 0 ((pa_end - p) / PGSIZE) -> (n < fuel)%nat ->
  p `mod` PGSIZE = 0 -> kend <= p -> pa_end <= PHYSTOP ->
  (forall q, q ∈ l -> q < p) ->
  exists s', freerange_loop fuel p pa_end s = Ret tt s' /\
    kmem_inv s' (rev (pages_from p n) ++ l).
Proof.
  revert fuel p s l. induction n as [|n IH]; intros fuel p s l Hi Hn Hf Hm Hk He Hl;
    (destruct fuel as [|fuel]; [lia|]); cbn [freerange_loop pages_from rev].
  - destruct (Z.leb_spec (p + PGSIZE) pa_end); [|by exists s].
    exfalso. unfold PGSIZE in *. assert (1 <= (pa_end - p) / 4096) by (apply Z.div_le_lower_bound; lia). lia.
  - destruct (Z.leb_spec (p + PGSIZE) pa_end) as [Hle|Hgt].
    + assert (Hok : page_ok p) by (split; [done|unfold PGSIZE in *; lia]).
      assert (Hpl : p ∉ l) by (intros Hp; specialize (Hl p Hp); lia).
      assert (Hn' : Z.of_nat n = Z.max 0 ((pa_end - (p + PGSIZE)) / PGSIZE)).
      { unfold PGSIZE in *. replace (pa_end - (p + 4096)) with (pa_end - p + (-1) * 4096) by lia.
        rewrite Z.div_add by lia. lia. }
      rewrite (bind_ret _ _ _ _ _ (kfree_eq s p Hok)).
      destruct (IH fuel (p + PGSIZE) _ (p :: l) (kfree_inv s p l Hi Hok Hpl) Hn') as (s' & -> & Hi');
        [lia| |unfold PGSIZE; lia|done| |].
      { unfold PGSIZE in *. replace (p + 4096) with (p + 1 * 4096) by lia. by rewrite Z.mod_add. }
      { intros q [->|Hq]%elem_of_cons; unfold PGSIZE; [lia|]. specialize (Hl q Hq). lia. }
      exists s'. split; [done|]. rewrite <- app_assoc. done.
    + exfalso. unfold PGSIZE in *.
      assert ((pa_end - p) / 4096 < 1) by (apply Z.div_lt_upper_bound; lia). lia.
Qed.

(** Number of whole pages between the kernel's end and the end of RAM. *)
Definition npages : nat := Z.to_nat ((PHYSTOP - PGROUNDUP kend) / PGSIZE).

Lemma kinit_inv s :
  k_freelist s = 0 ->
  exists s', kinit s = Ret tt s' /\ kmem_inv s' (rev (pages_from (PGROUNDUP kend) npages)).
Proof.
  intros Hf. pose proof kend_range as Hk.
  destruct (pgroundup_bounds kend) as [Hb Hm]; [page_lia..|].
  destruct (freerange_loop_spec (Z.to_nat ((PHYSTOP - kend) / PGSIZE + 2)) (PGROUNDUP kend)
              PHYSTOP s [] npages) as (s' & E & Hi).
  - split; [exact Hf|constructor].
  - unfold npages. unfold PGSIZE. lia.
  - unfold npages. assert ((PHYSTOP - PGROUNDUP kend) / PGSIZE <= (PHYSTOP - kend) / PGSIZE).
    { apply Z.div_le_mono; unfold PGSIZE; lia. }
    assert (0 <= (PHYSTOP - kend) / PGSIZE) by (apply Z.div_pos; unfold PGSIZE; lia). lia.
  - done.
  - lia.
  - lia.
  - intros q Hq. inversion Hq.
  - exists s'. by rewrite app_nil_r in Hi.
Qed.

(** ** Clients: who holds which page

    A run of the kernel that starts with kinit, allocates pages, writes into
    pages it holds, and gives back pages it holds. *)
Inductive alloc_run : kstate -> gset Z -> Prop :=
| run_init s s' :
    k_freelist s = 0 -> kinit s = Ret tt s' -> alloc_run s' ∅
| run_alloc s held p s' :
    alloc_run s held -> kalloc s = Ret p s' -> p <> 0 -> alloc_run s' ({[p]} ∪ held)
| run_alloc_fail s held s' :
    alloc_run s held -> kalloc s = Ret 0 s' -> alloc_run s' held
| run_write s held q a v :
    alloc_run s held -> q ∈ held -> q <= a < q + PGSIZE ->
    alloc_run (s <| k_mem := st8 (k_mem s) a v |>) held
| run_free s held p s' :
    alloc_run s held -> p ∈ held -> kfree p s = Ret tt s' -> alloc_run s' (held ∖ {[p]}).

(** Free and held pages partition the pages [all]. *)
Definition alloc_part (all : list Z) (s : kstate) (held : gset Z) : Prop :=
  exists l, kmem_inv s l /\ (forall q, q ∈ l -> q ∉ held) /\
    (forall q, q ∈ held -> page_ok q) /\ (forall q, q ∈ all <-> q ∈ l \/ q ∈ held).

Lemma alloc_part_alloc all s held p s' :
  alloc_part all s held -> kalloc s = Ret p s' -> p <> 0 ->
  alloc_part all s' ({[p]} ∪ held).
Proof.
  intros (l & Hi & Hd & Ho & Hu) E Hp. destruct l as [|q l].
  { rewrite (kalloc_eq_empty s Hi) in E. by inversion E. }
  rewrite (kalloc_eq s q l Hi) in E. inversion E; subst; clear E. exists l.
  split; [by apply kalloc_inv|].
  destruct Hi as [(_ & Hok & _) Hnd]. apply NoDup_cons in Hnd as [Hnd _].
  split_and!; intros q; rewrite ?elem_of_union, ?elem_of_singleton.
  - intros Hq [->|Hh]; [done|]. by apply (Hd q); [right|].
  - intros [->|Hh]; [done|by apply Ho].
  - rewrite (Hu q), elem_of_cons. tauto.
Qed.
Lemma alloc_part_fail all s held s' :
  alloc_part all s held -> kalloc s = Ret 0 s' -> alloc_part all s' held.
Proof.
  intros (l & Hi & Hd & Ho & Hu) E. destruct l as [|q l].
  { rewrite (kalloc_eq_empty s Hi) in E. inversion E; subst. by exists []. }
  rewrite (kalloc_eq s q l Hi) in E. inversion E; subst.
  destruct Hi as [(_ & Hok & _) _]. apply page_ok_pos in Hok. lia.
Qed.
Lemma alloc_part_write all s held q a v :
  alloc_part all s held -> q ∈ held -> q <= a < q + PGSIZE ->
  alloc_part all (s <| k_mem := st8 (k_mem s) a v |>) held.
Proof.
  intros (l & Hi & Hd & Ho & Hu) Hq Ha. exists l. split; [|done].
  eapply (kmem_inv_write s _ l q); [done|done|by intros Hl; apply (Hd q)|by apply Ho|].
  intros b Hb. cbn. rewrite ld8_st8_ne; [done|]. intros ->. lia.
Qed.
Lemma alloc_part_free all s held p s' :
  alloc_part all s held -> p ∈ held -> kfree p s = Ret tt s' ->
  alloc_part all s' (held ∖ {[p]}).
Proof.
  intros (l & Hi & Hd & Ho & Hu) Hp E. pose proof (Ho p Hp) as Hok.
  rewrite (kfree_eq s p Hok) in E. inversion E; subst; clear E. exists (p :: l).
  split; [apply kfree_inv; [done|done|by intros Hq; apply (Hd p)]|].
  split_and!; intros q; rewrite ?elem_of_difference, ?elem_of_singleton, ?elem_of_cons.
  - intros [->|Hq] [Hh Hn]; [done|]. by apply (Hd q).
  - intros [Hh _]. by apply Ho.
  - rewrite (Hu q). destruct (decide (q = p)) as [->|]; tauto.
Qed.

Lemma alloc_run_part s held :
  alloc_run s held -> alloc_part (pages_from (PGROUNDUP kend) npages) s held.
Proof.
  induction 1.
  - destruct (kinit_inv s) as (s'' & E' & Hi); [done|].
    assert (s'' = s') as -> by congruence.
    eexists. split; [exact Hi|]. split; [intros ? _; apply not_elem_of_empty|].
    split; [intros q Hq; by apply not_elem_of_empty in Hq|].
    intros q. rewrite elem_of_empty, <- Permutation_rev. tauto.
  - eapply alloc_part_alloc; eassumption.
  - eapply alloc_part_fail; eassumption.
  - eapply alloc_part_write; eassumption.
  - eapply alloc_part_free; eassumption.
Qed.

End Kalloc.
