(* ===== verification/KallocProps.v ===== *)
(** * kernel/kalloc.c: the properties of the page allocator *)

From S2P Require Import Prelude Memory State Kalloc.
Import Mem KString.

Section Pages.
Context `{KernelImage}.

Lemma pages_from_all q : q ∈ pages_from (PGROUNDUP kend) npages <-> page_ok q.
Proof.
  pose proof kend_range as Hk.
  destruct (pgroundup_bounds kend) as [Hb Hm]; [page_lia..|].
  assert (Hn : Z.of_nat npages = (PHYSTOP - PGROUNDUP kend) / PGSIZE \/ PHYSTOP < PGROUNDUP kend).
  { destruct (Z.lt_ge_cases PHYSTOP (PGROUNDUP kend)); [by right|left].
    unfold npages. apply Z2Nat.id, Z.div_pos; page_lia. }
  assert (HP : PHYSTOP `mod` PGSIZE = 0) by done.
  rewrite elem_of_pages_from. revert Hn HP Hb Hm Hk. unfold page_ok.
  generalize (PGROUNDUP kend) as g, npages as n, PHYSTOP as top. unfold PGSIZE. intros g n top Hn HP Hb Hm Hk.
  pose proof (Z.div_mod g 4096). pose proof (Z.div_mod top 4096). pose proof (Z.div_mod q 4096).
  pose proof (Z.div_mod (top - g) 4096). pose proof (Z.mod_pos_bound (top - g) 4096).
  split.
  - intros (i & Hi & ->). split; [|lia].
    replace (g + i * 4096) with ((g / 4096 + i) * 4096) by lia. apply Z.mod_mul. lia.
  - intros [Hq Hr]. exists (q / 4096 - g / 4096). lia.
Qed.

(** Bytes of the pages other than [p] survive kalloc and kfree of [p]. *)
Lemma kalloc_frame s p q b :
  page_ok p -> page_ok q -> q <> p -> q <= b < q + PGSIZE ->
  ld8 (k_mem (kalloc_state s p)) b = ld8 (k_mem s) b.
Proof.
  intros [Hp _] [Hq _] Hne Hb. destruct (pages_disjoint q p Hq Hp Hne);
    cbn; rewrite ld8_memset by (unfold PGSIZE; lia); rewrite decide_False; unfold PGSIZE in *; lia.
Qed.
Lemma kfree_frame s p q b :
  page_ok p -> page_ok q -> q <> p -> q <= b < q + PGSIZE ->
  ld8 (k_mem (kfree_state s p)) b = ld8 (k_mem s) b.
Proof.
  intros [Hp _] [Hq _] Hne Hb. destruct (pages_disjoint q p Hq Hp Hne);
    cbn; rewrite ld8_st64_ne by (unfold PGSIZE in *; lia);
    rewrite ld8_memset by (unfold PGSIZE; lia); rewrite decide_False; unfold PGSIZE in *; lia.
Qed.
End Pages.

(** kinit terminates and puts every page-aligned address between the end
    of the kernel and PHYSTOP on the free list, exactly once. *)
Theorem kinit_frees_all `{KernelImage} (s : kstate) (Hf : k_freelist s = 0) :
  exists s' l, kinit s = Ret tt s' /\ kmem_inv s' l /\ (forall p, p ∈ l <-> page_ok p).
Proof.
  destruct (kinit_inv s Hf) as (s' & E & Hi). eexists s', _. split; [exact E|].
  split; [exact Hi|]. intros p. rewrite <- Permutation_rev. apply pages_from_all.
Qed.
Lemma kinit_frees_all_witness :
  exists s' l, @kinit example_image kstate0 = Ret tt s' /\ @kmem_inv example_image s' l /\
    (forall p, p ∈ l <-> @page_ok example_image p).
Proof. exact (@kinit_frees_all example_image kstate0 eq_refl). Defined.

(** C5. In every run of the allocator's clients (kinit, allocations, writes
    into held pages, frees of held pages) kalloc terminates; it returns 0 only
    when every page is held, and otherwise a page of the kernel's memory that
    no client holds, filled with 5s; the contents of held pages do not change. *)
Theorem kalloc_safe `{KernelImage} (s : kstate) (held : gset Z) (Hr : alloc_run s held) :
  exists p s', kalloc s = Ret p s' /\
    (p = 0 <-> forall q, page_ok q -> q ∈ held) /\
    (p <> 0 -> page_ok p /\ p ∉ held /\
       forall b, p <= b < p + PGSIZE -> ld8 (k_mem s') b = 5) /\
    (forall q b, q ∈ held -> q <= b < q + PGSIZE -> ld8 (k_mem s') b = ld8 (k_mem s) b).
Proof.
  destruct (alloc_run_part s held Hr) as (l & Hi & Hd & Ho & Hu). destruct l as [|p l].
  - exists 0, s. split; [by apply kalloc_eq_empty|]. split_and!; [|done|done].
    split; [|done]. intros _ q [Hq|?]%pages_from_all%Hu; [inversion Hq|done].
  - exists p, (kalloc_state s p). split; [by eapply kalloc_eq|].
    pose proof Hi as [(_ & Hok & _) _]. pose proof (page_ok_pos p Hok).
    assert (Hp : p ∉ held) by (apply Hd; left).
    split_and!.
    + split; [lia|]. intros Hall. by destruct (Hp (Hall p Hok)).
    + intros _. split_and!; [done|done|]. intros b Hb. cbn.
      rewrite ld8_memset by (unfold PGSIZE; lia). by rewrite decide_True.
    + intros q b Hq. apply (kalloc_frame s p q b Hok); [by apply Ho|]. by intros ->.
Qed.
Lemma kalloc_safe_witness :
  exists s0, @kinit example_image kstate0 = Ret tt s0 /\
  exists p s', kalloc s0 = Ret p s' /\
    (p = 0 <-> forall q, @page_ok example_image q -> q ∈ (∅ : gset Z)) /\
    (p <> 0 -> @page_ok example_image p /\ p ∉ (∅ : gset Z) /\
       forall b, p <= b < p + PGSIZE -> ld8 (k_mem s') b = 5) /\
    (forall q b, q ∈ (∅ : gset Z) -> q <= b < q + PGSIZE -> ld8 (k_mem s') b = ld8 (k_mem s0) b).
Proof.
  destruct (@kinit_inv example_image kstate0 eq_refl) as (s0 & E & _).
  exists s0. split; [exact E|]. apply (@kalloc_safe example_image s0 ∅).
  exact (@run_init example_image kstate0 s0 eq_refl E).
Defined.

(** kfree of a held page terminates, makes exactly that page free, and
    changes no byte of the other held pages; kfree of an address that is not a
    page of the kernel's memory panics. *)
Theorem kfree_safe `{KernelImage} (s : kstate) (held : gset Z) (p : Z) (Hr : alloc_run s held) :
  (p ∈ held -> exists s' l, kfree p s = Ret tt s' /\ kmem_inv s' l /\
     (forall q, q ∈ l <-> page_ok q /\ q ∉ held ∖ {[p]}) /\
     (forall q b, q ∈ held -> q <> p -> q <= b < q + PGSIZE ->
        ld8 (k_mem s') b = ld8 (k_mem s) b)) /\
  (~ page_ok p -> kfree p s = Panic "kfree" s).
Proof.
  split.
  - intros Hp. destruct (alloc_run_part s held Hr) as (l & Hi & Hd & Ho & Hu).
    pose proof (Ho p Hp) as Hok. exists (kfree_state s p), (p :: l).
    split; [by apply kfree_eq|]. split; [apply kfree_inv; [done|done|by intros ?; apply (Hd p)]|].
    split.
    + intros q. rewrite <- pages_from_all, Hu, elem_of_cons, elem_of_difference, elem_of_singleton.
      specialize (Hd q). destruct (decide (q = p)) as [->|]; tauto.
    + intros q b Hq. apply kfree_frame; [done|by apply Ho].
  - intros Hn. unfold kfree, page_ok in *. destruct (Z.eqb_spec (p `mod` PGSIZE) 0); [|done].
    destruct (Z.ltb_spec p kend); [done|]. destruct (Z.leb_spec PHYSTOP p); [done|]. tauto.
Qed.
Lemma kfree_safe_witness :
  exists s0, @kinit example_image kstate0 = Ret tt s0 /\ @kfree example_image 12 s0 = Panic "kfree" s0.
Proof.
  destruct (@kinit_inv example_image kstate0 eq_refl) as (s0 & E & _).
  exists s0. split; [exact E|].
  apply (@kfree_safe example_image s0 ∅ 12 (@run_init example_image kstate0 s0 eq_refl E)).
  intros [Hm _]. discriminate.
Defined.
