(* ===== verification/Disk.v ===== *)
(** * kernel/disk_sched.c: RAID mapping, request queue and disk scheduling

    [Raid]: the address maps of the three RAID modes and the reverse map.
    [DiskQueue]: the linked queue of requests (add_disk_request), the FCFS and
    SSTF policies, the latency model and the statistics.

    The queue is a linked list through the [next] fields of the requests.  A
    request lives in a page obtained from kalloc; [k_reqs] gives the request
    that a live page holds, and reading or writing a request through a pointer
    that is not in [k_reqs] is a [Fault]. *)

From S2P Require Import Prelude Memory State Kalloc.
Import Mem KString.

Module Raid.

(** The maps write [*out_disk] and [*out_block] before the bound check, so
    each returns (result, disk, block). *)
Definition raid0_map (logical_block : Z) : Z * Z * Z :=
  let out_disk := Z.rem logical_block NUM_DISKS in
  let out_block := Z.quot logical_block NUM_DISKS in
  if DISK_BLOCKS_PER_DISK <=? out_block then (-1, out_disk, out_block)
  else (0, out_disk, out_block).

Definition raid1_map (logical_block : Z) : Z * Z * Z :=
  let stripe := Z.quot logical_block (Z.quot DISK_BLOCKS_PER_DISK 2) in
  let block_offset := Z.rem logical_block (Z.quot DISK_BLOCKS_PER_DISK 2) in
  let out_disk := if Z.rem stripe 2 =? 0 then 0 else 2 in
  let out_block := block_offset in
  if DISK_BLOCKS_PER_DISK <=? out_block then (-1, out_disk, out_block)
  else (0, out_disk, out_block).

Definition raid5_map (logical_block : Z) : Z * Z * Z :=
  let stripe := Z.quot logical_block (NUM_DISKS - 1) in
  let block_in_stripe := Z.rem logical_block (NUM_DISKS - 1) in
  let data_disk := block_in_stripe in
  let parity_disk := Z.rem stripe NUM_DISKS in
  let data_disk := if parity_disk <=? data_disk then data_disk + 1 else data_disk in
  let out_disk := data_disk in
  let out_block := i32 (stripe * Z.quot DISK_BLOCKS_PER_DISK NUM_DISKS) in
  if DISK_BLOCKS_PER_DISK <=? out_block then (-1, out_disk, out_block)
  else (0, out_disk, out_block).

(** [mode] is the global [raid_mode].  In the default case the outputs are not
    written: [None]. *)
Definition raid_map_logical_to_physical (mode logical_block : Z) : Z * option (Z * Z) :=
  let wrap '(r, d, b) := (r, Some (d, b)) in
  if mode =? RAID_MODE_0 then wrap (raid0_map logical_block)
  else if mode =? RAID_MODE_1 then wrap (raid1_map logical_block)
  else if mode =? RAID_MODE_5 then wrap (raid5_map logical_block)
  else (-1, None).

Definition raid_reverse_map (mode disk block : Z) : Z * option Z :=
  if mode =? RAID_MODE_0 then (0, Some (i32 (block * NUM_DISKS + disk)))
  else if mode =? RAID_MODE_1 then
    (0, Some (i32 (block + Z.quot disk 2 * Z.quot DISK_BLOCKS_PER_DISK 2)))
  else if mode =? RAID_MODE_5 then
    let blocks_per_stripe := Z.quot DISK_BLOCKS_PER_DISK NUM_DISKS in
    let stripe := Z.quot block blocks_per_stripe in
    (0, Some (i32 (stripe * (NUM_DISKS - 1) + disk)))
  else (-1, None).

(** raid_stripe_page: the arrays' first elements and the count it stores;
    [None] is an early return because an output pointer is null. *)
Definition raid_stripe_page (mode logical_block : Z) (disks blocks count : bool)
  : option (option (Z * Z) * Z) :=
  if negb disks || negb blocks || negb count then None
  else
    match raid_map_logical_to_physical mode logical_block with
    | (0, Some (disk, block)) => Some (Some (disk, block), 1)
    | _ => Some (None, 0)
    end.

(** A physical location of the array. *)
Definition on_array (d b : Z) : Prop :=
  0 <= d < NUM_DISKS /\ 0 <= b < DISK_BLOCKS_PER_DISK.

(** Number of logical blocks that a mode serves without aliasing. *)
Definition capacity (mode : Z) : Z :=
  if mode =? RAID_MODE_0 then 16384 else if mode =? RAID_MODE_1 then 4096
  else if mode =? RAID_MODE_5 then 12 else 0.

Ltac raid_unfold :=
  unfold raid_map_logical_to_physical, raid0_map, raid1_map, raid5_map, raid_reverse_map,
    on_array, capacity, RAID_MODE_0, RAID_MODE_1, RAID_MODE_5, NUM_DISKS,
    DISK_BLOCKS_PER_DISK in *.

(** On non-negative blocks C's division is Euclidean. *)
Lemma quot_rem_nonneg a b : 0 <= a -> 0 < b -> Z.quot a b = a / b /\ Z.rem a b = a `mod` b.
Proof. intros. split; [apply Z.quot_div_nonneg|apply Z.rem_mod_nonneg]; lia. Qed.

Ltac raid_div lb :=
  repeat match goal with
  | |- context [Z.quot lb ?b] =>
      destruct (quot_rem_nonneg lb b) as [-> ->]; [lia|lia|]
  end.

Lemma raid0_map_eq lb :
  0 <= lb < 16384 -> raid0_map lb = (0, lb `mod` 4, lb / 4).
Proof.
  intros. raid_unfold. destruct (quot_rem_nonneg lb 4) as [-> ->]; [lia..|].
  destruct (Z.leb_spec 4096 (lb / 4)); [|done].
  assert (lb / 4 < 4096) by (apply Z.div_lt_upper_bound; lia). lia.
Qed.
Lemma raid1_map_eq lb :
  0 <= lb -> raid1_map lb = (0, 2 * ((lb / 2048) `mod` 2), lb `mod` 2048).
Proof.
  intros. raid_unfold. change (4096 ÷ 2) with 2048.
  destruct (quot_rem_nonneg lb 2048) as [-> ->]; [lia..|].
  destruct (quot_rem_nonneg (lb / 2048) 2) as [_ ->]; [apply Z.div_pos; lia|lia|].
  pose proof (Z.mod_pos_bound lb 2048). pose proof (Z.mod_pos_bound (lb / 2048) 2).
  destruct (Z.leb_spec 4096 (lb `mod` 2048)); [lia|].
  destruct (Z.eqb_spec ((lb / 2048) `mod` 2) 0); do 2 f_equal; lia.
Qed.

(** RAID 5 on the blocks of its first 2^21 stripes (no int overflow). *)
Lemma raid5_map_eq lb :
  0 <= lb < 3 * 2 ^ 21 ->
  raid5_map lb =
    (if 12 <=? lb then -1 else 0,
     (if (lb / 3) `mod` 4 <=? lb `mod` 3 then lb `mod` 3 + 1 else lb `mod` 3),
     lb / 3 * 1024).
Proof.
  intros. raid_unfold. change (4096 ÷ 4) with 1024. change (4 - 1) with 3.
  destruct (quot_rem_nonneg lb 3) as [-> ->]; [lia..|].
  assert (0 <= lb / 3 < 2 ^ 21) by (split; [apply Z.div_pos|apply Z.div_lt_upper_bound]; lia).
  destruct (quot_rem_nonneg (lb / 3) 4) as [_ ->]; [lia..|].
  rewrite i32_small by lia.
  pose proof (Z.div_mod lb 3). pose proof (Z.mod_pos_bound lb 3).
  destruct (Z.leb_spec 4096 (lb / 3 * 1024)); destruct (Z.leb_spec 12 lb); try lia; done.
Qed.

(** A valid map result is on the array, and within the capacity the map of
    every mode succeeds and is injective. *)
Lemma raid_map_in_range mode lb :
  0 <= lb < capacity mode ->
  exists d b, raid_map_logical_to_physical mode lb = (0, Some (d, b)) /\ on_array d b.
Proof.
  intros Hlb. unfold capacity in Hlb. unfold raid_map_logical_to_physical.
  destruct (mode =? RAID_MODE_0); [|destruct (mode =? RAID_MODE_1);
    [|destruct (mode =? RAID_MODE_5); [|lia]]].
  - rewrite raid0_map_eq by lia. eexists _, _. split; [done|]. raid_unfold.
    pose proof (Z.div_mod lb 4). pose proof (Z.mod_pos_bound lb 4). lia.
  - rewrite raid1_map_eq by lia. eexists _, _. split; [done|]. raid_unfold.
    pose proof (Z.mod_pos_bound (lb / 2048) 2). pose proof (Z.mod_pos_bound lb 2048). lia.
  - rewrite raid5_map_eq by lia. destruct (Z.leb_spec 12 lb); [lia|].
    eexists _, _. split; [done|]. raid_unfold.
    pose proof (Z.div_mod lb 3). pose proof (Z.mod_pos_bound lb 3).
    destruct (Z.leb_spec ((lb / 3) `mod` 4) (lb `mod` 3)); lia.
Qed.

Lemma raid_map_inj mode lb lb' :
  0 <= lb < capacity mode -> 0 <= lb' < capacity mode ->
  raid_map_logical_to_physical mode lb = raid_map_logical_to_physical mode lb' -> lb = lb'.
Proof.
  intros Hlb Hlb'. unfold capacity in *. unfold raid_map_logical_to_physical.
  destruct (mode =? RAID_MODE_0); [|destruct (mode =? RAID_MODE_1);
    [|destruct (mode =? RAID_MODE_5); [|lia]]].
  - rewrite !raid0_map_eq by lia. intros [= H1 H2].
    pose proof (Z.div_mod lb 4). pose proof (Z.div_mod lb' 4). lia.
  - rewrite !raid1_map_eq by lia. intros [= H1 H2].
    assert (lb / 2048 < 2 /\ lb' / 2048 < 2) by (split; apply Z.div_lt_upper_bound; lia).
    assert (0 <= lb / 2048 /\ 0 <= lb' / 2048) by (split; apply Z.div_pos; lia).
    rewrite !(Z.mod_small (_ / 2048)) in H1 by lia.
    pose proof (Z.div_mod lb 2048). pose proof (Z.div_mod lb' 2048). lia.
  - rewrite !raid5_map_eq by lia. destruct (Z.leb_spec 12 lb); [lia|].
    destruct (Z.leb_spec 12 lb'); [lia|]. intros [= H1 H2].
    assert (E : lb / 3 = lb' / 3) by lia. rewrite E in H1.
    pose proof (Z.div_mod lb 3). pose proof (Z.div_mod lb' 3).
    destruct (Z.leb_spec ((lb' / 3) `mod` 4) (lb `mod` 3));
      destruct (Z.leb_spec ((lb' / 3) `mod` 4) (lb' `mod` 3)); lia.
Qed.

End Raid.
Import Raid.

Module DiskQueue.
Section DiskQueue.
Context `{KernelImage}.

(** disk_sched_init (the two initlock calls only name the locks) *)
Definition disk_sched_init : K unit :=
  modify (fun s => s <| k_head := <[0:=0]> (<[1:=0]> (<[2:=0]> (<[3:=0]> (k_head s)))) |>);;
  modify (fun s => s <| k_disk_sched_policy := DISK_SCHED_FCFS |>);;
  modify (fun s => s <| k_raid_mode := RAID_MODE_0 |>).

(** disk_queue_init *)
Definition disk_queue_init : K unit :=
  modify (fun s => s <| k_queue_head := 0 |> <| k_queue_tail := 0 |>).

(** setdisksched *)
Definition setdisksched (policy : Z) : K Z :=
  if (policy =? DISK_SCHED_FCFS) || (policy =? DISK_SCHED_SSTF)
  then modify (fun s => s <| k_disk_sched_policy := policy |>);; mret 0
  else mret (-1).

(** set_raid_mode *)
Definition set_raid_mode (mode : Z) : K unit :=
  if (RAID_MODE_0 <=? mode) && (mode <=? RAID_MODE_5)
  then modify (fun s => s <| k_raid_mode := mode |>)
  else mret tt.

(** calculate_disk_latency: an int distance, converted to uint64 *)
Definition calculate_disk_latency (s : kstate) (disk requested_block : Z) : Z :=
  let seek_distance := i32 (head_at s disk - requested_block) in
  let seek_distance := if seek_distance <? 0 then i32 (- seek_distance) else seek_distance in
  u64 (i32 (seek_distance + DISK_ROTATIONAL_DELAY)).

(** Access to a request through its pointer. *)
Definition req_get (a : Z) : K disk_request := fun s =>
  match k_reqs s !! a with Some r => Ret r s | None => Fault "disk_request" s end.
Definition req_put (a : Z) (r : disk_request) : K unit :=
  modify (fun s => s <| k_reqs := <[a := r]> (k_reqs s) |>).
Definition req_set_next (a nxt : Z) : K unit :=
  r ← req_get a; req_put a (r <| dr_next := nxt |>).

(** kfree of a request: the page goes back to the allocator and the request
    is gone. *)
Definition free_request (a : Z) : K unit :=
  kfree a;; modify (fun s => s <| k_reqs := delete a (k_reqs s) |>).

(** The fields that add_disk_request fills in. *)
Definition new_request (s : kstate) (type lb buffer : Z) (p : procptr) (d b : Z) : disk_request :=
  mkreq type lb d b buffer p
    (match p with Some i => p_level (pr s i) | None => MLFQ_LEVELS - 1 end)
    (k_ticks s) (k_raid_mode s) 0.

(** add_disk_request *)
Definition add_disk_request (type logical_block buffer : Z) (p : procptr) : K Z :=
  req ← kalloc;
  if req =? 0 then mret (-1)
  else
    s ← get;
    match raid_map_logical_to_physical (k_raid_mode s) logical_block with
    | (0, Some (disk_id, block_on_disk)) =>
        req_put req (new_request s type logical_block buffer p disk_id block_on_disk);;
        tail ← gets k_queue_tail;
        (if tail =? 0
         then modify (fun s => s <| k_queue_head := req |> <| k_queue_tail := req |>)
         else req_set_next tail req;; modify (fun s => s <| k_queue_tail := req |>));;
        mret 0
    | _ => kfree req;; mret (-1)
    end.

(** schedule_fcfs: the request's address, or 0 *)
Definition schedule_fcfs : K Z :=
  req ← gets k_queue_head;
  if req =? 0 then mret 0
  else
    r ← req_get req;
    modify (fun s => s <| k_queue_head := dr_next r |>);;
    (if dr_next r =? 0 then modify (fun s => s <| k_queue_tail := 0 |>) else mret tt);;
    mret req.

(** The scan of schedule_sstf: [while(curr) ...].  It returns the final
    (best, prev_best).  Fuel: one unit per visited request; a queue of live,
    distinct requests has at most [size (k_reqs s)]. *)
Fixpoint sstf_loop (fuel : nat) (curr prev_curr best prev_best min_latency : Z) : K (Z * Z) :=
  if curr =? 0 then mret (best, prev_best)
  else
    match fuel with
    | O => no_fuel
    | S fuel' =>
        s ← get;
        rc ← req_get curr;
        rb ← req_get best;
        let latency := calculate_disk_latency s (dr_disk_id rc) (dr_block_on_disk rc) in
        if (latency <? min_latency)
           || ((latency =? min_latency) && (dr_priority rc <? dr_priority rb))
        then sstf_loop fuel' (dr_next rc) curr curr prev_curr latency
        else sstf_loop fuel' (dr_next rc) curr best prev_best min_latency
    end.

(** schedule_sstf *)
Definition schedule_sstf : K Z :=
  head ← gets k_queue_head;
  if head =? 0 then mret 0
  else
    s ← get;
    rh ← req_get head;
    bp ← sstf_loop (size (k_reqs s)) head 0 head 0
           (calculate_disk_latency s (dr_disk_id rh) (dr_block_on_disk rh));
    rbest ← req_get bp.1;
    (if bp.2 =? 0
     then modify (fun s => s <| k_queue_head := dr_next rbest |>)
     else req_set_next bp.2 (dr_next rbest));;
    head' ← gets k_queue_head;
    (if head' =? 0 then modify (fun s => s <| k_queue_tail := 0 |>) else mret tt);;
    req_set_next bp.1 0;;
    mret bp.1.

(** schedule_next_request *)
Definition schedule_next_request : K Z :=
  policy ← gets k_disk_sched_policy;
  if policy =? DISK_SCHED_FCFS then schedule_fcfs
  else if policy =? DISK_SCHED_SSTF then schedule_sstf
  else mret 0.

(** update_disk_stats: the counters are uint64, the per-process ones int *)
Definition update_disk_stats (r : disk_request) (latency : Z) : K unit :=
  (if dr_type r =? DISK_READ
   then modify (fun s => s <| k_disk_reads := u64 (k_disk_reads s + 1) |>)
   else modify (fun s => s <| k_disk_writes := u64 (k_disk_writes s + 1) |>));;
  modify (fun s => s <| k_total_disk_latency := u64 (k_total_disk_latency s + latency) |>);;
  modify (fun s => s <| k_disk_operations := u64 (k_disk_operations s + 1) |>);;
  match dr_proc r with
  | None => mret tt
  | Some i =>
      if dr_type r =? DISK_READ
      then set_pr i (fun p => p <| p_pages_swapped_in := i32 (p_pages_swapped_in p + 1) |>)
      else set_pr i (fun p => p <| p_pages_swapped_out := i32 (p_pages_swapped_out p + 1) |>)
  end.

(** process_disk_request *)
Definition process_disk_request (req : Z) : K unit :=
  if req =? 0 then mret tt
  else
    r ← req_get req;
    s ← get;
    let latency := calculate_disk_latency s (dr_disk_id r) (dr_block_on_disk r) in
    modify (fun s => s <| k_head := <[dr_disk_id r := dr_block_on_disk r]> (k_head s) |>);;
    update_disk_stats r latency.

(** The step of swap_page_out and swap_page_in that takes the next request,
    processes it and frees it; here it also returns the request's address. *)
Definition service_request : K Z :=
  req ← schedule_next_request;
  if negb (req =? 0)
  then process_disk_request req;; free_request req;; mret req
  else mret req.

(** get_avg_disk_latency *)
Definition get_avg_disk_latency (s : kstate) : Z :=
  if 0 <? k_disk_operations s then k_total_disk_latency s / k_disk_operations s else 0.

(** ** The queue as a list

    [lseg reqs h l e]: following [next] from [h] visits the requests [l] (with
    the link field erased) and arrives at [e]. *)
Definition strip (r : disk_request) : disk_request := r <| dr_next := 0 |>.

Fixpoint lseg (reqs : gmap Z disk_request) (h : Z) (l : list (Z * disk_request)) (e : Z) : Prop :=
  match l with
  | [] => h = e
  | (a, r) :: l' =>
      h = a /\ a <> 0 /\ exists r', reqs !! a = Some r' /\ strip r' = r /\ lseg reqs (dr_next r') l' e
  end.

(** Address of the last request, 0 for the empty list. *)
Definition last_addr (l : list (Z * disk_request)) : Z := default 0 (last l.*1).

(** The links from [disk_queue_head] visit [l]. *)
Definition queue_seg (s : kstate) (l : list (Z * disk_request)) : Prop :=
  lseg (k_reqs s) (k_queue_head s) l 0 /\ NoDup l.*1.
(** The pointers [disk_queue_head] and [disk_queue_tail] represent [l]. *)
Definition queue_rep (s : kstate) (l : list (Z * disk_request)) : Prop :=
  queue_seg s l /\ k_queue_tail s = last_addr l.

Lemma last_addr_snoc l a r : last_addr (l ++ [(a, r)]) = a.
Proof. unfold last_addr. by rewrite fmap_app, last_app. Qed.

Lemma lseg_app reqs h l1 l2 e :
  lseg reqs h (l1 ++ l2) e <-> exists m, lseg reqs h l1 m /\ lseg reqs m l2 e.
Proof.
  revert h. induction l1 as [|[a r] l1 IH]; intros h; cbn [lseg app].
  - naive_solver.
  - setoid_rewrite IH. naive_solver.
Qed.
Lemma lseg_frame reqs reqs' h l e :
  (forall a, a ∈ l.*1 -> reqs' !! a = reqs !! a) -> lseg reqs h l e -> lseg reqs' h l e.
Proof.
  revert h. induction l as [|[a r] l IH]; intros h Hx; cbn [lseg]; [done|].
  intros (-> & Ha & r' & Hr & Hs & Hl). split; [done|]. split; [done|].
  exists r'. rewrite Hx by (cbn; set_solver). split; [done|]. split; [done|].
  apply IH; [|done]. intros b Hb. apply Hx. cbn. set_solver.
Qed.
Lemma lseg_insert reqs h l e a r : a ∉ l.*1 -> lseg reqs h l e -> lseg (<[a:=r]> reqs) h l e.
Proof.
  intros Ha. apply lseg_frame. intros b Hb. apply lookup_insert_ne. intros ->. done.
Qed.
Lemma lseg_head_nz reqs h x l : lseg reqs h (x :: l) 0 -> h <> 0.
Proof. destruct x. cbn. naive_solver. Qed.
Lemma lseg_nil_iff reqs h l : lseg reqs h l 0 -> (h = 0 <-> l = []).
Proof. destruct l as [|[a r] l]; cbn; naive_solver. Qed.

(** Redirecting the link of the last request of a segment. *)
Lemma lseg_relink reqs h l a r e e' :
  lseg reqs h (l ++ [(a, r)]) e -> NoDup (l ++ [(a, r)]).*1 ->
  exists r', reqs !! a = Some r' /\ strip r' = r /\ dr_next r' = e /\
    lseg (<[a := r' <| dr_next := e' |>]> reqs) h (l ++ [(a, r)]) e'.
Proof.
  rewrite lseg_app. intros (m & Hl & (-> & Ha & r' & Hr & Hs & He)).
  rewrite fmap_app. intros Hnd. exists r'. split_and!; [done..|].
  rewrite lseg_app. exists a. split.
  - apply lseg_insert; [|done]. apply NoDup_app in Hnd as (_ & Hd & _). cbn in Hd. set_solver.
  - cbn. split; [done|]. split; [done|]. exists (r' <| dr_next := e' |>).
    rewrite lookup_insert_eq. split; [done|]. by rewrite <- Hs.
Qed.

Lemma list_snoc {A} (l : list A) : l = [] \/ exists l' x, l = l' ++ [x].
Proof. induction l using rev_ind; eauto. Qed.

Lemma req_get_eq s a r : k_reqs s !! a = Some r -> req_get a s = Ret r s.
Proof. unfold req_get. by intros ->. Qed.
Lemma req_set_next_eq s a r nxt :
  k_reqs s !! a = Some r ->
  req_set_next a nxt s = Ret tt (s <| k_reqs := <[a := r <| dr_next := nxt |>]> (k_reqs s) |>).
Proof. intros Hr. unfold req_set_next. rewrite (bind_ret _ _ _ _ _ (req_get_eq _ _ _ Hr)). done. Qed.

(** ** add_disk_request appends *)

(** A state that differs in the queue only: its pointers and the links. *)
Definition set_queue (s : kstate) (rq : gmap Z disk_request) (h t : Z) : kstate :=
  s <| k_reqs := rq |> <| k_queue_head := h |> <| k_queue_tail := t |>.

(** The state after a successful call, given the page [a] from kalloc. *)
Definition enqueue_state (s : kstate) (a : Z) (r : disk_request) : kstate :=
  if k_queue_tail s =? 0
  then s <| k_reqs := <[a := r]> (k_reqs s) |> <| k_queue_head := a |> <| k_queue_tail := a |>
  else
    match <[a := r]> (k_reqs s) !! k_queue_tail s with
    | Some t => s <| k_reqs := <[k_queue_tail s := t <| dr_next := a |>]> (<[a := r]> (k_reqs s)) |>
                  <| k_queue_tail := a |>
    | None => s
    end.

Lemma enqueue_rep s l a r :
  queue_rep s l -> a <> 0 -> a ∉ l.*1 -> dr_next r = 0 ->
  queue_rep (enqueue_state s a r) (l ++ [(a, strip r)]).
Proof.
  intros ((Hl & Hnd) & Ht) Ha Hal Hn. unfold enqueue_state.
  assert (Hnd' : NoDup (l ++ [(a, strip r)]).*1).
  { rewrite fmap_app. apply NoDup_app. split; [done|]. split; [cbn; set_solver|apply NoDup_singleton]. }
  assert (Ha' : lseg (<[a:=r]> (k_reqs s)) a [(a, strip r)] 0).
  { cbn. split; [done|]. split; [done|]. exists r. by rewrite lookup_insert_eq. }
  destruct (list_snoc l) as [->|(l' & [b rb] & ->)].
  - cbn in Ht. rewrite Ht. cbn. by split; [split|].
  - rewrite last_addr_snoc in Ht. rewrite Ht.
    destruct (lseg_relink _ _ _ _ _ _ a Hl Hnd) as (rb' & Hb & Hs & He & Hl').
    assert (Hb0 : b <> 0).
    { apply lseg_app in Hl as (m & _ & Hm). cbn in Hm. naive_solver. }
    assert (Hba : a <> b) by (rewrite fmap_app in Hal; cbn in Hal; set_solver).
    destruct (Z.eqb_spec b 0); [done|]. rewrite lookup_insert_ne, Hb by done.
    split; [split|]; cbn; [|done|by rewrite last_addr_snoc].
    rewrite lseg_app. exists a. rewrite insert_insert_ne by done. split.
    + by apply lseg_insert.
    + rewrite insert_insert_ne by done. apply lseg_insert; [cbn; set_solver|done].
Qed.

(** Enqueueing touches nothing but the queue. *)
Lemma enqueue_state_queue s a r :
  exists rq h t, enqueue_state s a r = set_queue s rq h t.
Proof.
  unfold enqueue_state, set_queue. destruct (k_queue_tail s =? 0).
  - do 3 eexists. reflexivity.
  - destruct (_ !! _) as [t|].
    + exists (<[k_queue_tail s := t <| dr_next := a |>]> (<[a := r]> (k_reqs s))), (k_queue_head s), a.
      by destruct s.
    + exists (k_reqs s), (k_queue_head s), (k_queue_tail s). by destruct s.
Qed.

(** All the call needs of the queue is that its tail, if any, is a request;
    the page it takes may be the one the tail points to. *)
Lemma add_disk_request_run s fl a type lb buffer p d b :
  k_queue_tail s = 0 \/ k_queue_tail s = a \/ is_Some (k_reqs s !! k_queue_tail s) ->
  kmem_inv s (a :: fl) ->
  raid_map_logical_to_physical (k_raid_mode s) lb = (0, Some (d, b)) ->
  add_disk_request type lb buffer p s =
    Ret 0 (enqueue_state (kalloc_state s a) a (new_request s type lb buffer p d b)).
Proof.
  intros Ht Hk Hm. unfold add_disk_request.
  assert (Ha : a <> 0).
  { destruct Hk as [(_ & Hok & _) _]. apply page_ok_pos in Hok. lia. }
  rewrite (bind_ret _ _ _ _ _ (kalloc_eq s a fl Hk)).
  destruct (Z.eqb_spec a 0); [done|].
  run. change (k_raid_mode (kalloc_state s a)) with (k_raid_mode s).
  rewrite Hm. unfold enqueue_state, req_put. run.
  change (new_request (kalloc_state s a)) with (new_request s).
  set (r := new_request _ _ _ _ _ _ _). set (s1 := kalloc_state s a).
  change (k_queue_tail (s1 <| k_reqs := _ |>)) with (k_queue_tail s).
  change (k_queue_tail s1) with (k_queue_tail s). change (k_reqs s1) with (k_reqs s).
  destruct (Z.eqb_spec (k_queue_tail s) 0) as [E|E]; [reflexivity|].
  assert (exists t, <[a:=r]> (k_reqs s) !! k_queue_tail s = Some t) as [t Htl].
  { rewrite lookup_insert. case_decide as Hc; [eauto|].
    destruct Ht as [?|[?|Ht]]; [done|by destruct Hc|exact Ht]. }
  rewrite Htl, (req_set_next_eq _ _ t); [reflexivity|exact Htl].
Qed.

Lemma add_disk_request_eq s l fl a type lb buffer p d b :
  queue_rep s l -> kmem_inv s (a :: fl) ->
  raid_map_logical_to_physical (k_raid_mode s) lb = (0, Some (d, b)) ->
  add_disk_request type lb buffer p s =
    Ret 0 (enqueue_state (kalloc_state s a) a (new_request s type lb buffer p d b)).
Proof.
  intros ((Hl & Hnd) & Ht). apply add_disk_request_run.
  destruct (list_snoc l) as [->|(l' & [c rc] & ->)]; [by left|].
  rewrite last_addr_snoc in Ht. subst c.
  apply lseg_app in Hl as (m & _ & (_ & _ & rc' & Hc & _)). eauto.
Qed.

Lemma add_disk_request_full s type lb buffer p :
  kmem_inv s [] -> add_disk_request type lb buffer p s = Ret (-1) s.
Proof.
  intros Hk. unfold add_disk_request. by rewrite (bind_ret _ _ _ _ _ (kalloc_eq_empty s Hk)).
Qed.
Lemma add_disk_request_unmapped s fl a type lb buffer p x :
  kmem_inv s (a :: fl) ->
  raid_map_logical_to_physical (k_raid_mode s) lb = (-1, x) ->
  add_disk_request type lb buffer p s = Ret (-1) (kfree_state (kalloc_state s a) a).
Proof.
  intros Hk Hm. pose proof Hk as [(_ & Hok & _) _]. pose proof (page_ok_pos _ Hok).
  unfold add_disk_request. rewrite (bind_ret _ _ _ _ _ (kalloc_eq s a fl Hk)).
  destruct (Z.eqb_spec a 0); [lia|]. run.
  change (k_raid_mode (kalloc_state s a)) with (k_raid_mode s). rewrite Hm.
  by rewrite (kfree_eq _ _ Hok).
Qed.

(** ** What a scheduling policy promises

    A policy takes one request out of a non-empty queue, leaves the others in
    order, and touches nothing but the queue. *)

Definition dequeued (s : kstate) (rq : gmap Z disk_request) (h : Z) : kstate :=
  set_queue s rq h (if h =? 0 then 0 else k_queue_tail s).

Class DiskPolicy (sch : K Z) : Prop := {
  policy_empty s : queue_seg s [] -> sch s = Ret 0 s;
  policy_pick s x l : queue_seg s (x :: l) ->
    exists l1 a r l2 rq h ra,
      x :: l = l1 ++ (a, r) :: l2 /\ sch s = Ret a (dequeued s rq h) /\
      rq !! a = Some ra /\ strip ra = r /\ lseg rq h (l1 ++ l2) 0
}.

(** ** FCFS takes the oldest request *)

Lemma schedule_fcfs_nil s : queue_seg s [] -> schedule_fcfs s = Ret 0 s.
Proof. intros (Hl & _). cbn in Hl. unfold schedule_fcfs. run. by rewrite Hl. Qed.

Lemma schedule_fcfs_cons s a r l :
  queue_seg s ((a, r) :: l) ->
  exists h ra, schedule_fcfs s = Ret a (dequeued s (k_reqs s) h) /\
    k_reqs s !! a = Some ra /\ strip ra = r /\ lseg (k_reqs s) h l 0.
Proof.
  intros ((Hh & Ha & ra & Hr & Hs & Hl) & Hnd). exists (dr_next ra), ra. split_and!; [|done..].
  unfold schedule_fcfs. run. rewrite Hh. destruct (Z.eqb_spec a 0); [done|].
  rewrite (req_get_eq _ _ _ Hr). run. unfold dequeued, set_queue.
  destruct (dr_next ra =? 0); by destruct s.
Qed.

#[export] Instance fcfs_policy : DiskPolicy schedule_fcfs.
Proof.
  split; [apply schedule_fcfs_nil|]. intros s [a r] l Hq.
  destruct (schedule_fcfs_cons s a r l Hq) as (h & ra & ? & ? & ? & ?).
  by exists [], a, r, l, (k_reqs s), h, ra.
Qed.

(** ** SSTF: the scan as a fold over the queue *)

Definition req_latency (s : kstate) (r : disk_request) : Z :=
  calculate_disk_latency s (dr_disk_id r) (dr_block_on_disk r).

Lemma req_latency_strip s r :
  req_latency s (strip r) = calculate_disk_latency s (dr_disk_id r) (dr_block_on_disk r).
Proof. reflexivity. Qed.

(** [better s r r']: [r] is preferred to [r'] (shorter seek, then priority). *)
Definition better (s : kstate) (r r' : disk_request) : bool :=
  (req_latency s r <? req_latency s r')
  || ((req_latency s r =? req_latency s r') && (dr_priority r <? dr_priority r')).

Fixpoint scan (s : kstate) (pc : Z) (best : Z * disk_request) (pb : Z)
    (suf : list (Z * disk_request)) : Z * Z :=
  match suf with
  | [] => (best.1, pb)
  | x :: suf' =>
      if better s x.2 best.2 then scan s x.1 x pc suf' else scan s x.1 best pb suf'
  end.

Lemma sstf_loop_scan s suf fuel curr pc best rb rb' pb :
  lseg (k_reqs s) curr suf 0 -> k_reqs s !! best = Some rb' -> strip rb' = rb ->
  (length suf <= fuel)%nat ->
  sstf_loop fuel curr pc best pb (req_latency s rb) s = Ret (scan s pc (best, rb) pb suf) s.
Proof.
  revert fuel curr pc best rb rb' pb.
  induction suf as [|[a r] suf IH]; intros fuel curr pc best rb rb' pb Hl Hb Hs Hf.
  - cbn in Hl. subst curr. by destruct fuel.
  - destruct Hl as (-> & Ha & r' & Hr & Hs' & Hl). destruct fuel as [|fuel]; [cbn in Hf; lia|].
    cbn [sstf_loop]. destruct (Z.eqb_spec a 0); [done|].
    run. rewrite (req_get_eq _ _ _ Hr). run. rewrite (req_get_eq _ _ _ Hb). run.
    cbn [scan fst snd].
    rewrite <- (req_latency_strip s r').
    change (dr_priority r') with (dr_priority (strip r')).
    change (dr_priority rb') with (dr_priority (strip rb')). rewrite Hs, Hs'.
    unfold better.
    destruct (_ || _); eapply IH; try eassumption; cbn in Hf; lia.
Qed.

(** The scan selects the first request that no other one beats. *)
Lemma better_irrefl_trans s r1 r2 r3 :
  better s r1 r1 = false /\ (better s r1 r2 = true -> better s r3 r2 = false -> better s r3 r1 = false) /\
  (better s r1 r2 = true -> better s r2 r3 = true -> better s r1 r3 = true) /\
  (better s r1 r2 = true -> better s r3 r2 = false -> better s r1 r3 = true).
Proof. unfold better. lia. Qed.

Lemma scan_spec s l1 b l2 suf pc pb :
  pb = last_addr l1 -> pc = last_addr (l1 ++ b :: l2) ->
  (forall x, x ∈ l1 -> better s b.2 x.2 = true) ->
  (forall x, x ∈ l2 -> better s x.2 b.2 = false) ->
  exists l1' b' l2', l1 ++ b :: l2 ++ suf = l1' ++ b' :: l2' /\
    scan s pc b pb suf = (b'.1, last_addr l1') /\
    (forall x, x ∈ l1' -> better s b'.2 x.2 = true) /\
    (forall x, x ∈ l2' -> better s x.2 b'.2 = false).
Proof.
  revert l1 b l2 pc pb. induction suf as [|[a r] suf IH]; intros l1 b l2 pc pb -> -> H1 H2.
  - exists l1, b, l2. rewrite app_nil_r. done.
  - cbn [scan fst snd]. destruct (better s r b.2) eqn:E.
    + destruct (IH (l1 ++ b :: l2) (a, r) [] a (last_addr (l1 ++ b :: l2)))
        as (l1' & b' & l2' & Heq & Hsc & Hr1 & Hr2).
      * done.
      * by rewrite last_addr_snoc.
      * intros x. rewrite elem_of_app, elem_of_cons. cbn.
        destruct (better_irrefl_trans s r b.2 x.2) as (_ & _ & Ht & Ht').
        intros [Hx|[->|Hx]]; [apply Ht; auto|done|apply Ht'; auto].
      * intros x Hx. inversion Hx.
      * exists l1', b', l2'. split; [by rewrite <- Heq, <- app_assoc|done].
    + destruct (IH l1 b (l2 ++ [(a, r)]) a (last_addr l1)) as (l1' & b' & l2' & Heq & Hsc & Hr1 & Hr2).
      * done.
      * change (b :: l2 ++ [(a, r)]) with ((b :: l2) ++ [(a, r)]).
        by rewrite app_assoc, last_addr_snoc.
      * done.
      * intros x. rewrite elem_of_app, list_elem_of_singleton. intros [Hx| ->]; [by apply H2|done].
      * exists l1', b', l2'. split; [by rewrite <- Heq, <- app_assoc|done].
Qed.

Lemma lseg_length reqs h l e : lseg reqs h l e -> NoDup l.*1 -> (length l <= size reqs)%nat.
Proof.
  intros Hl Hnd. rewrite <- (length_fmap fst l), <- size_dom.
  rewrite <- (size_list_to_set (C := gset Z)) by done. apply subseteq_size.
  intros a. rewrite elem_of_list_to_set, elem_of_dom. clear Hnd. revert h Hl.
  induction l as [|[b r] l IH]; intros h Hl Ha; [inversion Ha|].
  destruct Hl as (_ & _ & r' & Hr & _ & Hl). cbn in Ha. apply elem_of_cons in Ha as [->|Ha]; eauto.
Qed.

(** Unlinking an inner request. *)
Lemma lseg_unlink reqs h l1 c rc a r l2 :
  lseg reqs h ((l1 ++ [(c, rc)]) ++ (a, r) :: l2) 0 ->
  NoDup ((l1 ++ [(c, rc)]) ++ (a, r) :: l2).*1 ->
  exists rc' ra, reqs !! c = Some rc' /\ reqs !! a = Some ra /\ strip ra = r /\ c <> a /\
    lseg (<[c := rc' <| dr_next := dr_next ra |>]> reqs) h ((l1 ++ [(c, rc)]) ++ l2) 0.
Proof.
  intros Hl Hnd. apply lseg_app in Hl as (m & H1 & (-> & Ha & ra & Hra & Hs & H2)).
  rewrite fmap_app in Hnd. cbn in Hnd. apply NoDup_app in Hnd as (Hn1 & Hd & Hn2).
  destruct (lseg_relink _ _ _ _ _ _ (dr_next ra) H1 Hn1) as (rc' & Hc & _ & _ & Hr).
  assert (Hcl : c ∈ (l1 ++ [(c, rc)]).*1) by (rewrite fmap_app; set_solver).
  specialize (Hd c Hcl). rewrite elem_of_cons in Hd.
  exists rc', ra. split_and!; [done..|naive_solver|].
  apply lseg_app. exists (dr_next ra). split; [done|]. apply lseg_insert; [naive_solver|done].
Qed.

(** The last part of schedule_sstf, once the scan has chosen [best]. *)
Lemma sstf_remove s l1 a r l2 ra :
  queue_seg s (l1 ++ (a, r) :: l2) -> k_reqs s !! a = Some ra ->
  exists rq h,
    (rbest ← req_get a;
     (if last_addr l1 =? 0
      then modify (fun s => s <| k_queue_head := dr_next rbest |>)
      else req_set_next (last_addr l1) (dr_next rbest));;
     head' ← gets k_queue_head;
     (if head' =? 0 then modify (fun s => s <| k_queue_tail := 0 |>) else mret tt);;
     req_set_next a 0;; mret a) s
    = Ret a (dequeued s rq h) /\
    rq !! a = Some r /\ lseg rq h (l1 ++ l2) 0.
Proof.
  intros (Hl & Hnd) Hra. unfold dequeued, set_queue. rewrite (bind_ret _ _ _ _ _ (req_get_eq _ _ _ Hra)).
  assert (Hal : a ∉ (l1 ++ l2).*1).
  { rewrite fmap_app in *. cbn in Hnd. rewrite <- Permutation_middle in Hnd.
    by apply NoDup_cons in Hnd as [? _]. }
  destruct (list_snoc l1) as [->|(l1' & [c rc] & ->)].
  - destruct Hl as (_ & _ & ra' & Hra' & Hs & Hl). assert (ra' = ra) as -> by congruence.
    exists (<[a := ra <| dr_next := 0 |>]> (k_reqs s)), (dr_next ra). split; [|split].
    + cbn [last_addr]. run. change (last_addr [] =? 0) with true. run.
      change (k_queue_head (s <| k_queue_head := _ |>)) with (dr_next ra).
      destruct (dr_next ra =? 0); run; rewrite (req_set_next_eq _ _ ra) by exact Hra;
        by destruct s.
    + rewrite lookup_insert_eq. by rewrite <- Hs.
    + by apply lseg_insert.
  - destruct (lseg_unlink _ _ _ _ _ _ _ _ Hl Hnd) as (rc' & ra' & Hc & Hra' & Hs & Hne & Hl').
    assert (ra' = ra) as -> by congruence.
    assert (Hc0 : c <> 0).
    { rewrite <- app_assoc in Hl. apply lseg_app in Hl as (m & _ & (_ & ? & _)). done. }
    set (rq := <[c := rc' <| dr_next := dr_next ra |>]> (k_reqs s)) in *.
    exists (<[a := ra <| dr_next := 0 |>]> rq), (k_queue_head s).
    assert (Hra2 : rq !! a = Some ra) by (unfold rq; by rewrite lookup_insert_ne).
    split; [|split].
    + rewrite last_addr_snoc. destruct (Z.eqb_spec c 0); [done|].
      rewrite (bind_ret _ _ _ _ _ (req_set_next_eq _ _ _ _ Hc)). fold rq. run.
      change (k_queue_head (s <| k_reqs := rq |>)) with (k_queue_head s).
      destruct (k_queue_head s =? 0); run; rewrite (req_set_next_eq _ _ ra) by exact Hra2;
        by destruct s.
    + rewrite lookup_insert_eq. by rewrite <- Hs.
    + by apply lseg_insert.
Qed.

Lemma schedule_sstf_nil s : queue_seg s [] -> schedule_sstf s = Ret 0 s.
Proof. intros (Hl & _). cbn in Hl. unfold schedule_sstf. run. by rewrite Hl. Qed.

Lemma schedule_sstf_cons s x l :
  queue_seg s (x :: l) ->
  exists l1 a r l2 rq h,
    x :: l = l1 ++ (a, r) :: l2 /\
    schedule_sstf s = Ret a (dequeued s rq h) /\
    rq !! a = Some r /\ lseg rq h (l1 ++ l2) 0 /\
    (forall y, y ∈ l1 -> better s r y.2 = true) /\
    (forall y, y ∈ l2 -> better s y.2 r = false).
Proof.
  intros Hq. pose proof Hq as (Hl & Hnd). destruct x as [a0 r0].
  assert (Hlen : (length ((a0, r0) :: l) <= size (k_reqs s))%nat) by (eapply lseg_length; eassumption).
  pose proof Hl as (Hh & Ha0 & r0' & Hr0 & Hs0 & _).
  destruct (scan_spec s [] (a0, r0) [] l a0 0)
    as (l1 & [a r] & l2 & Heq & Hsc & Hb1 & Hb2); [done|done|intros y Hy; inversion Hy..|].
  cbn [app] in Heq. rewrite Heq in Hq.
  assert (Hra : exists ra, k_reqs s !! a = Some ra).
  { destruct Hq as (Hl' & _). apply lseg_app in Hl' as (m & _ & (_ & _ & ra & ? & _)). eauto. }
  destruct Hra as [ra Hra].
  destruct (sstf_remove s l1 a r l2 ra Hq Hra) as (rq & h & E & Ha & Hr).
  exists l1, a, r, l2, rq, h. split_and!; try done.
  unfold schedule_sstf. rewrite <- E. run. rewrite Hh.
  destruct (Z.eqb_spec a0 0); [done|]. rewrite (req_get_eq _ _ _ Hr0). run.
  rewrite <- (req_latency_strip s r0'), Hs0, Hh in *.
  erewrite sstf_loop_scan; [|exact Hl|exact Hr0|exact Hs0|exact Hlen].
  cbn [scan fst snd]. destruct (better_irrefl_trans s r0 r0 r0) as [-> _]. rewrite Hsc. done.
Qed.

#[export] Instance sstf_policy : DiskPolicy schedule_sstf.
Proof.
  split; [apply schedule_sstf_nil|]. intros s x l Hq.
  destruct (schedule_sstf_cons s x l Hq) as (l1 & a & r & l2 & rq & h & Heq & E & Ha & Hl & _).
  exists l1, a, r, l2, rq, h, r. split_and!; try done.
  destruct Hq as [Hq _]. rewrite Heq in Hq.
  apply lseg_app in Hq as (m & _ & (_ & _ & ra & _ & Hs & _)). by rewrite <- Hs.
Qed.

(** Either policy can be selected: the client sees the interface. *)
Definition policy_ok (s : kstate) : Prop :=
  k_disk_sched_policy s = DISK_SCHED_FCFS \/ k_disk_sched_policy s = DISK_SCHED_SSTF.

Lemma schedule_next_policy s :
  policy_ok s -> exists sch, DiskPolicy sch /\ schedule_next_request s = sch s.
Proof.
  unfold schedule_next_request, policy_ok. run. intros [E|E]; rewrite E.
  - exists schedule_fcfs. split; [apply _|done].
  - exists schedule_sstf. split; [apply _|done].
Qed.

(** ** Processing a request *)

Definition count_swap (read : bool) (p : proc) : proc :=
  if read then p <| p_pages_swapped_in := i32 (p_pages_swapped_in p + 1) |>
  else p <| p_pages_swapped_out := i32 (p_pages_swapped_out p + 1) |>.

Definition processed (s : kstate) (r : disk_request) : kstate :=
  let read := dr_type r =? DISK_READ in
  s <| k_head := <[dr_disk_id r := dr_block_on_disk r]> (k_head s) |>
    <| k_disk_reads := if read then u64 (k_disk_reads s + 1) else k_disk_reads s |>
    <| k_disk_writes := if read then k_disk_writes s else u64 (k_disk_writes s + 1) |>
    <| k_total_disk_latency := u64 (k_total_disk_latency s + req_latency s r) |>
    <| k_disk_operations := u64 (k_disk_operations s + 1) |>
    <| k_proc := match dr_proc r with
                 | Some i => alter (count_swap read) i (k_proc s)
                 | None => k_proc s
                 end |>.

Lemma process_disk_request_eq s a r :
  a <> 0 -> k_reqs s !! a = Some r -> process_disk_request a s = Ret tt (processed s r).
Proof.
  intros Ha Hr. unfold process_disk_request. destruct (Z.eqb_spec a 0); [done|].
  rewrite (bind_ret _ _ _ _ _ (req_get_eq _ _ _ Hr)). clear Hr.
  unfold processed, update_disk_stats, set_pr, count_swap, req_latency. run.
  generalize (calculate_disk_latency s (dr_disk_id r) (dr_block_on_disk r)). intros lat.
  destruct s. destruct (dr_type r =? DISK_READ); destruct (dr_proc r); reflexivity.
Qed.

(** ** The disk subsystem's invariant: free pages and queued requests *)

Definition disk_seg (s : kstate) (fl : list Z) (l : list (Z * disk_request)) : Prop :=
  kmem_inv s fl /\ queue_seg s l /\ (forall a, a ∈ l.*1 -> page_ok a /\ a ∉ fl).

Lemma queue_nodup_pick (l1 : list (Z * disk_request)) a r l2 :
  NoDup (l1 ++ (a, r) :: l2).*1 -> NoDup (l1 ++ l2).*1 /\ a ∉ (l1 ++ l2).*1.
Proof.
  rewrite !fmap_app. cbn. rewrite <- Permutation_middle.
  intros [? ?]%NoDup_cons. done.
Qed.

(** What the disk code leaves alone: all memory outside the request's page
    [a], the tables, and everything of a process but its swap counters. *)
Record disk_frame (s s' : kstate) (a : Z) : Prop := {
  df_mem : forall b, ~ (a <= b < a + PGSIZE) -> ld8 (k_mem s') b = ld8 (k_mem s) b;
  df_frames : k_frame_table s' = k_frame_table s;
  df_swap : k_swap_table s' = k_swap_table s;
  df_next : k_next_swap_block s' = k_next_swap_block s;
  df_ticks : k_ticks s' = k_ticks s;
  df_cur : k_cur s' = k_cur s;
  df_proc : forall i, exists r w,
    pr s' i = (pr s i) <| p_pages_swapped_in := r |> <| p_pages_swapped_out := w |>
}.
Lemma disk_frame_trans s1 s2 s3 a :
  disk_frame s1 s2 a -> disk_frame s2 s3 a -> disk_frame s1 s3 a.
Proof.
  intros [M1 F1 S1 N1 T1 C1 P1] [M2 F2 S2 N2 T2 C2 P2]. split; try congruence.
  - intros b Hb. rewrite M2, M1 by done. done.
  - intros i. destruct (P1 i) as (r & w & E1), (P2 i) as (r' & w' & E2). exists r', w'. by rewrite E2, E1.
Qed.
(** The statistics of the request's process. *)
Definition counted (r : disk_request) (ps : list proc) : list proc :=
  match dr_proc r with
  | Some i => alter (count_swap (dr_type r =? DISK_READ)) i ps
  | None => ps
  end.
Lemma pr_count_swap s read o i :
  exists r w, procs_at (match o with Some j => alter (count_swap read) j (k_proc s) | None => k_proc s end) i
    = (pr s i) <| p_pages_swapped_in := r |> <| p_pages_swapped_out := w |>.
Proof.
  assert (Hid : exists r w, pr s i = (pr s i) <| p_pages_swapped_in := r |> <| p_pages_swapped_out := w |>).
  { exists (p_pages_swapped_in (pr s i)), (p_pages_swapped_out (pr s i)). by destruct (pr s i). }
  destruct o as [j|]; [|done]. unfold pr, procs_at in *. destruct (decide (i = j)) as [->|Hne].
  - rewrite list_lookup_alter_eq. destruct (k_proc s !! j) as [q|]; [|exact Hid]. cbn. unfold count_swap.
    destruct read.
    + exists (i32 (p_pages_swapped_in q + 1)), (p_pages_swapped_out q). by destruct q.
    + exists (p_pages_swapped_in q), (i32 (p_pages_swapped_out q + 1)). by destruct q.
  - by rewrite list_lookup_alter_ne by done.
Qed.

(** One round, once the scheduler has chosen [a]. *)
Lemma service_request_run s fl l l1 a r l2 rq h ra :
  disk_seg s fl l -> l = l1 ++ (a, r) :: l2 ->
  schedule_next_request s = Ret a (dequeued s rq h) ->
  rq !! a = Some ra -> lseg rq h (l1 ++ l2) 0 ->
  exists s', service_request s = Ret a s' /\ disk_seg s' (a :: fl) (l1 ++ l2) /\
    k_disk_sched_policy s' = k_disk_sched_policy s /\ k_raid_mode s' = k_raid_mode s /\
    k_queue_tail s' = (if h =? 0 then 0 else k_queue_tail s) /\
    k_disk_operations s' = u64 (k_disk_operations s + 1) /\
    k_total_disk_latency s' = u64 (k_total_disk_latency s + req_latency s ra) /\
    k_proc s' = counted ra (k_proc s) /\ disk_frame s s' a.
Proof.
  intros (Hk & Hq & Hd) -> E Ha Hl. set (s1 := dequeued s rq h) in *. set (s2 := processed s1 ra).
  assert (Hin : forall b, b = a \/ b ∈ (l1 ++ l2).*1 -> b ∈ (l1 ++ (a, r) :: l2).*1).
  { intros b. rewrite !fmap_app. cbn. rewrite <- Permutation_middle, elem_of_cons. done. }
  destruct (Hd a (Hin a (or_introl eq_refl))) as [Hok Hfl]. pose proof (page_ok_pos a Hok) as Hpos.
  destruct (queue_nodup_pick _ _ _ _ (proj2 Hq)) as [Hnd Hna].
  exists ((kfree_state s2 a) <| k_reqs := delete a rq |>). split.
  { unfold service_request. rewrite (bind_ret _ _ _ _ _ E).
    destruct (Z.eqb_spec a 0); [lia|]. cbn [negb].
    rewrite (bind_ret _ _ _ _ _ (process_disk_request_eq s1 a ra ltac:(lia) Ha)).
    unfold free_request. run. rewrite (kfree_eq _ _ Hok). run. fold s2. reflexivity. }
  split; [|do 6 (split; [kproj|])]; [split; [|split]|split; try kproj].
  - apply (kmem_inv_same (kfree_state s2 a)); [kproj..|].
    apply (kfree_inv s2 a fl); [|done|done]. apply (kmem_inv_same s); [kproj..|done].
  - split; [|exact Hnd]. change (lseg (delete a rq) h (l1 ++ l2) 0).
    eapply lseg_frame; [|exact Hl]. intros b Hb. apply lookup_delete_ne. by intros ->.
  - intros b Hb. assert (b <> a) by (by intros ->).
    destruct (Hd b (Hin b (or_intror Hb))). split; [done|]. rewrite elem_of_cons. tauto.
  - intros b Hb. change (ld8 (st64 (memset (k_mem s) a 1 PGSIZE) a (k_freelist s)) b = ld8 (k_mem s) b).
    unfold PGSIZE in *. rewrite ld8_st64_ne by lia. rewrite ld8_memset, decide_False by lia. done.
  - intros i. exact (pr_count_swap s (dr_type ra =? DISK_READ) (dr_proc ra) i).
Qed.

Lemma service_request_pick s fl x l :
  policy_ok s -> disk_seg s fl (x :: l) ->
  exists l1 a r l2 ra s', x :: l = l1 ++ (a, r) :: l2 /\ strip ra = r /\
    service_request s = Ret a s' /\ disk_seg s' (a :: fl) (l1 ++ l2) /\
    k_disk_sched_policy s' = k_disk_sched_policy s /\
    k_disk_operations s' = u64 (k_disk_operations s + 1) /\
    k_total_disk_latency s' = u64 (k_total_disk_latency s + req_latency s ra).
Proof.
  intros Hp Hd. destruct (schedule_next_policy s Hp) as (sch & Hpol & Hsch).
  destruct (policy_pick s x l (proj1 (proj2 Hd)))
    as (l1 & a & r & l2 & rq & h & ra & Heq & E & Ha & Hs & Hl).
  rewrite <- Hsch in E.
  destruct (service_request_run s fl _ l1 a r l2 rq h ra Hd Heq E Ha Hl)
    as (s' & ? & ? & ? & _ & _ & ? & ? & _ & _).
  by exists l1, a, r, l2, ra, s'.
Qed.

(** One transfer through an empty queue: queue a request and serve it.  The
    request's page comes from the free list and goes back to it. *)
Lemma disk_transfer s c fl type lb buffer p d b :
  queue_rep s [] -> kmem_inv s (c :: fl) -> policy_ok s ->
  raid_map_logical_to_physical (k_raid_mode s) lb = (0, Some (d, b)) ->
  exists s1 s2, add_disk_request type lb buffer p s = Ret 0 s1 /\ service_request s1 = Ret c s2 /\
    kmem_inv s2 (c :: fl) /\ queue_rep s2 [] /\ policy_ok s2 /\ k_raid_mode s2 = k_raid_mode s /\
    k_proc s2 = counted (new_request s type lb buffer p d b) (k_proc s) /\ disk_frame s s2 c.
Proof.
  intros Hq Hk Hp Hm. set (r := new_request s type lb buffer p d b).
  pose proof Hk as [(_ & Hc & _) Hnd]. pose proof (page_ok_pos c Hc) as Hpos.
  apply NoDup_cons in Hnd as [Hcfl _].
  pose proof (add_disk_request_eq s [] fl c type lb buffer p d b Hq Hk Hm) as E1. fold r in E1.
  destruct (enqueue_rep (kalloc_state s c) [] c r Hq ltac:(lia) (not_elem_of_nil c) eq_refl) as [Hseg _].
  destruct (enqueue_state_queue (kalloc_state s c) c r) as (rq0 & h0 & t0 & Eq).
  rewrite Eq in E1, Hseg. set (s1 := set_queue (kalloc_state s c) rq0 h0 t0) in *.
  assert (Hd : disk_seg s1 fl [(c, strip r)]).
  { split; [apply (kmem_inv_same (kalloc_state s c)); [kproj..|by apply kalloc_inv]|].
    split; [exact Hseg|]. by intros a ->%list_elem_of_singleton. }
  assert (Hf1 : disk_frame s s1 c).
  { split; try kproj.
    - intros x Hx. change (k_mem s1) with (memset (k_mem s) c 5 PGSIZE).
      rewrite ld8_memset by (unfold PGSIZE; lia). by rewrite decide_False.
    - intros i. change (pr s1 i) with (pr s i).
      exists (p_pages_swapped_in (pr s i)), (p_pages_swapped_out (pr s i)). by destruct (pr s i). }
  assert (Hproc1 : k_proc s1 = k_proc s) by kproj. assert (Hp1 : policy_ok s1) by exact Hp. assert (Hraid1 : k_raid_mode s1 = k_raid_mode s) by kproj.
  clearbody s1. clear Eq. exists s1.
  destruct (schedule_next_policy s1 Hp1) as (sch & Hpol & Hsch).
  destruct (policy_pick s1 _ _ (proj1 (proj2 Hd))) as (l1 & a & r' & l2 & rq & h & ra & Heq & E & Ha & Hs & Hl).
  destruct l1 as [|? l1]; [|by destruct l1]. injection Heq as <- <- <-. rewrite <- Hsch in E.
  destruct (service_request_run s1 fl _ [] c _ [] rq h ra Hd eq_refl E Ha Hl)
    as (s2 & E2 & (Hk2 & Hq2 & _) & Hpol2 & Hraid2 & Ht2 & _ & _ & Hproc2 & Hf2).
  exists s2. cbn in Hl. subst h. cbn in Ht2.
  split; [exact E1|]. split; [exact E2|]. split; [exact Hk2|]. split; [by split|].
  split; [unfold policy_ok in *; by rewrite Hpol2|]. split; [congruence|].
  split; [|by eapply disk_frame_trans]. rewrite Hproc2, Hproc1. unfold counted.
  change (dr_proc ra) with (dr_proc (strip ra)). change (dr_type ra) with (dr_type (strip ra)).
  by rewrite Hs.
Qed.

(** When SSTF serves the last of several requests, the stale tail makes the
    next request link to itself: the queue is then the list without it. *)
Lemma sstf_picks_last s l a r x l' :
  l ++ [(a, r)] = x :: l' -> queue_seg s (x :: l') ->
  (forall y, y ∈ l -> better s r y.2 = true) ->
  exists rq h, schedule_sstf s = Ret a (dequeued s rq h) /\ rq !! a = Some r /\ lseg rq h l 0.
Proof.
  intros Heq Hq Hb.
  destruct (schedule_sstf_cons s x l' Hq) as (l1 & a' & r' & l2 & rq & h & Heq' & E & Ha & Hl & _ & H2).
  rewrite <- Heq in Heq'. destruct (list_snoc l2) as [->|(l2' & z & ->)].
  - apply app_inj_tail in Heq' as [-> [= -> ->]]. rewrite app_nil_r in Hl. eauto.
  - exfalso. change ((a', r') :: l2' ++ [z]) with (((a', r') :: l2') ++ [z]) in Heq'.
    rewrite app_assoc in Heq'. apply app_inj_tail in Heq' as [-> <-].
    specialize (Hb (a', r') ltac:(apply elem_of_app; right; left)).
    specialize (H2 (a, r) ltac:(apply elem_of_app; right; left)). cbn in *. congruence.
Qed.

Lemma enqueue_stale_tail s a r l :
  k_queue_tail s = a -> a <> 0 -> queue_seg s l -> a ∉ l.*1 -> queue_seg (enqueue_state s a r) l.
Proof.
  intros Ht Ha (Hl & Hnd) Hal. unfold enqueue_state. rewrite Ht.
  destruct (Z.eqb_spec a 0); [done|]. rewrite lookup_insert_eq.
  split; [|done]. cbn. apply lseg_insert; [done|]. by apply lseg_insert.
Qed.

(** SSTF keeps the tail pointer right unless it removes the last of several
    requests. *)
Lemma sstf_queue_rep s l1 a r l2 rq h :
  queue_rep s (l1 ++ (a, r) :: l2) -> lseg rq h (l1 ++ l2) 0 ->
  l1 = [] \/ l2 <> [] ->
  queue_rep (dequeued s rq h) (l1 ++ l2).
Proof.
  intros ((_ & Hnd) & Ht) Hl Hc. split; [split|]; cbn; [done| |].
  - by apply queue_nodup_pick in Hnd as [? _].
  - pose proof (lseg_nil_iff _ _ _ Hl) as Hn. destruct (Z.eqb_spec h 0) as [E|E].
    + by rewrite (proj1 Hn E).
    + destruct (list_snoc l2) as [->|(l2' & [c rc] & ->)].
      * destruct Hc as [->|]; [|done]. exfalso. by apply E, Hn.
      * rewrite Ht. change ((a, r) :: l2' ++ [(c, rc)]) with (((a, r) :: l2') ++ [(c, rc)]).
        by rewrite !app_assoc, !last_addr_snoc.
Qed.

End DiskQueue.
End DiskQueue.
