(* ===== verification/DiskProps.v ===== *)
(** * Properties of the disk scheduler and the RAID maps (kernel/disk_sched.c) *)

From S2P Require Import Prelude Memory State Kalloc Disk.
Import Mem KString Raid DiskQueue.

(** ** RAID *)


(** In RAID 0 and RAID 1, raid_reverse_map inverts the mapping on every
    block below the capacity. *)
Theorem raid_reverse_roundtrip (mode lb d b : Z)
  (Hm : mode = RAID_MODE_0 \/ mode = RAID_MODE_1) (Hlb : 0 <= lb < capacity mode)
  (E : raid_map_logical_to_physical mode lb = (0, Some (d, b))) :
  raid_reverse_map mode d b = (0, Some lb).
Proof.
  unfold raid_map_logical_to_physical, raid_reverse_map, capacity in *.
  destruct Hm as [-> | ->]; cbn in *.
  - rewrite raid0_map_eq in E by lia. injection E as <- <-.
    pose proof (Z.div_mod lb 4). raid_unfold. rewrite i32_small by lia. do 2 f_equal. lia.
  - rewrite raid1_map_eq in E by lia. injection E as <- <-.
    assert (0 <= lb / 2048 < 2) by (split; [apply Z.div_pos|apply Z.div_lt_upper_bound]; lia).
    rewrite (Z.mod_small (lb / 2048)) by lia. pose proof (Z.div_mod lb 2048).
    raid_unfold. change (4096 ÷ 2) with 2048.
    destruct (quot_rem_nonneg (2 * (lb / 2048)) 2) as [-> _]; [lia..|].
    rewrite (Z.mul_comm 2), Z.div_mul by lia. rewrite i32_small by lia. do 2 f_equal. lia.
Qed.
Lemma raid_reverse_roundtrip_witness :
  raid_map_logical_to_physical RAID_MODE_1 3000 = (0, Some (2, 952)) /\
  raid_reverse_map RAID_MODE_1 2 952 = (0, Some 3000).
Proof.
  split; [reflexivity|]. apply (raid_reverse_roundtrip RAID_MODE_1 3000 2 952).
  - right; reflexivity.
  - vm_compute. split; congruence.
  - reflexivity.
Defined.

(** RAID 5 layout: for every stripe, the three data blocks of the stripe
    are on three different disks, and none of them is the stripe's parity disk
    [stripe % 4]; the parity disk rotates with the stripe. *)
Theorem raid5_parity_layout (stripe : Z) (Hs : 0 <= stripe < 2 ^ 21) :
  exists d0 d1 d2 b,
    raid5_map (3 * stripe) = (if 4 <=? stripe then -1 else 0, d0, b) /\
    raid5_map (3 * stripe + 1) = (if 4 <=? stripe then -1 else 0, d1, b) /\
    raid5_map (3 * stripe + 2) = (if 4 <=? stripe then -1 else 0, d2, b) /\
    Permutation [d0; d1; d2; stripe `mod` NUM_DISKS] [0; 1; 2; 3].
Proof.
  unfold NUM_DISKS.
  assert (Hd : forall k, 0 <= k < 3 ->
    (3 * stripe + k) / 3 = stripe /\ (3 * stripe + k) `mod` 3 = k).
  { intros k Hk. replace (3 * stripe + k) with (k + stripe * 3) by lia.
    rewrite Z.div_add, Z.mod_add, Z.div_small, Z.mod_small by lia. lia. }
  assert (Hc : forall k, 0 <= k < 3 -> (12 <=? 3 * stripe + k) = (4 <=? stripe)) by lia.
  exists (if stripe `mod` 4 <=? 0 then 1 else 0), (if stripe `mod` 4 <=? 1 then 2 else 1),
    (if stripe `mod` 4 <=? 2 then 3 else 2), (stripe * 1024).
  rewrite <- (Z.add_0_r (3 * stripe)) at 1.
  rewrite !raid5_map_eq by lia. rewrite !Hc by lia.
  destruct (Hd 0) as [-> ->]; [lia|]. destruct (Hd 1) as [-> ->]; [lia|].
  destruct (Hd 2) as [-> ->]; [lia|]. split_and!; [done..|].
  assert (H4 : stripe `mod` 4 = 0 \/ stripe `mod` 4 = 1 \/ stripe `mod` 4 = 2 \/ stripe `mod` 4 = 3).
  { pose proof (Z.mod_pos_bound stripe 4). lia. }
  destruct H4 as [-> | [-> | [-> | ->]]]; cbn;
    (apply NoDup_Permutation; [by apply (bool_decide_unpack _)..|set_solver]).
Qed.
Lemma raid5_parity_layout_witness : exists d0 d1 d2 b,
    raid5_map (3 * 2) = (if 4 <=? 2 then -1 else 0, d0, b) /\
    raid5_map (3 * 2 + 1) = (if 4 <=? 2 then -1 else 0, d1, b) /\
    raid5_map (3 * 2 + 2) = (if 4 <=? 2 then -1 else 0, d2, b) /\
    Permutation [d0; d1; d2; 2 `mod` NUM_DISKS] [0; 1; 2; 3].
Proof. apply (raid5_parity_layout 2). vm_compute. split; congruence. Defined.

(** The limits of the RAID 1 and RAID 5 maps on the swap area of 16384
    blocks: RAID 1 stores blocks [lb] and [lb + 4096] at the same place; RAID 5
    rejects every block from 12 on; and the RAID 5 reverse map gives block 1
    for the location of block 0. *)
Theorem raid_limits (lb : Z) (Hlb : 0 <= lb < 16384) :
  raid_map_logical_to_physical RAID_MODE_1 (lb + 4096)
    = raid_map_logical_to_physical RAID_MODE_1 lb /\
  (12 <= lb -> exists loc, raid_map_logical_to_physical RAID_MODE_5 lb = (-1, loc)) /\
  raid_map_logical_to_physical RAID_MODE_5 0 = (0, Some (1, 0)) /\
  raid_reverse_map RAID_MODE_5 1 0 = (0, Some 1).
Proof.
  split_and!.
  - unfold raid_map_logical_to_physical. cbn. rewrite !raid1_map_eq by lia.
    replace (lb + 4096) with (lb + 2 * 2048) by lia. rewrite Z.div_add, Z.mod_add by lia.
    replace (lb / 2048 + 2) with (lb / 2048 + 1 * 2) by lia. by rewrite Z.mod_add by lia.
  - intros H12. unfold raid_map_logical_to_physical. cbn. rewrite raid5_map_eq by lia.
    destruct (Z.leb_spec 12 lb); [|lia]. eauto.
  - reflexivity.
  - reflexivity.
Qed.
Lemma raid_limits_witness :
  raid_map_logical_to_physical RAID_MODE_1 (100 + 4096)
    = raid_map_logical_to_physical RAID_MODE_1 100 /\
  (12 <= 100 -> exists loc, raid_map_logical_to_physical RAID_MODE_5 100 = (-1, loc)) /\
  raid_map_logical_to_physical RAID_MODE_5 0 = (0, Some (1, 0)) /\
  raid_reverse_map RAID_MODE_5 1 0 = (0, Some 1).
Proof. apply (raid_limits 100). vm_compute. split; congruence. Defined.

(** ** The request queue *)

(** One free page at 0x80200000, an empty queue, one process at level 2. *)
Definition disk_example : kstate :=
  kstate0 <| k_freelist := 0x80200000 |>
    <| k_proc := [proc0 <| p_level := 2 |>] |>.

Lemma disk_example_inv :
  @kmem_inv example_image disk_example [0x80200000] /\ queue_rep disk_example [].
Proof.
  split; split; [|by apply (bool_decide_unpack _)|split; [done|constructor]|done].
  split; [done|]. split; [|reflexivity]. vm_compute. split; [done|]. split; congruence.
Qed.

(** add_disk_request with a free page and a block that the RAID map
    accepts returns 0 and appends exactly one request to the queue, holding the
    caller's arguments, the mapped disk and block, and the process's MLFQ level
    as priority (the lowest priority without a process); the page leaves the
    free list and nothing else on the list changes. *)
Theorem add_disk_request_appends `{KernelImage} (s : kstate) (l : list (Z * disk_request))
    (fl : list Z) (a type lb buffer d b : Z) (p : procptr)
  (Hq : queue_rep s l) (Hk : kmem_inv s (a :: fl)) (Hal : a ∉ l.*1)
  (Hm : raid_map_logical_to_physical (k_raid_mode s) lb = (0, Some (d, b))) :
  exists s', add_disk_request type lb buffer p s = Ret 0 s' /\
    queue_rep s' (l ++ [(a, mkreq type lb d b buffer p
                            (match p with Some i => p_level (pr s i) | None => 3 end)
                            (k_ticks s) (k_raid_mode s) 0)]) /\
    kmem_inv s' fl.
Proof.
  eexists. split; [by eapply add_disk_request_eq|]. split.
  - apply (enqueue_rep (kalloc_state s a) l a (new_request s type lb buffer p d b)); [|..|done].
    + done.
    + destruct Hk as [(_ & Hok & _) _]. apply page_ok_pos in Hok. lia.
    + done.
  - destruct (enqueue_state_queue (kalloc_state s a) a (new_request s type lb buffer p d b))
      as (rq & h & t & ->).
    apply (kmem_inv_same (kalloc_state s a)); [kproj..|]. by apply kalloc_inv.
Qed.
Lemma add_disk_request_appends_witness :
  exists s', @add_disk_request example_image DISK_WRITE 9 0x80300000 (Some 0%nat) disk_example
             = Ret 0 s' /\
    queue_rep s' [(0x80200000, mkreq DISK_WRITE 9 1 2 0x80300000 (Some 0%nat) 2 0 RAID_MODE_0 0)] /\
    @kmem_inv example_image s' [].
Proof.
  apply (@add_disk_request_appends example_image disk_example [] [] 0x80200000
           DISK_WRITE 9 0x80300000 1 2 (Some 0%nat)).
  - apply disk_example_inv.
  - apply disk_example_inv.
  - apply not_elem_of_nil.
  - reflexivity.
Defined.

(** The error paths of add_disk_request: with no free page it returns -1
    and changes nothing; on a block that the RAID map rejects it returns -1,
    gives the page back to the allocator and leaves the queue as it was. *)
Theorem add_disk_request_errors `{KernelImage} (s : kstate) (l : list (Z * disk_request))
    (fl : list Z) (type lb buffer : Z) (p : procptr) (loc : option (Z * Z))
  (Hq : queue_rep s l) (Hk : kmem_inv s fl)
  (Hm : fl = [] \/ raid_map_logical_to_physical (k_raid_mode s) lb = (-1, loc)) :
  exists s', add_disk_request type lb buffer p s = Ret (-1) s' /\
    kmem_inv s' fl /\ queue_rep s' l /\ (fl = [] -> s' = s).
Proof.
  destruct fl as [|a fl].
  - exists s. split_and!; [by apply add_disk_request_full|done..].
  - destruct Hm as [?|Hm]; [done|].
    exists (kfree_state (kalloc_state s a) a).
    split; [by eapply add_disk_request_unmapped|]. split; [|by split].
    pose proof Hk as [(_ & Hok & _) Hnd]. apply NoDup_cons in Hnd as [? _].
    by apply kfree_inv; [apply kalloc_inv| |].
Qed.
Lemma add_disk_request_errors_witness :
  exists s', @add_disk_request example_image DISK_WRITE 16384 0x80300000 None disk_example
             = Ret (-1) s' /\
    @kmem_inv example_image s' [0x80200000] /\ queue_rep s' [] /\
    ([0x80200000] = [] -> s' = disk_example).
Proof.
  apply (@add_disk_request_errors example_image disk_example [] [0x80200000] DISK_WRITE 16384
           0x80300000 None (Some (0, 4096))).
  - apply disk_example_inv.
  - apply disk_example_inv.
  - right. reflexivity.
Defined.

(** FCFS serves in arrival order: schedule_fcfs returns the oldest request
    of a non-empty queue and the queue is then the rest, with both pointers
    right; on an empty queue it returns 0 and changes nothing. *)
Theorem schedule_fcfs_oldest (s : kstate) (l : list (Z * disk_request)) (Hq : queue_rep s l) :
  match l with
  | [] => schedule_fcfs s = Ret 0 s
  | (a, r) :: l' => exists s', schedule_fcfs s = Ret a s' /\ queue_rep s' l'
  end.
Proof.
  destruct l as [|[a r] l]; [apply schedule_fcfs_nil, Hq|].
  destruct (schedule_fcfs_cons s a r l (proj1 Hq)) as (h & ra & E & _ & _ & Hl).
  exists (dequeued s (k_reqs s) h). split; [done|].
  apply (sstf_queue_rep s [] a r l (k_reqs s) h); [exact Hq|exact Hl|by left].
Qed.
Definition two_requests (tail : Z) : kstate :=
  kstate0 <| k_reqs := <[8192 := mkreq 1 40 0 10 0 None 3 0 0 12288]>
                        (<[12288 := mkreq 1 8 0 2 0 None 3 0 0 0]> ∅) |>
    <| k_queue_head := 8192 |> <| k_queue_tail := tail |>
    <| k_disk_sched_policy := DISK_SCHED_SSTF |>.
Lemma two_requests_rep :
  queue_rep (two_requests 12288)
    [(8192, mkreq 1 40 0 10 0 None 3 0 0 0); (12288, mkreq 1 8 0 2 0 None 3 0 0 0)].
Proof.
  split; [split; [|by apply (bool_decide_unpack _)]|done].
  split; [done|]. split; [done|]. eexists. split; [reflexivity|]. split; [done|].
  split; [done|]. split; [done|]. eexists. split; [reflexivity|]. done.
Qed.
Lemma schedule_fcfs_oldest_witness :
  exists s', schedule_fcfs (two_requests 12288) = Ret 8192 s' /\
    queue_rep s' [(12288, mkreq 1 8 0 2 0 None 3 0 0 0)].
Proof. exact (schedule_fcfs_oldest _ _ two_requests_rep). Defined.

(** SSTF takes the nearest request: schedule_sstf returns the first request
    that no other one beats, a smaller seek latency winning and then a smaller
    priority number, and leaves the others in their order.  The tail pointer is
    right again unless the request was the last of several. *)
Theorem schedule_sstf_nearest (s : kstate) (x : Z * disk_request) (l : list (Z * disk_request))
  (Hq : queue_rep s (x :: l)) :
  exists l1 a r l2 s', x :: l = l1 ++ (a, r) :: l2 /\ schedule_sstf s = Ret a s' /\
    (forall y, y ∈ l1 -> better s r y.2 = true) /\
    (forall y, y ∈ l2 -> better s y.2 r = false) /\
    queue_seg s' (l1 ++ l2) /\ (l1 = [] \/ l2 <> [] -> queue_rep s' (l1 ++ l2)).
Proof.
  destruct (schedule_sstf_cons s x l (proj1 Hq))
    as (l1 & a & r & l2 & rq & h & Heq & E & Ha & Hl & H1 & H2).
  exists l1, a, r, l2, (dequeued s rq h). split_and!; [done..| |].
  - split; [exact Hl|]. destruct Hq as [[_ Hnd] _]. rewrite Heq in Hnd.
    by apply queue_nodup_pick in Hnd as [? _].
  - intros Hc. apply (sstf_queue_rep s l1 a r l2 rq h); [|exact Hl|exact Hc].
    by rewrite <- Heq.
Qed.
Lemma schedule_sstf_nearest_witness :
  exists l1 a r l2 s',
    [(8192, mkreq 1 40 0 10 0 None 3 0 0 0); (12288, mkreq 1 8 0 2 0 None 3 0 0 0)]
      = l1 ++ (a, r) :: l2 /\
    schedule_sstf (two_requests 12288) = Ret a s' /\
    (forall y, y ∈ l1 -> better (two_requests 12288) r y.2 = true) /\
    (forall y, y ∈ l2 -> better (two_requests 12288) y.2 r = false) /\
    queue_seg s' (l1 ++ l2) /\ (l1 = [] \/ l2 <> [] -> queue_rep s' (l1 ++ l2)).
Proof. exact (schedule_sstf_nearest _ _ _ two_requests_rep). Defined.

Definition queued_pages : kstate :=
  kstate0 <| k_reqs := <[0x80200000 := mkreq 1 40 0 10 0 None 3 0 0 0x80201000]>
                        (<[0x80201000 := mkreq 0 8 0 2 0 None 3 0 0 0]> ∅) |>
    <| k_queue_head := 0x80200000 |> <| k_queue_tail := 0x80201000 |>
    <| k_disk_sched_policy := DISK_SCHED_SSTF |>.
Lemma queued_pages_seg :
  @disk_seg example_image queued_pages []
    [(0x80200000, mkreq 1 40 0 10 0 None 3 0 0 0); (0x80201000, mkreq 0 8 0 2 0 None 3 0 0 0)].
Proof.
  split_and!; [split; [reflexivity|constructor]|split; [|by apply (bool_decide_unpack _)]|].
  - split; [done|]. split; [done|]. eexists. split; [reflexivity|]. split; [done|].
    split; [done|]. split; [done|]. eexists. split; [reflexivity|]. done.
  - intros a Ha. split; [|apply not_elem_of_nil].
    apply list_elem_of_In in Ha as [<-|[<-|[]]]; vm_compute; (split; [done|split; congruence]).
Qed.
(** schedule_sstf never repairs [disk_queue_tail] when it removes the last
    of several requests.  In the code's own sequence (serve, which frees the
    request's page, then queue another request) add_disk_request then reports
    success, but the queue reached from the head is the old rest: the new
    request is lost, and never served. *)
Theorem sstf_lost_request `{KernelImage} (s : kstate) (fl : list Z)
    (l : list (Z * disk_request)) (a type lb buffer d b : Z) (r : disk_request) (p : procptr)
  (Hp : k_disk_sched_policy s = DISK_SCHED_SSTF)
  (Hd : disk_seg s fl (l ++ [(a, r)])) (Ht : k_queue_tail s = a) (Hne : l <> [])
  (Hlast : forall y, y ∈ l -> better s r y.2 = true)
  (Hm : raid_map_logical_to_physical (k_raid_mode s) lb = (0, Some (d, b))) :
  exists s1 s2, service_request s = Ret a s1 /\
    add_disk_request type lb buffer p s1 = Ret 0 s2 /\ queue_seg s2 l.
Proof.
  destruct (l ++ [(a, r)]) as [|x l'] eqn:Heq; [by destruct l|].
  destruct (sstf_picks_last s l a r x l' Heq (proj1 (proj2 Hd)) Hlast) as (rq & h & E & Ha & Hl).
  assert (E' : schedule_next_request s = Ret a (dequeued s rq h)).
  { unfold schedule_next_request. run. by rewrite Hp. }
  rewrite <- (app_nil_r l) in Hl. rewrite <- Heq in Hd.
  destruct (service_request_run s fl _ l a r [] rq h r Hd eq_refl E' Ha Hl)
    as (s1 & Es & Hd' & _ & Hraid & Ht1 & _). rewrite <- Hraid in Hm. rewrite app_nil_r in Hl, Hd'.
  destruct (Z.eqb_spec h 0) as [->|_]; [by destruct Hne; apply (lseg_nil_iff rq 0 l Hl)|].
  rewrite Ht in Ht1.
  exists s1, (enqueue_state (kalloc_state s1 a) a (new_request s1 type lb buffer p d b)).
  split; [exact Es|]. destruct Hd' as (Hk & Hq & Hok).
  split; [apply (add_disk_request_run s1 fl); [auto|exact Hk|exact Hm]|].
  apply enqueue_stale_tail; [exact Ht1| |exact Hq|].
  - destruct Hk as [(_ & Hpg & _) _]. apply page_ok_pos in Hpg. lia.
  - intros Hin. destruct (Hok a Hin) as [_ Hfl]. apply Hfl. left.
Qed.
Lemma sstf_lost_request_witness :
  exists s1 s2, @service_request example_image queued_pages = Ret 0x80201000 s1 /\
    @add_disk_request example_image DISK_READ 0 0x80300000 None s1 = Ret 0 s2 /\
    queue_seg s2 [(0x80200000, mkreq 1 40 0 10 0 None 3 0 0 0)].
Proof.
  apply (@sstf_lost_request example_image queued_pages []
           [(0x80200000, mkreq 1 40 0 10 0 None 3 0 0 0)] 0x80201000 DISK_READ 0 0x80300000 0 0
           (mkreq 0 8 0 2 0 None 3 0 0 0) None); [reflexivity|..].
  - apply queued_pages_seg.
  - reflexivity.
  - discriminate.
  - intros y ->%list_elem_of_singleton. reflexivity.
  - reflexivity.
Defined.

(** ** Draining the queue *)

(** [n] rounds of the service loop, with the requests served, in order. *)
Fixpoint service_rounds `{KernelImage} (n : nat) : K (list Z) :=
  match n with
  | O => mret []
  | S n' => a ← service_request; rest ← service_rounds n'; mret (a :: rest)
  end.

Lemma service_rounds_drain `{KernelImage} s fl l :
  policy_ok s -> disk_seg s fl l ->
  exists served s', service_rounds (length l) s = Ret served s' /\ served ≡ₚ l.*1 /\
    disk_seg s' (reverse served ++ fl) [] /\
    k_disk_operations s' = (if decide (l = []) then k_disk_operations s
                            else u64 (k_disk_operations s + Z.of_nat (length l))).
Proof.
  remember (length l) as n eqn:Hn. revert s fl l Hn. induction n as [|n IH]; intros s fl l Hn Hp Hd.
  { destruct l; [|done]. exists [], s. split_and!; [done..|]. by rewrite decide_True. }
  destruct l as [|x l]; [done|].
  destruct (service_request_pick s fl x l Hp Hd)
    as (l1 & a & r & l2 & ra & s1 & Heq & _ & E & Hd1 & Hp1 & Ho & _).
  destruct (IH s1 (a :: fl) (l1 ++ l2)) as (served & s' & E' & Hperm & Hd' & Ho').
  { apply (f_equal length) in Heq. rewrite !length_app in *. cbn in *. lia. }
  { unfold policy_ok in *. by rewrite Hp1. }
  { done. }
  exists (a :: served), s'. split_and!.
  - cbn [service_rounds]. rewrite (bind_ret _ _ _ _ _ E), (bind_ret _ _ _ _ _ E'). done.
  - rewrite Heq, Hperm, !fmap_app. cbn. apply Permutation_middle.
  - rewrite reverse_cons, <- app_assoc. exact Hd'.
  - rewrite Ho', Ho, (decide_False (P := x :: l = [])) by done.
    apply (f_equal length) in Heq. rewrite length_app in Heq. cbn in Heq, Hn. case_decide as Hc.
    + apply app_nil in Hc as [-> ->]. cbn in Heq. f_equal. lia.
    + rewrite u64_add_idemp_l. f_equal. lia.
Qed.

(** C37. Whatever the policy (FCFS or SSTF), serving as many times as there are
    queued requests always finishes, serves every request exactly once, empties
    the queue, gives each request's page back to the allocator without
    duplicates, and counts one disk operation per request. *)
Theorem disk_queue_drains `{KernelImage} (s : kstate) (fl : list Z) (l : list (Z * disk_request))
  (Hp : policy_ok s) (Hd : disk_seg s fl l) (Hne : l <> []) :
  exists served s', service_rounds (length l) s = Ret served s' /\ served ≡ₚ l.*1 /\
    queue_seg s' [] /\ kmem_inv s' (reverse served ++ fl) /\
    k_disk_operations s' = u64 (k_disk_operations s + Z.of_nat (length l)).
Proof.
  destruct (service_rounds_drain s fl l Hp Hd) as (served & s' & E & Hperm & (Hk & Hq & _) & Ho).
  rewrite decide_False in Ho by done. by exists served, s'.
Qed.
Lemma disk_queue_drains_witness :
  exists served s', @service_rounds example_image 2 queued_pages = Ret served s' /\
    served ≡ₚ [0x80200000; 0x80201000] /\ queue_seg s' [] /\
    @kmem_inv example_image s' (reverse served ++ []) /\
    k_disk_operations s' = u64 (k_disk_operations queued_pages + Z.of_nat 2).
Proof.
  apply (@disk_queue_drains example_image queued_pages [] _ (or_intror eq_refl) queued_pages_seg).
  discriminate.
Defined.
