(* ===== verification/VM.v ===== *)
(** * kernel/vm.c: Sv39 page tables

    The page-table routines over raw memory: a page table is the address of a
    page of 512 little-endian 64-bit entries.  [vmfault], [copyin] and
    [copyout], which call the page-replacement code, are in VMFault.v. *)

From S2P Require Import Prelude Memory State Kalloc.
Import Mem KString.

Section VM.
Context `{KernelImage}.

(** [*a] and [*a = v] for a [pte_t *a]. *)
Definition pte_get (a : Z) : K Z := gets (fun s => ld64 (k_mem s) a).
Definition pte_set (a v : Z) : K unit := modify (fun s => s <| k_mem := st64 (k_mem s) a v |>).
Definition kmemset (dst c n : Z) : K unit :=
  modify (fun s => s <| k_mem := memset (k_mem s) dst c n |>).
Definition kmemmove (dst src n : Z) : K unit :=
  modify (fun s => s <| k_mem := memmove (k_mem s) dst src n |>).

Definition has (pte flag : Z) : bool := negb (Z.land pte flag =? 0).

(** walk: levels 2 and 1, then the address of the leaf entry *)
Fixpoint walk_loop (level : nat) (pagetable va : Z) (alloc : bool) : K Z :=
  match level with
  | O => mret (pagetable + 8 * PX 0 va)
  | S level' =>
      let pte := pagetable + 8 * PX (Z.of_nat level) va in
      v ← pte_get pte;
      if has v PTE_V then walk_loop level' (PTE2PA v) va alloc
      else if negb alloc then mret 0
      else
        pagetable ← kalloc;
        if pagetable =? 0 then mret 0
        else
          kmemset pagetable 0 PGSIZE;;
          pte_set pte (Z.lor (PA2PTE pagetable) PTE_V);;
          walk_loop level' pagetable va alloc
  end.
Definition walk (pagetable va : Z) (alloc : bool) : K Z :=
  if MAXVA <=? va then panic "walk" else walk_loop 2 pagetable va alloc.

(** walkaddr *)
Definition walkaddr (pagetable va : Z) : K Z :=
  if MAXVA <=? va then mret 0
  else
    pte ← walk pagetable va false;
    if pte =? 0 then mret 0
    else
      v ← pte_get pte;
      if negb (has v PTE_V) then mret 0
      else if negb (has v PTE_U) then mret 0
      else mret (PTE2PA v).

(** mappages *)
Fixpoint mappages_loop (fuel : nat) (pagetable a last pa perm : Z) : K Z :=
  match fuel with
  | O => no_fuel
  | S fuel' =>
      pte ← walk pagetable a true;
      if pte =? 0 then mret (-1)
      else
        v ← pte_get pte;
        if has v PTE_V then panic "mappages: remap"
        else
          pte_set pte (Z.lor (Z.lor (PA2PTE pa) perm) PTE_V);;
          if a =? last then mret 0
          else mappages_loop fuel' pagetable (u64 (a + PGSIZE)) last (u64 (pa + PGSIZE)) perm
  end.
Definition mappages (pagetable va size pa perm : Z) : K Z :=
  if negb (va `mod` PGSIZE =? 0) then panic "mappages: va not aligned"
  else if negb (size `mod` PGSIZE =? 0) then panic "mappages: size not aligned"
  else if size =? 0 then panic "mappages: size"
  else mappages_loop (Z.to_nat (size / PGSIZE)) pagetable va (u64 (va + size - PGSIZE)) pa perm.

(** kvmmap *)
Definition kvmmap (kpgtbl va pa sz perm : Z) : K unit :=
  r ← mappages kpgtbl va sz pa perm;
  if negb (r =? 0) then panic "kvmmap" else mret tt.

(** proc_mapstacks (proc.c) *)
Definition proc_mapstacks (kpgtbl : Z) : K unit :=
  for_loop (Z.to_nat NPROC) 0 (fun i =>
    pa ← kalloc;
    if pa =? 0 then panic "kalloc"
    else kvmmap kpgtbl (KSTACK i) pa PGSIZE (Z.lor PTE_R PTE_W)).

(** kvmmake, kvminit *)
Definition kvmmake : K Z :=
  kpgtbl ← kalloc;
  kmemset kpgtbl 0 PGSIZE;;
  kvmmap kpgtbl UART0 UART0 PGSIZE (Z.lor PTE_R PTE_W);;
  kvmmap kpgtbl VIRTIO0 VIRTIO0 PGSIZE (Z.lor PTE_R PTE_W);;
  kvmmap kpgtbl PLIC PLIC 0x4000000 (Z.lor PTE_R PTE_W);;
  kvmmap kpgtbl KERNBASE KERNBASE (ketext - KERNBASE) (Z.lor PTE_R PTE_X);;
  kvmmap kpgtbl ketext ketext (PHYSTOP - ketext) (Z.lor PTE_R PTE_W);;
  kvmmap kpgtbl TRAMPOLINE ktrampoline PGSIZE (Z.lor PTE_R PTE_X);;
  proc_mapstacks kpgtbl;;
  mret kpgtbl.
Definition kvminit : K unit :=
  kpgtbl ← kvmmake;
  modify (fun s => s <| k_kernel_pagetable := kpgtbl |>).

(** uvmcreate *)
Definition uvmcreate : K Z :=
  pagetable ← kalloc;
  if pagetable =? 0 then mret 0
  else kmemset pagetable 0 PGSIZE;; mret pagetable.

(** uvmunmap *)
Definition uvmunmap_page (pagetable a : Z) (do_free : bool) : K unit :=
  pte ← walk pagetable a false;
  if pte =? 0 then mret tt
  else
    v ← pte_get pte;
    if negb (has v PTE_V) then mret tt
    else
      (if do_free then kfree (PTE2PA v) else mret tt);;
      pte_set pte 0.
Fixpoint uvmunmap_loop (fuel : nat) (pagetable a e : Z) (do_free : bool) : K unit :=
  match fuel with
  | O => no_fuel
  | S fuel' =>
      if a <? e
      then uvmunmap_page pagetable a do_free;;
           uvmunmap_loop fuel' pagetable (u64 (a + PGSIZE)) e do_free
      else mret tt
  end.
Definition uvmunmap (pagetable va npages : Z) (do_free : bool) : K unit :=
  if negb (va `mod` PGSIZE =? 0) then panic "uvmunmap: not aligned"
  else uvmunmap_loop (S (Z.to_nat npages)) pagetable va (u64 (va + npages * PGSIZE)) do_free.

(** uvmdealloc *)
Definition uvmdealloc (pagetable oldsz newsz : Z) : K Z :=
  if oldsz <=? newsz then mret oldsz
  else
    (if PGROUNDUP newsz <? PGROUNDUP oldsz
     then let npages := i32 ((PGROUNDUP oldsz - PGROUNDUP newsz) / PGSIZE) in
          uvmunmap pagetable (PGROUNDUP newsz) (u64 npages) true
     else mret tt);;
    mret newsz.

(** uvmalloc *)
Fixpoint uvmalloc_loop (fuel : nat) (pagetable a oldsz newsz xperm : Z) : K Z :=
  match fuel with
  | O => no_fuel
  | S fuel' =>
      if a <? newsz
      then
        mem ← kalloc;
        if mem =? 0 then uvmdealloc pagetable a oldsz;; mret 0
        else
          kmemset mem 0 PGSIZE;;
          r ← mappages pagetable a PGSIZE mem (Z.lor (Z.lor PTE_R PTE_U) xperm);
          if negb (r =? 0) then kfree mem;; uvmdealloc pagetable a oldsz;; mret 0
          else uvmalloc_loop fuel' pagetable (u64 (a + PGSIZE)) oldsz newsz xperm
      else mret newsz
  end.
Definition uvmalloc (pagetable oldsz newsz xperm : Z) : K Z :=
  if newsz <? oldsz then mret oldsz
  else
    let oldsz := PGROUNDUP oldsz in
    uvmalloc_loop (S (Z.to_nat ((newsz - oldsz) / PGSIZE + 1))) pagetable oldsz oldsz newsz xperm.

(** freewalk: [depth] bounds the recursion; a page table has three levels *)
Fixpoint freewalk (depth : nat) (pagetable : Z) : K unit :=
  match depth with
  | O => no_fuel
  | S depth' =>
      for_loop 512 0 (fun i =>
        pte ← pte_get (pagetable + 8 * i);
        if has pte PTE_V && negb (has pte (Z.lor (Z.lor PTE_R PTE_W) PTE_X)) then
          freewalk depth' (PTE2PA pte);;
          pte_set (pagetable + 8 * i) 0
        else if has pte PTE_V then panic "freewalk: leaf"
        else mret tt);;
      kfree pagetable
  end.

(** uvmfree *)
Definition uvmfree (pagetable sz : Z) : K unit :=
  (if 0 <? sz then uvmunmap pagetable 0 (PGROUNDUP sz / PGSIZE) true else mret tt);;
  freewalk 3 pagetable.

(** uvmcopy; [goto err] unmaps what has been copied so far *)
Fixpoint uvmcopy_loop (fuel : nat) (old new i sz : Z) : K Z :=
  match fuel with
  | O => no_fuel
  | S fuel' =>
      if i <? sz
      then
        let next := uvmcopy_loop fuel' old new (u64 (i + PGSIZE)) sz in
        let err := uvmunmap new 0 (i / PGSIZE) true;; mret (-1) in
        pte ← walk old i false;
        if pte =? 0 then next
        else
          v ← pte_get pte;
          if negb (has v PTE_V) then next
          else
            mem ← kalloc;
            if mem =? 0 then err
            else
              kmemmove mem (PTE2PA v) PGSIZE;;
              r ← mappages new i PGSIZE mem (PTE_FLAGS v);
              if negb (r =? 0) then kfree mem;; err else next
      else mret 0
  end.
Definition uvmcopy (old new sz : Z) : K Z :=
  uvmcopy_loop (S (Z.to_nat (sz / PGSIZE + 1))) old new 0 sz.

(** uvmclear *)
Definition uvmclear (pagetable va : Z) : K unit :=
  pte ← walk pagetable va false;
  if pte =? 0 then panic "uvmclear"
  else v ← pte_get pte; pte_set pte (Z.land v (Z.lnot PTE_U)).

(** ismapped *)
Definition ismapped (pagetable va : Z) : K bool :=
  pte ← walk pagetable va false;
  if pte =? 0 then mret false
  else v ← pte_get pte; mret (has v PTE_V).

(** copyinstr: the inner loop copies the bytes of one page, stopping at NUL *)
Fixpoint copyinstr_page (n : nat) (p dst max : Z) : K (bool * Z * Z) :=
  match n with
  | O => mret (false, dst, max)
  | S n' =>
      c ← gets (fun s => ld8 (k_mem s) p);
      if c =? 0
      then modify (fun s => s <| k_mem := st8 (k_mem s) dst 0 |>);; mret (true, dst, max)
      else modify (fun s => s <| k_mem := st8 (k_mem s) dst c |>);;
           copyinstr_page n' (p + 1) (dst + 1) (max - 1)
  end.
Fixpoint copyinstr_loop (fuel : nat) (pagetable dst srcva max : Z) : K Z :=
  match fuel with
  | O => no_fuel
  | S fuel' =>
      if 0 <? max
      then
        let va0 := PGROUNDDOWN srcva in
        pa0 ← walkaddr pagetable va0;
        if pa0 =? 0 then mret (-1)
        else
          let n := Z.min (PGSIZE - (srcva - va0)) max in
          '(got_null, dst, max) ← copyinstr_page (Z.to_nat n) (pa0 + (srcva - va0)) dst max;
          if got_null : bool then mret 0
          else copyinstr_loop fuel' pagetable dst (u64 (va0 + PGSIZE)) max
      else mret (-1)
  end.
Definition copyinstr (pagetable dst srcva max : Z) : K Z :=
  copyinstr_loop (S (Z.to_nat max)) pagetable dst srcva max.

End VM.
