(* ===== verification/Riscv.v ===== *)
(** * kernel/riscv.h, start.c, and the assembly files: the hart

    A RISC-V hart as far as the kernel's own code uses it: the integer
    registers, the control registers, the privilege mode, address translation
    and physical memory protection, traps and returns.  The accessors of
    riscv.h are operations on it; start and timerinit (start.c), kvminithart
    (vm.c) and trapinithart (trap.c) are written with them, and entry.S,
    trampoline.S, kernelvec.S and swtch.S are lists of instructions.

    [sstatus], [sie] and [sip] are the supervisor's views of [mstatus], [mie]
    and [mip].  The other registers keep what is written to them, but for the
    low bit of the exception program counters and the modes of [satp] that do
    not exist.  The accessed and dirty bits of page-table entries and the TLB
    are left out: [sfence.vma] does nothing. *)

From S2P Require Import Prelude Memory State Kalloc VM.
Import Mem.

(** ** riscv.h: the fields of the status registers *)
Definition MSTATUS_MPP_MASK : Z := Z.shiftl 3 11.
Definition MSTATUS_MPP_S : Z := Z.shiftl 1 11.
Definition SSTATUS_SPP : Z := Z.shiftl 1 8.
Definition SSTATUS_SPIE : Z := Z.shiftl 1 5.
Definition SSTATUS_SIE : Z := Z.shiftl 1 1.
Definition SIE_SEIE : Z := Z.shiftl 1 9.
Definition SIE_STIE : Z := Z.shiftl 1 5.
Definition MIE_STIE : Z := Z.shiftl 1 5.
Definition SATP_SV39 : Z := Z.shiftl 8 60.
Definition MAKE_SATP (pagetable : Z) : Z := Z.lor SATP_SV39 (Z.shiftr pagetable 12).

(** The bits of [mstatus] that [sstatus] shows. *)
Definition SSTATUS_MASK : Z := 0x80000003000DE762.

Module Hart.

Inductive reg :=
| zero | ra | sp | gp | tp | t0 | t1 | t2 | s0 | s1
| a0 | a1 | a2 | a3 | a4 | a5 | a6 | a7
| s2 | s3 | s4 | s5 | s6 | s7 | s8 | s9 | s10 | s11 | t3 | t4 | t5 | t6.
#[global] Instance reg_eq_dec : EqDecision reg.
Proof. solve_decision. Defined.

Inductive csr :=
| Mhartid | Mstatus | Mepc | Medeleg | Mideleg | Mie | Mip | Menvcfg | Mcounteren
| Pmpcfg0 | Pmpaddr0 | Sstatus | Sie | Sip | Sepc | Stvec | Stimecmp | Satp
| Scause | Stval | Sscratch | Time.
#[global] Instance csr_eq_dec : EqDecision csr.
Proof. solve_decision. Defined.

Inductive priv := User | Supervisor | Machine.
#[global] Instance priv_eq_dec : EqDecision priv.
Proof. solve_decision. Defined.

Record hart := mkhart {
  h_x : reg -> Z;
  h_csr : csr -> Z;
  h_priv : priv;
  h_pc : Z;
  h_mem : mem
}.
#[global] Instance eta_hart : Eta hart := fun h =>
  mkhart (h_x h) (h_csr h) (h_priv h) (h_pc h) (h_mem h).
Abbreviation RV := (M hart).

(** ** Registers *)
Definition reg_of (h : hart) (r : reg) : Z := if decide (r = zero) then 0 else h_x h r.
Definition reg_set (r : reg) (v : Z) (h : hart) : hart :=
  h <| h_x := fun r' => if decide (r' = r) then v else h_x h r' |>.
Definition rget (r : reg) : RV Z := gets (fun h => reg_of h r).
Definition rset (r : reg) (v : Z) : RV unit := modify (reg_set r v).

Definition insert_bits (mask old new : Z) : Z := Z.lor (Z.land old (Z.lnot mask)) (Z.land new mask).
Definition put_bit (n : Z) (b : bool) (v : Z) : Z := if b then Z.setbit v n else Z.clearbit v n.
Arguments put_bit : simpl never.

Definition csr_value (h : hart) (c : csr) : Z :=
  match c with
  | Sstatus => Z.land (h_csr h Mstatus) SSTATUS_MASK
  | Sie => Z.land (h_csr h Mie) (h_csr h Mideleg)
  | Sip => Z.land (h_csr h Mip) (h_csr h Mideleg)
  | _ => h_csr h c
  end.
Definition csr_put (c : csr) (v : Z) (h : hart) : hart :=
  h <| h_csr := fun c' => if decide (c' = c) then v else h_csr h c' |>.
Definition csr_store (c : csr) (v : Z) (h : hart) : hart :=
  match c with
  | Sstatus => csr_put Mstatus (insert_bits SSTATUS_MASK (h_csr h Mstatus) v) h
  | Sie => csr_put Mie (insert_bits (h_csr h Mideleg) (h_csr h Mie) v) h
  | Sip => csr_put Mip (insert_bits (h_csr h Mideleg) (h_csr h Mip) v) h
  | Mepc | Sepc => csr_put c (Z.clearbit v 0) h
  | Satp => if (Z.shiftr v 60 =? 0) || (Z.shiftr v 60 =? 8) then csr_put Satp v h else h
  | Mhartid | Time => h
  | _ => csr_put c v h
  end.

(** Which mode may use a register: the machine's are the machine's, and the
    supervisor reads the time and compares with it only when [mcounteren] and
    [menvcfg] let it. *)
Definition csr_allowed (h : hart) (c : csr) : bool :=
  match h_priv h with
  | Machine => true
  | User => false
  | Supervisor =>
      match c with
      | Mhartid | Mstatus | Mepc | Medeleg | Mideleg | Mie | Mip | Menvcfg | Mcounteren
      | Pmpcfg0 | Pmpaddr0 => false
      | Time => Z.testbit (h_csr h Mcounteren) 1
      | Stimecmp => Z.testbit (h_csr h Menvcfg) 63 && Z.testbit (h_csr h Mcounteren) 1
      | _ => true
      end
  end.
Definition csrr (c : csr) : RV Z :=
  ok ← gets (fun h => csr_allowed h c);
  if ok : bool then gets (fun h => csr_value h c) else fault "illegal instruction".
Definition csrw (c : csr) (v : Z) : RV unit :=
  ok ← gets (fun h => csr_allowed h c);
  if ok : bool then modify (csr_store c v) else fault "illegal instruction".

(** ** Memory: translation (Sv39) and protection *)
Inductive access := Load | Store.
Definition access_bit (a : access) : Z := match a with Load => PTE_R | Store => PTE_W end.

Fixpoint sv39 (level : nat) (m : mem) (table va : Z) : option (nat * Z) :=
  let pte := ld64 m (table + 8 * PX (Z.of_nat level) va) in
  if negb (has pte PTE_V) then None
  else if has pte (Z.lor PTE_R PTE_X) then Some (level, pte)
  else match level with
       | O => None
       | S level' => sv39 level' m (PTE2PA pte) va
       end.
Definition translate (h : hart) (a : access) (va : Z) : option Z :=
  let satp := h_csr h Satp in
  if bool_decide (h_priv h = Machine) || (Z.shiftr satp 60 =? 0) then Some va
  else if (va <? 0) || (2 ^ 38 <=? va) then None
  else
    match sv39 2 (h_mem h) (Z.shiftl (Z.land satp (Z.ones 44)) 12) va with
    | None => None
    | Some (level, pte) =>
        let size := 2 ^ (12 + 9 * Z.of_nat level) in
        if negb (has pte (access_bit a)) then None
        else if negb (Bool.eqb (has pte PTE_U) (bool_decide (h_priv h = User))) then None
        else if negb (PTE2PA pte `mod` size =? 0) then None
        else Some (PTE2PA pte + va `mod` size)
    end.

(** PMP entry 0, when it is a top-of-range entry with all the rights. *)
Definition pmp_allows (h : hart) (pa : Z) : bool :=
  bool_decide (h_priv h = Machine)
  || ((Z.land (h_csr h Pmpcfg0) 0x1f =? 0xf) && (0 <=? pa) && (pa + 8 <=? 4 * h_csr h Pmpaddr0)).

(** An access to a double word: it must be aligned. *)
Definition physical (h : hart) (a : access) (va : Z) : option Z :=
  match (if va `mod` 8 =? 0 then translate h a va else None) with
  | Some pa => if pmp_allows h pa then Some pa else None
  | None => None
  end.
Definition load (va : Z) : RV Z :=
  pa ← gets (fun h => physical h Load va);
  match pa with
  | Some pa => gets (fun h => ld64 (h_mem h) pa)
  | None => fault "page fault"
  end.
Definition store (va v : Z) : RV unit :=
  pa ← gets (fun h => physical h Store va);
  match pa with
  | Some pa => modify (fun h => h <| h_mem := st64 (h_mem h) pa v |>)
  | None => fault "page fault"
  end.

(** ** Traps and returns *)
Definition jump (pc : Z) : RV unit := modify (fun h => h <| h_pc := pc |>).
Definition status (f : Z -> Z) : RV unit := modify (fun h => csr_put Mstatus (f (h_csr h Mstatus)) h).
Definition set_priv (p : priv) : RV unit := modify (fun h => h <| h_priv := p |>).

Definition sret : RV unit :=
  ok ← gets (fun h => bool_decide (h_priv h <> User));
  if ok : bool then
    st ← gets (fun h => h_csr h Mstatus);
    set_priv (if Z.testbit st 8 then Supervisor else User);;
    status (fun v => put_bit 8 false (put_bit 5 true (put_bit 1 (Z.testbit v 5) v)));;
    pc ← gets (fun h => h_csr h Sepc);
    jump pc
  else fault "illegal instruction".
Definition mret_ : RV unit :=
  ok ← gets (fun h => bool_decide (h_priv h = Machine));
  if ok : bool then
    st ← gets (fun h => h_csr h Mstatus);
    set_priv (if Z.testbit st 12 then Machine else if Z.testbit st 11 then Supervisor else User);;
    status (fun v => put_bit 12 false (put_bit 11 false (put_bit 7 true (put_bit 3 (Z.testbit v 7) v))));;
    pc ← gets (fun h => h_csr h Mepc);
    jump pc
  else fault "illegal instruction".

(** A trap that is delegated to supervisor mode. *)
Definition delegated (h : hart) (cause : Z) : bool :=
  bool_decide (h_priv h <> Machine)
  && Z.testbit (h_csr h (if Z.testbit cause 63 then Mideleg else Medeleg)) (Z.clearbit cause 63).
Definition trap (cause tval : Z) : RV unit :=
  ok ← gets (fun h => delegated h cause);
  if ok : bool then
    modify (fun h =>
      let from_s := bool_decide (h_priv h = Supervisor) in
      let h1 := csr_put Sepc (h_pc h) (csr_put Scause cause (csr_put Stval tval h)) in
      csr_put Mstatus
        (let v := h_csr h Mstatus in put_bit 8 from_s (put_bit 1 false (put_bit 5 (Z.testbit v 1) v))) h1);;
    set_priv Supervisor;;
    pc ← gets (fun h => h_csr h Stvec);
    jump pc
  else fault "trap to machine mode".

(** ** Instructions

    [LI] and [LA] load a constant, of any size.  A call names the address that
    it returns to. *)
Inductive instr :=
| SD (rs2 : reg) (off : Z) (rs1 : reg)
| LD (rd : reg) (off : Z) (rs1 : reg)
| LI (rd : reg) (v : Z)
| LA (rd : reg) (v : Z)
| ADDI (rd rs : reg) (imm : Z)
| ADD (rd rs1 rs2 : reg)
| MUL (rd rs1 rs2 : reg)
| CSRR (rd : reg) (c : csr)
| CSRW (c : csr) (rs : reg)
| SFENCE_VMA
| JALR (rs : reg) (link : Z)
| CALL (target link : Z)
| RET
| SRET.

Definition step (i : instr) : RV unit :=
  match i with
  | SD rs2 off rs1 => a ← rget rs1; v ← rget rs2; store (u64 (a + off)) v
  | LD rd off rs1 => a ← rget rs1; v ← load (u64 (a + off)); rset rd v
  | LI rd v | LA rd v => rset rd (u64 v)
  | ADDI rd rs imm => a ← rget rs; rset rd (u64 (a + imm))
  | ADD rd rs1 rs2 => a ← rget rs1; b ← rget rs2; rset rd (u64 (a + b))
  | MUL rd rs1 rs2 => a ← rget rs1; b ← rget rs2; rset rd (u64 (a * b))
  | CSRR rd c => v ← csrr c; rset rd v
  | CSRW c rs => v ← rget rs; csrw c v
  | SFENCE_VMA => mret tt
  | JALR rs link => a ← rget rs; rset ra link;; jump a
  | CALL target link => rset ra link;; jump target
  | RET => a ← rget ra; jump a
  | SRET => sret
  end.
Fixpoint exec (l : list instr) : RV unit :=
  match l with
  | [] => mret tt
  | i :: l => step i;; exec l
  end.

End Hart.
