(* ===== verification/Boot.v ===== *)
(** * kernel/riscv.h, start.c, plic.c and entry.S: from reset to main

    The accessors of riscv.h as operations of the hart, and the code that runs
    on each hart before and at the start of main: _entry (entry.S), start and
    timerinit (start.c), kvminithart (vm.c), trapinithart (trap.c).  The
    interrupt controller is a parameter: what a write to one of its 32-bit
    registers does, and what a read returns. *)

From S2P Require Import Prelude Memory State Kalloc VM Riscv.
Import Mem Hart.

(** ** riscv.h *)
Definition r_mhartid : RV Z := csrr Mhartid.
Definition r_mstatus : RV Z := csrr Mstatus.
Definition w_mstatus (x : Z) : RV unit := csrw Mstatus x.
Definition w_mepc (x : Z) : RV unit := csrw Mepc x.
Definition r_sstatus : RV Z := csrr Sstatus.
Definition w_sstatus (x : Z) : RV unit := csrw Sstatus x.
Definition r_sip : RV Z := csrr Sip.
Definition w_sip (x : Z) : RV unit := csrw Sip x.
Definition r_sie : RV Z := csrr Sie.
Definition w_sie (x : Z) : RV unit := csrw Sie x.
Definition r_mie : RV Z := csrr Mie.
Definition w_mie (x : Z) : RV unit := csrw Mie x.
Definition w_sepc (x : Z) : RV unit := csrw Sepc x.
Definition r_sepc : RV Z := csrr Sepc.
Definition r_medeleg : RV Z := csrr Medeleg.
Definition w_medeleg (x : Z) : RV unit := csrw Medeleg x.
Definition r_mideleg : RV Z := csrr Mideleg.
Definition w_mideleg (x : Z) : RV unit := csrw Mideleg x.
Definition w_stvec (x : Z) : RV unit := csrw Stvec x.
Definition r_stvec : RV Z := csrr Stvec.
Definition r_stimecmp : RV Z := csrr Stimecmp.
Definition w_stimecmp (x : Z) : RV unit := csrw Stimecmp x.
Definition r_menvcfg : RV Z := csrr Menvcfg.
Definition w_menvcfg (x : Z) : RV unit := csrw Menvcfg x.
Definition w_pmpcfg0 (x : Z) : RV unit := csrw Pmpcfg0 x.
Definition w_pmpaddr0 (x : Z) : RV unit := csrw Pmpaddr0 x.
Definition w_satp (x : Z) : RV unit := csrw Satp x.
Definition r_satp : RV Z := csrr Satp.
Definition r_scause : RV Z := csrr Scause.
Definition r_stval : RV Z := csrr Stval.
Definition w_mcounteren (x : Z) : RV unit := csrw Mcounteren x.
Definition r_mcounteren : RV Z := csrr Mcounteren.
Definition r_time : RV Z := csrr Time.
Definition r_sp : RV Z := rget sp.
Definition r_tp : RV Z := rget tp.
Definition w_tp (x : Z) : RV unit := rset tp x.
Definition r_ra : RV Z := rget ra.
Definition sfence_vma : RV unit := step SFENCE_VMA.

Definition intr_on : RV unit := x ← r_sstatus; w_sstatus (Z.lor x SSTATUS_SIE).
Definition intr_off : RV unit := x ← r_sstatus; w_sstatus (Z.land x (Z.lnot SSTATUS_SIE)).
Definition intr_get : RV bool := x ← r_sstatus; mret (negb (Z.land x SSTATUS_SIE =? 0)).

(** cpuid (proc.c) *)
Definition cpuid : RV Z := x ← r_tp; mret (i32 x).

Section Boot.
Context `{KernelImage}.

(** ** start.c *)
Definition timerinit : RV unit :=
  x ← r_mie; w_mie (Z.lor x MIE_STIE);;
  x ← r_menvcfg; w_menvcfg (Z.lor x (Z.shiftl 1 63));;
  x ← r_mcounteren; w_mcounteren (Z.lor x 2);;
  x ← r_time; w_stimecmp (u64 (x + 1000000)).

Definition start : RV unit :=
  x ← r_mstatus;
  let x := Z.land x (Z.lnot MSTATUS_MPP_MASK) in
  let x := Z.lor x MSTATUS_MPP_S in
  w_mstatus x;;
  w_mepc kmain;;
  w_satp 0;;
  w_medeleg 0xffff;;
  w_mideleg 0xffff;;
  x ← r_sie; w_sie (Z.lor (Z.lor x SIE_SEIE) SIE_STIE);;
  w_pmpaddr0 0x3fffffffffffff;;
  w_pmpcfg0 0xf;;
  timerinit;;
  id ← r_mhartid;
  w_tp (u64 (i32 id));;
  mret_.

(** ** entry.S *)
Definition _entry : list instr :=
  [ LA sp kstack0; LI a0 (1024 * 4); CSRR a1 Mhartid; ADDI a1 a1 1; MUL a0 a0 a1; ADD sp sp a0;
    CALL kstart kspin ].

(** kvminithart (vm.c), trapinithart (trap.c) *)
Definition kvminithart (kernel_pagetable : Z) : RV unit :=
  sfence_vma;; w_satp (MAKE_SATP kernel_pagetable);; sfence_vma.
Definition trapinithart : RV unit := w_stvec kkernelvec.

End Boot.

(** ** plic.c *)
Section Plic.
Context {plic : Type} (mmio_write : Z -> Z -> plic -> plic) (mmio_read : Z -> plic -> Z * plic).

Definition UART0_IRQ : Z := 10.
Definition VIRTIO0_IRQ : Z := 1.
Definition PLIC_SENABLE (hart : Z) : Z := PLIC + 0x2080 + hart * 0x100.
Definition PLIC_SPRIORITY (hart : Z) : Z := PLIC + 0x201000 + hart * 0x2000.
Definition PLIC_SCLAIM (hart : Z) : Z := PLIC + 0x201004 + hart * 0x2000.

Definition plicinit : M plic unit :=
  modify (mmio_write (PLIC + UART0_IRQ * 4) 1);;
  modify (mmio_write (PLIC + VIRTIO0_IRQ * 4) 1).
Definition plicinithart (hart : Z) : M plic unit :=
  modify (mmio_write (PLIC_SENABLE hart) (Z.lor (Z.shiftl 1 UART0_IRQ) (Z.shiftl 1 VIRTIO0_IRQ)));;
  modify (mmio_write (PLIC_SPRIORITY hart) 0).
Definition plic_claim (hart : Z) : M plic Z :=
  fun p => let '(v, p') := mmio_read (PLIC_SCLAIM hart) p in Ret (i32 v) p'.
Definition plic_complete (hart irq : Z) : M plic unit :=
  modify (mmio_write (PLIC_SCLAIM hart) (u32 irq)).
End Plic.

(** ** uart.c: the registers *)
Section Uart.
Context {uart : Type} (reg_write : Z -> Z -> uart -> uart) (reg_read : Z -> uart -> Z * uart).

Definition RHR : Z := 0.
Definition IER : Z := 1.
Definition IER_RX_ENABLE : Z := Z.shiftl 1 0.
Definition IER_TX_ENABLE : Z := Z.shiftl 1 1.
Definition FCR : Z := 2.
Definition FCR_FIFO_ENABLE : Z := Z.shiftl 1 0.
Definition FCR_FIFO_CLEAR : Z := Z.shiftl 3 1.
Definition LCR : Z := 3.
Definition LCR_EIGHT_BITS : Z := Z.shiftl 3 0.
Definition LCR_BAUD_LATCH : Z := Z.shiftl 1 7.
Definition LSR : Z := 5.
Definition LSR_RX_READY : Z := Z.shiftl 1 0.

Definition ReadReg (r : Z) : M uart Z := fun u => let '(v, u') := reg_read (UART0 + r) u in Ret (u8 v) u'.
Definition WriteReg (r v : Z) : M uart unit := modify (reg_write (UART0 + r) (u8 v)).

(** uartinit; the lock is elided *)
Definition uartinit : M uart unit :=
  WriteReg IER 0x00;;
  WriteReg LCR LCR_BAUD_LATCH;;
  WriteReg 0 0x03;;
  WriteReg 1 0x00;;
  WriteReg LCR LCR_EIGHT_BITS;;
  WriteReg FCR (Z.lor FCR_FIFO_ENABLE FCR_FIFO_CLEAR);;
  WriteReg IER (Z.lor IER_TX_ENABLE IER_RX_ENABLE).

(** uartgetc *)
Definition uartgetc : M uart Z :=
  lsr ← ReadReg LSR;
  if negb (Z.land lsr LSR_RX_READY =? 0) then ReadReg RHR else mret (-1).
End Uart.
