(* ===== verification/BootProps.v ===== *)
(** * What a hart is like when it reaches main *)

From S2P Require Import Prelude Memory State Kalloc VM Riscv Boot.
Import Mem Hart.

(** ** Control registers *)
Lemma csr_put_eq c v h : h_csr (csr_put c v h) c = v.
Proof. cbn. by rewrite decide_True. Qed.
Lemma csr_put_ne c c' v h : c' <> c -> h_csr (csr_put c v h) c' = h_csr h c'.
Proof. intros. cbn. by rewrite decide_False. Qed.
Lemma csrr_m c h : h_priv h = Machine -> csrr c h = Ret (csr_value h c) h.
Proof. intros E. unfold csrr. rewrite bind_gets. unfold csr_allowed. by rewrite E. Qed.
Lemma csrw_m c v h : h_priv h = Machine -> csrw c v h = Ret tt (csr_store c v h).
Proof. intros E. unfold csrw. rewrite bind_gets. unfold csr_allowed. by rewrite E. Qed.

(** Look a control register up in a chain of writes. *)
Ltac csrs := repeat first [rewrite csr_put_eq | rewrite csr_put_ne by discriminate].
(** Straight-line code up to the next access to a control register. *)
Ltac straight := repeat first [rewrite bind_assoc | rewrite bind_modify | rewrite bind_gets].
(** One access to a control register in machine mode; [Hp] says it is. *)
Ltac mstep Hp :=
  unfold r_mhartid, r_mstatus, w_mstatus, w_mepc, r_sie, w_sie, r_mie, w_mie, w_medeleg, w_mideleg,
    w_stimecmp, r_menvcfg, w_menvcfg, w_pmpcfg0, w_pmpaddr0, w_satp, w_mcounteren, r_mcounteren, r_time;
  lazymatch goal with
  | |- context [(csrr ?c ≫= ?f) ?h] => rewrite (bind_ret (csrr c) f h _ h (csrr_m c h Hp))
  | |- context [(csrw ?c ?v ≫= ?f) ?h] => rewrite (bind_ret (csrw c v) f h tt _ (csrw_m c v h Hp))
  end; cbn [csr_store csr_value].

Section BootProps.
Context `{KernelImage}.

Definition timer_hart (h : hart) : hart :=
  csr_put Stimecmp (u64 (h_csr h Time + 1000000))
    (csr_put Mcounteren (Z.lor (h_csr h Mcounteren) 2)
      (csr_put Menvcfg (Z.lor (h_csr h Menvcfg) (Z.shiftl 1 63))
        (csr_put Mie (Z.lor (h_csr h Mie) MIE_STIE) h))).
Lemma timerinit_eq h : h_priv h = Machine -> timerinit h = Ret tt (timer_hart h).
Proof.
  intros Hp. unfold timerinit. do 7 mstep Hp. unfold w_stimecmp. rewrite csrw_m by done.
  unfold timer_hart. cbn [csr_store]. csrs. done.
Qed.

Definition start_status (v : Z) : Z := Z.lor (Z.land v (Z.lnot MSTATUS_MPP_MASK)) MSTATUS_MPP_S.
Definition start_sie (h : hart) : Z :=
  insert_bits 0xffff (h_csr h Mie) (Z.lor (Z.lor (Z.land (h_csr h Mie) 0xffff) SIE_SEIE) SIE_STIE).
Definition start_hart (h : hart) : hart :=
  csr_put Pmpcfg0 0xf
    (csr_put Pmpaddr0 0x3fffffffffffff
      (csr_put Mie (start_sie h)
        (csr_put Mideleg 0xffff
          (csr_put Medeleg 0xffff
            (csr_put Satp 0
              (csr_put Mepc (Z.clearbit kmain 0) (csr_put Mstatus (start_status (h_csr h Mstatus)) h))))))).
Lemma start_eq h :
  h_priv h = Machine ->
  start h = mret_ (reg_set tp (u64 (i32 (h_csr h Mhartid))) (timer_hart (start_hart h))).
Proof.
  intros Hp. unfold start. do 10 mstep Hp.
  erewrite (bind_ret timerinit); [|apply timerinit_eq; exact Hp]. mstep Hp. csrs.
  change (Z.shiftr 0 60) with 0. cbn [orb Z.eqb]. unfold w_tp, rset. rewrite bind_modify. done.
Qed.

Definition entry_sp (id : Z) : Z := u64 (u64 kstack0 + u64 (u64 4096 * u64 (id + 1))).
Lemma entry_eq h :
  h_priv h = Machine ->
  exists x, exec _entry h = Ret tt (h <| h_x := x |> <| h_pc := kstart |>) /\ x sp = entry_sp (h_csr h Mhartid).
Proof.
  intros Hp. unfold _entry. cbn [exec step]. unfold rset, rget, jump.
  straight. mstep Hp. straight. eexists. split; [reflexivity|]. reflexivity.
Qed.

Lemma start_status_mpp v : Z.testbit (start_status v) 12 = false /\ Z.testbit (start_status v) 11 = true.
Proof.
  unfold start_status. rewrite !Z.lor_spec, !Z.land_spec, !Z.lnot_spec by lia.
  change (Z.testbit MSTATUS_MPP_MASK 12) with true. change (Z.testbit MSTATUS_MPP_MASK 11) with true.
  split; [by rewrite andb_false_r|by rewrite orb_true_r].
Qed.
Lemma clearbit_even v : Z.testbit v 0 = false -> Z.clearbit v 0 = v.
Proof.
  intros Hv. apply Z.bits_inj'. intros n Hn. rewrite Z.clearbit_eqb by lia.
  destruct (Z.eqb_spec 0 n) as [<-|]; [by rewrite Hv|]. by rewrite andb_true_r.
Qed.
Lemma entry_sp_small id :
  0 <= id < 8 -> 0 <= kstack0 -> kstack0 + 8 * 4096 < 2 ^ 64 -> entry_sp id = kstack0 + 4096 * (id + 1).
Proof. intros. unfold entry_sp. rewrite (u64_small 4096), (u64_small (id + 1)), (u64_small (4096 * (id + 1))), (u64_small kstack0), u64_small by lia. done. Qed.
(** The causes below 16, as exceptions and as interrupts. *)
Lemma low_cause cause :
  0 <= cause < 16 ->
  Z.testbit cause 63 = false /\ Z.testbit 0xffff (Z.clearbit cause 63) = true /\
  Z.testbit (2 ^ 63 + cause) 63 = true /\ Z.testbit 0xffff (Z.clearbit (2 ^ 63 + cause) 63) = true.
Proof.
  intros Hc. assert (Hin : In cause [0; 1; 2; 3; 4; 5; 6; 7; 8; 9; 10; 11; 12; 13; 14; 15]) by (cbn; lia).
  clear Hc. repeat (destruct Hin as [<-|Hin]; [vm_compute; done|]). destruct Hin.
Qed.

(** The return to supervisor mode. *)
Definition mret_hart (h : hart) : hart :=
  csr_put Mstatus
    (let v := h_csr h Mstatus in
     put_bit 12 false (put_bit 11 false (put_bit 7 true (put_bit 3 (Z.testbit v 7) v))))
    (h <| h_priv := Supervisor |> <| h_pc := h_csr h Mepc |>).
Lemma mret_eq h :
  h_priv h = Machine -> Z.testbit (h_csr h Mstatus) 12 = false -> Z.testbit (h_csr h Mstatus) 11 = true ->
  mret_ h = Ret tt (mret_hart h).
Proof.
  intros Hp E12 E11. unfold mret_. rewrite bind_gets, bool_decide_true, bind_gets, E12, E11 by done. done.
Qed.

(** What main may count on: supervisor mode on the stack of this hart, with the
    hart's number in tp, memory open and untranslated, every trap delegated,
    and the timer and external interrupts and the timer's registers enabled. *)
Record at_main (h0 h : hart) : Prop := {
  am_priv : h_priv h = Supervisor;
  am_pc : h_pc h = kmain;
  am_sp : reg_of h sp = kstack0 + 4096 * (h_csr h0 Mhartid + 1);
  am_tp : reg_of h tp = h_csr h0 Mhartid;
  am_mem : h_mem h = h_mem h0;
  am_open : forall a pa, 0 <= pa -> pa `mod` 8 = 0 -> pa + 8 <= 2 ^ 56 - 4 -> physical h a pa = Some pa;
  am_deleg : forall cause, 0 <= cause < 16 -> delegated h cause = true /\ delegated h (2 ^ 63 + cause) = true;
  am_sie : Z.testbit (csr_value h Sie) 9 = true /\ Z.testbit (csr_value h Sie) 5 = true;
  am_time : csr_allowed h Time = true /\ csr_allowed h Stimecmp = true;
  am_first : csr_value h Stimecmp = u64 (h_csr h0 Time + 1000000)
}.

(** The control registers that start has set, in supervisor mode. *)
Record started (h : hart) : Prop := {
  sd_priv : h_priv h = Supervisor;
  sd_satp : h_csr h Satp = 0;
  sd_pmp : h_csr h Pmpcfg0 = 0xf /\ h_csr h Pmpaddr0 = 0x3fffffffffffff;
  sd_deleg : h_csr h Medeleg = 0xffff /\ h_csr h Mideleg = 0xffff;
  sd_mie : exists v, h_csr h Mie = Z.lor (insert_bits 0xffff v (Z.lor (Z.lor (Z.land v 0xffff) SIE_SEIE) SIE_STIE)) MIE_STIE;
  sd_envcfg : exists v, h_csr h Menvcfg = Z.lor v (Z.shiftl 1 63);
  sd_counteren : exists v, h_csr h Mcounteren = Z.lor v 2
}.
Lemma started_open h a pa :
  started h -> 0 <= pa -> pa `mod` 8 = 0 -> pa + 8 <= 2 ^ 56 - 4 -> physical h a pa = Some pa.
Proof.
  intros [Hp Hs [Hc Ha] _ _ _ _] H0 Hm Hle. unfold physical, translate, pmp_allows.
  rewrite Hp, Hs, Hc, Ha, Hm. change (Z.shiftr 0 60) with 0. rewrite orb_true_r.
  change (0 =? 0) with true. cbv iota. rewrite bool_decide_false by done.
  rewrite (proj2 (Z.leb_le 0 pa) H0), (proj2 (Z.leb_le (pa + 8) _)) by lia. done.
Qed.
Lemma deleg_low h cause :
  h_priv h <> Machine -> h_csr h Medeleg = 0xffff -> h_csr h Mideleg = 0xffff -> 0 <= cause < 16 ->
  delegated h cause = true /\ delegated h (2 ^ 63 + cause) = true.
Proof.
  intros Hp He Hi Hc. unfold delegated. rewrite bool_decide_true by done.
  destruct (low_cause cause Hc) as (-> & E1 & -> & E2). by rewrite He, Hi, E1, E2.
Qed.
Lemma started_deleg h cause :
  started h -> 0 <= cause < 16 -> delegated h cause = true /\ delegated h (2 ^ 63 + cause) = true.
Proof. intros [Hp _ _ [He Hi] _ _ _] Hc. apply deleg_low; [by rewrite Hp|done..]. Qed.
Lemma started_sie h : started h -> Z.testbit (csr_value h Sie) 9 = true /\ Z.testbit (csr_value h Sie) 5 = true.
Proof.
  intros [_ _ _ [_ Hi] [v Hv] _ _]. unfold csr_value, insert_bits in *. rewrite Hv, Hi.
  rewrite !Z.land_spec, !Z.lor_spec, !Z.land_spec, !Z.lor_spec.
  change (Z.testbit SIE_SEIE 9) with true. change (Z.testbit MIE_STIE 5) with true.
  change (Z.testbit 0xffff 9) with true. change (Z.testbit 0xffff 5) with true.
  by rewrite !orb_true_r.
Qed.
Lemma started_time h : started h -> csr_allowed h Time = true /\ csr_allowed h Stimecmp = true.
Proof.
  intros [Hp _ _ _ _ [v Hv] [w Hw]]. unfold csr_allowed. rewrite Hp, Hv, Hw, !Z.lor_spec.
  change (Z.testbit 2 1) with true. change (Z.testbit (Z.shiftl 1 63) 63) with true. by rewrite !orb_true_r.
Qed.

Lemma started_mret h id : started (mret_hart (reg_set tp id (timer_hart (start_hart h)))).
Proof.
  unfold mret_hart, timer_hart, start_hart. split; [done|csrs..]; cbn [h_csr reg_set upd]; csrs;
    first [done | by eexists].
Qed.

(** C19. Every hart that comes out of reset in machine mode gets through _entry
    and start to main in supervisor mode, on its own stack and with its number
    in tp, with all of physical memory open, every trap delegated and the timer
    armed. *)
Theorem start_enters_main (h : hart)
  (Hp : h_priv h = Machine) (Hid : 0 <= h_csr h Mhartid < 8)
  (Hm : Z.testbit kmain 0 = false) (Hk : 0 <= kstack0 /\ kstack0 + 8 * 4096 < 2 ^ 64) :
  exists h', (exec _entry;; start) h = Ret tt h' /\ at_main h h'.
Proof.
  destruct (entry_eq h Hp) as (x & E & Hx). rewrite (bind_ret _ _ _ _ _ E), start_eq by done. clear E.
  set (h1 := reg_set tp _ _).
  assert (Es : h_csr h1 Mstatus = start_status (h_csr h Mstatus))
    by (unfold h1, timer_hart, start_hart; cbn [reg_set h_csr upd]; csrs; done).
  destruct (start_status_mpp (h_csr h Mstatus)) as [Hs12 Hs11].
  rewrite mret_eq by (first [done | by rewrite Es]). eexists. split; [reflexivity|].
  pose proof (started_mret (h <| h_x := x |> <| h_pc := kstart |>) (u64 (i32 (h_csr h Mhartid)))) as Hs.
  fold h1 in Hs.
  split; [done| | | |done|by intros; apply started_open|by intros; apply started_deleg|by apply started_sie
         |by apply started_time|].
  - transitivity (h_csr h1 Mepc); [done|]. unfold h1, timer_hart, start_hart. cbn [reg_set h_csr upd]. csrs.
    by apply clearbit_even.
  - transitivity (x sp); [done|]. rewrite Hx. apply entry_sp_small; lia.
  - transitivity (u64 (i32 (h_csr h Mhartid))); [done|]. rewrite i32_small by lia. apply u64_small. lia.
  - transitivity (h_csr h1 Stimecmp); [done|]. unfold h1, timer_hart, start_hart. cbn [reg_set h_csr upd]. csrs. done.
Qed.
End BootProps.

(** Hart 1 out of reset. *)
Definition reset_hart : hart :=
  mkhart (fun _ => 0) (fun c => if decide (c = Mhartid) then 1 else 0) Machine 0x1000 ∅.
Lemma start_enters_main_witness :
  exists h', (exec (@_entry example_image);; @start example_image) reset_hart = Ret tt h' /\
    @at_main example_image reset_hart h'.
Proof. apply (@start_enters_main example_image); cbn; first [done | lia]. Defined.
