(* ===== verification/Asm.v ===== *)
(** * kernel/trampoline.S, kernelvec.S and swtch.S

    The assembly of the kernel, instruction by instruction.  The code of
    trampoline.S and kernelvec.S is cut where it calls C: [uservec] ends with
    the call of usertrap, and [userret] is what usertrap returns to;
    [kernelvec] ends with the call of kerneltrap, and [kernelvec_return] is
    the rest. *)

From S2P Require Import Prelude Memory State Kalloc VM Riscv.
Import Mem Hart.

Section Asm.
Context `{KernelImage}.

(** uservec *)
Definition uservec : list instr :=
  [CSRW Sscratch a0; LI a0 TRAPFRAME; SD ra 40 a0; SD sp 48 a0; SD gp 56 a0; SD tp 64 a0;
   SD t0 72 a0; SD t1 80 a0; SD t2 88 a0; SD s0 96 a0; SD s1 104 a0; SD a1 120 a0;
   SD a2 128 a0; SD a3 136 a0; SD a4 144 a0; SD a5 152 a0; SD a6 160 a0; SD a7 168 a0;
   SD s2 176 a0; SD s3 184 a0; SD s4 192 a0; SD s5 200 a0; SD s6 208 a0; SD s7 216 a0;
   SD s8 224 a0; SD s9 232 a0; SD s10 240 a0; SD s11 248 a0; SD t3 256 a0; SD t4 264 a0;
   SD t5 272 a0; SD t6 280 a0; CSRR t0 Sscratch; SD t0 112 a0; LD sp 8 a0; LD tp 32 a0;
   LD t0 16 a0; LD t1 0 a0; SFENCE_VMA; CSRW Satp t1; SFENCE_VMA; JALR t0 kuserret].

(** userret *)
Definition userret : list instr :=
  [SFENCE_VMA; CSRW Satp a0; SFENCE_VMA; LI a0 TRAPFRAME; LD ra 40 a0; LD sp 48 a0;
   LD gp 56 a0; LD tp 64 a0; LD t0 72 a0; LD t1 80 a0; LD t2 88 a0; LD s0 96 a0; LD s1 104 a0;
   LD a1 120 a0; LD a2 128 a0; LD a3 136 a0; LD a4 144 a0; LD a5 152 a0; LD a6 160 a0;
   LD a7 168 a0; LD s2 176 a0; LD s3 184 a0; LD s4 192 a0; LD s5 200 a0; LD s6 208 a0;
   LD s7 216 a0; LD s8 224 a0; LD s9 232 a0; LD s10 240 a0; LD s11 248 a0; LD t3 256 a0;
   LD t4 264 a0; LD t5 272 a0; LD t6 280 a0; LD a0 112 a0; SRET].

(** kernelvec *)
Definition kernelvec : list instr :=
  [ADDI sp sp (-256); SD ra 0 sp; SD gp 16 sp; SD tp 24 sp; SD t0 32 sp; SD t1 40 sp;
   SD t2 48 sp; SD a0 72 sp; SD a1 80 sp; SD a2 88 sp; SD a3 96 sp; SD a4 104 sp;
   SD a5 112 sp; SD a6 120 sp; SD a7 128 sp; SD t3 216 sp; SD t4 224 sp; SD t5 232 sp;
   SD t6 240 sp; CALL kkerneltrap kkernelvec_ret].
(** the rest of kernelvec, after kerneltrap *)
Definition kernelvec_return : list instr :=
  [LD ra 0 sp; LD gp 16 sp; LD t0 32 sp; LD t1 40 sp; LD t2 48 sp; LD a0 72 sp; LD a1 80 sp;
   LD a2 88 sp; LD a3 96 sp; LD a4 104 sp; LD a5 112 sp; LD a6 120 sp; LD a7 128 sp;
   LD t3 216 sp; LD t4 224 sp; LD t5 232 sp; LD t6 240 sp; ADDI sp sp 256; SRET].

(** swtch: a0 is the context to save in, a1 the one to load *)
Definition swtch : list instr :=
  [SD ra 0 a0; SD sp 8 a0; SD s0 16 a0; SD s1 24 a0; SD s2 32 a0; SD s3 40 a0; SD s4 48 a0;
   SD s5 56 a0; SD s6 64 a0; SD s7 72 a0; SD s8 80 a0; SD s9 88 a0; SD s10 96 a0;
   SD s11 104 a0; LD ra 0 a1; LD sp 8 a1; LD s0 16 a1; LD s1 24 a1; LD s2 32 a1; LD s3 40 a1;
   LD s4 48 a1; LD s5 56 a1; LD s6 64 a1; LD s7 72 a1; LD s8 80 a1; LD s9 88 a1; LD s10 96 a1;
   LD s11 104 a1; RET].

End Asm.
