(* ===== verification/PageTable.v ===== *)
(** * The page table as a tree of pages: the invariant of vm.c

    [T] is the ghost tree of a page table: it maps a path (the list of indices
    taken from the root, of length 0, 1 or 2) to the address of the page-table
    page there.  [pt_wf m root T] says that the entries in memory are this tree,
    [pte_of T m va] is the leaf entry of a virtual address, 0 where the walk
    stops early.  The lemmas say how reading, adding a page-table page and
    storing a leaf entry act on them. *)

From S2P Require Import Prelude Memory State Kalloc VM.
Import Mem KString.

(** ** Bit fields of virtual addresses and entries *)
Section Bits.

Lemma px_eq l va : 0 <= l -> 0 <= va -> PX l va = (va / 2 ^ (12 + 9 * l)) `mod` 512.
Proof.
  intros Hl Hv. unfold PX, PXMASK, PXSHIFT. change 0x1FF with (Z.ones 9).
  rewrite Z.land_ones, Z.shiftr_div_pow2 by lia. done.
Qed.
Lemma px_range l va : 0 <= PX l va < 512.
Proof.
  unfold PX, PXMASK. change 0x1FF with (Z.ones 9). rewrite Z.land_ones by lia.
  apply Z.mod_pos_bound. lia.
Qed.
Lemma px_top va : 0 <= va < MAXVA -> PX 2 va < 256.
Proof. change MAXVA with 274877906944. intros Hv. rewrite px_eq by lia. div_lia. Qed.
(** The three indices are the base-512 digits of the page number. *)
Lemma px_digits va :
  0 <= va ->
  PX 0 va = (va / PGSIZE) `mod` 512 /\ PX 1 va = (va / PGSIZE / 512) `mod` 512 /\
  PX 2 va = (va / PGSIZE / 512 / 512) `mod` 512.
Proof.
  intros Hv. rewrite !px_eq by lia. unfold PGSIZE. rewrite !Z.div_div by lia. done.
Qed.
Lemma px_inj va va' :
  0 <= va < MAXVA -> 0 <= va' < MAXVA ->
  PX 2 va = PX 2 va' -> PX 1 va = PX 1 va' -> PX 0 va = PX 0 va' -> va / PGSIZE = va' / PGSIZE.
Proof.
  change MAXVA with 274877906944. intros Hv Hv'.
  destruct (px_digits va) as (-> & -> & ->); [lia|].
  destruct (px_digits va') as (-> & -> & ->); [lia|].
  assert (0 <= va / PGSIZE < 67108864) by (unfold PGSIZE; div_lia).
  assert (0 <= va' / PGSIZE < 67108864) by (unfold PGSIZE; div_lia).
  generalize dependent (va / PGSIZE). generalize dependent (va' / PGSIZE). intros; div_lia.
Qed.
Lemma px_same va va' :
  0 <= va -> 0 <= va' -> va / PGSIZE = va' / PGSIZE ->
  PX 2 va = PX 2 va' /\ PX 1 va = PX 1 va' /\ PX 0 va = PX 0 va'.
Proof.
  intros Hv Hv' E. destruct (px_digits va Hv) as (-> & -> & ->).
  destruct (px_digits va' Hv') as (-> & -> & ->). by rewrite E.
Qed.

Lemma has_lor_r v f : f <> 0 -> 0 <= f -> has (Z.lor v f) f = true.
Proof.
  intros Hf Hp. unfold has. rewrite Z.land_lor_distr_l, Z.land_diag.
  destruct (Z.eqb_spec (Z.lor (Z.land v f) f) 0) as [E|]; [|done].
  apply Z.lor_eq_0_iff in E. lia.
Qed.
Lemma has_0 f : has 0 f = false.
Proof. done. Qed.

Lemma pa2pte_eq pa : 0 <= pa < 2 ^ 54 -> PA2PTE pa = pa / 4096 * 1024.
Proof.
  intros Hp. unfold PA2PTE. rewrite Z.shiftr_div_pow2, Z.shiftl_mul_pow2 by lia.
  change (2 ^ 12) with 4096. change (2 ^ 10) with 1024. apply u64_small. div_lia.
Qed.
Lemma pte2pa_lor pa f :
  0 <= pa < 2 ^ 54 -> pa `mod` PGSIZE = 0 -> 0 <= f < 1024 -> PTE2PA (Z.lor (PA2PTE pa) f) = pa.
Proof.
  intros Hp Hm Hf. unfold PGSIZE in Hm. rewrite pa2pte_eq by done. unfold PTE2PA.
  change 1024 with (2 ^ 10) at 1. rewrite <- Z.shiftl_mul_pow2, Z.shiftr_lor by lia.
  rewrite Z.shiftr_shiftl_l, Z.shiftl_0_r by lia.
  replace (Z.shiftr f 10) with 0 by (rewrite Z.shiftr_div_pow2, Z.div_small; lia).
  rewrite Z.lor_0_r, Z.shiftl_mul_pow2 by lia. change (2 ^ 12) with 4096. rewrite u64_small; div_lia.
Qed.
Lemma pte_lor_range pa f :
  0 <= pa < 2 ^ 54 -> 0 <= f < 1024 -> 0 <= Z.lor (PA2PTE pa) f < 2 ^ 64.
Proof.
  intros Hp Hf. rewrite pa2pte_eq by done.
  split; [apply Z.lor_nonneg; div_lia|].
  destruct (decide (Z.lor (pa / 4096 * 1024) f = 0)) as [->|Hne]; [lia|].
  assert (0 <= Z.lor (pa / 4096 * 1024) f) by (apply Z.lor_nonneg; div_lia).
  apply Z.log2_lt_pow2; [lia|]. rewrite Z.log2_lor by div_lia.
  assert (forall x, 0 <= x < 2 ^ 64 -> Z.log2 x < 64) as Hlog.
  { intros x Hx. destruct (decide (x = 0)) as [->|]; [done|]. apply Z.log2_lt_pow2; lia. }
  apply Z.max_lub_lt; apply Hlog; div_lia.
Qed.
Lemma has_pte pa f g :
  0 <= pa < 2 ^ 54 -> 0 <= g < 1024 -> has (Z.lor (PA2PTE pa) f) g = has f g.
Proof.
  intros Hp Hg. unfold has. rewrite Z.land_lor_distr_l, pa2pte_eq by done.
  replace (Z.land (pa / 4096 * 1024) g) with 0; [by rewrite Z.lor_0_l|].
  apply Z.bits_inj'. intros n Hn. rewrite Z.land_spec, Z.testbit_0_l.
  change 1024 with (2 ^ 10) in *. destruct (decide (n < 10)).
  - by rewrite Z.mul_pow2_bits_low.
  - rewrite (Z.bits_above_log2 g n), andb_false_r; [done|lia|].
    destruct (decide (g = 0)) as [->|]; [cbn; lia|]. enough (Z.log2 g < 10) by lia. apply Z.log2_lt_pow2; lia.
Qed.
End Bits.

(** ** The tree *)
Section Tree.
Context `{KernelImage}.

Abbreviation tree := (gmap (list Z) Z).

Lemma page_ok_54 p : page_ok p -> 0 <= p < 2 ^ 54 /\ p `mod` PGSIZE = 0.
Proof. intros [Hm Hr]. pose proof kend_range. unfold PHYSTOP, KERNBASE in *. lia. Qed.

Definition tree_has (T : tree) (p : Z) : Prop := exists π, T !! π = Some p.

Record pt_wf (m : mem) (root : Z) (T : tree) : Prop := {
  pt_root : T !! [] = Some root;
  pt_page : forall π p, T !! π = Some p -> page_ok p /\ (length π <= 2)%nat;
  pt_inj : forall π π' p, T !! π = Some p -> T !! π' = Some p -> π = π';
  pt_parent : forall π i c, T !! (π ++ [i]) = Some c -> is_Some (T !! π);
  pt_index : forall π i c, T !! (π ++ [i]) = Some c -> 0 <= i < if decide (π = []) then 256 else 512;
  pt_child : forall π i p, T !! π = Some p -> (length π < 2)%nat -> 0 <= i < 512 ->
    match T !! (π ++ [i]) with
    | Some c => ld64 m (p + 8 * i) = Z.lor (PA2PTE c) PTE_V
    | None => has (ld64 m (p + 8 * i)) PTE_V = false
    end
}.

Definition leaf_page (T : tree) (va : Z) : option Z := T !! [PX 2 va; PX 1 va].
Definition pte_of (T : tree) (m : mem) (va : Z) : Z :=
  match leaf_page T va with
  | Some p => ld64 m (p + 8 * PX 0 va)
  | None => 0
  end.

Definition in_page (p b : Z) : Prop := p <= b < p + PGSIZE.

Lemma in_page_inj p q b :
  p `mod` PGSIZE = 0 -> q `mod` PGSIZE = 0 -> in_page p b -> in_page q b -> p = q.
Proof.
  intros Hp Hq H1 H2. destruct (decide (p = q)) as [|Hne]; [done|]. unfold in_page in *.
  destruct (pages_disjoint p q Hp Hq Hne); lia.
Qed.
Lemma entry_in_page p i b : 0 <= i < 512 -> 0 <= b - (p + 8 * i) < 8 -> in_page p b.
Proof. unfold in_page, PGSIZE. lia. Qed.

(** The tree only depends on its own pages. *)
Lemma pt_ext m m' root T :
  (forall p b, tree_has T p -> in_page p b -> ld8 m' b = ld8 m b) ->
  pt_wf m root T -> pt_wf m' root T /\ (forall va, pte_of T m' va = pte_of T m va).
Proof.
  intros Hx [Hr Hp Hi Hpa Hix Hc].
  assert (He : forall π p i, T !! π = Some p -> 0 <= i < 512 ->
            ld64 m' (p + 8 * i) = ld64 m (p + 8 * i)).
  { intros π p i HT Hi'. apply ld64_ext. intros b Hb. apply (Hx p); [by exists π|].
    apply (entry_in_page p i); lia. }
  split.
  - split; [done..|]. intros π i p HT Hl Hi'. specialize (Hc π i p HT Hl Hi').
    by rewrite (He π).
  - intros va. unfold pte_of. destruct (leaf_page T va) eqn:E; [|done].
    by rewrite (He _ _ _ E (px_range 0 va)).
Qed.

(** Storing a leaf entry. *)
Lemma pt_store m root T va p v :
  pt_wf m root T -> 0 <= va < MAXVA -> leaf_page T va = Some p ->
  pt_wf (st64 m (p + 8 * PX 0 va) v) root T /\
  (forall va', 0 <= va' < MAXVA ->
     pte_of T (st64 m (p + 8 * PX 0 va) v) va' =
     if decide (va' / PGSIZE = va / PGSIZE) then u64 v else pte_of T m va').
Proof.
  intros Hwf Hva Hl. pose proof (px_range 0 va) as Hx0.
  assert (He : forall π q i, T !! π = Some q -> 0 <= i < 512 -> π <> [PX 2 va; PX 1 va] \/ i <> PX 0 va ->
            ld64 (st64 m (p + 8 * PX 0 va) v) (q + 8 * i) = ld64 m (q + 8 * i)).
  { intros π q i HT Hi Hne. apply ld64_st64_ne.
    destruct (decide (q = p)) as [->|Hqp].
    - assert (π = [PX 2 va; PX 1 va]) by (eapply (pt_inj _ _ _ Hwf); eassumption).
      destruct Hne; [done|lia].
    - destruct (pt_page _ _ _ Hwf _ _ HT) as [[Hq _] _].
      destruct (pt_page _ _ _ Hwf _ _ Hl) as [[Hp _] _].
      destruct (pages_disjoint q p Hq Hp Hqp); unfold PGSIZE in *; lia. }
  split.
  - destruct Hwf as [Hr Hp Hi Hpa Hix Hc]. split; [done..|]. intros π i q HT Hlen Hi'.
    rewrite (He π) by (first [done|left; intros ->; cbn in Hlen; lia]). by apply Hc.
  - intros va' Hva'. unfold pte_of. case_decide as Hd.
    + destruct (px_same va' va) as (E2 & E1 & E0); [lia..|done|].
      unfold leaf_page in *. rewrite E2, E1, E0, Hl. apply ld64_st64_eq.
    + destruct (leaf_page T va') as [q|] eqn:Hq; [|done].
      apply (He [PX 2 va'; PX 1 va']); [done|apply px_range|].
      destruct (decide (PX 0 va' = PX 0 va)) as [E0|]; [left|by right].
      intros [= E2 E1]. apply Hd. by apply px_inj.
Qed.

(** Adding a zeroed page-table page [c] below entry [i] of the page at [π]. *)
Lemma pt_add m m' root T π p i c :
  pt_wf m root T -> T !! π = Some p -> (length π < 2)%nat -> 0 <= i < 512 -> (π = [] -> i < 256) ->
  T !! (π ++ [i]) = None -> page_ok c -> ~ tree_has T c ->
  (forall b, in_page c b -> ld8 m' b = 0) ->
  ld64 m' (p + 8 * i) = Z.lor (PA2PTE c) PTE_V ->
  (forall q b, tree_has T q -> in_page q b -> ~ (0 <= b - (p + 8 * i) < 8) -> ld8 m' b = ld8 m b) ->
  pt_wf m' root (<[π ++ [i] := c]> T) /\
  (forall va, pte_of (<[π ++ [i] := c]> T) m' va = pte_of T m va).
Proof.
  intros Hwf HT Hlen Hi Hi0 Hnone Hc Hfresh Hz Hnew Hold.
  assert (Hz64 : forall j, 0 <= j < 512 -> ld64 m' (c + 8 * j) = 0).
  { intros j Hj. transitivity (ld64 (∅ : mem) 0); [|done]. apply ld64_zero.
    intros b Hb. apply Hz. apply (entry_in_page c j); lia. }
  assert (He : forall π' q j, T !! π' = Some q -> 0 <= j < 512 -> (π', j) <> (π, i) ->
            ld64 m' (q + 8 * j) = ld64 m (q + 8 * j)).
  { intros π' q j HT' Hj Hne. apply ld64_ext. intros b Hb.
    assert (Hb' : in_page q b) by (apply (entry_in_page q j); lia).
    apply (Hold q); [by exists π'|done|]. intros Hin.
    assert (in_page p b) by (apply (entry_in_page p i); lia).
    assert (q = p) as ->.
    { eapply in_page_inj; [..|eassumption|eassumption]; eapply (pt_page _ _ _ Hwf); eassumption. }
    apply Hne. f_equal; [eapply (pt_inj _ _ _ Hwf); eassumption|lia]. }
  assert (Hlen' : forall π' j, π' ++ [j] = π ++ [i] <-> (π', j) = (π, i)).
  { intros π' j. split; [|by intros [= -> ->]]. by intros [-> [= ->]]%app_inj_tail. }
  split; [split|].
  - rewrite lookup_insert_ne; [apply Hwf|]. intros E%(f_equal length). rewrite length_app in E.
    cbn in E. lia.
  - intros π' q. rewrite lookup_insert. case_decide as Hd; [|apply Hwf].
    intros [= <-]. subst. rewrite length_app. cbn. split; [done|lia].
  - intros π1 π2 q. rewrite !lookup_insert. repeat case_decide; intros E1 E2; simplify_eq; try done.
    + destruct Hfresh. by exists π2.
    + destruct Hfresh. by exists π1.
    + by eapply (pt_inj _ _ _ Hwf).
  - intros π' j c'. rewrite lookup_insert. case_decide as Hd.
    + symmetry in Hd. apply Hlen' in Hd as [= -> ->]. intros _. apply lookup_insert_is_Some'. right. by rewrite HT.
    + intros E. apply lookup_insert_is_Some'. right. by eapply (pt_parent _ _ _ Hwf).
  - intros π' j c'. rewrite lookup_insert. case_decide as Hd; [|apply (pt_index _ _ _ Hwf)].
    symmetry in Hd. apply Hlen' in Hd as [= -> ->]. intros _. case_decide; [|done]. split; [lia|by apply Hi0].
  - intros π' j q HT' Hl Hj. rewrite lookup_insert in HT'. case_decide as Hd.
    + simplify_eq. rewrite lookup_insert_ne.
      2:{ intros E%(f_equal length). rewrite !length_app in E. cbn in E. lia. }
      destruct (T !! ((π ++ [i]) ++ [j])) eqn:E; [|by rewrite Hz64].
      apply (pt_parent _ _ _ Hwf) in E. rewrite Hnone in E. by destruct E.
    + destruct (decide ((π', j) = (π, i))) as [[= -> ->]|Hne].
      { rewrite lookup_insert_eq. by simplify_eq. }
      rewrite lookup_insert_ne, (He π') by (try done; intros E; by apply Hne, Hlen').
      by apply (pt_child _ _ _ Hwf).
  - intros va. unfold pte_of, leaf_page. rewrite lookup_insert. case_decide as Hd.
    + rewrite <- Hd, Hnone. apply Hz64, px_range.
    + destruct (T !! [PX 2 va; PX 1 va]) as [q|] eqn:E; [|done]. apply (He _ _ _ E (px_range 0 va)).
      intros [= <- _]. cbn in Hlen. lia.
Qed.
(** ** walk *)

(** The free list, the page table [T] below [root], and no page in both. *)
Definition vm_ok (s : kstate) (root : Z) (T : tree) (fl : list Z) : Prop :=
  kmem_inv s fl /\ pt_wf (k_mem s) root T /\ (forall p, tree_has T p -> p ∉ fl).
Lemma vm_ok_same s s' root T fl :
  k_mem s' = k_mem s -> k_freelist s' = k_freelist s -> vm_ok s root T fl -> vm_ok s' root T fl.
Proof. intros Hm Hf. unfold vm_ok, kmem_inv. by rewrite Hm, Hf. Qed.

(** Only memory and the free list differ. *)
Definition mem_only (s s' : kstate) : Prop :=
  exists m f, s' = s <| k_mem := m |> <| k_freelist := f |>.
Lemma mem_only_refl s : mem_only s s.
Proof. exists (k_mem s), (k_freelist s). by destruct s. Qed.
Lemma mem_only_trans s1 s2 s3 : mem_only s1 s2 -> mem_only s2 s3 -> mem_only s1 s3.
Proof. intros (m & f & ->) (m' & f' & ->). by exists m', f'. Qed.

(** The page table has grown by table pages taken from the free list, and no
    byte outside the table has changed. *)
Record vm_grow (s s' : kstate) (T T' : tree) (fl fl' : list Z) : Prop := {
  vg_tree : T ⊆ T';
  vg_new : forall q, tree_has T' q -> tree_has T q \/ q ∈ fl;
  vg_free : exists used, fl = used ++ fl' /\ forall q, q ∈ used -> tree_has T' q;
  vg_frame : forall b, (forall q, tree_has T' q -> ~ in_page q b) ->
    ld8 (k_mem s') b = ld8 (k_mem s) b;
  vg_only : mem_only s s'
}.
Lemma tree_has_mono T T' p : T ⊆ T' -> tree_has T p -> tree_has T' p.
Proof. intros Hs (π & HT). exists π. by eapply lookup_weaken. Qed.
Lemma vm_grow_refl s T fl : vm_grow s s T T fl fl.
Proof.
  split; [done|by left| |done|apply mem_only_refl].
  exists []. split; [done|]. by intros q ?%not_elem_of_nil.
Qed.
Lemma vm_grow_trans s1 s2 s3 T1 T2 T3 f1 f2 f3 :
  vm_grow s1 s2 T1 T2 f1 f2 -> vm_grow s2 s3 T2 T3 f2 f3 -> vm_grow s1 s3 T1 T3 f1 f3.
Proof.
  intros [H1 H2 (u1 & -> & H3) H4 H5] [G1 G2 (u2 & -> & G3) G4 G5]. split.
  - by transitivity T2.
  - intros q [Hq|Hq]%G2; [by apply H2|]. right. apply elem_of_app. by right.
  - exists (u1 ++ u2). split; [by rewrite app_assoc|]. intros q [Hq|Hq]%elem_of_app; [|by apply G3].
    by eapply tree_has_mono; [|apply H3].
  - intros b Hb. rewrite G4, H4; [done| |done]. intros q Hq. apply Hb. by eapply tree_has_mono.
  - by eapply mem_only_trans.
Qed.

Lemma entry_link c :
  page_ok c -> has (Z.lor (PA2PTE c) PTE_V) PTE_V = true /\ PTE2PA (Z.lor (PA2PTE c) PTE_V) = c /\
  u64 (Z.lor (PA2PTE c) PTE_V) = Z.lor (PA2PTE c) PTE_V.
Proof.
  intros Hc. pose proof (page_ok_pos c Hc). destruct Hc as [Hm Hr].
  assert (0 <= c < 2 ^ 54) by page_lia. change PTE_V with 1.
  split_and!; [apply has_lor_r; lia|apply pte2pa_lor; [done..|lia]|].
  apply u64_small, pte_lor_range; [done|lia].
Qed.

(** walk's step that takes a new page for a missing table. *)
Definition table_added (s : kstate) (c a : Z) : kstate :=
  (kalloc_state s c) <| k_mem := memset (k_mem (kalloc_state s c)) c 0 PGSIZE |>
    <| k_mem := st64 (memset (k_mem (kalloc_state s c)) c 0 PGSIZE) a (Z.lor (PA2PTE c) PTE_V) |>.

Lemma table_added_mem s c a b :
  ~ (0 <= b - a < 8) ->
  ld8 (k_mem (table_added s c a)) b =
    if decide (in_page c b) then 0 else ld8 (k_mem s) b.
Proof.
  intros Hb. cbn. rewrite ld8_st64_ne by lia. rewrite ld8_memset by (unfold PGSIZE; lia).
  unfold in_page. case_decide; [done|]. rewrite ld8_memset by (unfold PGSIZE; lia).
  by rewrite decide_False.
Qed.

Lemma walk_add s root T fl π p i c :
  vm_ok s root T (c :: fl) -> T !! π = Some p -> (length π < 2)%nat -> 0 <= i < 512 -> (π = [] -> i < 256) ->
  T !! (π ++ [i]) = None ->
  vm_ok (table_added s c (p + 8 * i)) root (<[π ++ [i] := c]> T) fl /\
  vm_grow s (table_added s c (p + 8 * i)) T (<[π ++ [i] := c]> T) (c :: fl) fl /\
  (forall va, pte_of (<[π ++ [i] := c]> T) (k_mem (table_added s c (p + 8 * i))) va =
     pte_of T (k_mem s) va).
Proof.
  intros (Hk & Hwf & Hd) HT Hlen Hi Hi0 Hnone.
  pose proof Hk as [(_ & Hc & _) Hnd]. apply NoDup_cons in Hnd as [Hcfl Hnd].
  assert (Hfresh : ~ tree_has T c) by (intros Hh; apply (Hd c Hh); left).
  destruct (pt_page _ _ _ Hwf _ _ HT) as [Hp _].
  assert (Hpc : p <> c) by (intros ->; apply Hfresh; by exists π).
  assert (Hap : forall b, 0 <= b - (p + 8 * i) < 8 -> in_page p b) by (intros b; by apply entry_in_page).
  assert (Hnc : forall q b, page_ok q -> q <> c -> in_page q b -> ~ in_page c b).
  { intros q b [Hq _] Hne Hb Hb'. apply Hne. eapply in_page_inj; [done|apply Hc|done..]. }
  destruct (pt_add (k_mem s) (k_mem (table_added s c (p + 8 * i))) root T π p i c)
    as [Hwf' Hpte]; try done.
  { intros b Hb. rewrite table_added_mem, decide_True; [done..|]. intros Hb'.
    by apply (Hnc p b Hp Hpc (Hap b Hb')). }
  { cbn. rewrite ld64_st64_eq. by apply entry_link. }
  { intros q b (π' & Hq) Hb Hout. rewrite table_added_mem, decide_False; [done| |done].
    apply (Hnc q); [by eapply (pt_page _ _ _ Hwf)| |done]. intros ->. apply Hfresh. by exists π'. }
  assert (HT' : forall q, tree_has (<[π ++ [i]:=c]> T) q <-> q = c \/ tree_has T q).
  { intros q. split.
    - intros (π' & E). rewrite lookup_insert in E. case_decide; [left; congruence|right; by exists π'].
    - intros [->|(π' & E)]; [exists (π ++ [i]); by rewrite lookup_insert_eq|].
      exists π'. rewrite lookup_insert_ne; [done|]. congruence. }
  split; [split_and!; [|done|]|split; [split|done]].
  - apply (kmem_inv_ext (kalloc_state s c)); [by apply kalloc_inv|kproj|].
    intros q b Hq Hb. pose proof (kalloc_inv _ _ _ Hk) as [Hch _]. apply chain_ok in Hch.
    rewrite Forall_forall in Hch. specialize (Hch q Hq).
    assert (Hqc : ~ in_page c b) by (apply (Hnc q); [done|by intros ->|done]).
    rewrite table_added_mem, decide_False; [|done|].
    { cbn. rewrite ld8_memset by (unfold PGSIZE; lia). by rewrite decide_False. }
    intros Hb'. assert (q = p) as ->.
    { eapply in_page_inj; [apply Hch|apply Hp|done|by apply Hap]. }
    apply (Hd p); [by exists π|by right].
  - intros q [->|Hq]%HT' Hin; [done|]. apply (Hd q Hq). by right.
  - by apply insert_subseteq.
  - intros q [->|Hq]%HT'; [right; left|by left].
  - exists [c]. split; [done|]. intros q ->%list_elem_of_singleton. apply HT'. by left.
  - intros b Hb. rewrite table_added_mem, decide_False; [done| |].
    + apply Hb, HT'. by left.
    + intros Hb'. apply (Hb p); [apply HT'; right; by exists π|by apply Hap].
  - eexists _, _. reflexivity.
Qed.
(** The address walk returns: the leaf entry, or 0. *)
Definition leaf_addr (T : tree) (va : Z) : Z :=
  match leaf_page T va with Some p => p + 8 * PX 0 va | None => 0 end.

(** The part of the path of [va] above a level. *)
Definition va_path (level : nat) (va : Z) : list Z := take (2 - level) [PX 2 va; PX 1 va].
Lemma va_path_step level va :
  (level < 2)%nat -> va_path level va = va_path (S level) va ++ [PX (Z.of_nat (S level)) va].
Proof. destruct level as [|[|level]]; [done..|lia]. Qed.
Lemma va_path_length level va : (level <= 2)%nat -> (length (va_path level va) = 2 - level)%nat.
Proof. destruct level as [|[|[|level]]]; [done..|lia]. Qed.

Lemma walk_entry m root T level va p :
  pt_wf m root T -> (level < 2)%nat -> T !! va_path (S level) va = Some p ->
  let v := ld64 m (p + 8 * PX (Z.of_nat (S level)) va) in
  match T !! va_path level va with
  | Some c => has v PTE_V = true /\ PTE2PA v = c
  | None => has v PTE_V = false
  end.
Proof.
  intros Hwf Hl HT. rewrite (va_path_step level va Hl).
  pose proof (pt_child _ _ _ Hwf (va_path (S level) va) (PX (Z.of_nat (S level)) va) p HT) as Hc.
  rewrite va_path_length in Hc by lia. specialize (Hc ltac:(lia) (px_range _ _)). cbv zeta.
  destruct (T !! (va_path (S level) va ++ _)) as [c|] eqn:E; [|done]. rewrite Hc.
  destruct (pt_page _ _ _ Hwf _ _ E) as [Hok _]. destruct (entry_link c Hok) as (? & ? & _). done.
Qed.
(** Below a missing table there is nothing. *)
Lemma walk_missing m root T level va :
  pt_wf m root T -> (level <= 2)%nat -> T !! va_path level va = None -> leaf_page T va = None.
Proof.
  intros Hwf Hl Hn. induction level as [|level IH]; [done|]. apply IH; [lia|].
  rewrite va_path_step by lia. destruct (T !! (va_path (S level) va ++ _)) eqn:E; [|done].
  apply (pt_parent _ _ _ Hwf) in E as [? E]. congruence.
Qed.

Lemma walk_loop_find s root T level va p :
  pt_wf (k_mem s) root T -> (level <= 2)%nat -> T !! va_path level va = Some p ->
  walk_loop level p va false s = Ret (leaf_addr T va) s.
Proof.
  intros Hwf. revert p. induction level as [|level IH]; intros p Hl HT.
  - cbn. unfold leaf_addr, leaf_page. change [PX 2 va; PX 1 va] with (va_path 0 va). by rewrite HT.
  - cbn [walk_loop]. unfold pte_get. run.
    pose proof (walk_entry _ _ _ level va p Hwf ltac:(lia) HT) as He. cbv zeta in He.
    destruct (T !! va_path level va) as [c|] eqn:E; rewrite ?E in He.
    + destruct He as [-> ->]. apply IH; [lia|done].
    + rewrite He. cbn. unfold leaf_addr. by rewrite (walk_missing _ _ _ level va Hwf ltac:(lia) E).
Qed.
Lemma walk_find s root T va :
  pt_wf (k_mem s) root T -> va < MAXVA -> walk root va false s = Ret (leaf_addr T va) s.
Proof.
  intros Hwf Hva. unfold walk. destruct (Z.leb_spec MAXVA va); [lia|].
  apply (walk_loop_find s root T); [done|lia|]. apply (pt_root _ _ _ Hwf).
Qed.

(** Where the leaf exists, walk changes nothing whatever [alloc] is. *)
Lemma walk_loop_hit s root T level va p alloc :
  pt_wf (k_mem s) root T -> (level <= 2)%nat -> T !! va_path level va = Some p ->
  is_Some (leaf_page T va) -> walk_loop level p va alloc s = Ret (leaf_addr T va) s.
Proof.
  intros Hwf Hl HT Hs. rewrite <- (walk_loop_find s root T level va p Hwf Hl HT).
  revert p Hl HT. induction level as [|level IH]; intros p Hl HT; [done|].
  cbn [walk_loop]. unfold pte_get. run.
  pose proof (walk_entry _ _ _ level va p Hwf ltac:(lia) HT) as He. cbv zeta in He.
  destruct (T !! va_path level va) as [c|] eqn:E; rewrite ?E in He.
  - destruct He as [-> ->]. apply IH; [lia|done].
  - rewrite (walk_missing _ _ _ level va Hwf ltac:(lia) E) in Hs. by destruct Hs.
Qed.
Lemma walk_hit s root T va alloc :
  pt_wf (k_mem s) root T -> va < MAXVA -> is_Some (leaf_page T va) ->
  walk root va alloc s = Ret (leaf_addr T va) s.
Proof.
  intros Hwf Hva Hs. unfold walk. destruct (Z.leb_spec MAXVA va); [lia|].
  apply (walk_loop_hit s root T); [done|lia|apply (pt_root _ _ _ Hwf)|done].
Qed.

(** With [alloc], walk takes at most a page for each level and ends at a leaf
    entry, or the free list is exhausted. *)
Lemma walk_loop_alloc s root T fl level va p :
  0 <= va < MAXVA -> vm_ok s root T fl -> (level <= 2)%nat -> T !! va_path level va = Some p ->
  exists s' T' fl', walk_loop level p va true s = Ret (leaf_addr T' va) s' /\
    vm_ok s' root T' fl' /\ vm_grow s s' T T' fl fl' /\ (length fl <= length fl' + level)%nat /\
    (forall va', pte_of T' (k_mem s') va' = pte_of T (k_mem s) va') /\
    (leaf_page T' va = None -> fl' = [] /\ (length fl < level)%nat).
Proof.
  intros Hva. revert s T fl p. induction level as [|level IH]; intros s T fl p Hok Hl HT.
  - exists s, T, fl. cbn. unfold leaf_addr, leaf_page.
    change [PX 2 va; PX 1 va] with (va_path 0 va). rewrite HT. by split_and!; [..|apply vm_grow_refl|lia| |].
  - cbn [walk_loop]. unfold pte_get. run.
    pose proof (walk_entry _ _ _ level va p (proj1 (proj2 Hok)) ltac:(lia) HT) as He. cbv zeta in He.
    destruct (T !! va_path level va) as [c|] eqn:E; rewrite ?E in He.
    { destruct He as [-> ->]. destruct (IH s T fl c Hok) as (s' & T' & fl' & ? & ? & ? & ? & ? & Hend); [lia|done|].
      exists s', T', fl'. split_and!; try done; try lia. intros Hn. destruct (Hend Hn). split; [done|lia]. }
    rewrite He. cbn [negb]. destruct fl as [|c fl].
    { rewrite (kalloc_eq_empty s (proj1 Hok)). exists s, T, []. cbn. unfold leaf_addr.
      rewrite (walk_missing _ _ _ level va (proj1 (proj2 Hok)) ltac:(lia) E).
      split_and!; try done; [apply vm_grow_refl|lia|]. split; [done|cbn; lia]. }
    rewrite (kalloc_eq s c fl (proj1 Hok)).
    pose proof Hok as ([(_ & Hc & _) _] & _). apply page_ok_pos in Hc.
    destruct (Z.eqb_spec c 0); [lia|]. unfold kmemset, pte_set. run.
    set (i := PX (Z.of_nat (S level)) va) in *.
    destruct (walk_add s root T fl (va_path (S level) va) p i c) as (Hok' & Hg & Hpte); [done|done|..].
    { rewrite va_path_length by lia. lia. }
    { apply px_range. }
    { intros E0. assert (level = 1%nat) as -> by (destruct level as [|[|level]]; [done..|lia]). by apply px_top. }
    { unfold i. by rewrite <- va_path_step by lia. }
    unfold i in Hok', Hg, Hpte. rewrite <- va_path_step in Hok', Hg, Hpte by lia.
    destruct (IH _ _ fl c Hok') as (s' & T' & fl' & E' & Hok2 & Hg2 & Hn2 & Hpte2 & Hend);
      [lia|by rewrite lookup_insert_eq|].
    exists s', T', fl'. split; [exact E'|]. split; [done|]. split; [eapply vm_grow_trans; eassumption|].
    cbn [length]. split; [lia|]. split.
    + intros va'. rewrite Hpte2. apply Hpte.
    + intros Hn. destruct (Hend Hn). split; [done|lia].
Qed.
Lemma walk_alloc s root T fl va :
  vm_ok s root T fl -> 0 <= va < MAXVA ->
  exists s' T' fl', walk root va true s = Ret (leaf_addr T' va) s' /\
    vm_ok s' root T' fl' /\ vm_grow s s' T T' fl fl' /\ (length fl <= length fl' + 2)%nat /\
    (forall va', pte_of T' (k_mem s') va' = pte_of T (k_mem s) va') /\
    (leaf_page T' va = None -> fl' = [] /\ (length fl < 2)%nat).
Proof.
  intros Hok Hva. unfold walk. destruct (Z.leb_spec MAXVA va); [lia|].
  apply walk_loop_alloc; [done|done|lia|]. apply (pt_root _ _ _ (proj1 (proj2 Hok))).
Qed.
End Tree.
