(* ===== verification/VMSpec.v ===== *)
(** * kernel/vm.c: what the mapping routines do to the tree and to memory *)

From S2P Require Import Prelude Memory State Kalloc VM PageTable.
Import Mem KString.

Section Mapping.
Context `{KernelImage}.

Abbreviation tree := (gmap (list Z) Z).

(** A leaf entry as mappages writes it. *)
Definition leaf_entry (pa perm : Z) : Z := Z.lor (Z.lor (PA2PTE pa) perm) PTE_V.

Lemma leaf_entry_perm pa perm : leaf_entry pa perm = Z.lor (PA2PTE pa) (Z.lor perm 1).
Proof. unfold leaf_entry. change PTE_V with 1. by rewrite Z.lor_assoc. Qed.
Lemma perm_valid_range perm : 0 <= perm < 1024 -> 0 <= Z.lor perm 1 < 1024.
Proof.
  intros Hp. split; [apply Z.lor_nonneg; lia|].
  assert (0 < Z.lor perm 1).
  { assert (0 <= Z.lor perm 1) by (apply Z.lor_nonneg; lia).
    assert (Z.lor perm 1 <> 0) by (rewrite Z.lor_eq_0_iff; lia). lia. }
  apply (Z.log2_lt_pow2 _ 10); [done|]. rewrite Z.log2_lor by lia.
  apply Z.max_lub_lt; [|done]. destruct (decide (perm = 0)) as [->|]; [done|].
  apply Z.log2_lt_pow2; lia.
Qed.
Lemma leaf_entry_spec pa perm :
  0 <= pa < 2 ^ 54 -> pa `mod` PGSIZE = 0 -> 0 <= perm < 1024 ->
  has (leaf_entry pa perm) PTE_V = true /\ PTE2PA (leaf_entry pa perm) = pa /\
  u64 (leaf_entry pa perm) = leaf_entry pa perm.
Proof.
  intros Hpa Hm Hp. pose proof (perm_valid_range perm Hp). split_and!.
  - apply has_lor_r; [done|]. by vm_compute.
  - rewrite leaf_entry_perm. by apply pte2pa_lor.
  - rewrite leaf_entry_perm. by apply u64_small, pte_lor_range.
Qed.

(** Storing a leaf entry keeps the invariant and changes one page's mapping. *)
Definition pte_stored (s : kstate) (a v : Z) : kstate := s <| k_mem := st64 (k_mem s) a v |>.

Lemma vm_store s root T fl va p v :
  vm_ok s root T fl -> 0 <= va < MAXVA -> leaf_page T va = Some p ->
  vm_ok (pte_stored s (p + 8 * PX 0 va) v) root T fl /\
  (forall va', 0 <= va' < MAXVA ->
     pte_of T (k_mem (pte_stored s (p + 8 * PX 0 va) v)) va' =
     if decide (va' / PGSIZE = va / PGSIZE) then u64 v else pte_of T (k_mem s) va') /\
  vm_grow s (pte_stored s (p + 8 * PX 0 va) v) T T fl fl.
Proof.
  intros (Hk & Hwf & Hd) Hva Hp.
  destruct (pt_store _ _ _ va p v Hwf Hva Hp) as [Hwf' Hpte].
  destruct (pt_page _ _ _ Hwf _ _ Hp) as [[Hm _] _].
  assert (Hout : forall b, ~ in_page p b ->
            ld8 (k_mem (pte_stored s (p + 8 * PX 0 va) v)) b = ld8 (k_mem s) b).
  { intros b Hb. cbn. apply ld8_st64_ne. pose proof (px_range 0 va).
    unfold in_page, PGSIZE in Hb. lia. }
  split; [split_and!; [|exact Hwf'|done]|split; [exact Hpte|]].
  - apply (kmem_inv_write s _ fl p Hk); [kproj|apply Hd; by eexists|done|exact Hout].
  - split; [done|by left| | |].
    + exists []. split; [done|]. by intros q ?%not_elem_of_nil.
    + intros b Hb. apply Hout, Hb. by eexists.
    + exists (st64 (k_mem s) (p + 8 * PX 0 va) v), (k_freelist s). by destruct s.
Qed.

Lemma leaf_addr_some m root T va p :
  pt_wf m root T -> leaf_page T va = Some p ->
  leaf_addr T va = p + 8 * PX 0 va /\ leaf_addr T va <> 0 /\ ld64 m (leaf_addr T va) = pte_of T m va.
Proof.
  intros Hwf Hp. unfold leaf_addr, pte_of. rewrite Hp. split; [done|]. split; [|done].
  destruct (pt_page _ _ _ Hwf _ _ Hp) as [Hok _]. apply page_ok_pos in Hok.
  pose proof (px_range 0 va). lia.
Qed.

(** One iteration of mappages' loop up to its last test. *)
Lemma map_one s root T fl a pa perm :
  vm_ok s root T fl -> 0 <= a < MAXVA -> has (pte_of T (k_mem s) a) PTE_V = false ->
  0 <= pa < 2 ^ 54 -> pa `mod` PGSIZE = 0 -> 0 <= perm < 1024 ->
  exists s' T' fl', vm_ok s' root T' fl' /\ vm_grow s s' T T' fl fl' /\ (length fl <= length fl' + 2)%nat /\
    ((leaf_page T' a = None /\ fl' = [] /\ (length fl < 2)%nat /\ walk root a true s = Ret 0 s' /\
      forall va', pte_of T' (k_mem s') va' = pte_of T (k_mem s) va') \/
     (exists s1, walk root a true s = Ret (leaf_addr T' a) s1 /\ leaf_addr T' a <> 0 /\
        has (ld64 (k_mem s1) (leaf_addr T' a)) PTE_V = false /\
        s' = pte_stored s1 (leaf_addr T' a) (leaf_entry pa perm) /\
        forall va', 0 <= va' < MAXVA -> pte_of T' (k_mem s') va' =
          if decide (va' / PGSIZE = a / PGSIZE) then leaf_entry pa perm else pte_of T (k_mem s) va')).
Proof.
  intros Hok Ha Hinv Hpa Hm Hperm.
  destruct (walk_alloc s root T fl a Hok) as (s1 & T1 & fl1 & E & Hok1 & Hg1 & Hc1 & Hpte1 & Hend); [lia|].
  destruct (leaf_page T1 a) as [p|] eqn:Hp.
  - destruct (leaf_addr_some _ _ _ _ _ (proj1 (proj2 Hok1)) Hp) as (Haddr & Hnz & Hld).
    destruct (vm_store s1 root T1 fl1 a p (leaf_entry pa perm) Hok1 Ha Hp) as (Hok2 & Hpte2 & Hg2).
    rewrite <- Haddr in Hok2, Hpte2, Hg2.
    exists (pte_stored s1 (leaf_addr T1 a) (leaf_entry pa perm)), T1, fl1.
    split; [done|]. split; [by eapply vm_grow_trans|]. split; [done|]. right. exists s1.
    split_and!; [done|done|by rewrite Hld, Hpte1|done|].
    intros va' Hva'. rewrite Hpte2 by done.
    destruct (leaf_entry_spec pa perm Hpa Hm Hperm) as (_ & _ & ->). by rewrite Hpte1.
  - exists s1, T1, fl1. split; [done|]. split; [done|]. split; [done|]. left. split_and!; [done|by apply Hend|by apply Hend| |done].
    rewrite E. unfold leaf_addr. by rewrite Hp.
Qed.

(** The leaf entries after mapping the [k] pages from [a] to those from [pa]. *)
Definition mapped (a k pa perm : Z) (old : Z -> Z) (va : Z) : Z :=
  if decide (a <= va < a + k * PGSIZE) then leaf_entry (pa + (va / PGSIZE * PGSIZE - a)) perm
  else old va.

Lemma same_page a va : a `mod` PGSIZE = 0 -> va / PGSIZE = a / PGSIZE <-> a <= va < a + PGSIZE.
Proof. unfold PGSIZE. intros. div_lia. Qed.

Lemma mapped_0 a pa perm old va : mapped a 0 pa perm old va = old va.
Proof. unfold mapped. rewrite decide_False by lia. done. Qed.
Lemma mapped_step a k pa perm old old' va :
  a `mod` PGSIZE = 0 -> 0 <= k ->
  old' = (if decide (va / PGSIZE = a / PGSIZE) then leaf_entry pa perm else old va) ->
  mapped (a + PGSIZE) k (pa + PGSIZE) perm (fun _ => old') va = mapped a (k + 1) pa perm old va.
Proof.
  intros Hm Hk ->. unfold mapped. pose proof (same_page a va Hm) as Hs.
  destruct (decide (a + PGSIZE <= va < a + PGSIZE + k * PGSIZE)) as [H1|H1].
  { rewrite decide_True by (unfold PGSIZE in *; lia). f_equal. lia. }
  destruct (decide (va / PGSIZE = a / PGSIZE)) as [H2|H2].
  - rewrite decide_True by (apply Hs in H2; unfold PGSIZE in *; lia). f_equal.
    rewrite H2. unfold PGSIZE in *. div_lia.
  - rewrite decide_False; [done|]. rewrite Hs in H2. unfold PGSIZE in *. lia.
Qed.

Lemma mappages_loop_S fuel root a last pa perm :
  mappages_loop (S fuel) root a last pa perm =
  (pte ← walk root a true;
   if pte =? 0 then mret (-1)
   else
     v ← pte_get pte;
     if has v PTE_V then panic "mappages: remap"
     else
       pte_set pte (leaf_entry pa perm);;
       if a =? last then mret 0
       else mappages_loop fuel root (u64 (a + PGSIZE)) last (u64 (pa + PGSIZE)) perm).
Proof. reflexivity. Qed.

Lemma mappages_loop_spec n s root T fl a pa perm :
  vm_ok s root T fl -> a `mod` PGSIZE = 0 -> 0 <= a -> a + (Z.of_nat n + 1) * PGSIZE <= MAXVA ->
  pa `mod` PGSIZE = 0 -> 0 <= pa -> pa + (Z.of_nat n + 1) * PGSIZE <= 2 ^ 54 -> 0 <= perm < 1024 ->
  (forall va, a <= va < a + (Z.of_nat n + 1) * PGSIZE -> has (pte_of T (k_mem s) va) PTE_V = false) ->
  exists s' T' fl' k,
    mappages_loop (S n) root a (a + Z.of_nat n * PGSIZE) pa perm s =
      Ret (if decide (k = Z.of_nat n + 1) then 0 else -1) s' /\
    vm_ok s' root T' fl' /\ vm_grow s s' T T' fl fl' /\ 0 <= k <= Z.of_nat n + 1 /\
    Z.of_nat (length fl) <= Z.of_nat (length fl') + 2 * k + 1 /\
    (k = Z.of_nat n + 1 -> Z.of_nat (length fl) <= Z.of_nat (length fl') + 2 * k) /\
    (k <= Z.of_nat n -> fl' = [] /\ leaf_page T' (a + k * PGSIZE) = None) /\
    (forall va, 0 <= va < MAXVA ->
       pte_of T' (k_mem s') va = mapped a k pa perm (pte_of T (k_mem s)) va).
Proof.
  revert s T fl a pa. induction n as [|n IH]; intros s T fl a pa Hok Ha Ha0 Hamax Hpa Hpa0 Hpamax Hperm Hinv;
    (destruct (map_one s root T fl a pa perm) as (s1 & T1 & fl1 & Hok1 & Hg1 & Hc1 & Hcase);
     [done|page_lia|apply Hinv; page_lia|page_lia|done|done|]).
  all: destruct Hcase as [(Hn & -> & Hc2 & E & Hpte)|(s2 & E & Hnz & Hv & -> & Hpte)].
  1,3: exists s1, T1, [], 0; rewrite decide_False by lia;
    split; [by rewrite mappages_loop_S, (bind_ret _ _ _ _ _ E)|];
    split; [done|]; split; [done|]; split; [lia|]; split; [cbn [length]; lia|]; split; [lia|]; split; [by rewrite Z.add_0_r|];
    intros va _; rewrite mapped_0; apply Hpte.
  all: rewrite mappages_loop_S, (bind_ret _ _ _ _ _ E);
    destruct (Z.eqb_spec (leaf_addr T1 a) 0); [done|]; unfold pte_get, pte_set; run; rewrite Hv.
  all: set (s1 := pte_stored _ _ _) in *.
  - rewrite Z.add_0_r, Z.eqb_refl.
    exists s1, T1, fl1, 1. split_and!; try done; try lia.
    intros va Hva. rewrite (Hpte va Hva). unfold mapped. pose proof (same_page a va Ha) as Hs.
    destruct (decide (va / PGSIZE = a / PGSIZE)) as [H2|H2].
    + rewrite decide_True by (apply Hs in H2; page_lia). f_equal. rewrite H2. unfold PGSIZE in *. div_lia.
    + rewrite decide_False; [done|]. rewrite Hs in H2. page_lia.
  - destruct (Z.eqb_spec a (a + Z.of_nat (S n) * PGSIZE)); [page_lia|].
    change MAXVA with 274877906944 in *.
    rewrite !u64_small by page_lia.
    replace (a + Z.of_nat (S n) * PGSIZE) with (a + PGSIZE + Z.of_nat n * PGSIZE) by lia.
    destruct (IH s1 T1 fl1 (a + PGSIZE) (pa + PGSIZE)) as (s' & T' & fl' & k & E' & Hok' & Hg' & Hk & Hc' & Hc3 & Hend & Hpte').
    { done. }
    { unfold PGSIZE in *. div_lia. }
    { page_lia. }
    { page_lia. }
    { unfold PGSIZE in *. div_lia. }
    { page_lia. }
    { page_lia. }
    { done. }
    { intros va Hva. rewrite Hpte by page_lia. rewrite decide_False; [apply Hinv; page_lia|].
      rewrite same_page by done. page_lia. }
    exists s', T', fl', (k + 1). split_and!; try done; try lia.
    + etransitivity; [exact E'|]. f_equal. repeat case_decide; lia.
    + by eapply vm_grow_trans.
    + intros Hle. destruct (Hend ltac:(lia)) as [-> Hn]. split; [done|]. rewrite <- Hn. f_equal. lia.
    + intros va Hva. rewrite Hpte' by done. rewrite <- (mapped_step a k pa perm _ _ va Ha ltac:(lia) (Hpte va Hva)).
      done.
Qed.

(** mappages on a range of unmapped pages. *)
Lemma mappages_spec n s root T fl va size pa perm :
  vm_ok s root T fl -> va `mod` PGSIZE = 0 -> 0 <= va -> va + size <= MAXVA ->
  size = n * PGSIZE -> 0 < n ->
  pa `mod` PGSIZE = 0 -> 0 <= pa -> pa + size <= 2 ^ 54 -> 0 <= perm < 1024 ->
  (forall a, va <= a < va + size -> has (pte_of T (k_mem s) a) PTE_V = false) ->
  exists s' T' fl' k,
    mappages root va size pa perm s = Ret (if decide (k = n) then 0 else -1) s' /\
    vm_ok s' root T' fl' /\ vm_grow s s' T T' fl fl' /\ 0 <= k <= n /\
    Z.of_nat (length fl) <= Z.of_nat (length fl') + 2 * k + (if decide (k = n) then 0 else 1) /\
    (k < n -> fl' = [] /\ leaf_page T' (va + k * PGSIZE) = None) /\
    (forall a, 0 <= a < MAXVA ->
       pte_of T' (k_mem s') a = mapped va k pa perm (pte_of T (k_mem s)) a).
Proof.
  intros Hok Hva Hva0 Hmax -> Hn Hpa Hpa0 Hpamax Hperm Hinv. unfold mappages.
  rewrite Hva, Z.mod_mul by done. change (negb (0 =? 0)) with false.
  destruct (Z.eqb_spec (n * PGSIZE) 0); [page_lia|]. rewrite Z.div_mul by done.
  change MAXVA with 274877906944 in Hmax. rewrite u64_small by page_lia.
  destruct (mappages_loop_spec (Z.to_nat n - 1) s root T fl va pa perm)
    as (s' & T' & fl' & k & E & Hok' & Hg & Hk & Hc & Hc' & Hend & Hpte); try done.
  { change MAXVA with 274877906944. page_lia. }
  { page_lia. }
  { intros a Ha. apply Hinv. page_lia. }
  exists s', T', fl', k. split_and!; try done; try lia.
  - replace (Z.to_nat n) with (S (Z.to_nat n - 1)) by lia.
    replace (va + n * PGSIZE - PGSIZE) with (va + Z.of_nat (Z.to_nat n - 1) * PGSIZE) by page_lia.
    rewrite E. f_equal. repeat case_decide; lia.
  - clear - Hc Hc' Hk Hn. case_decide; [specialize (Hc' ltac:(lia))|]; lia.
  - intros. apply Hend. lia.
Qed.
End Mapping.
