(* ===== verification/AsmSpec.v ===== *)
(** * Translation through a page table of the kernel, and blocks of saves and loads

    [region h va pa n]: the hart reaches the [n] bytes at physical address [pa]
    at the virtual address [va], whatever is stored in them.  [saves] and
    [loads] are the runs of [sd] and [ld] that the assembly files consist of. *)

From S2P Require Import Prelude Memory State Kalloc VM Riscv PageTable VMSpec.
Import Mem Hart.

Section Translate.
Context `{KernelImage}.
Abbreviation tree := (gmap (list Z) Z).

(** The hart's walk is the kernel's. *)
Lemma sv39_loop m root T level va p :
  pt_wf m root T -> (level <= 2)%nat -> T !! va_path level va = Some p ->
  has (pte_of T m va) PTE_V = true -> has (pte_of T m va) (Z.lor PTE_R PTE_X) = true ->
  sv39 level m p va = Some (O, pte_of T m va).
Proof.
  intros Hwf. revert p. induction level as [|level IH]; intros p Hl HT HV HR.
  - cbn [sv39]. unfold pte_of, leaf_page in *. change (T !! [PX 2 va; PX 1 va] = Some p) in HT.
    rewrite HT in *. change (Z.of_nat 0) with 0. by rewrite HV, HR.
  - cbn [sv39]. pose proof (walk_entry _ _ _ level va p Hwf ltac:(lia) HT) as He. cbv zeta in He.
    destruct (T !! va_path level va) as [c|] eqn:E; rewrite ?E in He.
    2:{ apply (walk_missing _ _ _ level va Hwf ltac:(lia)) in E. unfold pte_of in HV. by rewrite E in HV. }
    destruct He as [-> Hpa]. rewrite Hpa.
    assert (Hx : has (ld64 m (p + 8 * PX (Z.of_nat (S level)) va)) (Z.lor PTE_R PTE_X) = false).
    { rewrite (va_path_step level va) in E by lia.
      pose proof (pt_child _ _ _ Hwf _ (PX (Z.of_nat (S level)) va) p HT) as Hc.
      rewrite va_path_length in Hc by lia. specialize (Hc ltac:(lia) (px_range _ _)). rewrite E in Hc.
      rewrite Hc, has_pte; [done| |done]. apply page_ok_54. by apply (pt_page _ _ _ Hwf) in E as [? _]. }
    rewrite Hx. apply IH; [lia|done..].
Qed.

Lemma satp_fields root :
  0 <= root < 2 ^ 54 -> root `mod` PGSIZE = 0 ->
  Z.shiftr (MAKE_SATP root) 60 = 8 /\ Z.shiftl (Z.land (MAKE_SATP root) (Z.ones 44)) 12 = root.
Proof.
  intros Hr Hm. unfold MAKE_SATP, SATP_SV39. unfold PGSIZE in Hm. split.
  - rewrite Z.shiftr_lor, Z.shiftr_shiftr by lia. change (Z.shiftr (Z.shiftl 8 60) 60) with 8.
    rewrite (Z.shiftr_div_pow2 root) by lia. rewrite Z.div_small by lia. done.
  - rewrite Z.land_lor_distr_l, Z.land_ones, Z.land_ones by lia.
    change (Z.shiftl 8 60 `mod` 2 ^ 44) with 0. rewrite Z.lor_0_l, Z.shiftr_div_pow2, Z.shiftl_mul_pow2 by lia.
    rewrite Z.mod_small by div_lia. div_lia.
Qed.

Lemma translate_tree h root T a va :
  h_priv h = Supervisor -> h_csr h Satp = MAKE_SATP root -> pt_wf (h_mem h) root T ->
  0 <= va < MAXVA -> has (pte_of T (h_mem h) va) PTE_V = true -> has (pte_of T (h_mem h) va) PTE_R = true ->
  has (pte_of T (h_mem h) va) PTE_W = true -> has (pte_of T (h_mem h) va) PTE_U = false ->
  translate h a va = Some (PTE2PA (pte_of T (h_mem h) va) + va `mod` PGSIZE).
Proof.
  intros Hp Hs Hwf Hva HV HR HW HU.
  destruct (page_ok_54 root) as [Hr Hm]; [by apply (pt_page _ _ _ Hwf) with (π := []), (pt_root _ _ _ Hwf)|].
  destruct (satp_fields root Hr Hm) as [Es1 Es2].
  unfold translate. rewrite Hp, Hs, Es1, Es2. change MAXVA with (2 ^ 38) in Hva.
  rewrite bool_decide_false by done. change (8 =? 0) with false. cbv iota beta delta [orb].
  rewrite (proj2 (Z.ltb_ge va 0)), (proj2 (Z.leb_gt (2 ^ 38) va)) by lia.
  rewrite (sv39_loop (h_mem h) root T 2 va root); [|done|lia|by apply (pt_root _ _ _ Hwf)|done|].
  - set (pte := pte_of T (h_mem h) va) in *.
    replace (has pte (access_bit a)) with true by (by destruct a).
    rewrite HU, bool_decide_false by done. change (2 ^ (12 + 9 * Z.of_nat 0)) with PGSIZE.
    change (negb true) with false. change (negb (Bool.eqb false false)) with false. cbv iota.
    replace (PTE2PA pte `mod` PGSIZE =? 0) with true; [done|].
    symmetry. apply Z.eqb_eq. unfold PTE2PA, u64. rewrite Z.shiftl_mul_pow2 by lia.
    change PGSIZE with (2 ^ 12). change (2 ^ 64) with (2 ^ 52 * 2 ^ 12).
    rewrite Z.mul_mod_distr_r by lia. apply Z.mod_mul. lia.
  - unfold has in HR |- *. rewrite Z.land_lor_distr_r. rewrite negb_true_iff, Z.eqb_neq in *.
    rewrite Z.lor_eq_0_iff. tauto.
Qed.
End Translate.

(** ** Reachable memory *)
Definition same_view (h h' : hart) : Prop :=
  h_priv h' = h_priv h /\ h_csr h' Satp = h_csr h Satp /\
  h_csr h' Pmpcfg0 = h_csr h Pmpcfg0 /\ h_csr h' Pmpaddr0 = h_csr h Pmpaddr0.
(** [m'] differs from [m] in the bytes of [W] only. *)
Definition only (W : Z -> Prop) (m m' : mem) : Prop := forall b, ~ W b -> ld8 m' b = ld8 m b.
Definition region (h : hart) (W : Z -> Prop) (va pa n : Z) : Prop :=
  forall m' a i, only W (h_mem h) m' -> 0 <= i -> i + 8 <= n -> i `mod` 8 = 0 ->
    physical (h <| h_mem := m' |>) a (va + i) = Some (pa + i).
Definition inside (pa n : Z) (b : Z) : Prop := pa <= b < pa + n.

Lemma only_refl W m : only W m m.
Proof. by intros b. Qed.
Lemma only_trans W m1 m2 m3 : only W m1 m2 -> only W m2 m3 -> only W m1 m3.
Proof. intros H1 H2 b Hb. by rewrite H2, H1. Qed.
Lemma only_mono (W W' : Z -> Prop) m m' : (forall b, W b -> W' b) -> only W m m' -> only W' m m'.
Proof. intros HW Ho b Hb. apply Ho. naive_solver. Qed.

Lemma physical_view h h' a va : same_view h h' -> h_mem h' = h_mem h -> physical h' a va = physical h a va.
Proof.
  intros (Hp & Hs & Hc & Ha) Hm. unfold physical, translate, pmp_allows. by rewrite Hp, Hs, Hc, Ha, Hm.
Qed.
Lemma region_view h h' W va pa n :
  same_view h h' -> only W (h_mem h) (h_mem h') -> region h W va pa n -> region h' W va pa n.
Proof.
  intros Hv Hm Hr m' a i Ho Hi0 Hin Him. rewrite <- (Hr m' a i); [|by eapply only_trans|done..].
  by apply physical_view.
Qed.
Lemma region_here h W va pa n a i :
  region h W va pa n -> 0 <= i -> i + 8 <= n -> i `mod` 8 = 0 -> physical h a (va + i) = Some (pa + i).
Proof. intros Hr ???. rewrite <- (Hr (h_mem h) a i) by (done || apply only_refl). by destruct h. Qed.

Definition pmp_open (h : hart) : Prop := h_csr h Pmpcfg0 = 0xf /\ h_csr h Pmpaddr0 = 0x3fffffffffffff.

Lemma region_tree `{KernelImage} h root T (W : Z -> Prop) va pa n :
  h_priv h = Supervisor -> h_csr h Satp = MAKE_SATP root -> pmp_open h -> pt_wf (h_mem h) root T ->
  va `mod` 8 = 0 -> 0 <= pa -> pa + n <= 2 ^ 55 ->
  (forall i, 0 <= i < n -> let pte := pte_of T (h_mem h) (va + i) in
     0 <= va + i < MAXVA /\ has pte PTE_V = true /\ has pte PTE_R = true /\ has pte PTE_W = true /\
     has pte PTE_U = false /\ PTE2PA pte + (va + i) `mod` PGSIZE = pa + i) ->
  (forall p b, tree_has T p -> in_page p b -> ~ W b) ->
  region h W va pa n.
Proof.
  intros Hp Hs [Hc Ha] Hwf Hva8 Hpa Hpn Hm HW m' a i Ho Hi0 Hin Hi8.
  destruct (pt_ext (h_mem h) m' root T) as [Hwf' Hpte]; [intros; apply Ho; by eapply HW|done|].
  destruct (Hm i ltac:(lia)) as (Hr & HV & HR & HW' & HU & E). rewrite <- Hpte in *.
  unfold physical. replace ((va + i) `mod` 8 =? 0) with true by (symmetry; apply Z.eqb_eq; div_lia).
  rewrite (translate_tree (h <| h_mem := m' |>) root T a (va + i)) by done.
  change (h_mem (h <| h_mem := m' |>)) with m'. rewrite E.
  unfold pmp_allows. change (h_csr (h <| h_mem := m' |>)) with (h_csr h). rewrite Hc, Ha.
  rewrite (proj2 (Z.leb_le 0 (pa + i))), (proj2 (Z.leb_le (pa + i + 8) _)) by lia.
  by rewrite andb_true_r, orb_true_r.
Qed.

(** Without translation, memory is where it is. *)
Lemma region_bare h W pa n :
  h_csr h Satp = 0 -> pmp_open h -> pa `mod` 8 = 0 -> 0 <= pa -> pa + n <= 2 ^ 55 -> region h W pa pa n.
Proof.
  intros Hs [Hc Ha] Hm Hpa Hpn m' a i _ Hi0 Hin Hi8. unfold physical, translate, pmp_allows.
  change (h_csr (h <| h_mem := m' |>)) with (h_csr h). rewrite Hs, Hc, Ha. change (Z.shiftr 0 60 =? 0) with true.
  rewrite orb_true_r. replace ((pa + i) `mod` 8 =? 0) with true by (symmetry; apply Z.eqb_eq; div_lia).
  rewrite (proj2 (Z.leb_le 0 (pa + i))), (proj2 (Z.leb_le (pa + i + 8) _)) by lia. by rewrite orb_true_r.
Qed.

(** ** Runs of saves and loads *)
Definition saves (b : reg) (l : list (reg * Z)) : list instr := map (fun '(r, o) => SD r o b) l.
Definition loads (b : reg) (l : list (reg * Z)) : list instr := map (fun '(r, o) => LD r o b) l.
Definition slots (n : Z) (l : list (reg * Z)) : Prop :=
  Forall (fun '(r, o) => 0 <= o /\ o + 8 <= n /\ o `mod` 8 = 0) l.
Fixpoint stored (pa : Z) (x : reg -> Z) (l : list (reg * Z)) (m : mem) : mem :=
  match l with
  | [] => m
  | (r, o) :: l => stored pa x l (st64 m (pa + o) (x r))
  end.

Lemma exec_app l l' h : exec (l ++ l') h = (exec l;; exec l') h.
Proof.
  revert h. induction l as [|i l IH]; intros h; cbn [app exec]; [done|].
  rewrite bind_assoc. unfold mbind, M_bind. destruct (step i h); [|done..]. apply IH.
Qed.

Lemma step_save h W base pa n r o b :
  region h W base pa n -> (forall b, inside pa n b -> W b) -> reg_of h b = base -> 0 <= base -> base + n <= 2 ^ 64 ->
  0 <= o -> o + 8 <= n -> o `mod` 8 = 0 ->
  step (SD r o b) h = Ret tt (h <| h_mem := st64 (h_mem h) (pa + o) (reg_of h r) |>).
Proof.
  intros Hr HW Hb Hb0 Hbn Ho Hon Hm. cbn [step]. unfold rget. rewrite !bind_gets, Hb.
  unfold store. rewrite bind_gets, u64_small by lia. by rewrite (region_here _ _ _ _ _ _ _ Hr).
Qed.
Lemma stored_within (W : Z -> Prop) pa x l m :
  (forall r o b, (r, o) ∈ l -> inside (pa + o) 8 b -> W b) -> only W m (stored pa x l m).
Proof.
  revert m. induction l as [|[r o] l IH]; intros m HW; cbn; [apply only_refl|].
  eapply only_trans; [|apply IH; intros; eapply HW; [by right|done]]. intros b Hb. apply ld8_st64_ne.
  destruct (decide (pa + o <= b < pa + o + 8)); [|lia]. destruct Hb. eapply HW; [by left|]. unfold inside. lia.
Qed.
Lemma slots_in n l r o : slots n l -> (r, o) ∈ l -> 0 <= o /\ o + 8 <= n /\ o `mod` 8 = 0.
Proof. unfold slots. rewrite Forall_forall. intros Hl Hin. by apply (Hl (r, o)). Qed.
Lemma stored_only (W : Z -> Prop) pa n x l m :
  (forall b, inside pa n b -> W b) -> slots n l -> only W m (stored pa x l m).
Proof.
  intros HW Hl. apply stored_within. intros r o b Hin Hb. apply HW.
  destruct (slots_in n l r o Hl Hin) as (? & ? & _). unfold inside in *. lia.
Qed.
Lemma exec_saves h W base pa n l b :
  region h W base pa n -> (forall b, inside pa n b -> W b) -> reg_of h b = base -> 0 <= base -> base + n <= 2 ^ 64 ->
  slots n l ->
  exec (saves b l) h = Ret tt (h <| h_mem := stored pa (reg_of h) l (h_mem h) |>).
Proof.
  intros Hr HW Hb Hb0 Hbn Hl. revert h Hr Hb. induction Hl as [|[r o] l (Ho & Hon & Hm) Hl IH]; intros h Hr Hb.
  - by destruct h.
  - cbn [saves map exec]. rewrite (bind_ret _ _ _ _ _ (step_save h W base pa n r o b Hr HW Hb Hb0 Hbn Ho Hon Hm)).
    fold (saves b l). rewrite IH; [reflexivity| |done].
    apply (region_view h); [done| |done]. apply (stored_only W pa n (reg_of h) [(r, o)]); [done|]. by repeat constructor.
Qed.

(** What is stored is read back. *)
Lemma stored_out pa x l m o :
  Forall (fun '(r, o') => o' <> o /\ o' `mod` 8 = 0) l -> o `mod` 8 = 0 ->
  ld64 (stored pa x l m) (pa + o) = ld64 m (pa + o).
Proof.
  intros Hl Hm. revert m. induction Hl as [|[r o'] l [Hne Hm'] _ IH]; intros m; cbn [stored]; [done|].
  rewrite IH. apply ld64_st64_ne. div_lia.
Qed.
Lemma stored_in pa x n l m r o :
  slots n l -> NoDup l.*2 -> (r, o) ∈ l -> 0 <= x r < 2 ^ 64 -> ld64 (stored pa x l m) (pa + o) = x r.
Proof.
  intros Hl. revert m. induction Hl as [|[r' o'] l (Ho & Hon & Hm) Hl IH]; intros m Hnd Hin Hx; [by apply elem_of_nil in Hin|].
  cbn [fmap list_fmap] in Hnd. apply NoDup_cons in Hnd as [Hni Hnd]. cbn [stored].
  apply elem_of_cons in Hin as [[= -> ->]|Hin]; [|by apply IH].
  rewrite stored_out; [rewrite ld64_st64_eq; by apply u64_small| |done].
  rewrite Forall_forall in Hl |- *. intros [r2 o2] Hin. specialize (Hl _ Hin). cbn in Hl, Hni.
  split; [|tauto]. intros ->. apply Hni, list_elem_of_fmap. by exists (r2, o').
Qed.

(** The registers after a run of loads. *)
Fixpoint loaded (m : mem) (pa : Z) (l : list (reg * Z)) (x : reg -> Z) : reg -> Z :=
  match l with
  | [] => x
  | (r, o) :: l => loaded m pa l (fun r' => if decide (r' = r) then ld64 m (pa + o) else x r')
  end.
Lemma step_load h W base pa n r o b :
  region h W base pa n -> reg_of h b = base -> 0 <= base -> base + n <= 2 ^ 64 ->
  0 <= o -> o + 8 <= n -> o `mod` 8 = 0 ->
  step (LD r o b) h = Ret tt (reg_set r (ld64 (h_mem h) (pa + o)) h).
Proof.
  intros Hr Hb Hb0 Hbn Ho Hon Hm. cbn [step]. unfold rget. rewrite !bind_gets, Hb.
  unfold load. rewrite bind_assoc, bind_gets, u64_small by lia. rewrite (region_here _ _ _ _ _ _ _ Hr) by done.
  by rewrite bind_gets.
Qed.
Lemma exec_loads h W base pa n l b :
  region h W base pa n -> reg_of h b = base -> 0 <= base -> base + n <= 2 ^ 64 ->
  slots n l -> b ∉ l.*1 ->
  exec (loads b l) h = Ret tt (h <| h_x := loaded (h_mem h) pa l (h_x h) |>).
Proof.
  intros Hr Hb Hb0 Hbn Hl. revert h Hr Hb. induction Hl as [|[r o] l (Ho & Hon & Hm) Hl IH]; intros h Hr Hb Hni.
  - by destruct h.
  - cbn [fmap list_fmap] in Hni. apply not_elem_of_cons in Hni as [Hne Hni].
    cbn [loads map exec]. rewrite (bind_ret _ _ _ _ _ (step_load h W base pa n r o b Hr Hb Hb0 Hbn Ho Hon Hm)).
    fold (loads b l). rewrite IH; [reflexivity| | |done].
    + by apply (region_view h).
    + unfold reg_of in *. destruct (decide (b = zero)); [done|]. cbn. by rewrite decide_False.
Qed.
Lemma loaded_out m pa l x r : r ∉ l.*1 -> loaded m pa l x r = x r.
Proof.
  revert x. induction l as [|[r' o] l IH]; intros x Hni; [done|].
  cbn [fmap list_fmap] in Hni. apply not_elem_of_cons in Hni as [Hne Hni]. cbn [loaded].
  rewrite IH by done. by rewrite decide_False.
Qed.
Lemma loaded_in m pa l x r o : NoDup l.*1 -> (r, o) ∈ l -> loaded m pa l x r = ld64 m (pa + o).
Proof.
  revert x. induction l as [|[r' o'] l IH]; intros x Hnd Hin; [by apply elem_of_nil in Hin|].
  cbn [fmap list_fmap] in Hnd. apply NoDup_cons in Hnd as [Hni Hnd]. cbn [loaded].
  apply elem_of_cons in Hin as [[= -> ->]|Hin]; [|by apply IH].
  rewrite loaded_out by done. by rewrite decide_True.
Qed.
