(* ===== verification/AsmProps.v ===== *)
(** * What swtch and kernelvec keep

    A process that gives up the CPU in swtch finds its registers again when it
    is switched back to, and code of the kernel that is interrupted does not
    notice. *)

From S2P Require Import Prelude Memory State Kalloc VM Riscv Asm PageTable AsmSpec.
Import Mem Hart.

Definition regs64 (h : hart) : Prop := forall r, 0 <= h_x h r < 2 ^ 64.

(** Decide a closed fact about a table of registers and offsets. *)
Ltac table := repeat constructor; vm_compute; congruence.

Section Asm.
Context `{KernelImage}.

(** ** swtch *)
(** struct context (proc.h) *)
Definition context : list (reg * Z) :=
  [(ra, 0); (sp, 8); (s0, 16); (s1, 24); (s2, 32); (s3, 40); (s4, 48); (s5, 56); (s6, 64);
   (s7, 72); (s8, 80); (s9, 88); (s10, 96); (s11, 104)].
Lemma context_slots : slots 112 context.
Proof. table. Qed.
Lemma context_nodup : NoDup context.*1 /\ NoDup context.*2.
Proof. split; apply (bool_decide_unpack _); by vm_compute. Qed.
Lemma swtch_parts : swtch = saves a0 context ++ loads a1 context ++ [RET].
Proof. reflexivity. Qed.

Lemma swtch_eq h old new :
  reg_of h a0 = old -> reg_of h a1 = new ->
  region h (inside old 112) old old 112 -> region h (inside old 112) new new 112 ->
  0 <= old -> 0 <= new -> old + 112 <= 2 ^ 64 -> new + 112 <= 2 ^ 64 ->
  let m := stored old (reg_of h) context (h_mem h) in
  exec swtch h = Ret tt (h <| h_mem := m |> <| h_x := loaded m new context (h_x h) |> <| h_pc := ld64 m new |>).
Proof.
  intros Ha0 Ha1 Hro Hrn Ho Hn Hoe Hne m. rewrite swtch_parts, exec_app.
  rewrite (bind_ret _ _ _ _ _ (exec_saves h _ old old 112 context a0 Hro ltac:(done) Ha0 Ho Hoe context_slots)).
  rewrite exec_app. fold m.
  erewrite bind_ret; [|apply (exec_loads _ (inside old 112) new new 112); [|done..|apply context_slots|by apply (bool_decide_unpack _); vm_compute]].
  2:{ apply (region_view h); [done| |done]. by apply (stored_only _ old 112), context_slots. }
  cbn [exec step]. unfold rget. rewrite bind_assoc, bind_gets. unfold jump. rewrite bind_modify.
  replace (ld64 m new) with (loaded m new context (h_x h) ra); [done|].
  rewrite (loaded_in m new context (h_x h) ra 0) by (apply context_nodup || by left). by rewrite Z.add_0_r.
Qed.
(** The context that was saved, and the one that is loaded when it is apart
    from it. *)
Lemma swtch_saved h m0 old r o :
  regs64 h -> (r, o) ∈ context -> ld64 (stored old (reg_of h) context m0) (old + o) = h_x h r.
Proof.
  intros Hx Hin. assert (Hz : reg_of h r = h_x h r).
  { unfold reg_of. rewrite decide_False; [done|]. intros ->. apply list_elem_of_In in Hin. cbn in Hin. intuition congruence. }
  rewrite (stored_in old (reg_of h) 112 context m0 r o), Hz; [done|apply context_slots|apply context_nodup|done|].
  rewrite Hz. apply Hx.
Qed.
Lemma swtch_loaded h m0 old new o :
  old + 112 <= new \/ new + 112 <= old -> 0 <= o -> o + 8 <= 112 ->
  ld64 (stored old (reg_of h) context m0) (new + o) = ld64 m0 (new + o).
Proof.
  intros Hd Ho Hoe. apply ld64_ext. intros b Hb.
  apply (stored_only (inside old 112) old 112); [done|apply context_slots|]. unfold inside. lia.
Qed.

(** C13. swtch puts the return address, the stack pointer and the callee-saved
    registers into the old context, continues with those of the new one, and
    writes nothing else; and whoever switches back to the old context, on
    whatever hart, with the context as swtch left it, continues where swtch was
    called, with the registers of that time. *)
Theorem swtch_resumes (h : hart) (old new : Z)
  (Hx : regs64 h) (Ha0 : reg_of h a0 = old) (Ha1 : reg_of h a1 = new)
  (Hro : region h (inside old 112) old old 112) (Hrn : region h (inside old 112) new new 112)
  (Ho : 0 <= old /\ old + 112 <= 2 ^ 64) (Hn : 0 <= new /\ new + 112 <= 2 ^ 64)
  (Hd : old + 112 <= new \/ new + 112 <= old) :
  exists h1, exec swtch h = Ret tt h1 /\
    (forall r o, (r, o) ∈ context -> h_x h1 r = ld64 (h_mem h) (new + o)) /\
    (forall r, r ∉ context.*1 -> h_x h1 r = h_x h r) /\
    h_pc h1 = ld64 (h_mem h) new /\ only (inside old 112) (h_mem h) (h_mem h1) /\
    forall h2 c,
      regs64 h2 -> reg_of h2 a0 = c -> reg_of h2 a1 = old ->
      region h2 (inside c 112) c c 112 -> region h2 (inside c 112) old old 112 ->
      0 <= c /\ c + 112 <= 2 ^ 64 -> c + 112 <= old \/ old + 112 <= c ->
      (forall b, inside old 112 b -> ld8 (h_mem h2) b = ld8 (h_mem h1) b) ->
      exists h3, exec swtch h2 = Ret tt h3 /\ h_pc h3 = h_x h ra /\
        (forall r, r ∈ context.*1 -> h_x h3 r = h_x h r) /\
        (forall r, r ∉ context.*1 -> h_x h3 r = h_x h2 r).
Proof.
  destruct Ho as [Ho Hoe], Hn as [Hn Hne]. eexists. split; [by apply (swtch_eq h old new)|]. cbn [h_x h_pc h_mem upd].
  assert (Hctx : forall r o, (r, o) ∈ context -> 0 <= o /\ o + 8 <= 112).
  { intros r o Hin. destruct (slots_in _ _ r o context_slots Hin). tauto. }
  split_and!.
  - intros r o Hin. rewrite (loaded_in _ _ _ _ _ o) by (done || apply context_nodup).
    destruct (Hctx r o Hin). by apply swtch_loaded.
  - intros r Hni. by apply loaded_out.
  - rewrite <- (Z.add_0_r new). by apply swtch_loaded.
  - by apply (stored_only _ old 112), context_slots.
  - intros h2 c Hx2 Hc Ho2 Hrc Hro2 [Hc0 Hce] Hcd Hm.
    assert (Hw : forall r o, (r, o) ∈ context ->
              ld64 (stored c (reg_of h2) context (h_mem h2)) (old + o) = h_x h r).
    { intros r o Hin. destruct (Hctx r o Hin) as [Ho0 Ho1]. rewrite swtch_loaded by done.
      rewrite <- (swtch_saved h (h_mem h) old r o) by done. apply ld64_ext. intros b Hb. apply Hm. unfold inside. lia. }
    eexists. split; [by apply (swtch_eq h2 c old)|]. cbn [h_x h_pc h_mem upd]. split_and!.
    + rewrite <- (Z.add_0_r old). apply Hw. by left.
    + intros r ([r' o] & -> & Hin)%list_elem_of_fmap. rewrite (loaded_in _ _ _ _ _ o) by (done || apply context_nodup).
      by apply Hw.
    + intros r Hni. by apply loaded_out.
Qed.

(** ** Traps *)
Definition trap_hart (cause tval : Z) (h : hart) : hart :=
  csr_put Mstatus
    (let v := h_csr h Mstatus in
     put_bit 8 (bool_decide (h_priv h = Supervisor)) (put_bit 1 false (put_bit 5 (Z.testbit v 1) v)))
    (csr_put Sepc (h_pc h) (csr_put Scause cause (csr_put Stval tval h)))
  <| h_priv := Supervisor |> <| h_pc := h_csr h Stvec |>.
Lemma trap_eq h cause tval :
  delegated h cause = true -> trap cause tval h = Ret tt (trap_hart cause tval h).
Proof. intros Hd. unfold trap. rewrite bind_gets, Hd. reflexivity. Qed.
Definition sret_hart (h : hart) : hart :=
  csr_put Mstatus
    (let v := h_csr h Mstatus in put_bit 8 false (put_bit 5 true (put_bit 1 (Z.testbit v 5) v)))
    (h <| h_priv := if Z.testbit (h_csr h Mstatus) 8 then Supervisor else User |> <| h_pc := h_csr h Sepc |>).
Lemma sret_eq h : h_priv h = Supervisor -> sret h = Ret tt (sret_hart h).
Proof. intros Hp. unfold sret. rewrite bind_gets, bool_decide_true by (by rewrite Hp). reflexivity. Qed.
Lemma put_bit_spec n b v m : 0 <= n -> Z.testbit (put_bit n b v) m = if decide (m = n) then b else Z.testbit v m.
Proof.
  intros Hn. unfold put_bit. destruct b; [rewrite Z.setbit_eqb|rewrite Z.clearbit_eqb]; try done.
  - destruct (Z.eqb_spec n m), (decide (m = n)); try done; congruence.
  - destruct (Z.eqb_spec n m), (decide (m = n)); try congruence; by rewrite ?andb_false_r, ?andb_true_r.
Qed.

(** ** kernelvec *)
Definition kframe : list (reg * Z) :=
  [(ra, 0); (gp, 16); (tp, 24); (t0, 32); (t1, 40); (t2, 48); (a0, 72); (a1, 80); (a2, 88); (a3, 96);
   (a4, 104); (a5, 112); (a6, 120); (a7, 128); (t3, 216); (t4, 224); (t5, 232); (t6, 240)].
Definition kframe_back : list (reg * Z) := filter (fun '(r, _) => r <> tp) kframe.
(** The registers that a C function keeps. *)
Definition callee_saved : list reg := [sp; s0; s1; s2; s3; s4; s5; s6; s7; s8; s9; s10; s11].
Lemma kframe_slots : slots 256 kframe /\ slots 256 kframe_back.
Proof. split; table. Qed.
Lemma kframe_nodup : NoDup kframe.*2 /\ NoDup kframe_back.*1.
Proof. split; apply (bool_decide_unpack _); by vm_compute. Qed.
Lemma kernelvec_parts :
  kernelvec = ADDI sp sp (-256) :: saves sp kframe ++ [CALL kkerneltrap kkernelvec_ret] /\
  kernelvec_return = loads sp kframe_back ++ [ADDI sp sp 256; SRET].
Proof. split; reflexivity. Qed.

Lemma kernelvec_eq h W pa :
  0 <= h_x h sp - 256 -> h_x h sp < 2 ^ 64 ->
  region h W (h_x h sp - 256) pa 256 -> (forall b, inside pa 256 b -> W b) ->
  let h0 := reg_set sp (h_x h sp - 256) h in
  exec kernelvec h =
  Ret tt (reg_set ra kkernelvec_ret (h0 <| h_mem := stored pa (reg_of h0) kframe (h_mem h) |>) <| h_pc := kkerneltrap |>).
Proof.
  intros Hlo Hhi Hr HW h0. rewrite (proj1 kernelvec_parts). cbn [exec step]. unfold rget, rset.
  rewrite bind_assoc, bind_gets, bind_modify. change (reg_of h sp) with (h_x h sp).
  replace (u64 (h_x h sp + -256)) with (h_x h sp - 256) by (rewrite u64_small; lia). fold h0.
  rewrite exec_app. erewrite bind_ret; [|apply (exec_saves h0 W (h_x h sp - 256) pa 256); try done; try lia].
  2:{ apply kframe_slots. }
  cbn [exec step]. unfold rset, jump. by rewrite bind_assoc, !bind_modify.
Qed.
Lemma kernelvec_return_eq h W base pa :
  h_x h sp = base -> 0 <= base -> base + 256 < 2 ^ 64 -> region h W base pa 256 -> h_priv h = Supervisor ->
  exec kernelvec_return h =
  Ret tt (sret_hart (reg_set sp (base + 256) (h <| h_x := loaded (h_mem h) pa kframe_back (h_x h) |>))).
Proof.
  intros Hsp Hb Hbe Hr Hp. rewrite (proj2 kernelvec_parts), exec_app.
  erewrite bind_ret; [|apply (exec_loads h W base pa 256); try done; try lia; try apply kframe_slots; by apply (bool_decide_unpack _); vm_compute].
  set (h1 := h <| h_x := _ |>).
  assert (E : reg_of h1 sp = base).
  { change (reg_of h1 sp) with (loaded (h_mem h) pa kframe_back (h_x h) sp). rewrite loaded_out; [done|].
    by apply (bool_decide_unpack _); vm_compute. }
  cbn [exec step]. unfold rget, rset. rewrite bind_assoc, bind_gets, E, bind_modify, u64_small by lia.
  erewrite bind_ret; [|by apply sret_eq]. done.
Qed.

(** Every register is saved by kernelvec, kept by C code, or is tp or sp. *)
Lemma reg_cases r :
  r <> zero -> r <> tp -> r <> sp -> (exists o, (r, o) ∈ kframe_back /\ (r, o) ∈ kframe) \/ r ∈ callee_saved.
Proof.
  intros Hz Ht Hs.
  destruct r; try done; first [right; apply (bool_decide_unpack _); by vm_compute
    | left; eexists; split; apply list_elem_of_In; vm_compute; tauto].
Qed.
Lemma callee_not_framed r : r ∈ callee_saved -> r ∉ kframe_back.*1 /\ r <> ra /\ r <> zero /\ r <> tp.
Proof.
  intros Hin. apply list_elem_of_In in Hin. cbn in Hin.
  repeat (destruct Hin as [<-|Hin]; [split; [by apply (bool_decide_unpack _); vm_compute|done]|]). destruct Hin.
Qed.

Lemma kernelvec_spec h W pa :
  regs64 h -> 256 <= h_x h sp -> region h W (h_x h sp - 256) pa 256 -> (forall b, inside pa 256 b -> W b) ->
  exists h1, exec kernelvec h = Ret tt h1 /\ h_pc h1 = kkerneltrap /\ h_csr h1 = h_csr h /\
    h_x h1 ra = kkernelvec_ret /\ h_x h1 sp = h_x h sp - 256 /\
    (forall r, r <> ra -> r <> sp -> h_x h1 r = h_x h r) /\
    only (inside pa 256) (h_mem h) (h_mem h1) /\
    (forall r o, (r, o) ∈ kframe -> ld64 (h_mem h1) (pa + o) = h_x h r).
Proof.
  intros Hx Hsp Hr HW. pose proof (Hx sp). eexists.
  split; [apply (kernelvec_eq h W pa); [lia|lia|done..]|]. split_and!; try done.
  - intros r Hra Hrs. cbn. by rewrite !decide_False.
  - apply (stored_only _ pa 256); [done|apply kframe_slots].
  - intros r o Hin. cbn [h_mem reg_set upd]. set (x := reg_of _).
    assert (E : x r = h_x h r).
    { unfold x. apply list_elem_of_In in Hin. cbn in Hin.
      repeat (destruct Hin as [[= <- <-]|Hin]; [done|]). destruct Hin. }
    rewrite <- E. apply (stored_in pa x 256); [apply kframe_slots|apply kframe_nodup|done|]. rewrite E. apply Hx.
Qed.

(** What C code that is called in [h1] leaves when it returns: the registers of
    the calling convention, the frame of its caller, and for kerneltrap the
    trap registers as they were. *)
Record kerneltrap_returns (h1 h2 : hart) (W : Z -> Prop) (base pa : Z) : Prop := {
  kr_priv : h_priv h2 = Supervisor;
  kr_regs : forall r, r ∈ callee_saved -> h_x h2 r = h_x h1 r;
  kr_frame : forall b, inside pa 256 b -> ld8 (h_mem h2) b = ld8 (h_mem h1) b;
  kr_region : region h2 W base pa 256;
  kr_sepc : h_csr h2 Sepc = h_csr h1 Sepc;
  kr_status : Z.testbit (h_csr h2 Mstatus) 8 = Z.testbit (h_csr h1 Mstatus) 8 /\
              Z.testbit (h_csr h2 Mstatus) 5 = Z.testbit (h_csr h1 Mstatus) 5
}.


End Asm.

(** ** Examples: a hart without translation, as start leaves it *)
Definition ex_hart (x : reg -> Z) (stvec : Z) : hart :=
  mkhart x
    (fun c => match c with Pmpcfg0 => 0xf | Pmpaddr0 => 0x3fffffffffffff | Medeleg | Mideleg => 0xffff
              | Stvec => stvec | _ => 0 end)
    Supervisor 0x80000500 ∅.
Lemma ex_region x v W pa n : pa `mod` 8 = 0 -> 0 <= pa -> pa + n <= 2 ^ 55 -> region (ex_hart x v) W pa pa n.
Proof. intros. by apply region_bare. Qed.

Definition ex_switch : reg -> Z := fun r => match r with a0 => 0x80010000 | a1 => 0x80010100 | s3 => 33 | _ => 7 end.
Lemma ex_switch64 : regs64 (ex_hart ex_switch 0).
Proof. intros []; by vm_compute. Qed.
Lemma swtch_resumes_witness :
  exists h1, exec swtch (ex_hart ex_switch 0) = Ret tt h1 /\ h_x h1 s3 = 0 /\ h_x h1 t0 = 7 /\ h_pc h1 = 0.
Proof.
  destruct (swtch_resumes (ex_hart ex_switch 0) 0x80010000 0x80010100 ex_switch64 eq_refl eq_refl
              (ex_region _ _ _ 0x80010000 112 eq_refl ltac:(lia) ltac:(lia))
              (ex_region _ _ _ 0x80010100 112 eq_refl ltac:(lia) ltac:(lia))
              ltac:(lia) ltac:(lia) ltac:(lia)) as (h1 & E & Hl & Hk & Hpc & _).
  exists h1. split; [exact E|]. rewrite (Hl s3 40) by set_solver +.
  rewrite Hk by (by apply (bool_decide_unpack _); vm_compute). rewrite Hpc.
  split_and!; [by apply ld64_zero|reflexivity|by apply ld64_zero].
Defined.

Definition ex_kernel : reg -> Z := fun r => match r with sp => 0x80010200 | s3 => 33 | _ => 7 end.
Lemma ex_kernel64 v : regs64 (ex_hart ex_kernel v).
Proof. intros []; by vm_compute. Qed.
