(* ===== verification/UserSpace.v ===== *)
(** * User address spaces: the invariant of uvmalloc, uvmunmap and uvmcopy

    [U] is the ghost map of a user address space: it maps the number of a
    user page (an address below TRAPFRAME, divided by PGSIZE) to the physical
    page that the process owns there.  [uspace s root T U fl] says that the
    valid leaf entries of the page table are exactly [U], that no page is
    mapped twice, and that mapped pages, table pages and free pages are
    disjoint. *)

From S2P Require Import Prelude Memory State Kalloc VM PageTable VMSpec.
Import Mem KString.

Definition ULIM : Z := TRAPFRAME / PGSIZE.

Section UserSpace.
Context `{KernelImage}.

Abbreviation tree := (gmap (list Z) Z).
Abbreviation umap := (gmap Z Z).

Lemma user_va v : 0 <= v < ULIM -> 0 <= v * PGSIZE < MAXVA /\ (v * PGSIZE) `mod` PGSIZE = 0.
Proof.
  intros Hv. split; [|by apply Z.mod_mul]. unfold ULIM in Hv.
  change (TRAPFRAME / PGSIZE) with 67108862 in Hv. change MAXVA with 274877906944. page_lia.
Qed.

Record uspace (s : kstate) (root : Z) (T : tree) (U : umap) (fl : list Z) : Prop := {
  us_ok : vm_ok s root T fl;
  us_dom : forall v pa, U !! v = Some pa -> 0 <= v < ULIM;
  us_page : forall v pa, U !! v = Some pa -> page_ok pa /\ pa ∉ fl /\ ~ tree_has T pa;
  us_pte : forall v pa, U !! v = Some pa ->
    has (pte_of T (k_mem s) (v * PGSIZE)) PTE_V = true /\
    PTE2PA (pte_of T (k_mem s) (v * PGSIZE)) = pa;
  us_inj : forall v v' pa, U !! v = Some pa -> U !! v' = Some pa -> v = v';
  us_none : forall v, 0 <= v < ULIM -> U !! v = None ->
    has (pte_of T (k_mem s) (v * PGSIZE)) PTE_V = false
}.

Lemma us_not_free s root T U fl v pa : uspace s root T U fl -> U !! v = Some pa -> pa ∉ fl.
Proof. intros Hu HU. by destruct (us_page _ _ _ _ _ Hu v pa HU) as (_ & ? & _). Qed.

(** A page that belongs to nobody: neither free, nor a table, nor mapped. *)
Definition spare (T : tree) (U : umap) (fl : list Z) (c : Z) : Prop :=
  page_ok c /\ c ∉ fl /\ ~ tree_has T c /\ forall v, U !! v <> Some c.

(** The invariant reads the table pages only. *)
Lemma uspace_ext s s' root T U fl fl' :
  uspace s root T U fl ->
  (forall p b, tree_has T p -> in_page p b -> ld8 (k_mem s') b = ld8 (k_mem s) b) ->
  kmem_inv s' fl' -> (forall p, tree_has T p -> p ∉ fl') ->
  (forall v pa, U !! v = Some pa -> pa ∉ fl') ->
  uspace s' root T U fl'.
Proof.
  intros [(_ & Hwf & _) Hdom Hpg Hpte Hinj Hnone] Hx Hk Ht Hu.
  destruct (pt_ext _ _ _ _ Hx Hwf) as [Hwf' Hsame]. split; [by split_and!|done|..|done|].
  - intros v pa HU. destruct (Hpg v pa HU) as (? & _ & ?). eauto.
  - intros v pa HU. rewrite Hsame. eauto.
  - intros v. rewrite Hsame. eauto.
Qed.

Lemma tree_page_out m root T p b c :
  pt_wf m root T -> tree_has T p -> in_page p b -> page_ok c -> ~ tree_has T c -> ~ in_page c b.
Proof.
  intros Hwf (π & HT) Hb [Hc _] Hn Hb'. apply Hn. assert (p = c) as <-; [|by exists π].
  destruct (pt_page _ _ _ Hwf _ _ HT) as [[? _] _]. by eapply in_page_inj.
Qed.
Lemma kfree_state_out s c b : ~ in_page c b -> ld8 (k_mem (kfree_state s c)) b = ld8 (k_mem s) b.
Proof.
  unfold in_page, PGSIZE. intros Hb. cbn. rewrite ld8_st64_ne by lia.
  rewrite ld8_memset, decide_False by (unfold PGSIZE; lia). done.
Qed.
Lemma kalloc_state_out s c b : ~ in_page c b -> ld8 (k_mem (kalloc_state s c)) b = ld8 (k_mem s) b.
Proof. intros Hb. cbn. rewrite ld8_memset by (unfold PGSIZE; lia). by rewrite decide_False. Qed.

Lemma vm_kfree s root T fl c :
  vm_ok s root T fl -> page_ok c -> c ∉ fl -> ~ tree_has T c ->
  vm_ok (kfree_state s c) root T (c :: fl) /\
  (forall va, pte_of T (k_mem (kfree_state s c)) va = pte_of T (k_mem s) va).
Proof.
  intros (Hk & Hwf & Hd) Hc Hfl Ht.
  destruct (pt_ext (k_mem s) (k_mem (kfree_state s c)) root T) as [Hwf' Hpte]; [|done|].
  { intros p b Hp Hb. eapply kfree_state_out, tree_page_out; eassumption. }
  split; [|done]. split_and!; [by apply kfree_inv|done|].
  intros p Hp [->|Hin]%elem_of_cons; [done|]. by apply (Hd p).
Qed.

Lemma vm_kalloc s root T fl c :
  vm_ok s root T (c :: fl) ->
  vm_ok (kalloc_state s c) root T fl /\ page_ok c /\ c ∉ fl /\ ~ tree_has T c /\
  (forall va, pte_of T (k_mem (kalloc_state s c)) va = pte_of T (k_mem s) va).
Proof.
  intros (Hk & Hwf & Hd). pose proof Hk as [(_ & Hc & _) Hnd]. apply NoDup_cons in Hnd as [Hcfl _].
  assert (Ht : ~ tree_has T c) by (intros Hh; apply (Hd c Hh); left).
  destruct (pt_ext (k_mem s) (k_mem (kalloc_state s c)) root T) as [Hwf' Hpte]; [|done|].
  { intros p b Hp Hb. eapply kalloc_state_out, tree_page_out; eassumption. }
  split; [|done]. split_and!; [by apply kalloc_inv|done|]. intros p Hp Hin. apply (Hd p Hp). by right.
Qed.

(** Giving a spare page back. *)
Lemma uspace_kfree s root T U fl c :
  uspace s root T U fl -> spare T U fl c -> uspace (kfree_state s c) root T U (c :: fl).
Proof.
  intros Hu (Hc & Hfl & Ht & HU). pose proof (us_ok _ _ _ _ _ Hu) as (Hk & Hwf & Hd).
  apply (uspace_ext s _ root T U fl); [done|..].
  - intros p b Hp Hb. eapply kfree_state_out, tree_page_out; eassumption.
  - by apply kfree_inv.
  - intros p Hp [->|Hin]%elem_of_cons; [done|]. by apply (Hd p).
  - intros v pa HUv [->|Hin]%elem_of_cons; [by apply (HU v)|].
    by apply (us_not_free _ _ _ _ _ v pa Hu HUv).
Qed.
Lemma uspace_same s s' root T U fl :
  k_mem s' = k_mem s -> k_freelist s' = k_freelist s -> uspace s root T U fl -> uspace s' root T U fl.
Proof.
  intros Hm Hf Hu. apply (uspace_ext s _ root T U fl); [done|by rewrite Hm|..].
  - by apply (kmem_inv_same s); [..|apply (us_ok _ _ _ _ _ Hu)].
  - apply (us_ok _ _ _ _ _ Hu).
  - intros v pa HU. by eapply us_not_free.
Qed.

(** Writing the bytes of a spare page. *)
Lemma uspace_write s s' root T U fl c :
  uspace s root T U fl -> spare T U fl c -> k_freelist s' = k_freelist s ->
  (forall b, ~ in_page c b -> ld8 (k_mem s') b = ld8 (k_mem s) b) ->
  uspace s' root T U fl.
Proof.
  intros Hu (Hc & Hfl & Ht & HU) Hf Hout. pose proof (us_ok _ _ _ _ _ Hu) as (Hk & Hwf & Hd).
  apply (uspace_ext s _ root T U fl); [done|..|done|].
  - intros p b Hp Hb. eapply Hout, tree_page_out; eassumption.
  - by apply (kmem_inv_write s _ fl c Hk); [|..|apply Hc|].
  - intros v pa HUv. by eapply us_not_free.
Qed.
(** Taking a page makes it spare. *)
Lemma uspace_kalloc s root T U fl c :
  uspace s root T U (c :: fl) ->
  uspace (kalloc_state s c) root T U fl /\ spare T U fl c.
Proof.
  intros Hu. pose proof (us_ok _ _ _ _ _ Hu) as (Hk & Hwf & Hd).
  pose proof Hk as [(_ & Hc & _) Hnd]. apply NoDup_cons in Hnd as [Hcfl _].
  assert (Htc : ~ tree_has T c) by (intros Hh; apply (Hd c Hh); left).
  split; [|split_and!; try done; intros v HU; apply (us_not_free _ _ _ _ _ v c Hu HU); left].
  apply (uspace_ext s _ root T U (c :: fl)); [done|..].
  - intros p b Hp Hb. eapply kalloc_state_out, tree_page_out; eassumption.
  - by apply kalloc_inv.
  - intros p Hp Hin. apply (Hd p Hp). by right.
  - intros v pa HU Hin. apply (us_not_free _ _ _ _ _ v pa Hu HU). by right.
Qed.

(** Storing the leaf entry of user page [v]. *)
Lemma user_store s root T fl v p e :
  vm_ok s root T fl -> 0 <= v < ULIM -> leaf_page T (v * PGSIZE) = Some p ->
  let s' := pte_stored s (p + 8 * PX 0 (v * PGSIZE)) e in
  vm_ok s' root T fl /\ vm_grow s s' T T fl fl /\
  (forall v', 0 <= v' < ULIM -> pte_of T (k_mem s') (v' * PGSIZE) =
     if decide (v' = v) then u64 e else pte_of T (k_mem s) (v' * PGSIZE)).
Proof.
  intros Hok Hv Hp. destruct (user_va v Hv) as [Hva _].
  destruct (vm_store s root T fl (v * PGSIZE) p e Hok Hva Hp) as (Hok' & Hpte & Hg).
  split; [done|]. split; [done|]. intros v' Hv'. destruct (user_va v' Hv') as [Hva' _].
  rewrite Hpte by done. rewrite !Z.div_mul by done. done.
Qed.

(** ** uvmunmap *)

Lemma uspace_valid s root T U fl v :
  uspace s root T U fl -> 0 <= v < ULIM ->
  (has (pte_of T (k_mem s) (v * PGSIZE)) PTE_V = true <-> is_Some (U !! v)).
Proof.
  intros Hu Hv. destruct (U !! v) as [pa|] eqn:HU.
  - destruct (us_pte _ _ _ _ _ Hu v pa HU) as [-> _]. split; [by eexists|done].
  - rewrite (us_none _ _ _ _ _ Hu v Hv HU). split; [done|]. by intros [? ?].
Qed.

(** Freeing the page mapped at [v] and clearing its entry. *)
Lemma uspace_unmap s root T U fl v pa p :
  uspace s root T U fl -> U !! v = Some pa -> leaf_page T (v * PGSIZE) = Some p ->
  let s' := pte_stored (kfree_state s pa) (p + 8 * PX 0 (v * PGSIZE)) 0 in
  uspace s' root T (delete v U) (pa :: fl) /\
  (forall b, (forall q, tree_has T q \/ q = pa -> ~ in_page q b) -> ld8 (k_mem s') b = ld8 (k_mem s) b) /\
  (forall va, 0 <= va < MAXVA -> va / PGSIZE <> v -> pte_of T (k_mem s') va = pte_of T (k_mem s) va).
Proof.
  intros Hu HU Hp s'. destruct (us_page _ _ _ _ _ Hu v pa HU) as (Hok & Hfl & Ht).
  pose proof (us_dom _ _ _ _ _ Hu v pa HU) as Hv.
  destruct (vm_kfree s root T fl pa (us_ok _ _ _ _ _ Hu) Hok Hfl Ht) as [Hok1 Hpte1].
  destruct (user_va v Hv) as [Hva _].
  destruct (vm_store (kfree_state s pa) root T (pa :: fl) (v * PGSIZE) p 0 Hok1 Hva Hp) as (Hok2 & Hpte2 & Hg2).
  fold s' in Hok2, Hg2, Hpte2. rewrite Z.div_mul in Hpte2 by done.
  assert (Hpte : forall va, 0 <= va < MAXVA -> va / PGSIZE <> v -> pte_of T (k_mem s') va = pte_of T (k_mem s) va).
  { intros va Hva' Hne. rewrite Hpte2 by done. by rewrite decide_False, Hpte1. }
  split; [|split; [|done]].
  - split; [done| | | | |]; setoid_rewrite lookup_delete_Some || idtac.
    + intros v' pa' [_ HU']. by eapply (us_dom _ _ _ _ _ Hu).
    + intros v' pa' [Hne HU']. destruct (us_page _ _ _ _ _ Hu v' pa' HU') as (? & Hfl' & ?).
      split_and!; [done| |done]. intros [->|?]%elem_of_cons; [|done].
      apply Hne. by eapply (us_inj _ _ _ _ _ Hu).
    + intros v' pa' [Hne HU']. rewrite Hpte; [by apply (us_pte _ _ _ _ _ Hu)| |by rewrite Z.div_mul].
      by eapply user_va, (us_dom _ _ _ _ _ Hu).
    + intros v1 v2 pa' [_ H1] [_ H2]. by eapply (us_inj _ _ _ _ _ Hu).
    + intros v' Hv' HU'. destruct (decide (v' = v)) as [->|Hne].
      { rewrite Hpte2 by done. by rewrite decide_True by (by rewrite Z.div_mul). }
      rewrite Hpte by (by apply user_va || by rewrite Z.div_mul). apply (us_none _ _ _ _ _ Hu); [done|]. by rewrite lookup_delete_ne in HU'.
  - intros b Hb. rewrite (vg_frame _ _ _ _ _ _ Hg2), kfree_state_out; [done|..].
    + apply Hb. by right.
    + intros q Hq. apply Hb. by left.
Qed.
(** The mappings outside the pages [lo, hi). *)
Definition uout (lo hi : Z) (U : umap) : umap := filter (fun x : Z * Z => ~ (lo <= x.1 < hi)) U.
Lemma lookup_uout lo hi U v : uout lo hi U !! v = if decide (lo <= v < hi) then None else U !! v.
Proof.
  apply option_eq. intros pa. unfold uout. rewrite map_lookup_filter_Some. cbn.
  case_decide; naive_solver.
Qed.

(** What unmapping the pages [lo, hi) does besides restricting the map. *)
Record unmapped (s s' : kstate) (T : tree) (U : umap) (fl fl' : list Z) (lo hi : Z) : Prop := {
  um_free : exists freed, fl' = freed ++ fl /\
    forall pa, pa ∈ freed <-> exists v, lo <= v < hi /\ U !! v = Some pa;
  um_frame : forall b,
    (forall q, tree_has T q \/ (exists v, lo <= v < hi /\ U !! v = Some q) -> ~ in_page q b) ->
    ld8 (k_mem s') b = ld8 (k_mem s) b;
  um_pte : forall va, 0 <= va < MAXVA -> ~ (lo <= va / PGSIZE < hi) ->
    pte_of T (k_mem s') va = pte_of T (k_mem s) va;
  um_only : mem_only s s'
}.
Lemma unmapped_refl s T U fl lo hi :
  (forall v, lo <= v < hi -> U !! v = None) -> unmapped s s T U fl fl lo hi.
Proof.
  intros Hn. split; [|done..|apply mem_only_refl].
  exists []. split; [done|]. intros pa. rewrite elem_of_nil. split; [done|].
  intros (v & Hv & HU). rewrite (Hn v Hv) in HU. done.
Qed.
Lemma unmapped_trans s1 s2 s3 T U fl1 fl2 fl3 lo mid hi :
  lo <= mid <= hi ->
  unmapped s1 s2 T U fl1 fl2 lo mid -> unmapped s2 s3 T (uout lo mid U) fl2 fl3 mid hi ->
  unmapped s1 s3 T U fl1 fl3 lo hi.
Proof.
  intros Hle [(f1 & -> & F1) B1 P1 O1] [(f2 & -> & F2) B2 P2 O2].
  assert (Hcase : forall q, (exists v, lo <= v < hi /\ U !! v = Some q) <->
            (exists v, lo <= v < mid /\ U !! v = Some q) \/
            (exists v, mid <= v < hi /\ uout lo mid U !! v = Some q)).
  { intros q. setoid_rewrite lookup_uout. split.
    - intros (v & Hv & HU). destruct (decide (v < mid)); [left|right]; exists v; [split; [lia|done]|].
      rewrite decide_False by lia. split; [lia|done].
    - intros [(v & Hv & HU)|(v & Hv & HU)]; exists v; [split; [lia|done]|].
      rewrite decide_False in HU by lia. split; [lia|done]. }
  split.
  - exists (f2 ++ f1). split; [by rewrite app_assoc|]. intros pa. rewrite elem_of_app, F1, F2, Hcase. tauto.
  - intros b Hb. rewrite B2, B1; [done| |]; intros q Hq; apply Hb; rewrite Hcase; tauto.
  - intros v Hv Hn. rewrite P2, P1 by (done || lia). done.
  - by eapply mem_only_trans.
Qed.

Lemma uvmunmap_page_spec s root T U fl v :
  uspace s root T U fl -> 0 <= v < ULIM ->
  exists s' fl', uvmunmap_page root (v * PGSIZE) true s = Ret tt s' /\
    uspace s' root T (uout v (v + 1) U) fl' /\ unmapped s s' T U fl fl' v (v + 1).
Proof.
  intros Hu Hv. destruct (user_va v Hv) as [Hva _]. pose proof (us_ok _ _ _ _ _ Hu) as (Hk & Hwf & Hd).
  assert (Hdel : uout v (v + 1) U = delete v U).
  { apply map_eq. intros x. rewrite lookup_uout, lookup_delete. repeat case_decide; done || lia. }
  rewrite Hdel. unfold uvmunmap_page. rewrite (bind_ret _ _ _ _ _ (walk_find s root T _ Hwf (proj2 Hva))).
  assert (Hskip : has (pte_of T (k_mem s) (v * PGSIZE)) PTE_V = false ->
            uspace s root T (delete v U) fl /\ unmapped s s T U fl fl v (v + 1)).
  { intros Hn. assert (HU : U !! v = None).
    { apply eq_None_not_Some. intros Hs. apply (uspace_valid _ _ _ _ _ _ Hu Hv) in Hs. congruence. }
    rewrite delete_id by done. split; [done|]. apply unmapped_refl. intros x Hx. by replace x with v by lia. }
  destruct (leaf_page T (v * PGSIZE)) as [p|] eqn:Hp.
  - destruct (leaf_addr_some _ _ _ _ _ Hwf Hp) as (Haddr & Hnz & Hld).
    destruct (Z.eqb_spec (leaf_addr T (v * PGSIZE)) 0); [done|]. unfold pte_get. run. rewrite Hld.
    destruct (has (pte_of T (k_mem s) (v * PGSIZE)) PTE_V) eqn:Hval; cbn [negb].
    + destruct (proj1 (uspace_valid _ _ _ _ _ _ Hu Hv) Hval) as [pa HU].
      destruct (us_pte _ _ _ _ _ Hu v pa HU) as [_ ->].
      destruct (us_page _ _ _ _ _ Hu v pa HU) as (Hok & _ & _). rewrite (kfree_eq s pa Hok), Haddr.
      destruct (uspace_unmap s root T U fl v pa p Hu HU Hp) as (Hu' & Hout & Hpte).
      eexists _, (pa :: fl). split; [reflexivity|]. split; [exact Hu'|]. split.
      * exists [pa]. split; [done|]. intros q. rewrite list_elem_of_singleton. split.
        { intros ->. exists v. split; [lia|done]. }
        intros (x & Hx & HUx). replace x with v in HUx by lia. congruence.
      * intros b Hb. apply Hout. intros q [Hq| ->]; apply Hb; [by left|].
        right. exists v. split; [lia|done].
      * intros va' Hva' Hne. apply Hpte; lia.
      * eexists _, _. reflexivity.
    + exists s, fl. split; [done|]. by apply Hskip.
  - unfold leaf_addr. rewrite Hp. exists s, fl. split; [done|]. apply Hskip. unfold pte_of. by rewrite Hp.
Qed.

Lemma uvmunmap_loop_spec n fuel s root T U fl v :
  uspace s root T U fl -> 0 <= v -> v + Z.of_nat n <= ULIM -> (n < fuel)%nat ->
  exists s' fl', uvmunmap_loop fuel root (v * PGSIZE) ((v + Z.of_nat n) * PGSIZE) true s = Ret tt s' /\
    uspace s' root T (uout v (v + Z.of_nat n) U) fl' /\
    unmapped s s' T U fl fl' v (v + Z.of_nat n).
Proof.
  revert fuel s U fl v. induction n as [|n IH]; intros fuel s U fl v Hu Hv Hlim Hf;
    (destruct fuel as [|fuel]; [lia|]); cbn [uvmunmap_loop].
  - destruct (Z.ltb_spec (v * PGSIZE) ((v + Z.of_nat 0) * PGSIZE)); [page_lia|].
    exists s, fl. split; [done|]. split; [|apply unmapped_refl; lia].
    replace (uout v (v + Z.of_nat 0) U) with U; [done|]. apply map_eq. intros x.
    rewrite lookup_uout, decide_False by lia. done.
  - destruct (Z.ltb_spec (v * PGSIZE) ((v + Z.of_nat (S n)) * PGSIZE)); [|page_lia].
    destruct (uvmunmap_page_spec s root T U fl v Hu ltac:(lia)) as (s1 & fl1 & E1 & Hu1 & Hm1).
    rewrite (bind_ret _ _ _ _ _ E1). rewrite u64_small.
    2:{ unfold ULIM in Hlim. change (TRAPFRAME / PGSIZE) with 67108862 in Hlim. page_lia. }
    replace (v * PGSIZE + PGSIZE) with ((v + 1) * PGSIZE) by page_lia.
    replace (v + Z.of_nat (S n)) with (v + 1 + Z.of_nat n) in * by lia.
    destruct (IH fuel s1 _ fl1 (v + 1) Hu1) as (s2 & fl2 & E2 & Hu2 & Hm2); [lia..|].
    exists s2, fl2. split; [done|]. split; [|by eapply unmapped_trans; [|exact Hm1|exact Hm2]; lia].
    replace (uout v (v + 1 + Z.of_nat n) U) with (uout (v + 1) (v + 1 + Z.of_nat n) (uout v (v + 1) U));
      [done|]. apply map_eq. intros x. rewrite !lookup_uout. repeat case_decide; done || lia.
Qed.
Lemma uvmunmap_spec n s root T U fl v :
  uspace s root T U fl -> 0 <= v -> 0 <= n -> v + n <= ULIM ->
  exists s' fl', uvmunmap root (v * PGSIZE) n true s = Ret tt s' /\
    uspace s' root T (uout v (v + n) U) fl' /\ unmapped s s' T U fl fl' v (v + n).
Proof.
  intros Hu Hv Hn Hlim. unfold uvmunmap. rewrite Z.mod_mul by done. change (negb (0 =? 0)) with false.
  rewrite u64_small.
  2:{ unfold ULIM in Hlim. change (TRAPFRAME / PGSIZE) with 67108862 in Hlim. page_lia. }
  destruct (uvmunmap_loop_spec (Z.to_nat n) (S (Z.to_nat n)) s root T U fl v Hu)
    as (s' & fl' & E & Hu' & Hm); [lia..|].
  rewrite Z2Nat.id in * by lia. replace (v * PGSIZE + n * PGSIZE) with ((v + n) * PGSIZE) by lia. eauto.
Qed.
(** ** Mapping a page *)

Lemma vm_grow_old s s' T T' fl fl' q :
  vm_grow s s' T T' fl fl' -> q ∉ fl -> ~ tree_has T q -> q ∉ fl' /\ ~ tree_has T' q.
Proof.
  intros Hg Hfl Ht. destruct (vg_free _ _ _ _ _ _ Hg) as (used & -> & _).
  split; [intros Hq; apply Hfl, elem_of_app; by right|].
  by intros [?|?]%(vg_new _ _ _ _ _ _ Hg).
Qed.
(** A growing page table keeps the address space when the entries stay. *)
Lemma uspace_grow s s' root T T' U fl fl' :
  uspace s root T U fl -> vm_ok s' root T' fl' -> vm_grow s s' T T' fl fl' ->
  (forall v, 0 <= v < ULIM -> pte_of T' (k_mem s') (v * PGSIZE) = pte_of T (k_mem s) (v * PGSIZE)) ->
  uspace s' root T' U fl'.
Proof.
  intros Hu Hok Hg Hpte. split; [done|apply Hu| | |apply Hu|].
  - intros v pa HU. destruct (us_page _ _ _ _ _ Hu v pa HU) as (Hpg & Hfl & Ht).
    by destruct (vm_grow_old _ _ _ _ _ _ pa Hg Hfl Ht).
  - intros v pa HU. rewrite Hpte by (by eapply (us_dom _ _ _ _ _ Hu)). by apply (us_pte _ _ _ _ _ Hu).
  - intros v Hv HU. rewrite Hpte by done. by apply (us_none _ _ _ _ _ Hu).
Qed.
Lemma spare_grow s s' T T' U fl fl' c :
  vm_grow s s' T T' fl fl' -> spare T U fl c -> spare T' U fl' c.
Proof.
  intros Hg (Hc & Hfl & Ht & HU). destruct (vm_grow_old _ _ _ _ _ _ c Hg Hfl Ht). by split_and!.
Qed.

(** A new valid entry for a spare page extends the map. *)
Lemma uspace_insert s s' root T T' U fl fl' v c :
  uspace s root T U fl -> spare T U fl c -> U !! v = None -> 0 <= v < ULIM ->
  vm_ok s' root T' fl' -> vm_grow s s' T T' fl fl' ->
  has (pte_of T' (k_mem s') (v * PGSIZE)) PTE_V = true ->
  PTE2PA (pte_of T' (k_mem s') (v * PGSIZE)) = c ->
  (forall v', 0 <= v' < ULIM -> v' <> v ->
     pte_of T' (k_mem s') (v' * PGSIZE) = pte_of T (k_mem s) (v' * PGSIZE)) ->
  uspace s' root T' (<[v := c]> U) fl'.
Proof.
  intros Hu (Hcok & Hcfl & Hct & HcU) HU Hv Hok' Hg HV HP Hpte.
  destruct (vm_grow_old _ _ _ _ _ _ c Hg Hcfl Hct) as [Hcfl' Hct'].
  split; [done|..].
  - intros x pa. rewrite lookup_insert_Some. intros [[<- _]|[_ Hx]]; [done|]. by eapply (us_dom _ _ _ _ _ Hu).
  - intros x pa. rewrite lookup_insert_Some. intros [[<- <-]|[_ Hx]]; [done|].
    destruct (us_page _ _ _ _ _ Hu x pa Hx) as (Hpg & Hfl & Ht).
    by destruct (vm_grow_old _ _ _ _ _ _ pa Hg Hfl Ht).
  - intros x pa. rewrite lookup_insert_Some. intros [[<- <-]|[Hne Hx]]; [done|].
    rewrite Hpte by (done || by eapply (us_dom _ _ _ _ _ Hu)). by apply (us_pte _ _ _ _ _ Hu).
  - intros x y pa. rewrite !lookup_insert_Some. intros [[<- <-]|[Hne Hx]] [[<- ?]|[Hne' Hy]]; try done.
    + by destruct (HcU y).
    + subst. by destruct (HcU x).
    + by eapply (us_inj _ _ _ _ _ Hu).
  - intros x Hx. rewrite lookup_insert_None. intros [HUx Hne]. rewrite Hpte by done.
    by apply (us_none _ _ _ _ _ Hu).
Qed.

Lemma uspace_map s root T U fl v c perm :
  uspace s root T U fl -> spare T U fl c -> U !! v = None -> 0 <= v < ULIM -> 0 <= perm < 1024 ->
  exists s' T' fl' r, mappages root (v * PGSIZE) PGSIZE c perm s = Ret r s' /\
    vm_grow s s' T T' fl fl' /\ (length fl <= length fl' + 2)%nat /\
    (forall va, 0 <= va < MAXVA -> va / PGSIZE <> v -> pte_of T' (k_mem s') va = pte_of T (k_mem s) va) /\
    ((r = 0 /\ uspace s' root T' (<[v := c]> U) fl' /\
      pte_of T' (k_mem s') (v * PGSIZE) = leaf_entry c perm) \/
     (r = -1 /\ fl' = [] /\ (length fl < 2)%nat /\ uspace s' root T' U fl' /\ spare T' U fl' c)).
Proof.
  intros Hu Hc HU Hv Hperm. destruct (user_va v Hv) as [Hva Hvam].
  pose proof Hc as (Hcok & Hcfl & Hct & HcU). pose proof (page_ok_pos c Hcok) as Hc0.
  assert (Hc54 : c + PGSIZE <= 2 ^ 54) by (destruct Hcok; page_lia).
  destruct (mappages_spec 1 s root T fl (v * PGSIZE) PGSIZE c perm)
    as (s' & T' & fl' & k & E & Hok' & Hg & Hk & Hcn & Hend & Hpte); try done; try lia.
  { apply us_ok with (1 := Hu). }
  { unfold ULIM in Hv. change (TRAPFRAME / PGSIZE) with 67108862 in Hv.
    change MAXVA with 274877906944. page_lia. }
  { apply Hcok. }
  { intros a Ha. rewrite <- (us_none _ _ _ _ _ Hu v Hv HU). f_equal. unfold pte_of, leaf_page.
    destruct (px_same a (v * PGSIZE)) as (-> & -> & ->); [lia..| |done].
    rewrite Z.div_mul by done. unfold PGSIZE in *. div_lia. }
  assert (Hpte' : forall v', 0 <= v' < ULIM -> pte_of T' (k_mem s') (v' * PGSIZE) =
            if decide (v' = v /\ k = 1) then leaf_entry c perm else pte_of T (k_mem s) (v' * PGSIZE)).
  { intros v' Hv'. rewrite Hpte by (by apply user_va). unfold mapped.
    repeat case_decide; try done; try page_lia.
    rewrite Z.div_mul by done. f_equal. page_lia. }
  exists s', T', fl', (if decide (k = 1) then 0 else -1). split; [done|]. split; [done|].
  split; [case_decide; lia|]. split.
  { intros va Hva' Hne. rewrite Hpte by done. unfold mapped. rewrite decide_False; [done|].
    intros Hin. apply Hne. unfold PGSIZE in *. div_lia. }
  destruct (decide (k = 1)) as [->|Hk1].
  - left. split; [done|]. assert (Hpv : pte_of T' (k_mem s') (v * PGSIZE) = leaf_entry c perm).
    { rewrite Hpte' by done. by rewrite decide_True. }
    split; [|done].
    destruct (leaf_entry_spec c perm) as (HV & HP & _); [page_lia|apply Hcok|done|].
    apply (uspace_insert s s' root T T' U fl fl' v c); try done; [by rewrite Hpv..|].
    intros v' Hv' Hne. rewrite Hpte' by done. by rewrite decide_False by tauto.
  - right. split; [done|]. destruct (Hend ltac:(lia)) as [-> _]. split; [done|].
    cbn [length] in Hcn. split; [lia|]. split.
    + apply (uspace_grow s s' root T T' U fl [] Hu Hok' Hg). intros v' Hv'. rewrite Hpte' by done.
      by rewrite decide_False by tauto.
    + by eapply spare_grow.
Qed.
(** ** uvmdealloc *)

(** The number of pages that hold the first [sz] bytes. *)
Definition pgs (sz : Z) : Z := PGROUNDUP sz / PGSIZE.

Lemma pgroundup_pgs sz :
  0 <= sz <= TRAPFRAME -> PGROUNDUP sz = pgs sz * PGSIZE /\ 0 <= pgs sz <= ULIM /\
  sz <= pgs sz * PGSIZE < sz + PGSIZE.
Proof.
  change TRAPFRAME with 274877898752. intros Hsz. unfold pgs.
  destruct (pgroundup_bounds sz) as [Hb Hm]; [page_lia..|].
  assert (E : PGROUNDUP sz = PGROUNDUP sz / PGSIZE * PGSIZE) by (unfold PGSIZE in *; div_lia).
  unfold ULIM. change (TRAPFRAME / PGSIZE) with 67108862. unfold PGSIZE in *. div_lia.
Qed.
Lemma pgs_mono sz sz' : 0 <= sz <= sz' -> sz' <= TRAPFRAME -> pgs sz <= pgs sz'.
Proof.
  intros H1 H2. destruct (pgroundup_pgs sz) as (_ & _ & ?); [lia|].
  destruct (pgroundup_pgs sz') as (_ & _ & ?); [lia|]. unfold PGSIZE in *. lia.
Qed.

Lemma uout_empty lo hi U : hi <= lo -> uout lo hi U = U.
Proof. intros Hle. apply map_eq. intros x. rewrite lookup_uout, decide_False by lia. done. Qed.

Lemma uvmdealloc_spec s root T U fl oldsz newsz :
  uspace s root T U fl -> 0 <= oldsz <= TRAPFRAME -> 0 <= newsz <= TRAPFRAME ->
  exists s' fl', uvmdealloc root oldsz newsz s = Ret (Z.min oldsz newsz) s' /\
    uspace s' root T (uout (pgs newsz) (pgs oldsz) U) fl' /\
    unmapped s s' T U fl fl' (pgs newsz) (pgs oldsz).
Proof.
  intros Hu Ho Hn. unfold uvmdealloc. destruct (Z.leb_spec oldsz newsz).
  { rewrite Z.min_l by lia. exists s, fl. split; [done|].
    pose proof (pgs_mono oldsz newsz ltac:(lia) ltac:(lia)).
    rewrite uout_empty by lia. split; [done|]. apply unmapped_refl. lia. }
  rewrite Z.min_r by lia. destruct (pgroundup_pgs oldsz Ho) as (-> & Hpo & Hpo').
  destruct (pgroundup_pgs newsz) as (-> & Hpn & Hpn'); [lia|].
  pose proof (pgs_mono newsz oldsz ltac:(lia) ltac:(lia)) as Hmono.
  destruct (Z.ltb_spec (pgs newsz * PGSIZE) (pgs oldsz * PGSIZE)).
  - rewrite <- Z.mul_sub_distr_r, Z.div_mul by done.
    change ULIM with 67108862 in *. rewrite i32_small, u64_small by lia.
    destruct (uvmunmap_spec (pgs oldsz - pgs newsz) s root T U fl (pgs newsz) Hu)
      as (s' & fl' & E & Hu' & Hm); [lia|lia|change ULIM with 67108862; lia|].
    rewrite (bind_ret _ _ _ _ _ E). replace (pgs newsz + (pgs oldsz - pgs newsz)) with (pgs oldsz) in * by lia.
    by exists s', fl'.
  - exists s, fl. split; [done|]. assert (pgs oldsz <= pgs newsz) by page_lia.
    rewrite uout_empty by lia. split; [done|]. apply unmapped_refl. lia.
Qed.
(** ** uvmalloc *)

(** A page mapped by uvmalloc: fresh, zeroed, with the requested permissions. *)
Definition zero_page (s : kstate) (pa : Z) : Prop :=
  forall b, in_page pa b -> ld8 (k_mem s) b = 0.

(** uvmalloc's loop succeeded on the pages [v, v + n). *)
Record grown (s s' : kstate) (T T' : tree) (U U' : umap) (fl fl' : list Z) (v n perm : Z) : Prop := {
  gr_out : forall x, ~ (v <= x < v + n) -> U' !! x = U !! x;
  gr_in : forall x, v <= x < v + n -> exists pa, U' !! x = Some pa /\ pa ∈ fl /\
    pte_of T' (k_mem s') (x * PGSIZE) = leaf_entry pa perm /\ zero_page s' pa;
  gr_pte : forall va, 0 <= va < MAXVA -> ~ (v <= va / PGSIZE < v + n) ->
    pte_of T' (k_mem s') va = pte_of T (k_mem s) va;
  gr_tree : T ⊆ T' /\ forall q, tree_has T' q -> tree_has T q \/ q ∈ fl;
  gr_free : forall q, q ∈ fl <-> q ∈ fl' \/ (tree_has T' q /\ ~ tree_has T q) \/
    (exists x, v <= x < v + n /\ U' !! x = Some q);
  gr_frame : forall b, (forall q, tree_has T q \/ q ∈ fl -> ~ in_page q b) ->
    ld8 (k_mem s') b = ld8 (k_mem s) b;
  gr_count : Z.of_nat (length fl) <= Z.of_nat (length fl') + 3 * n;
  gr_only : mem_only s s'
}.

Lemma uvmalloc_page s root T U fl v c perm :
  uspace s root T U (c :: fl) -> U !! v = None -> 0 <= v < ULIM -> 0 <= perm < 1024 ->
  exists s' T' fl' r,
    (kmemset c 0 PGSIZE;; mappages root (v * PGSIZE) PGSIZE c perm) (kalloc_state s c) = Ret r s' /\
    ((r = 0 /\ uspace s' root T' (<[v := c]> U) fl' /\
      grown s s' T T' U (<[v := c]> U) (c :: fl) fl' v 1 perm) \/
     (r = -1 /\ fl' = [] /\ uspace s' root T' U fl' /\ spare T' U fl' c /\
      T ⊆ T' /\ (forall q, q ∈ fl -> tree_has T' q) /\ mem_only s s' /\ (length fl < 2)%nat)).
Proof.
  intros Hu HU Hv Hperm. destruct (uspace_kalloc s root T U fl c Hu) as [Hu1 Hsp].
  set (s1 := (kalloc_state s c) <| k_mem := memset (k_mem (kalloc_state s c)) c 0 PGSIZE |>).
  assert (Hu2 : uspace s1 root T U fl).
  { apply (uspace_write (kalloc_state s c) _ _ _ _ _ c Hu1 Hsp); [kproj|]. intros b Hb.
    cbn. rewrite ld8_memset by (unfold PGSIZE; lia). by rewrite decide_False. }
  assert (Hz1 : forall b, ld8 (k_mem s1) b = if decide (in_page c b) then 0 else ld8 (k_mem s) b).
  { intros b. cbn. rewrite ld8_memset by (unfold PGSIZE; lia). unfold in_page. case_decide; [done|].
    rewrite ld8_memset by (unfold PGSIZE; lia). by rewrite decide_False. }
  destruct (uspace_map s1 root T U fl v c perm Hu2 Hsp HU Hv Hperm)
    as (s' & T' & fl' & r & E & Hg & Hcn & Hpte & Hcase).
  pose proof (us_ok _ _ _ _ _ Hu) as (_ & Hwf & Hd). pose proof Hsp as (Hcok & Hcfl & Hct & _).
  assert (Hpte1 : forall va, pte_of T (k_mem s1) va = pte_of T (k_mem s) va).
  { apply (pt_ext _ _ root); [|done]. intros p b Hp Hb. rewrite Hz1, decide_False; [done|].
    eapply tree_page_out; eassumption. }
  assert (Honly : mem_only s s').
  { eapply mem_only_trans; [|apply (vg_only _ _ _ _ _ _ Hg)]. eexists _, _. reflexivity. }
  exists s', T', fl', r. split; [exact E|]. destruct Hcase as [(-> & Hu' & Hpv)|(-> & -> & Hlt & Hu' & Hsp')].
  2:{ right. split_and!; try done; [apply (vg_tree _ _ _ _ _ _ Hg)|].
      destruct (vg_free _ _ _ _ _ _ Hg) as (used & -> & Hused). by rewrite app_nil_r. }
  left. split; [done|]. split; [done|].
  assert (Hframe : forall b, (forall q, tree_has T' q -> ~ in_page q b) -> ~ in_page c b ->
            ld8 (k_mem s') b = ld8 (k_mem s) b).
  { intros b Hb Hcb. rewrite (vg_frame _ _ _ _ _ _ Hg) by done. rewrite Hz1. by rewrite decide_False. }
  split; try done.
  - intros x Hx. apply lookup_insert_ne. lia.
  - intros x Hx. replace x with v by lia. exists c. split; [apply lookup_insert_eq|].
    split; [left|]. split; [done|]. intros b Hb. rewrite (vg_frame _ _ _ _ _ _ Hg).
    { rewrite Hz1. by rewrite decide_True. }
    intros q Hq Hqb. apply (tree_page_out _ _ _ q b c (proj1 (proj2 (us_ok _ _ _ _ _ Hu'))) Hq Hqb Hcok); [|done].
    by apply (spare_grow _ _ _ _ _ _ _ _ Hg) in Hsp as (_ & _ & ? & _).
  - intros va Hva Hn. rewrite Hpte by lia. apply Hpte1.
  - split; [apply (vg_tree _ _ _ _ _ _ Hg)|]. intros q [?|?]%(vg_new _ _ _ _ _ _ Hg); [by left|].
    right. by right.
  - intros q. destruct (vg_free _ _ _ _ _ _ Hg) as (used & Hfl & Hused).
    pose proof (vg_new _ _ _ _ _ _ Hg q) as Hnew. specialize (Hused q). specialize (Hd q).
    rewrite elem_of_cons, Hfl, elem_of_app in *. split.
    + intros [->|[Hq|Hq]]; [|right; left; split; [by apply Hused|]|by left].
      { right. right. exists v. split; [lia|]. apply lookup_insert_eq. }
      intros Hh. apply Hd in Hh. tauto.
    + intros [Hq|[[Hq Hn]|(x & Hx & HUx)]]; [tauto|tauto|].
      replace x with v in HUx by lia. rewrite lookup_insert_eq in HUx. left. congruence.
  - intros b Hb. apply Hframe; [|apply Hb; right; left].
    intros q [?|?]%(vg_new _ _ _ _ _ _ Hg); apply Hb; [by left|right; by right].
  - cbn [length]. lia.
Qed.

Lemma grown_trans s1 s2 s3 root T1 T2 T3 U1 U2 U3 f1 f2 f3 v n perm :
  0 <= n -> uspace s2 root T2 U2 f2 -> uspace s3 root T3 U3 f3 ->
  grown s1 s2 T1 T2 U1 U2 f1 f2 v 1 perm -> grown s2 s3 T2 T3 U2 U3 f2 f3 (v + 1) n perm ->
  grown s1 s3 T1 T3 U1 U3 f1 f3 v (n + 1) perm.
Proof.
  intros Hn Hu2 Hu3 [O1 I1 P1 [S1 N1] F1 B1 L1 M1] [O2 I2 P2 [S2 N2] F2 B2 L2 M2].
  assert (Hf2 : forall q, q ∈ f2 -> q ∈ f1) by (intros q Hq; apply F1; by left).
  split.
  - intros x Hx. rewrite O2, O1 by lia. done.
  - intros x Hx. destruct (decide (x = v)) as [->|Hne].
    + destruct (I1 v ltac:(lia)) as (pa & HU & Hfl & Hpte & Hz). exists pa.
      pose proof (us_dom _ _ _ _ _ Hu2 v pa HU) as Hv.
      destruct (user_va v Hv) as [Hva _]. rewrite O2, P2 by (done || rewrite ?Z.div_mul by done; lia). split_and!; try done. intros b Hb. rewrite B2; [by apply Hz|].
      destruct (us_page _ _ _ _ _ Hu2 v pa HU) as ([Hm Hr] & Hnf & Hnt). intros q Hq Hqb.
      assert (Hqm : q `mod` PGSIZE = 0).
      { pose proof (us_ok _ _ _ _ _ Hu2) as ([Hch _] & Hwf & _). destruct Hq as [(π & Hq)|Hq].
        - by destruct (pt_page _ _ _ Hwf _ _ Hq) as [[? _] _].
        - apply chain_ok in Hch. rewrite Forall_forall in Hch. by destruct (Hch q Hq). }
      assert (q = pa) as -> by (by eapply in_page_inj). tauto.
    + destruct (I2 x ltac:(lia)) as (pa & HU & Hfl & ?). exists pa. split_and!; try tauto. by apply Hf2.
  - intros x Hx Hr. rewrite P2, P1 by lia. done.
  - split; [by transitivity T2|]. intros q [?|?]%N2; [by apply N1|]. right. by apply Hf2.
  - intros q. rewrite F1, F2. split.
    + intros [[Hq|[[Hq Hnq]|(x & Hx & Hq)]]|[[Hq Hnq]|(x & Hx & Hq)]].
      * by left.
      * right. left. split; [done|]. intros Hh. apply Hnq. by eapply tree_has_mono.
      * right. right. exists x. split; [lia|done].
      * right. left. split; [by eapply tree_has_mono|done].
      * right. right. exists x. split; [lia|]. rewrite O2 by lia. done.
    + intros [Hq|[[Hq Hnq]|(x & Hx & Hq)]]; [tauto| |].
      * destruct (N2 q Hq) as [Hq2|Hq2]; [tauto|]. apply F2 in Hq2. tauto.
      * destruct (decide (x = v)) as [->|Hne].
        { right. right. exists v. split; [lia|]. by rewrite O2 in Hq by lia. }
        left. right. right. exists x. split; [lia|done].
  - intros b Hb. rewrite B2, B1; [done|done|]. intros q [Hq|Hq]; apply Hb; [by apply N1|].
    right. by apply Hf2.
  - lia.
  - by eapply mem_only_trans.
Qed.
Lemma grown_refl s T U fl v perm : grown s s T T U U fl fl v 0 perm.
Proof.
  split; [done|lia|done|split; [done|by left]| |done|lia|apply mem_only_refl].
  intros q. split; [by left|]. intros [?|[[? ?]|(x & Hx & _)]]; [done|done|lia].
Qed.

(** uvmalloc failed: the address space is as before, and every page it took
    is free again, or has become a page-table page. *)
Record rolled_back (s s' : kstate) (T T' : tree) (U : umap) (fl fl' : list Z) (lo v : Z) : Prop := {
  rb_tree : T ⊆ T';
  rb_leak : forall q, q ∈ fl \/ (exists x, lo <= x < v /\ U !! x = Some q) ->
    q ∈ fl' \/ tree_has T' q;
  rb_only : mem_only s s'
}.

Lemma pgs_mul v : 0 <= v <= ULIM -> pgs (v * PGSIZE) = v.
Proof.
  intros Hv. change ULIM with 67108862 in Hv. unfold pgs.
  rewrite pgroundup_id; [by apply Z.div_mul|page_lia|page_lia|by apply Z.mod_mul].
Qed.

(** The rollback itself. *)
Lemma uvmalloc_undo s root T U fl lo v :
  uspace s root T U fl -> 0 <= lo <= v -> v <= ULIM ->
  exists s' fl', uvmdealloc root (v * PGSIZE) (lo * PGSIZE) s = Ret (lo * PGSIZE) s' /\
    uspace s' root T (uout lo v U) fl' /\ rolled_back s s' T T U fl fl' lo v.
Proof.
  intros Hu Hlo Hv. assert (HT : forall x, 0 <= x <= ULIM -> 0 <= x * PGSIZE <= TRAPFRAME).
  { change ULIM with 67108862. change TRAPFRAME with 274877898752. page_lia. }
  destruct (uvmdealloc_spec s root T U fl (v * PGSIZE) (lo * PGSIZE) Hu) as (s' & fl' & E & Hu' & Hm);
    [apply HT; lia..|].
  rewrite !pgs_mul in * by lia. rewrite Z.min_r in E by page_lia.
  exists s', fl'. split; [done|]. split; [done|]. destruct Hm as [(freed & -> & Hf) _ _ Ho].
  split; [done| |done]. intros q Hq. left. apply elem_of_app. rewrite Hf. tauto.
Qed.

Lemma uvmalloc_loop_spec n fuel s root T U fl lo v newsz xperm :
  let perm := Z.lor (Z.lor PTE_R PTE_U) xperm in
  uspace s root T U fl -> 0 <= lo <= v -> 0 <= newsz <= TRAPFRAME -> v + Z.of_nat n = pgs newsz ->
  (n < fuel)%nat -> (forall x, v <= x < v + Z.of_nat n -> U !! x = None) -> 0 <= perm < 1024 ->
  exists s' T' fl',
    (uvmalloc_loop fuel root (v * PGSIZE) (lo * PGSIZE) newsz xperm s = Ret newsz s' /\
     exists U', uspace s' root T' U' fl' /\ grown s s' T T' U U' fl fl' v (Z.of_nat n) perm) \/
    (uvmalloc_loop fuel root (v * PGSIZE) (lo * PGSIZE) newsz xperm s = Ret 0 s' /\
     uspace s' root T' (uout lo v U) fl' /\ rolled_back s s' T T' U fl fl' lo v /\
     Z.of_nat (length fl) < 3 * Z.of_nat n).
Proof.
  intros perm. revert fuel s T U fl v.
  induction n as [|n IH]; intros fuel s T U fl v Hu Hlo Hsz Hv Hf HUn Hperm;
    (destruct fuel as [|fuel]; [lia|]); cbn [uvmalloc_loop];
    destruct (pgroundup_pgs newsz Hsz) as (_ & Hp & Hp').
  { destruct (Z.ltb_spec (v * PGSIZE) newsz); [page_lia|]. exists s, T, fl. left. split; [done|].
    exists U. split; [done|apply grown_refl]. }
  destruct (Z.ltb_spec (v * PGSIZE) newsz); [|page_lia].
  pose proof (us_ok _ _ _ _ _ Hu) as (Hk & _). destruct fl as [|c fl].
  { rewrite (bind_ret _ _ _ _ _ (kalloc_eq_empty s Hk)). cbn [Z.eqb].
    destruct (uvmalloc_undo s root T U [] lo v Hu Hlo ltac:(lia)) as (s' & fl' & E & Hu' & Hrb).
    exists s', T, fl'. right. rewrite (bind_ret _ _ _ _ _ E). split_and!; [done..|cbn; lia]. }
  rewrite (bind_ret _ _ _ _ _ (kalloc_eq s c fl Hk)).
  destruct Hk as [(_ & Hc & _) _]. pose proof (page_ok_pos c Hc).
  destruct (Z.eqb_spec c 0); [lia|].
  destruct (uvmalloc_page s root T U fl v c perm Hu) as (s1 & T1 & fl1 & r & E & Hcase);
    [apply HUn; lia|lia|done|].
  unfold kmemset in E |- *. run_in E. run. fold perm. rewrite E. cbv beta iota.
  destruct Hcase as [(-> & Hu1 & Hg1)|(-> & -> & Hu1 & Hsp & HT1 & Hall & Ho1 & Hlt)]; cbn [Z.eqb negb].
  - rewrite u64_small by (change ULIM with 67108862 in *; page_lia).
    replace (v * PGSIZE + PGSIZE) with ((v + 1) * PGSIZE) by page_lia.
    destruct (IH fuel s1 T1 (<[v := c]> U) fl1 (v + 1) Hu1) as (s' & T' & fl' & Hcase); try done; try lia.
    { intros x Hx. rewrite lookup_insert_ne by lia. apply HUn. lia. }
    exists s', T', fl'. destruct Hcase as [(E' & U' & Hu' & Hg')|(E' & Hu' & [R1 R2 R3] & Hlt)]; [left|right].
    + split; [done|]. exists U'. split; [done|].
      replace (Z.of_nat (S n)) with (Z.of_nat n + 1) by lia.
      by eapply grown_trans; [lia|exact Hu1|exact Hu'|..].
    + split; [done|]. split.
      { replace (uout lo v U) with (uout lo (v + 1) (<[v := c]> U)); [done|]. apply map_eq. intros x.
        rewrite !lookup_uout. destruct (decide (x = v)) as [->|].
        - rewrite decide_True, decide_False by lia. symmetry. apply HUn. lia.
        - rewrite lookup_insert_ne by done. repeat case_decide; done || lia. }
      destruct Hg1 as [O1 I1 P1 [S1 N1] F1 B1 L1 M1]. split; [|lia]. split; [by transitivity T1| |by eapply mem_only_trans].
      intros q [Hq|(x & Hx & Hq)].
      * apply F1 in Hq as [Hq|[[Hq _]|(x & Hx & Hq)]]; [apply R2; by left|right; by eapply tree_has_mono|].
        apply R2. right. exists x. split; [lia|done].
      * apply R2. right. exists x. rewrite lookup_insert_ne by lia. split; [lia|done].
  - rewrite (kfree_eq s1 c Hc). cbv beta iota.
    pose proof (uspace_kfree s1 root T1 U [] c Hu1 Hsp) as Hu2.
    destruct (uvmalloc_undo _ root T1 U [c] lo v Hu2 Hlo ltac:(lia)) as (s' & fl' & E' & Hu' & [R1 R2 R3]).
    rewrite E'. exists s', T1, fl'. right. split; [done|]. split; [done|]. split; [|cbn [length]; lia]. split; [done| |].
    + intros q [[->|Hq]%elem_of_cons|Hq]; [|right; by apply Hall|]; apply R2; [left; left|by right].
    + eapply mem_only_trans; [exact Ho1|]. eapply mem_only_trans; [|exact R3]. eexists _, _. reflexivity.
Qed.
End UserSpace.
