(* ===== verification/FreeWalk.v ===== *)
(** * kernel/vm.c and proc.c: taking an address space down

    freewalk gives back every page of a page table whose leaf entries are
    cleared; uvmfree and proc_freepagetable give back the whole address space
    of a process. *)

From S2P Require Import Prelude Memory State Kalloc VM PageTable VMSpec UserSpace.
Import Mem KString.

Section FreeWalk.
Context `{KernelImage}.
Abbreviation tree := (gmap (list Z) Z).

(** The pages of the table below the path [π]. *)
Definition under (T : tree) (π : list Z) (q : Z) : Prop := exists π', T !! (π ++ π') = Some q.

Lemma under_has T π q : under T π q -> tree_has T q.
Proof. intros [π' E]. by eexists. Qed.
Lemma under_root T q : under T [] q <-> tree_has T q.
Proof. done. Qed.
Lemma under_child T π i q : under T (π ++ [i]) q -> under T π q.
Proof. intros [π' E]. exists (i :: π'). by rewrite <- app_assoc in E. Qed.
Lemma pt_prefix m root T π π' q :
  pt_wf m root T -> T !! (π ++ π') = Some q -> is_Some (T !! π).
Proof.
  intros Hwf. revert q. induction π' as [|i π' IH] using rev_ind; intros q; [by rewrite app_nil_r; eexists|].
  rewrite app_assoc. intros E. destruct (pt_parent _ _ _ Hwf _ _ _ E) as [q' E']. by eapply IH.
Qed.
(** A page below [π] is the one at [π] or is below one of its entries. *)
Lemma under_cases m root T π p q :
  pt_wf m root T -> T !! π = Some p ->
  under T π q <-> q = p \/ exists i, 0 <= i < 512 /\ under T (π ++ [i]) q.
Proof.
  intros Hwf Hp. split.
  - intros [[|i π'] E]; [left; rewrite app_nil_r in E; congruence|right].
    exists i. change (i :: π') with ([i] ++ π') in E. rewrite app_assoc in E. destruct (pt_prefix _ _ _ (π ++ [i]) π' q Hwf E) as [c Ec].
    split; [apply (pt_index _ _ _ Hwf) in Ec; case_decide; lia|by exists π'].
  - intros [->|(i & _ & Hu)]; [exists []; by rewrite app_nil_r|by eapply under_child].
Qed.
(** Different paths of the same length have nothing in common below. *)
Lemma under_apart m root T π π' q :
  pt_wf m root T -> length π = length π' -> under T π q -> under T π' q -> π = π'.
Proof.
  intros Hwf Hl [π1 E1] [π2 E2]. pose proof (pt_inj _ _ _ Hwf _ _ _ E1 E2) as E.
  by apply app_inj_1 in E as [? _].
Qed.
Lemma under_self_apart m root T π p i :
  pt_wf m root T -> T !! π = Some p -> ~ under T (π ++ [i]) p.
Proof.
  intros Hwf Hp [π' E]. pose proof (pt_inj _ _ _ Hwf _ _ _ E Hp) as El.
  apply (f_equal length) in El. rewrite !length_app in El. cbn in El. lia.
Qed.

Lemma mem_only_stored s a v : mem_only s (pte_stored s a v).
Proof. exists (st64 (k_mem s) a v), (k_freelist s). by destruct s. Qed.
(** An entry that points to a table. *)
Lemma table_entry c :
  page_ok c ->
  has (Z.lor (PA2PTE c) PTE_V) PTE_V = true /\
  has (Z.lor (PA2PTE c) PTE_V) (Z.lor (Z.lor PTE_R PTE_W) PTE_X) = false /\ PTE2PA (Z.lor (PA2PTE c) PTE_V) = c.
Proof.
  intros Hok. destruct (page_ok_54 c Hok) as [Hr Hm]. rewrite !has_pte by done. split_and!; [done..|].
  by apply pte2pa_lor.
Qed.

Section Walk.
Context (m0 : mem) (root : Z) (T : tree).
Context (Hwf : pt_wf m0 root T).
Context (Hclear : forall π p i, T !! π = Some p -> length π = 2%nat -> 0 <= i < 512 ->
           has (ld64 m0 (p + 8 * i)) PTE_V = false).

(** The pages below [π] are as they were. *)
Definition intact (s : kstate) (π : list Z) : Prop :=
  forall q b, under T π q -> in_page q b -> ld8 (k_mem s) b = ld8 m0 b.
(** What freeing the pages of [P] does: they are on the free list, and nothing
    but the bytes of [D] has changed. *)
Record freed (s s' : kstate) (P D : Z -> Prop) (fl used : list Z) : Prop := {
  fd_inv : kmem_inv s' (used ++ fl);
  fd_used : forall q, q ∈ used <-> P q;
  fd_frame : forall b, (forall q, D q -> ~ in_page q b) -> ld8 (k_mem s') b = ld8 (k_mem s) b;
  fd_only : mem_only s s'
}.
Lemma tree_page_inj q q' b : tree_has T q -> tree_has T q' -> in_page q b -> in_page q' b -> q = q'.
Proof.
  intros [π E] [π' E'] Hb Hb'. destruct (pt_page _ _ _ Hwf _ _ E) as [[? _] _].
  destruct (pt_page _ _ _ Hwf _ _ E') as [[? _] _]. by eapply in_page_inj.
Qed.

Definition freewalk_entry (depth : nat) (pagetable i : Z) : K unit :=
  pte ← pte_get (pagetable + 8 * i);
  if has pte PTE_V && negb (has pte (Z.lor (Z.lor PTE_R PTE_W) PTE_X)) then
    freewalk depth (PTE2PA pte);; pte_set (pagetable + 8 * i) 0
  else if has pte PTE_V then panic "freewalk: leaf"
  else mret tt.
Lemma freewalk_S depth pagetable :
  freewalk (S depth) pagetable = (for_loop 512 0 (freewalk_entry depth pagetable);; kfree pagetable).
Proof. reflexivity. Qed.

Definition freewalk_ok (depth : nat) : Prop :=
  forall s fl π p, (length π + depth = 3)%nat -> T !! π = Some p -> kmem_inv s fl ->
    (forall q, under T π q -> q ∉ fl) -> intact s π ->
    exists s' used, freewalk depth p s = Ret tt s' /\ freed s s' (under T π) (under T π) fl used.

(** The pages below the entries of [π] from [i] on. *)
Definition below (π : list Z) (i : Z) (q : Z) : Prop := exists j, i <= j < 512 /\ under T (π ++ [j]) q.
Lemma below_has π i q : below π i q -> tree_has T q.
Proof. intros (j & _ & Hu). by eapply under_has. Qed.
Lemma below_step π i q : i < 512 -> below π i q <-> under T (π ++ [i]) q \/ below π (i + 1) q.
Proof.
  intros Hi. split.
  - intros (j & Hj & Hu). destruct (decide (j = i)) as [->|]; [by left|right]. exists j. split; [lia|done].
  - intros [Hu|(j & Hj & Hu)]; [exists i|exists j]; (split; [lia|done]).
Qed.

Lemma below_apart π i q : below π (i + 1) q -> ~ under T (π ++ [i]) q.
Proof.
  intros (j & Hj & Hu) Hu'. pose proof (under_apart _ _ _ (π ++ [i]) (π ++ [j]) q Hwf) as Ha.
  rewrite !length_app in Ha. specialize (Ha eq_refl Hu' Hu). apply app_inj_tail in Ha as [_ ->]. lia.
Qed.
Lemma below_self π p i : T !! π = Some p -> ~ below π i p.
Proof. intros Hp (j & _ & Hu). by eapply under_self_apart. Qed.

(** The page [p] at [π] with the entries from [i] on still to be done. *)
Record to_free (s : kstate) (fl : list Z) (π : list Z) (p i : Z) : Prop := {
  td_inv : kmem_inv s fl;
  td_page : p ∉ fl;
  td_below : forall q, below π i q -> q ∉ fl;
  td_same : forall q b, below π i q -> in_page q b -> ld8 (k_mem s) b = ld8 m0 b;
  td_entries : forall b, p + 8 * i <= b < p + PGSIZE -> ld8 (k_mem s) b = ld8 m0 b
}.

(** One entry that points to a table: the table is freed and the entry cleared. *)
Lemma free_child depth s fl π p i c :
  freewalk_ok depth -> (length π + depth = 2)%nat -> T !! π = Some p -> 0 <= i < 512 ->
  T !! (π ++ [i]) = Some c -> to_free s fl π p i ->
  exists s' used, freewalk_entry depth p i s = Ret tt s' /\ to_free s' (used ++ fl) π p (i + 1) /\
    freed s s' (under T (π ++ [i])) (fun q => q = p \/ under T (π ++ [i]) q) fl used.
Proof.
  intros Hfw Hl Hp Hi Hc [Hk Hpf Hbf Hbs Hes].
  assert (Hpi : forall q, under T (π ++ [i]) q -> below π i q) by (intros q Hu; exists i; split; [lia|done]).
  destruct (Hfw s fl (π ++ [i]) c) as (s1 & used & E1 & [F1 F2 F3 F4]); [rewrite length_app; cbn; lia|done|done| | |].
  { intros q Hu. by apply Hbf, Hpi. }
  { intros q b Hu Hb. apply (Hbs q b); [by apply Hpi|done]. }
  destruct (pt_page _ _ _ Hwf _ _ Hp) as [[Hpm Hpr] _]. destruct (pt_page _ _ _ Hwf _ _ Hc) as [Hcok Hlen].
  rewrite length_app in Hlen. cbn in Hlen.
  pose proof (pt_child _ _ _ Hwf π i p Hp ltac:(lia) Hi) as He. rewrite Hc in He.
  assert (Ev : ld64 (k_mem s) (p + 8 * i) = Z.lor (PA2PTE c) PTE_V).
  { rewrite <- He. apply ld64_ext. intros b Hb. apply Hes. unfold PGSIZE. lia. }
  destruct (table_entry c Hcok) as (HV & HX & HP).
  assert (Hpn : ~ under T (π ++ [i]) p) by (by eapply under_self_apart).
  set (s2 := pte_stored s1 (p + 8 * i) 0).
  assert (M2 : forall b, (forall q, under T (π ++ [i]) q -> ~ in_page q b) -> b < p + 8 * i \/ p + 8 * i + 8 <= b ->
            ld8 (k_mem s2) b = ld8 (k_mem s) b).
  { intros b Hq Hb. cbn. rewrite ld8_st64_ne by lia. by apply F3. }
  assert (Hout : forall q b, tree_has T q -> ~ under T (π ++ [i]) q -> in_page q b ->
            forall q', under T (π ++ [i]) q' -> ~ in_page q' b).
  { intros q b Hq Hn Hb q' Hu Hb'. apply Hn. replace q with q'; [done|].
    eapply tree_page_inj; [by eapply under_has|exact Hq|exact Hb'|exact Hb]. }
  assert (Hin_p : forall b, p + 8 * i <= b < p + 8 * i + 8 -> in_page p b) by (unfold in_page, PGSIZE; lia).
  assert (Hk2 : kmem_inv s2 (used ++ fl)).
  { apply (kmem_inv_write s1 _ _ p F1); [done| |done|].
    - rewrite elem_of_app, F2. tauto.
    - intros b Hb. cbn. apply ld8_st64_ne. specialize (Hin_p b). unfold in_page in Hin_p. lia. }
  exists s2, used. split; [|split; split; try done].
  - unfold freewalk_entry, pte_get, pte_set. rewrite bind_gets, Ev, HV, HX, HP. cbn [andb negb].
    by rewrite (bind_ret _ _ _ _ _ E1).
  - rewrite elem_of_app, F2. tauto.
  - intros q Hb. rewrite elem_of_app, F2. intros [Hu|Hf]; [by apply (below_apart π i q)|].
    apply (Hbf q); [|done]. apply below_step; [lia|by right].
  - intros q b Hb Hin. pose proof (below_apart _ _ _ Hb) as Hnu. pose proof (below_has _ _ _ Hb) as Hh.
    rewrite M2; [apply (Hbs q); [apply below_step; [lia|by right]|done]|by apply (Hout q)|].
    destruct (decide (p + 8 * i <= b < p + 8 * i + 8)) as [Hin'|]; [|lia].
    assert (q = p) as -> by (eapply tree_page_inj; [exact Hh|by exists π|done|by apply Hin_p]).
    by destruct (below_self π p (i + 1) Hp).
  - intros b Hb. rewrite M2; [apply Hes; lia| |lia].
    apply (Hout p); [by exists π|done|]. unfold in_page. lia.
  - intros b Hb. apply M2; [intros q Hu; apply Hb; by right|].
    destruct (decide (p + 8 * i <= b < p + 8 * i + 8)) as [Hin'|]; [|lia]. destruct (Hb p); [by left|by apply Hin_p].
  - eapply mem_only_trans; [exact F4|apply mem_only_stored].
Qed.

(** The other entries are skipped. *)
Lemma skip_entry depth s fl π p i :
  (length π + depth = 2)%nat -> T !! π = Some p -> 0 <= i < 512 -> T !! (π ++ [i]) = None -> to_free s fl π p i ->
  freewalk_entry depth p i s = Ret tt s /\ to_free s fl π p (i + 1) /\ forall q, below π i q <-> below π (i + 1) q.
Proof.
  intros Hl Hp Hi Hn [Hk Hpf Hbf Hbs Hes].
  assert (Hb : forall q, below π i q <-> below π (i + 1) q).
  { intros q. rewrite below_step by lia. split; [|by right]. intros [[π' E]|]; [|done].
    destruct (pt_prefix _ _ _ _ _ _ Hwf E) as [c Ec]. congruence. }
  assert (Hv : has (ld64 (k_mem s) (p + 8 * i)) PTE_V = false).
  { replace (ld64 (k_mem s) (p + 8 * i)) with (ld64 m0 (p + 8 * i))
      by (apply ld64_ext; intros b Hb'; symmetry; apply Hes; unfold PGSIZE; lia).
    destruct (decide (length π = 2%nat)) as [E2|]; [by apply (Hclear π)|].
    pose proof (pt_child _ _ _ Hwf π i p Hp ltac:(lia) Hi) as Hc. by rewrite Hn in Hc. }
  split; [unfold freewalk_entry, pte_get; by rewrite bind_gets, Hv|]. split; [|done].
  split; [done|done|..].
  - intros q Hq. apply Hbf. by apply Hb.
  - intros q b Hq. apply (Hbs q b). by apply Hb.
  - intros b Hb'. apply Hes. lia.
Qed.

Lemma freewalk_loop depth π p :
  freewalk_ok depth -> (length π + depth = 2)%nat -> T !! π = Some p ->
  forall n i s fl, i + Z.of_nat n = 512 -> 0 <= i -> to_free s fl π p i ->
    exists s' used, for_loop n i (freewalk_entry depth p) s = Ret tt s' /\
      freed s s' (below π i) (fun q => q = p \/ below π i q) fl used.
Proof.
  intros Hfw Hl Hp. induction n as [|n IH]; intros i s fl Hn Hi Ht; cbn [for_loop].
  - exists s, []. split; [done|]. split; [apply Ht| |done|apply mem_only_refl].
    intros q. rewrite elem_of_nil. split; [done|]. intros (j & Hj & _). lia.
  - destruct (T !! (π ++ [i])) as [c|] eqn:Ec.
    + destruct (free_child depth s fl π p i c) as (s1 & used1 & E1 & Ht1 & [A1 A2 A3 A4]); try done; [lia|].
      rewrite (bind_ret _ _ _ _ _ E1). destruct (IH (i + 1) s1 (used1 ++ fl)) as (s2 & used2 & E2 & [B1 B2 B3 B4]); [lia..|done|].
      exists s2, (used2 ++ used1). split; [done|]. split.
      * by rewrite <- app_assoc.
      * intros q. rewrite elem_of_app, A2, B2, (below_step π i) by lia. tauto.
      * intros b Hb. rewrite B3, A3; [done| |]; intros q [->|Hq]; apply Hb; try (by left); right; apply below_step; tauto || lia.
      * by eapply mem_only_trans.
    + destruct (skip_entry depth s fl π p i) as (E1 & Ht1 & Hb); try done; [lia|].
      rewrite (bind_ret _ _ _ _ _ E1). destruct (IH (i + 1) s fl) as (s2 & used2 & E2 & [B1 B2 B3 B4]); [lia..|done|].
      exists s2, used2. split; [done|]. split; [done| | |done].
      * intros q. by rewrite B2, Hb.
      * intros b Hq. apply B3. intros q [->|Hq']; apply Hq; [by left|right]. by apply Hb.
Qed.

Lemma freewalk_all depth : freewalk_ok depth.
Proof.
  induction depth as [|depth IH]; intros s fl π p Hl Hp Hk Hf Hs.
  { destruct (pt_page _ _ _ Hwf _ _ Hp) as [_ ?]. lia. }
  assert (Hu : forall q, under T π q <-> q = p \/ below π 0 q) by (intros q; by apply (under_cases m0 root)).
  destruct (pt_page _ _ _ Hwf _ _ Hp) as [Hok _].
  assert (Hself : under T π p) by (exists []; by rewrite app_nil_r).
  destruct (freewalk_loop depth π p IH ltac:(lia) Hp 512 0 s fl) as (s1 & used & E1 & [A1 A2 A3 A4]); [done|done| |].
  { split; [done|by apply Hf|..].
    - intros q Hb. apply Hf. apply Hu. by right.
    - intros q b Hb. apply Hs. apply Hu. by right.
    - intros b Hb. apply (Hs p); [done|]. unfold in_page. lia. }
  rewrite freewalk_S, (bind_ret _ _ _ _ _ E1), kfree_eq by done.
  exists (kfree_state s1 p), (p :: used). split; [done|]. split.
  - apply kfree_inv; [done|done|]. rewrite elem_of_app, A2. intros [Hb|Hb]; [by apply (below_self π p 0)|]. by apply (Hf p).
  - intros q. by rewrite elem_of_cons, A2, Hu.
  - intros b Hb. rewrite kfree_state_out by (by apply Hb). apply A3. intros q [->|Hq]; apply Hb; [done|].
    apply Hu. by right.
  - eapply mem_only_trans; [exact A4|]. eexists _, _. reflexivity.
Qed.
End Walk.

(** ** The whole table *)
(** The address with the given indices. *)
Definition va_of (i2 i1 i0 : Z) : Z := ((i2 * 512 + i1) * 512 + i0) * PGSIZE.
Lemma px_va_of i2 i1 i0 :
  0 <= i2 < 256 -> 0 <= i1 < 512 -> 0 <= i0 < 512 ->
  0 <= va_of i2 i1 i0 < MAXVA /\ PX 2 (va_of i2 i1 i0) = i2 /\ PX 1 (va_of i2 i1 i0) = i1 /\ PX 0 (va_of i2 i1 i0) = i0.
Proof.
  intros H2 H1 H0. assert (Hv : 0 <= va_of i2 i1 i0 < MAXVA).
  { change MAXVA with 274877906944. unfold va_of, PGSIZE. lia. }
  split; [done|]. destruct (px_digits (va_of i2 i1 i0)) as (-> & -> & ->); [lia|].
  unfold va_of. rewrite Z.div_mul by done. split_and!; div_lia.
Qed.
(** The leaf entries are those of the addresses below [MAXVA]. *)
Lemma leaf_entries m root T π p i :
  pt_wf m root T -> T !! π = Some p -> length π = 2%nat -> 0 <= i < 512 ->
  exists va, 0 <= va < MAXVA /\ va `mod` PGSIZE = 0 /\ pte_of T m va = ld64 m (p + 8 * i).
Proof.
  intros Hwf Hp Hl Hi. destruct π as [|i2 [|i1 [|]]]; try done.
  pose proof (pt_index _ _ _ Hwf [i2] i1 p Hp) as H1. cbn in H1.
  destruct (pt_parent _ _ _ Hwf [i2] i1 p Hp) as [q Hq].
  pose proof (pt_index _ _ _ Hwf [] i2 q Hq) as H2. cbn in H2.
  destruct (px_va_of i2 i1 i H2 H1 Hi) as (Hv & E2 & E1 & E0).
  exists (va_of i2 i1 i). split; [done|]. split; [by apply Z.mod_mul|].
  unfold pte_of, leaf_page. by rewrite E2, E1, Hp, E0.
Qed.

Lemma freewalk_spec s root T fl :
  vm_ok s root T fl ->
  (forall va, 0 <= va < MAXVA -> va `mod` PGSIZE = 0 -> has (pte_of T (k_mem s) va) PTE_V = false) ->
  exists s' used, freewalk 3 root s = Ret tt s' /\ freed s s' (tree_has T) (tree_has T) fl used.
Proof.
  intros (Hk & Hwf & Hd) Hclear.
  destruct (freewalk_all (k_mem s) root T Hwf) with (depth := 3%nat) (s := s) (fl := fl) (π := @nil Z) (p := root)
    as (s' & used & E & Hf); try done.
  - intros π p i Hp Hl Hi. destruct (leaf_entries _ _ _ π p i Hwf Hp Hl Hi) as (va & Hva & Hm & <-). by apply Hclear.
  - apply (pt_root _ _ _ Hwf).
  - by exists s', used.
Qed.
End FreeWalk.
