(* ===== verification/VMProps.v ===== *)
(** * kernel/vm.c: the properties of the page-table routines *)

From S2P Require Import Prelude Memory State Kalloc VM PageTable VMSpec UserSpace.
Import Mem KString.

(** ** A small address space for examples

    Three table pages, one user page mapped at address 0 with R, W and U, and
    three free pages. *)
Definition ex_root : Z := 0x80200000.
Definition ex_l1 : Z := 0x80201000.
Definition ex_l0 : Z := 0x80202000.
Definition ex_page : Z := 0x80203000.
Definition ex_free : list Z := [0x80204000; 0x80205000; 0x80206000].
Definition ex_tree : gmap (list Z) Z := <[[] := ex_root]> (<[[0] := ex_l1]> (<[[0; 0] := ex_l0]> ∅)).
Definition ex_umap : gmap Z Z := <[0 := ex_page]> ∅.
Definition ex_mem : mem :=
  st64 (st64 (st64 (st64 (st64 ∅ ex_root (Z.lor (PA2PTE ex_l1) PTE_V))
    ex_l1 (Z.lor (PA2PTE ex_l0) PTE_V)) ex_l0 (leaf_entry ex_page 22))
    0x80204000 0x80205000) 0x80205000 0x80206000.
Definition ex_state : kstate :=
  kstate0 <| k_mem := ex_mem |> <| k_freelist := 0x80204000 |>
    <| k_proc := [proc0 <| p_sz := 4096 |> <| p_pagetable := ex_root |> <| p_state := RUNNING |>] |>
    <| k_cur := Some 0%nat |>.

Section Example.
#[local] Existing Instance example_image.

Lemma ex_tree_lookup π p :
  ex_tree !! π = Some p ->
  (π = [] /\ p = ex_root) \/ (π = [0] /\ p = ex_l1) \/ (π = [0; 0] /\ p = ex_l0).
Proof. unfold ex_tree. rewrite !lookup_insert_Some, lookup_empty. naive_solver. Qed.

Lemma ex_pages : page_ok ex_root /\ page_ok ex_l1 /\ page_ok ex_l0 /\ page_ok ex_page /\
  Forall page_ok ex_free.
Proof.
  unfold page_ok, ex_root, ex_l1, ex_l0, ex_page, ex_free. cbn [kend example_image].
  split_and!; try done; repeat constructor; try done; page_lia.
Qed.

(** Words of the example's tables. *)
Lemma ex_word_0 p i :
  p = ex_root \/ p = ex_l1 \/ p = ex_l0 -> 0 < i < 512 -> ld64 ex_mem (p + 8 * i) = 0.
Proof.
  intros Hp Hi. unfold ex_mem, ex_root, ex_l1, ex_l0 in *.
  rewrite !ld64_st64_ne by lia. by apply ld64_zero.
Qed.

Lemma ex_wf : pt_wf ex_mem ex_root ex_tree.
Proof.
  destruct ex_pages as (Hr & H1 & H0 & _). split; [done|..].
  - intros π p [[-> ->]|[[-> ->]|[-> ->]]]%ex_tree_lookup; cbn; (split; [done|lia]).
  - intros π π' p [[-> ->]|[[-> ->]|[-> ->]]]%ex_tree_lookup
      [[-> E]|[[-> E]|[-> E]]]%ex_tree_lookup; done.
  - intros π i c [[E _]|[[E _]|[E _]]]%ex_tree_lookup.
    + by destruct π.
    + apply (app_inj_tail π [] i 0) in E as [-> _]. by eexists.
    + apply (app_inj_tail π [0] i 0) in E as [-> _]. by eexists.
  - intros π i c [[E _]|[[E _]|[E _]]]%ex_tree_lookup.
    + by destruct π.
    + apply (app_inj_tail π [] i 0) in E as [-> ->]. case_decide; lia.
    + apply (app_inj_tail π [0] i 0) in E as [-> ->]. case_decide; lia.
  - intros π i p HT Hlen Hi. destruct (decide (i = 0)) as [->|Hne].
    + apply ex_tree_lookup in HT as [[-> ->]|[[-> ->]|[-> ->]]]; [by vm_compute..|cbn in Hlen; lia].
    + assert (Hn : ex_tree !! (π ++ [i]) = None).
      { destruct (ex_tree !! (π ++ [i])) eqn:E; [|done].
        apply ex_tree_lookup in E as [[E _]|[[E _]|[E _]]]; destruct π as [|? [|? [|]]]; cbn in E; simplify_eq. }
      rewrite Hn, ex_word_0; [done| |lia].
      apply ex_tree_lookup in HT. naive_solver.
Qed.

Lemma ex_uspace : uspace ex_state ex_root ex_tree ex_umap ex_free.
Proof.
  destruct ex_pages as (Hr & H1 & H0 & Hp & Hfl).
  assert (Hpage : forall q, q ∈ ex_free -> q <> ex_root /\ q <> ex_l1 /\ q <> ex_l0 /\ q <> ex_page).
  { intros q [<-|[<-|[<-|[]]]]%list_elem_of_In; done. }
  assert (HT : forall q, tree_has ex_tree q -> q = ex_root \/ q = ex_l1 \/ q = ex_l0).
  { intros q (π & E). apply ex_tree_lookup in E. naive_solver. }
  split; [split_and!; [split|exact ex_wf|]|..].
  - rewrite Forall_forall in Hfl. unfold ex_free in *. cbn [chain].
    split; [done|]. split; [apply Hfl; left|]. split; [by vm_compute|]. split; [apply Hfl; right; left|].
    split; [by vm_compute|]. split; [apply Hfl; right; right; left|]. by vm_compute.
  - by apply (bool_decide_unpack _).
  - intros q Hq Hin. destruct (Hpage q Hin) as (? & ? & ? & _). apply HT in Hq. naive_solver.
  - intros v pa. unfold ex_umap. rewrite lookup_insert_Some, lookup_empty.
    intros [[<- _]|[_ ?]]; [|done]. by vm_compute.
  - intros v pa. unfold ex_umap. rewrite lookup_insert_Some, lookup_empty.
    intros [[<- <-]|[_ ?]]; [|done]. split; [done|]. split.
    + intros Hin. by destruct (Hpage _ Hin) as (_ & _ & _ & ?).
    + intros Hh. by destruct (HT _ Hh) as [?|[?|?]].
  - intros v pa. unfold ex_umap. rewrite lookup_insert_Some, lookup_empty.
    intros [[<- <-]|[_ ?]]; [|done]. by vm_compute.
  - intros v v' pa. unfold ex_umap. rewrite !lookup_insert_Some, !lookup_empty. naive_solver.
  - intros v Hv HU. unfold ex_umap in HU. rewrite lookup_insert_None in HU. destruct HU as [_ Hne].
    unfold pte_of. destruct (leaf_page _ _) as [p|] eqn:E; [|done]. unfold leaf_page in E.
    destruct (user_va v Hv) as [Hva _]. destruct (px_digits (v * PGSIZE)) as (E0 & E1 & E2); [lia|].
    rewrite Z.div_mul in E0, E1, E2 by done.
    apply ex_tree_lookup in E as [[? _]|[[? _]|[E ->]]]; [done..|].
    injection E as E2' E1'. change ULIM with 67108862 in Hv. change (k_mem ex_state) with ex_mem.
    rewrite ex_word_0; [done|tauto|]. div_lia.
Qed.
End Example.

(** ** walk and mappages *)

(** walk on a well-formed page table.  Without alloc it changes nothing and
    returns the address of the leaf entry of va, or 0 when a table is missing.
    With alloc it builds the missing tables from free pages, so that the entry
    exists unless memory ran out; no leaf entry changes value, and nothing
    outside the table is written.  An address from MAXVA on panics. *)
Theorem walk_correct `{KernelImage} (s : kstate) (root va : Z) (T : gmap (list Z) Z) (fl : list Z)
  (Hok : vm_ok s root T fl) :
  (va < MAXVA -> walk root va false s = Ret (leaf_addr T va) s) /\
  (0 <= va < MAXVA -> exists s' T' fl', walk root va true s = Ret (leaf_addr T' va) s' /\
     vm_ok s' root T' fl' /\ vm_grow s s' T T' fl fl' /\
     (forall va', pte_of T' (k_mem s') va' = pte_of T (k_mem s) va') /\
     (leaf_page T' va = None -> fl' = [])) /\
  (MAXVA <= va -> forall alloc, walk root va alloc s = Panic "walk" s).
Proof.
  split_and!.
  - intros Hva. by apply walk_find; [apply Hok|].
  - intros Hva. destruct (walk_alloc s root T fl va Hok Hva) as (s' & T' & fl' & E & Hok' & Hg & _ & Hp & Hend).
    exists s', T', fl'. split_and!; try done. intros Hn. by apply Hend.
  - intros Hva alloc. unfold walk. destruct (Z.leb_spec MAXVA va); [done|lia].
Qed.
Lemma walk_correct_witness : walk ex_root 4096 false ex_state = Ret (ex_l0 + 8) ex_state.
Proof.
  exact (proj1 (@walk_correct example_image ex_state ex_root 4096 ex_tree ex_free
                  (us_ok _ _ _ _ _ ex_uspace)) eq_refl).
Defined.

(** C17. mappages refines an update of the abstract map from addresses to leaf
    entries.  On n unmapped pages it returns 0 and the entries of exactly these
    pages become the pages from pa with the given permissions; or it returns -1
    after a prefix of k < n pages, and only because no page was free.  Each page
    costs at most two pages of tables, so with 2n free pages it returns 0. *)
Theorem mappages_maps `{KernelImage} (s : kstate) (root va n pa perm : Z)
    (T : gmap (list Z) Z) (fl : list Z)
  (Hok : vm_ok s root T fl) (Hva : va `mod` PGSIZE = 0) (Hva0 : 0 <= va)
  (Hmax : va + n * PGSIZE <= MAXVA) (Hn : 0 < n)
  (Hpa : pa `mod` PGSIZE = 0) (Hpa0 : 0 <= pa) (Hpamax : pa + n * PGSIZE <= 2 ^ 54)
  (Hperm : 0 <= perm < 1024)
  (Hinv : forall a, va <= a < va + n * PGSIZE -> has (pte_of T (k_mem s) a) PTE_V = false) :
  exists s' T' fl' k,
    mappages root va (n * PGSIZE) pa perm s = Ret (if decide (k = n) then 0 else -1) s' /\
    vm_ok s' root T' fl' /\ vm_grow s s' T T' fl fl' /\ 0 <= k <= n /\
    Z.of_nat (length fl) <= Z.of_nat (length fl') + 2 * k + (if decide (k = n) then 0 else 1) /\
    (k < n -> fl' = [] /\ leaf_page T' (va + k * PGSIZE) = None) /\
    (forall a, 0 <= a < MAXVA -> pte_of T' (k_mem s') a =
       if decide (va <= a < va + k * PGSIZE)
       then leaf_entry (pa + (a / PGSIZE * PGSIZE - va)) perm else pte_of T (k_mem s) a).
Proof. by apply mappages_spec. Qed.
Lemma mappages_maps_witness :
  exists s' T' fl' k,
    mappages ex_root 0x40000000 (2 * PGSIZE) 0x80010000 10 ex_state =
      Ret (if decide (k = 2) then 0 else -1) s' /\
    @vm_ok example_image s' ex_root T' fl' /\ vm_grow ex_state s' ex_tree T' ex_free fl' /\
    0 <= k <= 2 /\
    Z.of_nat (length ex_free) <= Z.of_nat (length fl') + 2 * k + (if decide (k = 2) then 0 else 1) /\
    (k < 2 -> fl' = [] /\ leaf_page T' (0x40000000 + k * PGSIZE) = None) /\
    (forall a, 0 <= a < MAXVA -> pte_of T' (k_mem s') a =
       if decide (0x40000000 <= a < 0x40000000 + k * PGSIZE)
       then leaf_entry (0x80010000 + (a / PGSIZE * PGSIZE - 0x40000000)) 10
       else pte_of ex_tree (k_mem ex_state) a).
Proof.
  apply (@mappages_maps example_image ex_state ex_root 0x40000000 2 0x80010000 10 ex_tree ex_free
           (us_ok _ _ _ _ _ ex_uspace)); try done.
  intros a Ha. unfold pte_of, leaf_page.
  destruct (px_digits a) as (_ & _ & ->); [lia|].
  replace ((a / PGSIZE / 512 / 512) `mod` 512) with 1 by (unfold PGSIZE in *; div_lia).
  destruct (ex_tree !! _) eqn:E; [|done]. by apply ex_tree_lookup in E as [[? _]|[[? _]|[? _]]].
Defined.

(** mappages panics on a va or size that is not page-aligned, on size 0,
    and when the first page is already mapped; it never overwrites a valid
    entry. *)
Theorem mappages_errors `{KernelImage} (s : kstate) (root va size pa perm : Z)
    (T : gmap (list Z) Z) (fl : list Z) (Hok : vm_ok s root T fl) :
  (va `mod` PGSIZE <> 0 -> mappages root va size pa perm s = Panic "mappages: va not aligned" s) /\
  (va `mod` PGSIZE = 0 -> size `mod` PGSIZE <> 0 ->
     mappages root va size pa perm s = Panic "mappages: size not aligned" s) /\
  (va `mod` PGSIZE = 0 -> mappages root va 0 pa perm s = Panic "mappages: size" s) /\
  (va `mod` PGSIZE = 0 -> 0 <= va < MAXVA -> has (pte_of T (k_mem s) va) PTE_V = true ->
     0 < size -> size `mod` PGSIZE = 0 ->
     mappages root va size pa perm s = Panic "mappages: remap" s).
Proof.
  unfold mappages. split_and!.
  - intros Hm. by destruct (Z.eqb_spec (va `mod` PGSIZE) 0).
  - intros -> Hm. by destruct (Z.eqb_spec (size `mod` PGSIZE) 0).
  - intros ->. done.
  - intros -> Hva Hval Hsz Hm. assert (Hpos : 0 < size / PGSIZE) by (unfold PGSIZE in *; div_lia).
    rewrite Hm. change (negb (0 =? 0)) with false.
    destruct (Z.eqb_spec size 0); [lia|].
    destruct (leaf_page T va) as [p|] eqn:Hp; [|unfold pte_of in Hval; by rewrite Hp in Hval].
    destruct Hok as (_ & Hwf & _). destruct (leaf_addr_some _ _ _ _ _ Hwf Hp) as (_ & Hnz & Hld).
    assert (exists m, Z.to_nat (size / PGSIZE) = S m) as [m ->].
    { exists (Z.to_nat (size / PGSIZE) - 1)%nat. lia. }
    rewrite mappages_loop_S, (bind_ret _ _ _ _ _ (walk_hit s root T va true Hwf ltac:(lia) ltac:(by eexists))).
    destruct (Z.eqb_spec (leaf_addr T va) 0); [done|]. unfold pte_get. run. by rewrite Hld, Hval.
Qed.
Lemma mappages_errors_witness :
  mappages ex_root 0 PGSIZE 0x80010000 10 ex_state = Panic "mappages: remap" ex_state.
Proof.
  apply (@mappages_errors example_image ex_state ex_root 0 PGSIZE 0x80010000 10 ex_tree ex_free
           (us_ok _ _ _ _ _ ex_uspace)); vm_compute; (done || split; congruence).
Defined.

(** ** User memory *)

(** uvmunmap with do_free on n pages of a user address space always
    finishes: exactly the mappings of these pages disappear, their physical
    pages (and no others) are pushed on the free list, the other entries keep
    their value, and no byte outside the page table and the freed pages is
    written. *)
Theorem uvmunmap_frees `{KernelImage} (s : kstate) (root v n : Z)
    (T : gmap (list Z) Z) (U : gmap Z Z) (fl : list Z)
  (Hu : uspace s root T U fl) (Hv : 0 <= v) (Hn : 0 <= n) (Hlim : v + n <= ULIM) :
  exists s' freed, uvmunmap root (v * PGSIZE) n true s = Ret tt s' /\
    uspace s' root T (uout v (v + n) U) (freed ++ fl) /\
    (forall pa, pa ∈ freed <-> exists x, v <= x < v + n /\ U !! x = Some pa) /\
    (forall va, 0 <= va < MAXVA -> ~ (v <= va / PGSIZE < v + n) ->
       pte_of T (k_mem s') va = pte_of T (k_mem s) va) /\
    (forall b, (forall q, tree_has T q \/ q ∈ freed -> ~ in_page q b) ->
       ld8 (k_mem s') b = ld8 (k_mem s) b).
Proof.
  destruct (uvmunmap_spec n s root T U fl v Hu Hv Hn Hlim)
    as (s' & fl' & E & Hu' & [(freed & -> & Hf) Hb Hp _]).
  exists s', freed. split_and!; try done. intros b Hout. apply Hb. intros q Hq.
  apply Hout. rewrite Hf. done.
Qed.
Lemma uvmunmap_frees_witness :
  exists s' freed, @uvmunmap example_image ex_root (0 * PGSIZE) 1 true ex_state = Ret tt s' /\
    @uspace example_image s' ex_root ex_tree (uout 0 (0 + 1) ex_umap) (freed ++ ex_free) /\
    (forall pa, pa ∈ freed <-> exists x, 0 <= x < 0 + 1 /\ ex_umap !! x = Some pa) /\
    (forall va, 0 <= va < MAXVA -> ~ (0 <= va / PGSIZE < 0 + 1) ->
       pte_of ex_tree (k_mem s') va = pte_of ex_tree (k_mem ex_state) va) /\
    (forall b, (forall q, tree_has ex_tree q \/ q ∈ freed -> ~ in_page q b) ->
       ld8 (k_mem s') b = ld8 (k_mem ex_state) b).
Proof. by apply (@uvmunmap_frees example_image ex_state ex_root 0 1 _ _ _ ex_uspace). Defined.

(** C18. uvmalloc grows a user address space from oldsz to newsz.  It returns
    newsz with every page of the new range mapped to a distinct, zeroed page
    taken from the free list with permissions R, U and xperm, all other
    mappings and bytes as before; or it returns 0 with the address space
    exactly as before, every page it took being free again or a page-table
    page, and only when fewer than three pages were free for each new one. *)
Theorem uvmalloc_grows `{KernelImage} (s : kstate) (root oldsz newsz xperm : Z)
    (T : gmap (list Z) Z) (U : gmap Z Z) (fl : list Z)
  (Hu : uspace s root T U fl) (Ho : 0 <= oldsz <= newsz) (Hn : newsz <= TRAPFRAME)
  (Hx : 0 <= Z.lor (Z.lor PTE_R PTE_U) xperm < 1024)
  (HU : forall x, pgs oldsz <= x < pgs newsz -> U !! x = None) :
  exists s' T' fl',
    (uvmalloc root oldsz newsz xperm s = Ret newsz s' /\
     exists U', uspace s' root T' U' fl' /\
       grown s s' T T' U U' fl fl' (pgs oldsz) (pgs newsz - pgs oldsz)
         (Z.lor (Z.lor PTE_R PTE_U) xperm)) \/
    (uvmalloc root oldsz newsz xperm s = Ret 0 s' /\ uspace s' root T' U fl' /\ T ⊆ T' /\
     (forall q, q ∈ fl -> q ∈ fl' \/ tree_has T' q) /\
     Z.of_nat (length fl) < 3 * (pgs newsz - pgs oldsz)).
Proof.
  unfold uvmalloc. destruct (Z.ltb_spec newsz oldsz); [lia|].
  destruct (pgroundup_pgs oldsz) as (-> & Hp & Hp'); [lia|].
  destruct (pgroundup_pgs newsz) as (_ & Hq & Hq'); [lia|].
  pose proof (pgs_mono oldsz newsz ltac:(lia) Hn).
  destruct (uvmalloc_loop_spec (Z.to_nat (pgs newsz - pgs oldsz))
              (S (Z.to_nat ((newsz - pgs oldsz * PGSIZE) / PGSIZE + 1))) s root T U fl
              (pgs oldsz) (pgs oldsz) newsz xperm) as (s' & T' & fl' & Hcase); try done; try lia.
  { unfold PGSIZE in *. div_lia. }
  { intros x Hx'. apply HU. lia. }
  exists s', T', fl'. destruct Hcase as [(E & U' & Hu' & Hg)|(E & Hu' & [R1 R2 _] & Hlt)]; [left|right].
  - split; [done|]. exists U'. split; [done|]. by rewrite Z2Nat.id in Hg by lia.
  - split; [done|]. rewrite uout_empty in Hu' by lia. split; [done|]. split; [done|].
    split; [|lia]. intros q Hq1. apply R2. by left.
Qed.
Lemma uvmalloc_grows_witness :
  exists s' T' fl' U', @uvmalloc example_image ex_root 4096 8192 PTE_W ex_state = Ret 8192 s' /\
    @uspace example_image s' ex_root T' U' fl' /\
    grown ex_state s' ex_tree T' ex_umap U' ex_free fl' (pgs 4096) (pgs 8192 - pgs 4096)
      (Z.lor (Z.lor PTE_R PTE_U) PTE_W).
Proof.
  destruct (@uvmalloc_grows example_image ex_state ex_root 4096 8192 PTE_W _ _ _ ex_uspace)
    as (s' & T' & fl' & [(E & U' & Hu & Hg)|(_ & _ & _ & _ & Hlt)]); [by vm_compute..| | |].
  - intros x Hx. change (pgs 4096) with 1 in Hx. apply lookup_insert_None. split; [done|lia].
  - exists s', T', fl', U'. split; [exact E|]. split; [exact Hu|exact Hg].
  - discriminate Hlt.
Defined.

(** uvmdealloc shrinks a user address space: it returns the new size and
    unmaps and frees exactly the pages between the two sizes, keeping a page
    that the new size still uses in part; when newsz is not smaller it does
    nothing. *)
Theorem uvmdealloc_shrinks `{KernelImage} (s : kstate) (root oldsz newsz : Z)
    (T : gmap (list Z) Z) (U : gmap Z Z) (fl : list Z)
  (Hu : uspace s root T U fl) (Ho : 0 <= oldsz <= TRAPFRAME) (Hn : 0 <= newsz <= TRAPFRAME) :
  exists s' fl', uvmdealloc root oldsz newsz s = Ret (Z.min oldsz newsz) s' /\
    uspace s' root T (uout (pgs newsz) (pgs oldsz) U) fl' /\
    unmapped s s' T U fl fl' (pgs newsz) (pgs oldsz) /\ (oldsz <= newsz -> s' = s).
Proof.
  destruct (uvmdealloc_spec s root T U fl oldsz newsz Hu Ho Hn) as (s' & fl' & E & Hu' & Hm).
  exists s', fl'. split_and!; try done. intros Hle. unfold uvmdealloc in E.
  destruct (Z.leb_spec oldsz newsz); [|lia]. by inversion E.
Qed.
Lemma uvmdealloc_shrinks_witness :
  exists s' fl', @uvmdealloc example_image ex_root 4096 0 ex_state = Ret (Z.min 4096 0) s' /\
    @uspace example_image s' ex_root ex_tree (uout (pgs 0) (pgs 4096) ex_umap) fl' /\
    unmapped ex_state s' ex_tree ex_umap ex_free fl' (pgs 0) (pgs 4096) /\ (4096 <= 0 -> s' = ex_state).
Proof. by apply (@uvmdealloc_shrinks example_image ex_state ex_root 4096 0 _ _ _ ex_uspace). Defined.
