(* ===== verification/Memsys.v ===== *)
(** * kernel/memsys.c: frame table, clock page replacement and swap

    The handlers as the code has them.  [evict_page]'s [while(1)] takes fuel:
    EvictProps.v proves that two turns of the clock are always enough when
    there is a frame to evict, and that no fuel is enough when there is none. *)

From S2P Require Import Prelude Memory State Kalloc VM Disk.
Import Mem KString DiskQueue.

Section Memsys.
Context `{KernelImage}.

(** frametable_init *)
Definition frametable_init : K unit :=
  for_loop (Z.to_nat MAX_FRAMES) 0 (fun i => set_frame i (fun _ => frame0));;
  for_loop (Z.to_nat MAX_SWAP_DISK_ENTRIES) 0 (fun i =>
    set_swap i (fun e => e <| se_in_use := false |> <| se_owner := None |> <| se_vaddr := 0 |>
                           <| se_logical_block := -1 |>));;
  disk_sched_init.

(** get_frame_entry: the index of the entry, or null *)
Definition get_frame_entry (pa : Z) : option Z :=
  let kernel_end_rounded := PGROUNDUP kend in
  if (pa <? kernel_end_rounded) || (PHYSTOP <=? pa) then None
  else
    let frame_index := i32 ((pa - kernel_end_rounded) / PGSIZE) in
    if (frame_index <? 0) || (MAX_FRAMES <=? frame_index) then None
    else Some frame_index.

Definition frame_index_to_pa (index : Z) : Z := u64 (PGROUNDUP kend + index * PGSIZE).
Definition pa_to_frame_index (pa : Z) : Z :=
  let kernel_end_rounded := PGROUNDUP kend in
  if (pa <? kernel_end_rounded) || (PHYSTOP <=? pa) then -1
  else i32 ((pa - kernel_end_rounded) / PGSIZE).

Definition with_entry (pa : Z) (f : frame_entry -> frame_entry) : K unit :=
  match get_frame_entry pa with Some i => set_frame i f | None => mret tt end.

(** set_reference_bit, clear_reference_bit *)
Definition set_reference_bit (pa : Z) : K unit :=
  with_entry pa (fun e => e <| fe_ref_bit := true |>).
Definition clear_reference_bit (pa : Z) : K unit :=
  with_entry pa (fun e => e <| fe_ref_bit := false |>).

(** update_frame_table, remove_from_frame_table *)
Definition update_frame_table (p : procptr) (va pa : Z) : K unit :=
  with_entry pa (fun _ => mkframe true p va true false (-1)).
Definition remove_from_frame_table (pa : Z) : K unit :=
  with_entry pa (fun _ => mkframe false None 0 false false (-1)).

(** swap_page_out: the search for a free slot *)
Fixpoint free_slot (s : kstate) (n : nat) (i : Z) : Z :=
  match n with
  | O => -1
  | S n' => if negb (se_in_use (swap_at s i)) then i else free_slot s n' (i + 1)
  end.

Definition swap_page_out (pa : Z) : K Z :=
  match get_frame_entry pa with
  | None => mret (-1)
  | Some entry =>
      owner ← gets (fun s => fe_owner (frame_at s entry));
      match owner with
      | None => mret (-1)
      | Some p =>
          swap_index ← gets (fun s => free_slot s (Z.to_nat MAX_SWAP_DISK_ENTRIES) 0);
          if swap_index =? -1 then mret (-1)
          else
            logical_block ← gets k_next_swap_block;
            if NUM_DISKS * DISK_BLOCKS_PER_DISK <=? logical_block then mret (-1)
            else
              modify (fun s => s <| k_next_swap_block := i32 (k_next_swap_block s + 1) |>);;
              r ← add_disk_request DISK_WRITE logical_block pa (Some p);
              if negb (r =? 0) then mret (-1)
              else
                service_request;;
                modify (fun s =>
                  s <| k_swap_table := <[swap_index :=
                    mkswap true (fe_owner (frame_at s entry)) (fe_vaddr (frame_at s entry))
                      logical_block (k_ticks s)]> (k_swap_table s) |>);;
                set_frame entry (fun e => e <| fe_swapped := true |> <| fe_swap_index := swap_index |>);;
                e ← gets (fun s => frame_at s entry);
                match fe_owner e with
                | None => fault "owner"
                | Some o =>
                    root ← gets (fun s => p_pagetable (pr s o));
                    pte ← walk root (fe_vaddr e) false;
                    if pte =? 0 then mret 0
                    else
                      v ← pte_get pte;
                      pte_set pte (Z.lor (Z.land v (Z.lnot PTE_V)) (Z.shiftl swap_index 10));;
                      mret 0
                end
      end
  end.

(** evict_page: the clock *)
Definition evictable (e : frame_entry) : bool :=
  fe_in_use e && match fe_owner e with Some _ => true | None => false end.
Definition frame_priority (s : kstate) (e : frame_entry) : Z :=
  match fe_owner e with Some p => p_level (pr s p) | None => 0 end.

(** One look at the frame under the hand: the victim so far, its priority, and
    whether the loop stops here. *)
Definition clock_look (victim : option Z) (lowest_priority : Z) : K (option Z * Z * bool) :=
  hand ← gets k_clock_hand;
  e ← gets (fun s => frame_at s hand);
  if evictable e then
    priority ← gets (fun s => frame_priority s e);
    if negb (fe_ref_bit e) then
      if (lowest_priority =? -1) || (lowest_priority <? priority)
      then mret (Some hand, priority, priority =? MLFQ_LEVELS - 1)
      else mret (victim, lowest_priority, false)
    else
      set_frame hand (fun e => e <| fe_ref_bit := false |>);;
      mret (victim, lowest_priority, false)
  else mret (victim, lowest_priority, false).

Fixpoint clock_loop (fuel : nat) (start : Z) (victim : option Z) (lowest_priority : Z)
    : K (option Z * Z) :=
  match fuel with
  | O => no_fuel
  | S fuel' =>
      '(victim, lowest_priority, stop) ← clock_look victim lowest_priority;
      if (stop : bool) then mret (victim, lowest_priority)
      else
        modify (fun s => s <| k_clock_hand := Z.rem (k_clock_hand s + 1) MAX_FRAMES |>);;
        hand ← gets k_clock_hand;
        if (hand =? start) && bool_decide (victim <> None) then mret (victim, lowest_priority)
        else clock_loop fuel' start victim lowest_priority
  end.

(** The second scan, for when the clock found no victim. *)
Fixpoint rescan (s : kstate) (n : nat) (i : Z) (victim : option Z) (lowest_priority : Z) : option Z :=
  match n with
  | O => victim
  | S n' =>
      let e := frame_at s i in
      if evictable e && ((lowest_priority =? -1) || (lowest_priority <? frame_priority s e))
      then rescan s n' (i + 1) (Some i) (frame_priority s e)
      else rescan s n' (i + 1) victim lowest_priority
  end.

(** What evict_page does with the frame it has chosen. *)
Definition evict_frame (index : Z) : K Z :=
  let pa := frame_index_to_pa index in
  r ← swap_page_out pa;
  if negb (r =? 0) then mret 0
  else
    owner ← gets (fun s => fe_owner (frame_at s index));
    (match owner with
     | None => mret tt
     | Some o =>
         set_pr o (fun p => p <| p_pages_evicted := i32 (p_pages_evicted p + 1) |>
                              <| p_pages_swapped_out := i32 (p_pages_swapped_out p + 1) |>
                              <| p_resident_pages := i32 (p_resident_pages p - 1) |>)
     end);;
    mret pa.

Definition evict_page (fuel : nat) : K Z :=
  start ← gets k_clock_hand;
  '(victim, lowest_priority) ← clock_loop fuel start None (-1);
  victim ← (match victim with
            | Some _ => mret victim
            | None =>
                modify (fun s => s <| k_clock_hand := 0 |>);;
                gets (fun s => rescan s (Z.to_nat MAX_FRAMES) 0 victim lowest_priority)
            end);
  match victim with
  | None => mret 0
  | Some index => evict_frame index
  end.

(** swap_page_in *)
Fixpoint find_slot (s : kstate) (n : nat) (i : Z) (p : nat) (va : Z) : Z :=
  match n with
  | O => -1
  | S n' =>
      let e := swap_at s i in
      if se_in_use e && bool_decide (se_owner e = Some p) && (se_vaddr e =? va) then i
      else find_slot s n' (i + 1) p va
  end.

Definition swap_page_in (fuel : nat) (p : nat) (va : Z) : K Z :=
  swap_index ← gets (fun s => find_slot s (Z.to_nat MAX_SWAP_DISK_ENTRIES) 0 p va);
  if swap_index =? -1 then mret (-1)
  else
    logical_block ← gets (fun s => se_logical_block (swap_at s swap_index));
    new_pa ← kalloc;
    new_pa ← (if new_pa =? 0 then evict_page fuel else mret new_pa);
    if new_pa =? 0 then mret (-1)
    else
      r ← add_disk_request DISK_READ logical_block new_pa (Some p);
      if negb (r =? 0) then kfree new_pa;; mret (-1)
      else
        service_request;;
        set_swap swap_index (fun e =>
          e <| se_in_use := false |> <| se_owner := None |> <| se_vaddr := 0 |>
            <| se_logical_block := -1 |>);;
        root ← gets (fun s => p_pagetable (pr s p));
        r ← mappages root va PGSIZE new_pa (Z.lor (Z.lor PTE_W PTE_U) PTE_R);
        if negb (r =? 0) then kfree new_pa;; mret (-1)
        else
          update_frame_table (Some p) va new_pa;;
          set_pr p (fun q => q <| p_pages_swapped_in := i32 (p_pages_swapped_in q + 1) |>
                               <| p_resident_pages := i32 (p_resident_pages q + 1) |>);;
          mret 0.

End Memsys.
