(* ===== verification/Evict.v ===== *)
(** * The clock of evict_page, as a function

    [clock_seq h n] is the order in which the hand visits [n] frames from [h];
    [sweep] is what one turn of the loop computes, as a function of the frames
    at the start of the turn. *)

From S2P Require Import Prelude Memory State Kalloc VM Disk Memsys.

Section Clock.

Fixpoint clock_seq (h : Z) (n : nat) : list Z :=
  match n with
  | O => []
  | S n' => h :: clock_seq (Z.rem (h + 1) MAX_FRAMES) n'
  end.

Lemma clock_next h : 0 <= h < MAX_FRAMES -> Z.rem (h + 1) MAX_FRAMES = (h + 1) `mod` MAX_FRAMES /\
  0 <= (h + 1) `mod` MAX_FRAMES < MAX_FRAMES.
Proof.
  intros Hh. split; [apply Z.rem_mod_nonneg; unfold MAX_FRAMES in *; lia|].
  apply Z.mod_pos_bound. done.
Qed.
Lemma elem_of_clock_seq h n x :
  0 <= h < MAX_FRAMES ->
  (x ∈ clock_seq h n <-> exists k, 0 <= k < Z.of_nat n /\ x = (h + k) `mod` MAX_FRAMES).
Proof.
  revert h. induction n as [|n IH]; intros h Hh; cbn [clock_seq].
  - split; [intros Hx; inversion Hx|intros (k & ? & _); lia].
  - destruct (clock_next h Hh) as [-> Hr]. rewrite elem_of_cons, (IH _ Hr). split.
    + intros [->|(k & Hk & ->)].
      * exists 0. rewrite Z.add_0_r, Z.mod_small by lia. lia.
      * exists (k + 1). split; [lia|]. rewrite Z.add_mod_idemp_l by done. f_equal. lia.
    + intros (k & Hk & ->). destruct (decide (k = 0)) as [->|].
      * left. rewrite Z.add_0_r, Z.mod_small by lia. done.
      * right. exists (k - 1). split; [lia|]. rewrite Z.add_mod_idemp_l by done. f_equal. lia.
Qed.
Lemma NoDup_clock_seq h n :
  0 <= h < MAX_FRAMES -> Z.of_nat n <= MAX_FRAMES -> NoDup (clock_seq h n).
Proof.
  revert h. induction n as [|n IH]; intros h Hh Hn; cbn [clock_seq]; [constructor|].
  destruct (clock_next h Hh) as [E Hr]. rewrite E. apply NoDup_cons. split; [|apply IH; [done|lia]].
  rewrite elem_of_clock_seq by done. intros (k & Hk & Ek).
  rewrite Z.add_mod_idemp_l in Ek by done. unfold MAX_FRAMES in *. revert Ek. div_lia.
Qed.
(** A whole turn visits every frame. *)
Lemma clock_seq_all h n x :
  0 <= h < MAX_FRAMES -> Z.of_nat n = MAX_FRAMES -> 0 <= x < MAX_FRAMES -> x ∈ clock_seq h n.
Proof.
  intros Hh Hn Hx. apply elem_of_clock_seq; [done|]. exists ((x - h) `mod` MAX_FRAMES).
  rewrite Hn. split; [by apply Z.mod_pos_bound|].
  rewrite Z.add_mod_idemp_r by done. replace (h + (x - h)) with x by lia. by rewrite Z.mod_small.
Qed.

(** A candidate: in use, owned, and not referenced. *)
Definition cand (s : kstate) (x : Z) : bool :=
  evictable (frame_at s x) && negb (fe_ref_bit (frame_at s x)).
Definition prio (s : kstate) (x : Z) : Z := frame_priority s (frame_at s x).

Fixpoint sweep (s : kstate) (l : list Z) (victim : option Z) (lp : Z) : option Z * Z :=
  match l with
  | [] => (victim, lp)
  | x :: l' =>
      if cand s x && ((lp =? -1) || (lp <? prio s x)) then
        if prio s x =? MLFQ_LEVELS - 1 then (Some x, prio s x)
        else sweep s l' (Some x) (prio s x)
      else sweep s l' victim lp
  end.

(** The reference bits that the hand clears. *)
Definition cleared (e : frame_entry) : frame_entry :=
  if evictable e && fe_ref_bit e then e <| fe_ref_bit := false |> else e.
Record clocked (s s' : kstate) (l : list Z) : Prop := {
  ck_only : exists h ft, s' = s <| k_clock_hand := h |> <| k_frame_table := ft |>;
  ck_frame : forall i, frame_at s' i = if decide (i ∈ l) then cleared (frame_at s i) else frame_at s i
}.

Lemma clocked_pr s s' l : clocked s s' l -> k_proc s' = k_proc s.
Proof. intros [(h & ft & ->) _]. kproj. Qed.
Lemma frame_priority_eq s s' e : k_proc s' = k_proc s -> frame_priority s' e = frame_priority s e.
Proof. unfold frame_priority, pr. by intros ->. Qed.

Lemma sweep_ext s s' l victim lp :
  k_proc s' = k_proc s -> (forall x, x ∈ l -> frame_at s' x = frame_at s x) ->
  sweep s' l victim lp = sweep s l victim lp.
Proof.
  intros Hp. revert victim lp. induction l as [|x l IH]; intros victim lp Hx; cbn [sweep]; [done|].
  unfold cand, prio. rewrite (Hx x) by left. rewrite (frame_priority_eq s s') by done.
  rewrite !IH by (intros; apply Hx; by right). done.
Qed.

(** ** One look, one turn *)

Definition looked (s : kstate) : kstate :=
  let h := k_clock_hand s in
  if evictable (frame_at s h) && fe_ref_bit (frame_at s h)
  then s <| k_frame_table := <[h := (frame_at s h) <| fe_ref_bit := false |>]> (k_frame_table s) |>
  else s.
Definition advanced (s : kstate) : kstate :=
  s <| k_clock_hand := Z.rem (k_clock_hand s + 1) MAX_FRAMES |>.

Lemma clock_look_eq s victim lp :
  let h := k_clock_hand s in
  clock_look victim lp s =
    if cand s h && ((lp =? -1) || (lp <? prio s h))
    then Ret (Some h, prio s h, prio s h =? MLFQ_LEVELS - 1) s
    else Ret (victim, lp, false) (looked s).
Proof.
  unfold clock_look, cand, prio, looked, set_frame. run.
  destruct (evictable (frame_at s (k_clock_hand s))); [|done].
  destruct (fe_ref_bit (frame_at s (k_clock_hand s))); cbn [negb andb]; [done|].
  by destruct ((lp =? -1) || _).
Qed.

Lemma looked_clocked s : clocked s (advanced (looked s)) [k_clock_hand s].
Proof.
  unfold advanced, looked. split.
  - destruct (_ && _); [by eexists _, _|]. exists (Z.rem (k_clock_hand s + 1) MAX_FRAMES), (k_frame_table s).
    by destruct s.
  - intros i. destruct (decide (i ∈ [k_clock_hand s])) as [->%list_elem_of_singleton|Hi].
    + unfold cleared. destruct (_ && _) eqn:E; unfold frame_at at 1; cbn; [by rewrite lookup_insert_eq|done].
    + rewrite list_elem_of_singleton in Hi. destruct (_ && _); [|done].
      unfold frame_at at 1. cbn. by rewrite lookup_insert_ne by done.
Qed.
Lemma looked_hand s :
  k_clock_hand (advanced (looked s)) = Z.rem (k_clock_hand s + 1) MAX_FRAMES.
Proof. unfold advanced, looked. by destruct (_ && _). Qed.
Lemma cand_looked s h : k_clock_hand s = h -> cand s h = true -> looked s = s.
Proof.
  intros <-. unfold cand, looked. destruct (evictable _), (fe_ref_bit _); done.
Qed.

Lemma clocked_cons s s1 s' h l :
  clocked s s1 [h] -> clocked s1 s' l -> h ∉ l -> clocked s s' (h :: l).
Proof.
  intros [(h1 & f1 & ->) F1] [(h2 & f2 & ->) F2] Hh. split; [by eexists _, _|].
  intros i. rewrite F2, F1. destruct (decide (i ∈ l)) as [Hi|Hi].
  - rewrite decide_False, decide_True; [done|by right|]. rewrite list_elem_of_singleton. by intros ->.
  - destruct (decide (i ∈ [h])) as [Hi'|Hi'].
    + rewrite decide_True; [done|]. apply list_elem_of_singleton in Hi' as ->. left.
    + rewrite decide_False; [done|]. rewrite elem_of_cons. rewrite list_elem_of_singleton in Hi'. tauto.
Qed.
Lemma clocked_nil s : clocked s s [].
Proof.
  split; [exists (k_clock_hand s), (k_frame_table s); by destruct s|]. intros i.
  rewrite decide_False; [done|]. apply not_elem_of_nil.
Qed.

(** The frame under the hand becomes the victim. *)
Definition chosen (s : kstate) (lp : Z) : bool :=
  cand s (k_clock_hand s) && ((lp =? -1) || (lp <? prio s (k_clock_hand s))).

Lemma clock_loop_step f start victim lp s :
  clock_loop (S f) start victim lp s =
    if chosen s lp && (prio s (k_clock_hand s) =? MLFQ_LEVELS - 1)
    then Ret (Some (k_clock_hand s), prio s (k_clock_hand s)) s
    else
      let v' := if chosen s lp then Some (k_clock_hand s) else victim in
      let lp' := if chosen s lp then prio s (k_clock_hand s) else lp in
      if (Z.rem (k_clock_hand s + 1) MAX_FRAMES =? start) && bool_decide (v' <> None)
      then Ret (v', lp') (advanced (looked s))
      else clock_loop f start v' lp' (advanced (looked s)).
Proof.
  cbn [clock_loop]. unfold mbind at 1, M_bind at 1. rewrite (clock_look_eq s victim lp). cbv zeta.
  fold (chosen s lp). destruct (chosen s lp) eqn:E; cbn [andb].
  - apply andb_prop in E as [E _]. rewrite (cand_looked s _ eq_refl E).
    destruct (prio s (k_clock_hand s) =? MLFQ_LEVELS - 1); [done|].
    unfold advanced. run. cbn [k_clock_hand]. by destruct (_ && _).
  - rewrite <- looked_hand. unfold advanced. run. by destruct (_ && _).
Qed.

(** From the hand to the end of the turn: the loop stops with the victim of
    the sweep, or goes on into the next turn with all reference bits clear. *)
Lemma clock_turn n fuel s start victim lp :
  0 <= k_clock_hand s < MAX_FRAMES -> Z.of_nat n < MAX_FRAMES ->
  (k_clock_hand s + Z.of_nat n + 1) `mod` MAX_FRAMES = start ->
  (forall k, 0 < k <= Z.of_nat n -> (k_clock_hand s + k) `mod` MAX_FRAMES <> start) ->
  let l := clock_seq (k_clock_hand s) (S n) in
  exists s' l1 l2, l = l1 ++ l2 /\ clocked s s' l1 /\
    match sweep s l victim lp with
    | (Some v, lp') => clock_loop (S n + fuel) start victim lp s = Ret (Some v, lp') s'
    | (None, lp') =>
        clock_loop (S n + fuel) start victim lp s = clock_loop fuel start None lp' s' /\
        k_clock_hand s' = start /\ l2 = []
    end.
Proof.
  revert s victim lp. induction n as [|n IH]; intros s victim lp Hh Hn Hend Hbefore l; subst l;
    cbn [clock_seq sweep]; change (cand s (k_clock_hand s) && _) with (chosen s lp);
    destruct (clock_next _ Hh) as [Hrem Hr]; cbn [Nat.add]; rewrite clock_loop_step; cbv zeta;
    (destruct (chosen s lp && (prio s (k_clock_hand s) =? MLFQ_LEVELS - 1)) eqn:Hstop;
     [apply andb_prop in Hstop as [-> ->]; eexists s, [], _; split; [done|]; split; [apply clocked_nil|done]|]).
  - replace (Z.rem (k_clock_hand s + 1) MAX_FRAMES =? start) with true.
    2:{ symmetry. apply Z.eqb_eq. rewrite Hrem, <- Hend. f_equal. lia. }
    eexists (advanced (looked s)), [_], []. split; [done|]. split; [apply looked_clocked|].
    destruct (chosen s lp); [by destruct (prio s _ =? _)|]. destruct victim as [v|]; [done|].
    split; [done|]. split; [|done]. rewrite looked_hand, Hrem, <- Hend. f_equal. lia.
  - destruct (Z.eqb_spec (Z.rem (k_clock_hand s + 1) MAX_FRAMES) start) as [E|_].
    { exfalso. apply (Hbefore 1); [lia|]. by rewrite <- Hrem. }
    cbn [andb]. pose proof (looked_clocked s) as Hck. pose proof (looked_hand s) as Hhand.
    set (s1 := advanced (looked s)) in *. clearbody s1.
    assert (Hnot : k_clock_hand s ∉ clock_seq (Z.rem (k_clock_hand s + 1) MAX_FRAMES) (S n)).
    { pose proof (NoDup_clock_seq (k_clock_hand s) (S (S n)) Hh ltac:(lia)) as Hnd.
      change (clock_seq (k_clock_hand s) (S (S n))) with
        (k_clock_hand s :: clock_seq (Z.rem (k_clock_hand s + 1) MAX_FRAMES) (S n)) in Hnd.
      by apply NoDup_cons in Hnd as [? _]. }
    set (v' := if chosen s lp then Some (k_clock_hand s) else victim).
    set (lp' := if chosen s lp then prio s (k_clock_hand s) else lp).
    destruct (IH s1 v' lp') as (s' & l1 & l2 & El & Hck' & Hres).
    { rewrite Hhand, Hrem. done. }
    { lia. }
    { rewrite Hhand, Hrem, <- Z.add_assoc, Z.add_mod_idemp_l by done. rewrite <- Hend. f_equal. lia. }
    { intros k Hk. rewrite Hhand, Hrem, Z.add_mod_idemp_l by done.
      replace (k_clock_hand s + 1 + k) with (k_clock_hand s + (k + 1)) by lia. apply Hbefore. lia. }
    rewrite Hhand in El, Hres.
    exists s', (k_clock_hand s :: l1), l2. split; [cbn; by rewrite <- El|]. split.
    { eapply clocked_cons; [exact Hck|exact Hck'|]. intros Hin. apply Hnot. rewrite El. apply elem_of_app. by left. }
    rewrite (sweep_ext s s1) in Hres.
    2:{ by eapply clocked_pr. }
    2:{ intros x Hx. rewrite (ck_frame _ _ _ Hck), decide_False; [done|].
        rewrite list_elem_of_singleton. by intros ->. }
    unfold v', lp' in Hres. destruct (chosen s lp); [|exact Hres].
    cbn [andb] in Hstop. rewrite Hstop. exact Hres.
Qed.

(** ** The victim *)

(** [v] is the first element of [l] with the largest [p] among those in [c]. *)
Definition first_max (c : Z -> bool) (p : Z -> Z) (l : list Z) (v : Z) : Prop :=
  exists l1 l2, l = l1 ++ v :: l2 /\ c v = true /\
    (forall x, x ∈ l1 -> c x = true -> p x < p v) /\
    (forall x, x ∈ l2 -> c x = true -> p x <= p v).

Lemma first_max_snoc c p l v x :
  first_max c p l v -> (c x = true -> p x <= p v) -> first_max c p (l ++ [x]) v.
Proof.
  intros (l1 & l2 & -> & Hv & H1 & H2) Hx. exists l1, (l2 ++ [x]). split; [by rewrite <- app_assoc|].
  split_and!; try done. intros y [Hy|Hy]%elem_of_app; [by apply H2|].
  apply list_elem_of_singleton in Hy as ->. done.
Qed.
Lemma first_max_new c p l x :
  c x = true -> (forall y, y ∈ l -> c y = true -> p y < p x) -> first_max c p (l ++ [x]) x.
Proof. intros Hx Hl. exists l, []. split_and!; try done. by intros y ?%not_elem_of_nil. Qed.
Lemma first_max_bound c p l v x : first_max c p l v -> x ∈ l -> c x = true -> p x <= p v.
Proof.
  intros (l1 & l2 & -> & _ & H1 & H2) Hx Hc.
  apply elem_of_app in Hx as [Hx|[->|Hx]%elem_of_cons]; [|lia|by apply H2].
  specialize (H1 x Hx Hc). lia.
Qed.
Lemma first_max_app c p l l' v :
  first_max c p l v -> (forall x, x ∈ l' -> c x = true -> p x <= p v) -> first_max c p (l ++ l') v.
Proof.
  intros (l1 & l2 & -> & Hv & H1 & H2) Hx. exists l1, (l2 ++ l'). split; [by rewrite <- app_assoc|].
  split_and!; try done. intros y [Hy|Hy]%elem_of_app; [by apply H2|by apply Hx].
Qed.
Lemma first_max_ext c c' p p' l v :
  (forall x, x ∈ l -> c x = c' x) -> (forall x, p x = p' x) -> first_max c p l v -> first_max c' p' l v.
Proof.
  intros Hc Hp (l1 & l2 & -> & Hv & H1 & H2). exists l1, l2. split; [done|].
  assert (Hin : forall x, x ∈ l1 \/ x = v \/ x ∈ l2 -> c x = c' x).
  { intros x Hx. apply Hc. rewrite elem_of_app, elem_of_cons. tauto. }
  rewrite <- Hin by tauto. split; [done|].
  split; intros x Hx; rewrite <- !Hp, <- Hin by tauto; auto.
Qed.

Lemma sweep_first_max s l0 l victim lp :
  (forall x, x ∈ l0 ++ l -> 0 <= prio s x < MLFQ_LEVELS) ->
  match victim with
  | Some v => first_max (cand s) (prio s) l0 v /\ lp = prio s v
  | None => lp = -1 /\ forall x, x ∈ l0 -> cand s x = false
  end ->
  match sweep s l victim lp with
  | (Some v, lp') => first_max (cand s) (prio s) (l0 ++ l) v /\ lp' = prio s v
  | (None, lp') => lp' = -1 /\ forall x, x ∈ l0 ++ l -> cand s x = false
  end.
Proof.
  revert l0 victim lp. induction l as [|x l IH]; intros l0 victim lp Hlev Hv; cbn [sweep].
  { rewrite app_nil_r. by destruct victim. }
  assert (Hx : 0 <= prio s x < MLFQ_LEVELS) by (apply Hlev, elem_of_app; right; left).
  assert (Hl0 : forall y, y ∈ l0 -> cand s y = true -> 0 <= prio s y /\ prio s y <= lp).
  { intros y Hy Hc. split; [apply Hlev, elem_of_app; by left|]. destruct victim as [v|].
    - destruct Hv as [Hv ->]. by eapply first_max_bound.
    - destruct Hv as [_ Hv]. rewrite Hv in Hc; done. }
  replace (l0 ++ x :: l) with ((l0 ++ [x]) ++ l) in * by (by rewrite <- app_assoc).
  destruct (cand s x && ((lp =? -1) || (lp <? prio s x))) eqn:Hch.
  - apply andb_prop in Hch as [Hc Hlp].
    assert (Hnew : first_max (cand s) (prio s) (l0 ++ [x]) x).
    { apply first_max_new; [done|]. intros y Hy Hcy. destruct (Hl0 y Hy Hcy).
      apply orb_prop in Hlp as [Hlp%Z.eqb_eq|Hlp%Z.ltb_lt]; lia. }
    destruct (Z.eqb_spec (prio s x) (MLFQ_LEVELS - 1)) as [E|E].
    + split; [|done]. apply first_max_app; [done|]. intros y Hy _. rewrite E.
      specialize (Hlev y ltac:(apply elem_of_app; by right)). lia.
    + apply IH; [done|]. done.
  - apply IH; [done|]. destruct victim as [v|].
    + destruct Hv as [Hv ->]. split; [|done]. apply first_max_snoc; [done|]. intros Hc.
      rewrite Hc in Hch. cbn in Hch. apply orb_false_iff in Hch as [_ Hch%Z.ltb_ge]. done.
    + destruct Hv as [-> Hv]. split; [done|]. intros y [Hy|Hy]%elem_of_app; [by apply Hv|].
      apply list_elem_of_singleton in Hy as ->. cbn in Hch. by rewrite andb_true_r in Hch.
Qed.

(** The frames in the order the hand meets them, and the victim: the lowest
    priority (highest level) unreferenced frame, the first one met; when every
    frame in use is referenced, the same among all frames in use. *)
Definition victim_in (order : list Z) (s : kstate) (v : Z) : Prop :=
  if existsb (cand s) order
  then first_max (cand s) (prio s) order v
  else first_max (fun x => evictable (frame_at s x)) (prio s) order v.

(** [n] is the number of frames; as a variable it is never computed. *)
Section Turns.
Context (n : nat) (Hn : Z.of_nat n = MAX_FRAMES).
Definition clock_order (s : kstate) : list Z := clock_seq (k_clock_hand s) n.

Lemma turn_start h : 0 <= h < MAX_FRAMES ->
  (h + Z.of_nat (n - 1) + 1) `mod` MAX_FRAMES = h /\
  (forall k, 0 < k <= Z.of_nat (n - 1) -> (h + k) `mod` MAX_FRAMES <> h).
Proof.
  intros Hh. replace (Z.of_nat (n - 1)) with (MAX_FRAMES - 1) by (unfold MAX_FRAMES in *; lia).
  split; [|intros k Hk]; unfold MAX_FRAMES in *; div_lia.
Qed.

Lemma clock_one_turn fuel s :
  0 <= k_clock_hand s < MAX_FRAMES ->
  exists s' l1 l2, clock_order s = l1 ++ l2 /\ clocked s s' l1 /\
    match sweep s (clock_order s) None (-1) with
    | (Some v, lp') =>
        clock_loop (n + fuel) (k_clock_hand s) None (-1) s = Ret (Some v, lp') s'
    | (None, lp') =>
        clock_loop (n + fuel) (k_clock_hand s) None (-1) s =
          clock_loop fuel (k_clock_hand s) None lp' s' /\
        k_clock_hand s' = k_clock_hand s /\ l2 = []
    end.
Proof.
  intros Hh. destruct (turn_start _ Hh) as [H1 H2]. unfold clock_order.
  replace n with (S (n - 1)) by (unfold MAX_FRAMES in *; lia).
  apply clock_turn; [done|lia|done|done].
Qed.

Lemma cleared_facts e :
  evictable (cleared e) = evictable e /\ fe_owner (cleared e) = fe_owner e /\
  fe_vaddr (cleared e) = fe_vaddr e /\ (evictable e = true -> fe_ref_bit (cleared e) = false) /\
  cleared (cleared e) = cleared e.
Proof.
  unfold cleared. destruct e as [u o va r sw si]. unfold evictable. cbn.
  destruct u, o, r; cbn; by split_and!.
Qed.
Lemma clock_order_range s x :
  0 <= k_clock_hand s < MAX_FRAMES -> x ∈ clock_order s <-> 0 <= x < MAX_FRAMES.
Proof.
  intros Hh. split; [|by apply clock_seq_all].
  unfold clock_order.
  rewrite elem_of_clock_seq by done. intros (k & _ & ->). by apply Z.mod_pos_bound.
Qed.
Lemma existsb_false (c : Z -> bool) l : (forall x, x ∈ l -> c x = false) -> existsb c l = false.
Proof.
  induction l as [|x l IH]; intros Hx; cbn; [done|]. rewrite Hx by left.
  apply IH. intros; apply Hx; by right.
Qed.
Lemma existsb_first_max c p l v : first_max c p l v -> existsb c l = true.
Proof. intros (l1 & l2 & -> & Hv & _). rewrite existsb_app. cbn. rewrite Hv. by rewrite orb_true_r. Qed.
Lemma first_max_in c p l v : first_max c p l v -> v ∈ l /\ c v = true.
Proof. intros (l1 & l2 & -> & Hv & _). split; [|done]. apply elem_of_app. right. left. Qed.

(** The effect of the clock on the state: the hand and some reference bits. *)
Definition clock_effect (s s' : kstate) : Prop :=
  (exists h ft, s' = s <| k_clock_hand := h |> <| k_frame_table := ft |>) /\
  forall i, frame_at s' i = frame_at s i \/ frame_at s' i = cleared (frame_at s i).
Lemma clocked_effect s s' l : clocked s s' l -> clock_effect s s'.
Proof. intros [Ho Hf]. split; [done|]. intros i. rewrite Hf. case_decide; auto. Qed.
Lemma clock_effect_trans s1 s2 s3 : clock_effect s1 s2 -> clock_effect s2 s3 -> clock_effect s1 s3.
Proof.
  intros [(h & ft & ->) F1] [(h' & ft' & ->) F2]. split; [by eexists _, _|]. intros i.
  destruct (F2 i) as [-> | ->], (F1 i) as [-> | ->]; auto. right. apply cleared_facts.
Qed.

Lemma clock_finds_n fuel s :
  0 <= k_clock_hand s < MAX_FRAMES -> (forall i, 0 <= p_level (pr s i) < MLFQ_LEVELS) ->
  (exists x, 0 <= x < MAX_FRAMES /\ evictable (frame_at s x) = true) ->
  (2 * n <= fuel)%nat ->
  exists v lp s', clock_loop fuel (k_clock_hand s) None (-1) s = Ret (Some v, lp) s' /\
    victim_in (clock_order s) s v /\ 0 <= v < MAX_FRAMES /\ evictable (frame_at s v) = true /\ clock_effect s s'.
Proof.
  intros Hh Hlev (x0 & Hx0 & He0) Hf.
  assert (Hprio : forall s' x, k_proc s' = k_proc s -> 0 <= prio s' x < MLFQ_LEVELS).
  { intros s' x Hp. unfold prio, frame_priority, pr in *. rewrite Hp. by destruct (fe_owner _). }
  destruct (clock_one_turn (fuel - n) s Hh) as (s1 & l1 & l2 & El & Hck & Hres).
  pose proof (sweep_first_max s [] (clock_order s) None (-1)) as Hsw. cbn [app] in Hsw.
  specialize (Hsw ltac:(intros; by apply Hprio) ltac:(split; [done|by intros y ?%not_elem_of_nil])).
  replace (n + (fuel - n))%nat with fuel in Hres by lia.
  destruct (sweep s (clock_order s) None (-1)) as [[v|] lp'].
  { destruct Hsw as [Hfm _]. exists v, lp', s1. split; [done|].
    destruct (first_max_in _ _ _ _ Hfm) as [Hin Hc]. unfold victim_in.
    rewrite (existsb_first_max _ _ _ _ Hfm). split; [done|]. split; [by apply (clock_order_range s)|].
    split; [by apply andb_prop in Hc as [? _]|by eapply clocked_effect]. }
  destruct Hsw as [-> Hnone]. destruct Hres as (Hloop & Hh1 & ->). rewrite app_nil_r in El. subst l1.
  pose proof (clocked_pr _ _ _ Hck) as Hpr1.
  assert (Hfr : forall x, x ∈ clock_order s -> frame_at s1 x = cleared (frame_at s x)).
  { intros x Hx. rewrite (ck_frame _ _ _ Hck). by rewrite decide_True. }
  assert (Hcand : forall x, x ∈ clock_order s -> cand s1 x = evictable (frame_at s x)).
  { intros x Hx. unfold cand. rewrite (Hfr x Hx).
    destruct (cleared_facts (frame_at s x)) as (-> & _ & _ & Hr & _).
    destruct (evictable (frame_at s x)); [by rewrite Hr|done]. }
  assert (Hp1 : forall x, prio s1 x = prio s x).
  { intros x. unfold prio. rewrite (frame_priority_eq s s1) by exact Hpr1.
    rewrite (ck_frame _ _ _ Hck). case_decide; [|done]. unfold frame_priority.
    by destruct (cleared_facts (frame_at s x)) as (_ & -> & _). }
  assert (Hord : clock_order s1 = clock_order s) by (unfold clock_order; by rewrite Hh1).
  destruct (clock_one_turn (fuel - 2 * n) s1) as (s2 & l1 & l2 & _ & Hck2 & Hres2);
    [by rewrite Hh1|]. rewrite Hord, Hh1 in Hres2. clear Hord.
  pose proof (sweep_first_max s1 [] (clock_order s) None (-1)) as Hsw. cbn [app] in Hsw.
  specialize (Hsw ltac:(intros; by apply Hprio)
                  ltac:(split; [done|by intros y ?%not_elem_of_nil])).
  destruct (sweep s1 (clock_order s) None (-1)) as [[v|] lp'].
  - destruct Hsw as [Hfm _]. apply (first_max_ext _ _ _ _ _ _ Hcand Hp1) in Hfm. exists v, lp', s2.
    split.
    { rewrite Hloop, <- Hres2. f_equal. lia. }
    destruct (first_max_in _ _ _ _ Hfm) as [Hin Hc]. unfold victim_in.
    rewrite (existsb_false (cand s)) by done. split; [done|]. split; [by apply (clock_order_range s)|].
    split; [done|]. eapply clock_effect_trans; eapply clocked_effect; [exact Hck|exact Hck2].
  - destruct Hsw as [_ Hno]. apply (clock_order_range s) in Hx0; [|done].
    specialize (Hno x0 Hx0). rewrite Hcand in Hno by done. congruence.
Qed.

End Turns.

Definition is_victim (s : kstate) (v : Z) : Prop :=
  victim_in (clock_order (Z.to_nat MAX_FRAMES) s) s v.

Lemma clock_finds fuel s :
  0 <= k_clock_hand s < MAX_FRAMES -> (forall i, 0 <= p_level (pr s i) < MLFQ_LEVELS) ->
  (exists x, 0 <= x < MAX_FRAMES /\ evictable (frame_at s x) = true) ->
  (2 * Z.to_nat MAX_FRAMES <= fuel)%nat ->
  exists v lp s', clock_loop fuel (k_clock_hand s) None (-1) s = Ret (Some v, lp) s' /\
    is_victim s v /\ 0 <= v < MAX_FRAMES /\ evictable (frame_at s v) = true /\ clock_effect s s'.
Proof.
  assert (Hn : Z.of_nat (Z.to_nat MAX_FRAMES) = MAX_FRAMES) by (apply Z2Nat.id; done).
  unfold is_victim. revert Hn. generalize (Z.to_nat MAX_FRAMES). intros n Hn. by apply clock_finds_n.
Qed.

(** With no frame to evict the loop never ends. *)
Lemma clock_hangs fuel s start :
  0 <= k_clock_hand s < MAX_FRAMES ->
  (forall x, 0 <= x < MAX_FRAMES -> evictable (frame_at s x) = false) ->
  clock_loop fuel start None (-1) s = NoFuel.
Proof.
  revert s. induction fuel as [|fuel IH]; intros s Hh Hno; [done|].
  rewrite clock_loop_step. assert (E : evictable (frame_at s (k_clock_hand s)) = false) by auto.
  unfold chosen, cand, looked. rewrite E. cbn [andb]. rewrite bool_decide_false by tauto.
  rewrite andb_false_r. destruct (clock_next _ Hh) as [Hr Hr'].
  apply IH; [unfold advanced; cbn; by rewrite Hr|]. exact Hno.
Qed.
End Clock.
