(* ===== verification/MemsysProps.v ===== *)
(** * kernel/memsys.c: the properties of page replacement and swap *)

From S2P Require Import Prelude Memory State Kalloc VM PageTable VMSpec UserSpace VMProps Disk DiskProps Memsys Evict.
Import Mem KString Raid DiskQueue.

(** ** Frame numbers *)

(** The frame table and the allocator agree on the pages: the frame of a page
    of the kernel's memory is a valid index, distinct pages have distinct
    frames, and frame_index_to_pa gives the page back. *)
Theorem frame_index_roundtrip `{KernelImage} (pa : Z) (Hpa : page_ok pa) :
  exists i, get_frame_entry pa = Some i /\ pa_to_frame_index pa = i /\ 0 <= i < MAX_FRAMES /\
    frame_index_to_pa i = pa.
Proof.
  pose proof kend_range as Hk. destruct Hpa as [Hm Hr].
  destruct (pgroundup_bounds kend) as [Hb Hbm]; [page_lia..|].
  assert (Hle : PGROUNDUP kend <= pa) by (unfold PGSIZE in *; div_lia).
  assert (Hi : 0 <= (pa - PGROUNDUP kend) / PGSIZE < MAX_FRAMES).
  { unfold MAX_FRAMES, PHYSTOP, KERNBASE, PGSIZE in *. div_lia. }
  exists ((pa - PGROUNDUP kend) / PGSIZE).
  unfold get_frame_entry, pa_to_frame_index, frame_index_to_pa.
  destruct (Z.ltb_spec pa (PGROUNDUP kend)); [lia|]. destruct (Z.leb_spec PHYSTOP pa); [lia|].
  cbn [orb]. rewrite i32_small by (unfold MAX_FRAMES in *; lia).
  destruct (Z.ltb_spec ((pa - PGROUNDUP kend) / PGSIZE) 0); [lia|].
  destruct (Z.leb_spec MAX_FRAMES ((pa - PGROUNDUP kend) / PGSIZE)); [lia|].
  split_and!; try done; try lia. rewrite u64_small; unfold PHYSTOP, KERNBASE, PGSIZE in *; div_lia.
Qed.
Lemma frame_index_roundtrip_witness :
  exists i, @get_frame_entry example_image 0x80200000 = Some i /\
    @pa_to_frame_index example_image 0x80200000 = i /\ 0 <= i < MAX_FRAMES /\
    @frame_index_to_pa example_image i = 0x80200000.
Proof. apply (@frame_index_roundtrip example_image 0x80200000). vm_compute. repeat split; congruence. Defined.

(** ** The clock *)

Lemma evict_page_run `{KernelImage} fuel s v lp s1 :
  clock_loop fuel (k_clock_hand s) None (-1) s = Ret (Some v, lp) s1 ->
  evict_page fuel s = evict_frame v s1.
Proof.
  intros E. unfold evict_page. rewrite (bind_ret (gets k_clock_hand) _ s (k_clock_hand s) s eq_refl).
  by rewrite (bind_ret _ _ _ _ _ E).
Qed.


(** With no frame in use by a process, evict_page never returns: no amount
    of fuel is enough.  (The test that breaks the loop requires a victim, so
    the second scan that follows the loop is never reached without one.) *)
Theorem evict_page_hangs `{KernelImage} (fuel : nat) (s : kstate)
  (Hh : 0 <= k_clock_hand s < MAX_FRAMES)
  (Hno : forall x, 0 <= x < MAX_FRAMES -> evictable (frame_at s x) = false) :
  evict_page fuel s = NoFuel.
Proof.
  unfold evict_page. rewrite (bind_ret (gets k_clock_hand) _ s (k_clock_hand s) s eq_refl).
  unfold mbind, M_bind. by rewrite (clock_hangs fuel s _ Hh Hno).
Qed.
Lemma evict_page_hangs_witness : @evict_page example_image (2 * Z.to_nat MAX_FRAMES) kstate0 = NoFuel.
Proof.
  apply (@evict_page_hangs example_image (2 * Z.to_nat MAX_FRAMES) kstate0).
  - vm_compute. split; congruence.
  - reflexivity.
Defined.

(** ** Swapping out *)

(** With no free page the write request cannot be queued. *)
Lemma swap_page_out_full `{KernelImage} s pa :
  kmem_inv s [] ->
  exists b, swap_page_out pa s = Ret (-1) (s <| k_next_swap_block := b |>).
Proof.
  intros Hk. assert (Hsame : s = s <| k_next_swap_block := k_next_swap_block s |>) by (by destruct s).
  unfold swap_page_out. destruct (get_frame_entry pa) as [i|]; [|eexists; by rewrite <- Hsame].
  run. destruct (fe_owner (frame_at s i)) as [p|]; [|eexists; by rewrite <- Hsame].
  destruct (free_slot s _ 0 =? -1); [eexists; by rewrite <- Hsame|].
  destruct (_ <=? k_next_swap_block s); [eexists; by rewrite <- Hsame|].
  exists (i32 (k_next_swap_block s + 1)). rewrite add_disk_request_full; [done|].
  by apply (kmem_inv_same s).
Qed.

(** evict_page cannot make room when memory is exhausted: with an empty
    free list (the only situation in which the kernel calls it) it always
    returns 0, because queueing the write of the victim itself needs a page.
    No page table and no other memory changes. *)
Theorem evict_page_out_of_memory `{KernelImage} (fuel : nat) (s : kstate)
  (Hk : kmem_inv s [])
  (Hh : 0 <= k_clock_hand s < MAX_FRAMES) (Hlev : forall i, 0 <= p_level (pr s i) < MLFQ_LEVELS)
  (Hev : exists x, 0 <= x < MAX_FRAMES /\ evictable (frame_at s x) = true)
  (Hf : (2 * Z.to_nat MAX_FRAMES <= fuel)%nat) :
  exists s', evict_page fuel s = Ret 0 s' /\ k_mem s' = k_mem s /\ kmem_inv s' [] /\
    k_swap_table s' = k_swap_table s /\ k_proc s' = k_proc s.
Proof.
  destruct (clock_finds fuel s Hh Hlev Hev Hf) as (v & lp & s1 & E & _ & _ & _ & [(h & ft & ->) _]).
  rewrite (evict_page_run fuel s v lp _ E). unfold evict_frame.
  set (s1 := s <| k_clock_hand := h |> <| k_frame_table := ft |>) in *.
  assert (Hk1 : kmem_inv s1 []) by exact Hk.
  destruct (swap_page_out_full s1 (frame_index_to_pa v) Hk1) as (b & E').
  rewrite (bind_ret _ _ _ _ _ E'). eexists. split; [reflexivity|]. by split_and!.
Qed.
Lemma evict_page_out_of_memory_witness :
  let s := ex_state <| k_frame_table := <[259 := mkframe true (Some 0%nat) 0 true false (-1)]> ∅ |>
             <| k_freelist := 0 |> in
  exists s', @evict_page example_image (2 * Z.to_nat MAX_FRAMES) s = Ret 0 s' /\
    k_mem s' = k_mem s /\ @kmem_inv example_image s' [] /\
    k_swap_table s' = k_swap_table s /\ k_proc s' = k_proc s.
Proof.
  intros s. apply (@evict_page_out_of_memory example_image (2 * Z.to_nat MAX_FRAMES) s).
  - split; [reflexivity|constructor].
  - vm_compute. split; congruence.
  - intros [|i]; [vm_compute; split; congruence|].
    unfold pr, procs_at. cbn. destruct i; vm_compute; split; congruence.
  - exists 259. vm_compute. split; [split; congruence|reflexivity].
  - apply Nat.le_refl.
Defined.

Lemma has_u64_valid x : has (u64 x) PTE_V = has x PTE_V.
Proof.
  unfold has, u64. change PTE_V with (Z.ones 1). rewrite !Z.land_ones by lia.
  f_equal. f_equal. change (2 ^ 1) with 2. change (2 ^ 64) with 18446744073709551616. div_lia.
Qed.
Lemma swapped_entry_invalid e k :
  has (u64 (Z.lor (Z.land e (Z.lnot PTE_V)) (Z.shiftl k 10))) PTE_V = false.
Proof.
  rewrite has_u64_valid. unfold has. rewrite Z.land_lor_distr_l, <- Z.land_assoc.
  change (Z.land (Z.lnot PTE_V) PTE_V) with 0. rewrite Z.land_0_r, Z.lor_0_l.
  change PTE_V with (Z.ones 1). rewrite Z.land_ones, Z.shiftl_mul_pow2 by lia.
  change (2 ^ 10) with 1024. change (2 ^ 1) with 2.
  destruct (Z.eqb_spec ((k * 1024) `mod` 2) 0); [done|]. exfalso. revert n. div_lia.
Qed.

(** Writes into a free page do not touch the page table. *)
Lemma vm_ok_frame `{KernelImage} s s' root T fl c :
  vm_ok s root T fl -> c ∈ fl -> kmem_inv s' fl ->
  (forall b, ~ (c <= b < c + PGSIZE) -> ld8 (k_mem s') b = ld8 (k_mem s) b) ->
  vm_ok s' root T fl /\ (forall va, pte_of T (k_mem s') va = pte_of T (k_mem s) va).
Proof.
  intros (Hk & Hwf & Hd) Hc Hk' Hx.
  assert (Hct : ~ tree_has T c) by (intros Hh; by apply (Hd c Hh)).
  assert (Hcok : page_ok c).
  { destruct Hk as [Hch _]. apply chain_ok in Hch. rewrite Forall_forall in Hch. by apply Hch. }
  destruct (pt_ext (k_mem s) (k_mem s') root T) as [Hwf' Hpte]; [|done|by split].
  intros p b Hp Hb. apply Hx. exact (tree_page_out _ _ _ p b c Hwf Hp Hb Hcok Hct).
Qed.

(** With one free page and an idle disk, swap_page_out of an owned frame
    succeeds: the page's owner, address and disk block are recorded in the
    first free swap slot, the owner's page-table entry loses its valid bit and
    no other entry changes, the request page is free again, and the only bytes
    written are those of the request page and of the page table. *)
Theorem swap_page_out_records `{KernelImage} (s : kstate) (pa i va slot lb d b c : Z) (p : nat)
    (fl : list Z) (T : gmap (list Z) Z)
  (Hget : get_frame_entry pa = Some i) (Hown : fe_owner (frame_at s i) = Some p)
  (Hvad : fe_vaddr (frame_at s i) = va) (Hva : 0 <= va < MAXVA)
  (Hslot : free_slot s (Z.to_nat MAX_SWAP_DISK_ENTRIES) 0 = slot) (Hs1 : slot <> -1)
  (Hlb : k_next_swap_block s = lb) (Hcap : lb < NUM_DISKS * DISK_BLOCKS_PER_DISK)
  (Hm : raid_map_logical_to_physical (k_raid_mode s) lb = (0, Some (d, b)))
  (Hq : queue_rep s []) (Hp : policy_ok s)
  (Hvm : vm_ok s (p_pagetable (pr s p)) T (c :: fl)) (Hleaf : is_Some (leaf_page T va)) :
  exists s', swap_page_out pa s = Ret 0 s' /\
    vm_ok s' (p_pagetable (pr s p)) T (c :: fl) /\ queue_rep s' [] /\
    swap_at s' slot = mkswap true (Some p) va lb (k_ticks s) /\
    k_next_swap_block s' = i32 (lb + 1) /\
    has (pte_of T (k_mem s') va) PTE_V = false /\
    (forall va', 0 <= va' < MAXVA -> va' / PGSIZE <> va / PGSIZE ->
       pte_of T (k_mem s') va' = pte_of T (k_mem s) va') /\
    (forall x, ~ in_page c x -> (forall q, tree_has T q -> ~ in_page q x) ->
       ld8 (k_mem s') x = ld8 (k_mem s) x).
Proof.
  unfold swap_page_out. rewrite Hget. run. rewrite Hown, Hslot.
  destruct (Z.eqb_spec slot (-1)); [done|]. rewrite Hlb.
  destruct (Z.leb_spec (NUM_DISKS * DISK_BLOCKS_PER_DISK) lb); [lia|].
  set (s0 := s <| k_next_swap_block := i32 (k_next_swap_block s + 1) |>).
  destruct (disk_transfer s0 c fl DISK_WRITE lb pa (Some p) d b)
    as (s1 & s2 & E1 & E2 & Hk2 & Hq2 & Hp2 & _ & _ & Hf2).
  { exact Hq. }
  { exact (proj1 Hvm). }
  { exact Hp. }
  { exact Hm. }
  rewrite E1. cbn [Z.eqb negb]. rewrite E2.
  pose proof (df_frames _ _ _ Hf2) as Hfr. change (k_frame_table s0) with (k_frame_table s) in Hfr.
  assert (Hfr2 : frame_at s2 i = frame_at s i) by (unfold frame_at; by rewrite Hfr).
  rewrite Hfr2, Hown, Hvad. unfold set_frame. run.
  set (s3 := s2 <| k_swap_table := _ |>). change (frame_at s3 i) with (frame_at s2 i).
  set (s4 := s3 <| k_frame_table := _ |>).
  assert (Hfr4 : frame_at s4 i = (frame_at s2 i) <| fe_swapped := true |> <| fe_swap_index := slot |>).
  { unfold frame_at at 1. change (k_frame_table s4) with
      (<[i := (frame_at s2 i) <| fe_swapped := true |> <| fe_swap_index := slot |>]> (k_frame_table s2)).
    by rewrite lookup_insert_eq. }
  rewrite Hfr4. change (fe_owner (upd _ _ _)) with (fe_owner (frame_at s2 i)).
  change (fe_vaddr (upd _ _ _)) with (fe_vaddr (frame_at s2 i)). rewrite Hfr2, Hown, Hvad.
  assert (Hroot : p_pagetable (pr s4 p) = p_pagetable (pr s p)).
  { change (pr s4 p) with (pr s2 p). by destruct (df_proc _ _ _ Hf2 p) as (r & w & ->). }
  rewrite Hroot. set (root := p_pagetable (pr s p)) in *.
  destruct (vm_ok_frame s s4 root T (c :: fl) c Hvm) as [Hvm4 Hpte4].
  { left. }
  { exact Hk2. }
  { exact (df_mem _ _ _ Hf2). }
  rewrite (walk_find s4 root T va (proj1 (proj2 Hvm4)) (proj2 Hva)).
  destruct Hleaf as [q Hleaf].
  destruct (leaf_addr_some _ _ _ _ _ (proj1 (proj2 Hvm4)) Hleaf) as (Haddr & Hnz & _).
  destruct (Z.eqb_spec (leaf_addr T va) 0); [done|]. unfold pte_get, pte_set. run.
  rewrite Haddr.
  set (e := Z.lor _ _). destruct (vm_store s4 root T (c :: fl) va q e Hvm4 Hva Hleaf) as (Hvm5 & Hpte5 & Hg5).
  eexists. split; [reflexivity|]. change (s4 <| k_mem := _ |>) with (pte_stored s4 (q + 8 * PX 0 va) e).
  split; [exact Hvm5|]. split; [exact Hq2|]. split.
  { change (swap_at _ _) with (default swap0 (<[slot := mkswap true (Some p) va lb (k_ticks s2)]> (k_swap_table s2) !! slot)).
    rewrite lookup_insert_eq. cbn. by rewrite (df_ticks _ _ _ Hf2). }
  split.
  { change (k_next_swap_block _) with (k_next_swap_block s2). rewrite (df_next _ _ _ Hf2), <- Hlb. kproj. }
  split; [rewrite Hpte5, decide_True by done; apply swapped_entry_invalid|]. split.
  - intros va' Hva' Hne. rewrite Hpte5, decide_False by done. apply Hpte4.
  - intros x Hc Ht. rewrite (vg_frame _ _ _ _ _ _ Hg5) by done. exact (df_mem _ _ _ Hf2 x Hc).
Qed.

(** ** A page out and back in *)

(** The example's user page, known to the frame table. *)
Definition ex_frames : kstate :=
  ex_state <| k_frame_table := <[259 := mkframe true (Some 0%nat) 0 true false (-1)]> ∅ |>.

Lemma swap_page_out_records_witness :
  exists s', @swap_page_out example_image ex_page ex_frames = Ret 0 s' /\
    @vm_ok example_image s' ex_root ex_tree ex_free /\ queue_rep s' [] /\
    swap_at s' 0 = mkswap true (Some 0%nat) 0 0 0 /\
    k_next_swap_block s' = i32 (0 + 1) /\
    has (pte_of ex_tree (k_mem s') 0) PTE_V = false /\
    (forall va', 0 <= va' < MAXVA -> va' / PGSIZE <> 0 / PGSIZE ->
       pte_of ex_tree (k_mem s') va' = pte_of ex_tree (k_mem ex_frames) va') /\
    (forall x, ~ in_page 0x80204000 x -> (forall q, tree_has ex_tree q -> ~ in_page q x) ->
       ld8 (k_mem s') x = ld8 (k_mem ex_frames) x).
Proof.
  apply (@swap_page_out_records example_image ex_frames ex_page 259 0 0 0 0 0 0x80204000 0%nat
           [0x80205000; 0x80206000] ex_tree); concrete.
  - split; [split; [reflexivity|constructor]|reflexivity].
  - left. reflexivity.
  - apply (@vm_ok_same example_image ex_state); [unfold ex_frames; kproj..|exact (us_ok _ _ _ _ _ ex_uspace)].
  - exists ex_l0. reflexivity.
Defined.

Lemma swap_page_in_run `{KernelImage} (fuel : nat) (s : kstate) (p : nat)
    (va slot d b a c : Z) (fl : list Z) (T : gmap (list Z) Z)
  (Hslot : find_slot s (Z.to_nat MAX_SWAP_DISK_ENTRIES) 0 p va = slot) (Hs1 : slot <> -1)
  (Hm : raid_map_logical_to_physical (k_raid_mode s) (se_logical_block (swap_at s slot))
        = (0, Some (d, b)))
  (Hq : queue_rep s []) (Hp : policy_ok s)
  (Hvm : vm_ok s (p_pagetable (pr s p)) T (a :: c :: fl))
  (Hva : va `mod` PGSIZE = 0) (Hva0 : 0 <= va) (Hvam : va + PGSIZE <= MAXVA)
  (Hleaf : is_Some (leaf_page T va)) (Hinv : has (pte_of T (k_mem s) va) PTE_V = false) :
  exists s' T' fl', swap_page_in fuel p va s = Ret 0 s' /\
    vm_ok s' (p_pagetable (pr s p)) T' fl' /\
    se_in_use (swap_at s' slot) = false /\
    pte_of T' (k_mem s') va = leaf_entry a (Z.lor (Z.lor PTE_W PTE_U) PTE_R) /\
    (forall x, in_page a x -> ld8 (k_mem s') x = 5).
Proof.
  unfold swap_page_in. run. rewrite Hslot. destruct (Z.eqb_spec slot (-1)); [done|].
  rewrite (kalloc_eq s a (c :: fl) (proj1 Hvm)).
  destruct (vm_kalloc s _ T (c :: fl) a Hvm) as (Hvm1 & Haok & Hafl & Hat & Hpte1).
  pose proof (page_ok_pos a Haok). assert (Ha0 : a =? 0 = false) by (apply Z.eqb_neq; lia).
  rewrite Ha0. cbv beta iota. rewrite Ha0.
  set (root := p_pagetable (pr s p)) in *. set (lb := se_logical_block _) in *.
  assert (Hfive : forall x, in_page a x -> ld8 (k_mem (kalloc_state s a)) x = 5).
  { intros x Hx. cbn. rewrite ld8_memset by (unfold PGSIZE; lia). by rewrite decide_True. }
  destruct (disk_transfer (kalloc_state s a) c fl DISK_READ lb a (Some p) d b)
    as (s1 & s2 & E1 & E2 & Hk2 & _ & _ & _ & _ & Hf2).
  { exact Hq. }
  { exact (proj1 Hvm1). }
  { exact Hp. }
  { exact Hm. }
  rewrite E1. cbn [Z.eqb negb]. rewrite E2.
  destruct (vm_ok_frame _ s2 root T (c :: fl) c Hvm1 ltac:(left) Hk2 (df_mem _ _ _ Hf2)) as [Hvm2 Hpte2].
  unfold set_swap. run. set (s3 := s2 <| k_swap_table := _ |>).
  assert (Hroot : p_pagetable (pr s3 p) = root).
  { change (pr s3 p) with (pr s2 p). by destruct (df_proc _ _ _ Hf2 p) as (r & w & ->). }
  rewrite Hroot.
  destruct (mappages_spec 1 s3 root T (c :: fl) va PGSIZE a (Z.lor (Z.lor PTE_W PTE_U) PTE_R))
    as (s4 & T' & fl' & k & E4 & Hvm4 & Hg4 & Hk4 & _ & Hend & Hpte4); try done; try lia.
  { apply Haok. }
  { destruct Haok. page_lia. }
  { intros x Hx. change (k_mem s3) with (k_mem s2). rewrite Hpte2, Hpte1. rewrite <- Hinv. f_equal.
    unfold pte_of, leaf_page. destruct (px_same x va) as (-> & -> & ->); [lia..| |done].
    unfold PGSIZE in *. div_lia. }
  assert (k = 1) as ->.
  { destruct (decide (k = 1)); [done|]. destruct (Hend ltac:(lia)) as [_ Hn].
    assert (k = 0) as -> by lia. rewrite Z.mul_0_l, Z.add_0_r in Hn. destruct Hleaf as [q Hl].
    pose proof (lookup_weaken _ _ _ _ Hl (vg_tree _ _ _ _ _ _ Hg4)) as Hl'. unfold leaf_page in Hn. congruence. }
  rewrite decide_True in E4 by done. rewrite E4. cbn [Z.eqb negb].
  destruct (vm_grow_old _ _ _ _ _ _ a Hg4 Hafl Hat) as [_ Hat'].
  assert (Hbytes : forall x, in_page a x -> ld8 (k_mem s4) x = 5).
  { intros x Hx. rewrite (vg_frame _ _ _ _ _ _ Hg4), <- (Hfive x Hx).
    - apply (df_mem _ _ _ Hf2). intros Hxc. apply Hafl. assert (c = a) as <-; [|left].
      destruct (proj1 Hvm1) as [(_ & [Hcm _] & _) _]. eapply in_page_inj; [done|apply Haok|done..].
    - intros q Hq' Hqx. by eapply (tree_page_out _ _ _ q x a (proj1 (proj2 Hvm4))). }
  assert (Hslot4 : se_in_use (default swap0 (k_swap_table s4 !! slot)) = false).
  { destruct (vg_only _ _ _ _ _ _ Hg4) as (m & f & ->).
    change (k_swap_table _) with (k_swap_table s3). unfold s3. cbn. by rewrite lookup_insert_eq. }
  assert (Hpv : pte_of T' (k_mem s4) va = leaf_entry a (Z.lor (Z.lor PTE_W PTE_U) PTE_R)).
  { rewrite Hpte4 by page_lia. unfold mapped. rewrite decide_True by page_lia. f_equal.
    unfold PGSIZE in *. div_lia. }
  unfold update_frame_table, with_entry, set_pr, set_frame. clearbody s3.
  destruct (get_frame_entry a) as [i|]; run; eexists _, T', fl'; (split; [reflexivity|]);
    exact (conj Hvm4 (conj Hslot4 (conj Hpv Hbytes))).
Qed.

(** Swapping a page back in succeeds (with a page for the data and one for
    the request free and the leaf table in place): the slot is released, the
    entry of va is valid again, and the frame table knows the page.  But no
    data has moved: every byte of the page that is mapped is 5, the pattern
    kalloc fills pages with, whatever the page held when it was swapped out. *)
Theorem swap_page_in_loses_data `{KernelImage} (fuel : nat) (s : kstate) (p : nat)
    (va slot d b a c : Z) (fl : list Z) (T : gmap (list Z) Z)
  (Hslot : find_slot s (Z.to_nat MAX_SWAP_DISK_ENTRIES) 0 p va = slot) (Hs1 : slot <> -1)
  (Hm : raid_map_logical_to_physical (k_raid_mode s) (se_logical_block (swap_at s slot))
        = (0, Some (d, b)))
  (Hq : queue_rep s []) (Hp : policy_ok s)
  (Hvm : vm_ok s (p_pagetable (pr s p)) T (a :: c :: fl))
  (Hva : va `mod` PGSIZE = 0) (Hva0 : 0 <= va) (Hvam : va + PGSIZE <= MAXVA)
  (Hleaf : is_Some (leaf_page T va)) (Hinv : has (pte_of T (k_mem s) va) PTE_V = false) :
  exists s' T' fl', swap_page_in fuel p va s = Ret 0 s' /\
    vm_ok s' (p_pagetable (pr s p)) T' fl' /\
    se_in_use (swap_at s' slot) = false /\
    pte_of T' (k_mem s') va = leaf_entry a (Z.lor (Z.lor PTE_W PTE_U) PTE_R) /\
    (forall x, in_page a x -> ld8 (k_mem s') x = 5).
Proof. by eapply swap_page_in_run. Qed.
Definition ex_swapped : kstate :=
  ex_state <| k_swap_table := <[0 := mkswap true (Some 0%nat) 4096 0 0]> ∅ |>.
Lemma swap_page_in_loses_data_witness :
  exists s' T' fl', @swap_page_in example_image 0 0 4096 ex_swapped = Ret 0 s' /\
    @vm_ok example_image s' ex_root T' fl' /\
    se_in_use (swap_at s' 0) = false /\
    pte_of T' (k_mem s') 4096 = leaf_entry 0x80204000 (Z.lor (Z.lor PTE_W PTE_U) PTE_R) /\
    (forall x, in_page 0x80204000 x -> ld8 (k_mem s') x = 5).
Proof.
  apply (@swap_page_in_loses_data example_image 0 ex_swapped 0%nat 4096 0 0 0 0x80204000 0x80205000
           [0x80206000] ex_tree); concrete.
  - split; [split; [reflexivity|constructor]|reflexivity].
  - left. reflexivity.
  - apply (@vm_ok_same example_image ex_state); [unfold ex_swapped; kproj..|exact (us_ok _ _ _ _ _ ex_uspace)].
  - exists ex_l0. reflexivity.
Defined.
