(* ===== verification/VMFault.v ===== *)
(** * kernel/vm.c: page faults and copying between user and kernel memory

    [vmfault], [copyout] and [copyin] of vm.c and [either_copyout] and
    [either_copyin] of proc.c.  [fuel] is for evict_page's loop; the copy
    loops get one step for each page the range touches. *)

From S2P Require Import Prelude Memory State Sched Kalloc VM Disk Memsys.
Import Mem KString.

Section VMFault.
Context `{KernelImage}.

(** vmfault: a fresh zeroed page for va, evicting one when memory is out *)
Definition lazy_page (fuel : nat) (p : nat) (va : Z) : K Z :=
  mem ← kalloc;
  mem ← (if mem =? 0 then evict_page fuel else mret mem);
  if mem =? 0 then mret 0
  else
    kmemset mem 0 PGSIZE;;
    root ← gets (fun s => p_pagetable (pr s p));
    r ← mappages root va PGSIZE mem (Z.lor (Z.lor PTE_W PTE_U) PTE_R);
    if negb (r =? 0) then kfree mem;; mret 0
    else
      update_frame_table (Some p) va mem;;
      set_pr p (fun q => q <| p_resident_pages := i32 (p_resident_pages q + 1) |>);;
      mret mem.

(** vmfault *)
Definition vmfault (fuel : nat) (pagetable va : Z) : K Z :=
  p ← myproc;
  sz ← gets (fun s => p_sz (pr s p));
  if sz <=? va then mret 0
  else
    let va := PGROUNDDOWN va in
    pte ← walk pagetable va false;
    v ← (if pte =? 0 then mret 0 else pte_get pte);
    r ← (if negb (pte =? 0) && negb (has v PTE_V) && negb (v =? 0)
         then swap_page_in fuel p va else mret (-1));
    if r =? 0 then
      set_pr p (fun q => q <| p_page_faults := i32 (p_page_faults q + 1) |>);;
      mret 0
    else
      m ← ismapped pagetable va;
      if (m : bool) then
        pte ← walk pagetable va false;
        (if negb (pte =? 0) then v ← pte_get pte; pte_set pte (Z.lor v PTE_A) else mret tt);;
        mret 0
      else
        set_pr p (fun q => q <| p_page_faults := i32 (p_page_faults q + 1) |>);;
        lazy_page fuel p va.

(** The physical page behind a user page, faulting it in; 0 on failure. *)
Definition user_page (fuel : nat) (pagetable va0 : Z) : K Z :=
  pa0 ← walkaddr pagetable va0;
  if pa0 =? 0 then vmfault fuel pagetable va0 else mret pa0.

(** copyout *)
Fixpoint copyout_loop (n fuel : nat) (pagetable dstva src len : Z) : K Z :=
  match n with
  | O => no_fuel
  | S n' =>
      if 0 <? len then
        let va0 := PGROUNDDOWN dstva in
        if MAXVA <=? va0 then mret (-1)
        else
          pa0 ← user_page fuel pagetable va0;
          if pa0 =? 0 then mret (-1)
          else
            pte ← walk pagetable va0 false;
            if pte =? 0 then fault "copyout"
            else
              v ← pte_get pte;
              if negb (has v PTE_W) then mret (-1)
              else
                let n := Z.min (PGSIZE - (dstva - va0)) len in
                kmemmove (pa0 + (dstva - va0)) src n;;
                copyout_loop n' fuel pagetable (u64 (va0 + PGSIZE)) (src + n) (len - n)
      else mret 0
  end.
Definition copyout (fuel : nat) (pagetable dstva src len : Z) : K Z :=
  copyout_loop (Z.to_nat (len / PGSIZE) + 3) fuel pagetable dstva src len.

(** copyin *)
Fixpoint copyin_loop (n fuel : nat) (pagetable dst srcva len : Z) : K Z :=
  match n with
  | O => no_fuel
  | S n' =>
      if 0 <? len then
        let va0 := PGROUNDDOWN srcva in
        pa0 ← user_page fuel pagetable va0;
        if pa0 =? 0 then mret (-1)
        else
          let n := Z.min (PGSIZE - (srcva - va0)) len in
          kmemmove dst (pa0 + (srcva - va0)) n;;
          copyin_loop n' fuel pagetable (dst + n) (u64 (va0 + PGSIZE)) (len - n)
      else mret 0
  end.
Definition copyin (fuel : nat) (pagetable dst srcva len : Z) : K Z :=
  copyin_loop (Z.to_nat (len / PGSIZE) + 3) fuel pagetable dst srcva len.

(** either_copyout, either_copyin (proc.c) *)
Definition either_copyout (fuel : nat) (user_dst : bool) (dst src len : Z) : K Z :=
  if user_dst then
    p ← myproc;
    root ← gets (fun s => p_pagetable (pr s p));
    copyout fuel root dst src len
  else kmemmove dst src len;; mret 0.
Definition either_copyin (fuel : nat) (dst : Z) (user_src : bool) (src len : Z) : K Z :=
  if user_src then
    p ← myproc;
    root ← gets (fun s => p_pagetable (pr s p));
    copyin fuel root dst src len
  else kmemmove dst src len;; mret 0.

End VMFault.
