(* ===== verification/CopySpec.v ===== *)
(** * copyout and copyin on mapped user memory

    [uaddr U x] is the physical address of user address [x].  On a range that
    is mapped, the copy loops read or write exactly the bytes at these
    addresses, page by page. *)

From S2P Require Import Prelude Memory State Sched Kalloc VM PageTable VMSpec UserSpace Disk Memsys VMFault.
Import Mem KString.

Section Copy.
Context `{KernelImage}.

Abbreviation tree := (gmap (list Z) Z).
Abbreviation umap := (gmap Z Z).

Definition uaddr (U : umap) (x : Z) : Z := default 0 (U !! (x / PGSIZE)) + x `mod` PGSIZE.

(** The pages of [x, x + len) are mapped, with the flags in [need]. *)
Definition umapped (s : kstate) (T : tree) (U : umap) (need x len : Z) : Prop :=
  forall y, x <= y < x + len -> is_Some (U !! (y / PGSIZE)) /\
    has (pte_of T (k_mem s) (y / PGSIZE * PGSIZE)) PTE_U = true /\
    has (pte_of T (k_mem s) (y / PGSIZE * PGSIZE)) need = true.

Lemma pgrounddown_div x : 0 <= x -> PGROUNDDOWN x = x / PGSIZE * PGSIZE.
Proof. intros Hx. rewrite pgrounddown_eq by done. unfold PGSIZE. div_lia. Qed.

Lemma uaddr_page s root T U fl x pa :
  uspace s root T U fl -> U !! (x / PGSIZE) = Some pa -> uaddr U x = pa + x `mod` PGSIZE /\ in_page pa (uaddr U x).
Proof.
  intros Hu HU. unfold uaddr. rewrite HU. cbn. split; [done|]. unfold in_page, PGSIZE. div_lia.
Qed.
Lemma uaddr_inj s root T U fl x y :
  uspace s root T U fl -> is_Some (U !! (x / PGSIZE)) -> is_Some (U !! (y / PGSIZE)) ->
  uaddr U x = uaddr U y -> x = y.
Proof.
  intros Hu [pa Hx] [pb Hy] E. destruct (uaddr_page _ _ _ _ _ x pa Hu Hx) as [E1 I1].
  destruct (uaddr_page _ _ _ _ _ y pb Hu Hy) as [E2 I2]. rewrite <- E in I2.
  destruct (us_page _ _ _ _ _ Hu _ _ Hx) as ([Hm _] & _), (us_page _ _ _ _ _ Hu _ _ Hy) as ([Hm' _] & _).
  assert (pa = pb) as <- by (by eapply in_page_inj).
  pose proof (us_inj _ _ _ _ _ Hu _ _ _ Hx Hy). unfold PGSIZE in *. div_lia.
Qed.

Lemma user_page_mapped fuel s root T U fl x pa :
  uspace s root T U fl -> U !! (x / PGSIZE) = Some pa ->
  has (pte_of T (k_mem s) (x / PGSIZE * PGSIZE)) PTE_U = true ->
  user_page fuel root (x / PGSIZE * PGSIZE) s = Ret pa s /\ pa <> 0 /\
  walk root (x / PGSIZE * PGSIZE) false s = Ret (leaf_addr T (x / PGSIZE * PGSIZE)) s /\
  leaf_addr T (x / PGSIZE * PGSIZE) <> 0 /\
  ld64 (k_mem s) (leaf_addr T (x / PGSIZE * PGSIZE)) = pte_of T (k_mem s) (x / PGSIZE * PGSIZE).
Proof.
  intros Hu HU Hflag. pose proof (us_dom _ _ _ _ _ Hu _ _ HU) as Hv.
  destruct (user_va _ Hv) as [Hva _]. destruct (us_pte _ _ _ _ _ Hu _ _ HU) as [HV HP].
  destruct (us_page _ _ _ _ _ Hu _ _ HU) as (Hpg & _). pose proof (page_ok_pos pa Hpg).
  pose proof (us_ok _ _ _ _ _ Hu) as (_ & Hwf & _).
  pose proof (walk_find s root T _ Hwf (proj2 Hva)) as Hw.
  destruct (leaf_page T (x / PGSIZE * PGSIZE)) as [q|] eqn:Hq.
  2:{ unfold pte_of in HV. by rewrite Hq in HV. }
  destruct (leaf_addr_some _ _ _ _ _ Hwf Hq) as (_ & Hnz & Hld).
  split_and!; try done; [|lia]. unfold user_page, walkaddr.
  destruct (Z.leb_spec MAXVA (x / PGSIZE * PGSIZE)); [lia|].
  unfold mbind at 1, M_bind at 1. rewrite (bind_ret _ _ _ _ _ Hw).
  destruct (Z.eqb_spec (leaf_addr T (x / PGSIZE * PGSIZE)) 0); [done|].
  unfold pte_get. run. rewrite Hld, HV, Hflag, HP. cbn [negb].
  destruct (Z.eqb_spec pa 0); [lia|done].
Qed.

(** Writing bytes of a mapped page keeps the address space. *)
Lemma uspace_user_write s s' root T U fl v pa :
  uspace s root T U fl -> U !! v = Some pa -> k_freelist s' = k_freelist s ->
  (forall b, ~ in_page pa b -> ld8 (k_mem s') b = ld8 (k_mem s) b) ->
  uspace s' root T U fl /\ (forall va, pte_of T (k_mem s') va = pte_of T (k_mem s) va).
Proof.
  intros Hu HU Hf Hout. destruct (us_page _ _ _ _ _ Hu v pa HU) as (Hpg & Hfl & Ht).
  pose proof (us_ok _ _ _ _ _ Hu) as (Hk & Hwf & Hd).
  assert (Htree : forall p b, tree_has T p -> in_page p b -> ld8 (k_mem s') b = ld8 (k_mem s) b).
  { intros p b Hp Hb. eapply Hout, tree_page_out; eassumption. }
  split; [|by apply (pt_ext _ _ root)].
  apply (uspace_ext s _ root T U fl); [done|done| |done|].
  - by apply (kmem_inv_write s _ fl pa Hk); [| |apply Hpg|].
  - intros x q Hq. by eapply us_not_free.
Qed.

(** The number of pages [x, x + len) touches. *)
Definition pages_of (x len : Z) : Z :=
  if len <=? 0 then 0 else (x + len - 1) / PGSIZE - x / PGSIZE + 1.

Lemma chunk_bounds x len :
  0 <= x -> 0 < len ->
  let n := Z.min (PGSIZE - (x - x / PGSIZE * PGSIZE)) len in
  0 < n <= len /\ x - x / PGSIZE * PGSIZE = x `mod` PGSIZE /\ x `mod` PGSIZE + n <= PGSIZE /\
  (forall y, x <= y < x + n -> y / PGSIZE = x / PGSIZE /\ y `mod` PGSIZE = x `mod` PGSIZE + (y - x)) /\
  (n < len -> x / PGSIZE * PGSIZE + PGSIZE = x + n) /\
  pages_of (x + n) (len - n) = pages_of x len - 1.
Proof.
  intros Hx Hl n. subst n. unfold pages_of, PGSIZE.
  destruct (Z.leb_spec len 0); [lia|].
  destruct (Z.min_spec (4096 - (x - x / 4096 * 4096)) len) as [[Hlt ->]|[Hle ->]].
  all: destruct (Z.leb_spec (len - (4096 - (x - x / 4096 * 4096))) 0), (Z.leb_spec (len - len) 0); try lia.
  all: split_and!; try (intros y Hy; split); div_lia.
Qed.

Lemma copyout_loop_S n fuel root dstva src len :
  copyout_loop (S n) fuel root dstva src len =
  if 0 <? len then
    let va0 := PGROUNDDOWN dstva in
    if MAXVA <=? va0 then mret (-1)
    else
      pa0 ← user_page fuel root va0;
      if pa0 =? 0 then mret (-1)
      else
        pte ← walk root va0 false;
        if pte =? 0 then fault "copyout"
        else
          v ← pte_get pte;
          if negb (has v PTE_W) then mret (-1)
          else
            let k := Z.min (PGSIZE - (dstva - va0)) len in
            kmemmove (pa0 + (dstva - va0)) src k;;
            copyout_loop n fuel root (u64 (va0 + PGSIZE)) (src + k) (len - k)
  else mret 0.
Proof. reflexivity. Qed.

(** A buffer outside the user's pages, and outside the tables and free pages. *)
Definition off_user (U : umap) (a len : Z) : Prop :=
  forall b v pa, a <= b < a + len -> U !! v = Some pa -> ~ in_page pa b.
Definition off_tables (T : tree) (fl : list Z) (a len : Z) : Prop :=
  forall b q, a <= b < a + len -> tree_has T q \/ q ∈ fl -> ~ in_page q b.

Lemma off_user_sub U a len k : 0 <= k -> off_user U a len -> off_user U (a + k) (len - k).
Proof. intros Hk Ho b v pa Hb. apply Ho. lia. Qed.
Lemma off_tables_sub T fl a len k : 0 <= k -> off_tables T fl a len -> off_tables T fl (a + k) (len - k).
Proof. intros Hk Ho b q Hb. apply Ho. lia. Qed.
Lemma umapped_sub s s' T U need x len k :
  0 <= k -> (forall va, pte_of T (k_mem s') va = pte_of T (k_mem s) va) ->
  umapped s T U need x len -> umapped s' T U need (x + k) (len - k).
Proof. intros Hk Hp Hm y Hy. rewrite Hp. apply Hm. lia. Qed.

(** copyout has stored the [len] bytes at [src] at user address [dstva], and
    nothing else. *)
Record copied_out (s s' : kstate) (U : umap) (dstva src len : Z) : Prop := {
  co_bytes : forall i, 0 <= i < len -> ld8 (k_mem s') (uaddr U (dstva + i)) = ld8 (k_mem s) (src + i);
  co_frame : forall b, (forall i, 0 <= i < len -> b <> uaddr U (dstva + i)) ->
    ld8 (k_mem s') b = ld8 (k_mem s) b;
  co_only : exists m, s' = s <| k_mem := m |>
}.

Lemma uaddr_chunk s root T U fl x k i pa :
  uspace s root T U fl -> U !! (x / PGSIZE) = Some pa ->
  (forall y, x <= y < x + k -> y / PGSIZE = x / PGSIZE /\ y `mod` PGSIZE = x `mod` PGSIZE + (y - x)) ->
  0 <= i < k -> uaddr U (x + i) = pa + x `mod` PGSIZE + i.
Proof.
  intros Hu HU Hy Hi. destruct (Hy (x + i)) as [Hd Hm]; [lia|].
  rewrite <- Hd in HU. destruct (uaddr_page _ _ _ _ _ _ _ Hu HU) as [-> _]. lia.
Qed.

(** One page's worth of copyout. *)
Lemma copyout_chunk s root T U fl x k src pa :
  uspace s root T U fl -> U !! (x / PGSIZE) = Some pa -> 0 <= x -> 0 < k -> x `mod` PGSIZE + k <= PGSIZE ->
  (forall y, x <= y < x + k -> y / PGSIZE = x / PGSIZE /\ y `mod` PGSIZE = x `mod` PGSIZE + (y - x)) ->
  let s' := s <| k_mem := memmove (k_mem s) (pa + x `mod` PGSIZE) src k |> in
  copied_out s s' U x src k /\ uspace s' root T U fl /\
  (forall va, pte_of T (k_mem s') va = pte_of T (k_mem s) va).
Proof.
  intros Hu HU Hx Hk Hle Hy s'.
  assert (Hm : 0 <= x `mod` PGSIZE) by (apply Z.mod_pos_bound; done).
  split; [|apply (uspace_user_write s s' root T U fl _ pa Hu HU eq_refl)].
  - split.
    + intros i Hi. rewrite (uaddr_chunk _ _ _ _ _ _ _ _ _ Hu HU Hy Hi). cbn.
      rewrite ld8_memmove, decide_True by lia. f_equal. lia.
    + intros b Hb. cbn. rewrite ld8_memmove by lia. case_decide; [|done].
      exfalso. apply (Hb (b - (pa + x `mod` PGSIZE))); [lia|].
      rewrite (uaddr_chunk _ _ _ _ _ _ k _ _ Hu HU Hy) by lia. lia.
    + by eexists.
  - intros b Hb. cbn. rewrite ld8_memmove by lia. rewrite decide_False; [done|].
    intros ?. apply Hb. unfold in_page. lia.
Qed.

Lemma copied_out_trans s s1 s2 root T U fl need x src k len :
  uspace s root T U fl -> umapped s T U need x len -> off_user U src len -> 0 < k <= len ->
  copied_out s s1 U x src k -> copied_out s1 s2 U (x + k) (src + k) (len - k) ->
  copied_out s s2 U x src len.
Proof.
  intros Hu Hmap Hoff Hk [B1 F1 (m1 & ->)] [B2 F2 (m2 & ->)]. split.
  - intros i Hi. destruct (Z.lt_ge_cases i k) as [Hlt|Hge].
    + rewrite F2; [by apply B1; lia|]. intros j Hj E.
      assert (x + i = x + k + j); [|lia]. destruct (Hmap (x + i)), (Hmap (x + k + j)); [lia..|].
      by apply (uaddr_inj _ _ _ _ _ _ _ Hu).
    + replace (x + i) with (x + k + (i - k)) by lia. rewrite B2 by lia.
      replace (src + k + (i - k)) with (src + i) by lia. apply F1. intros j Hj E.
      destruct (Hmap (x + j)) as [[pa HU] _]; [lia|].
      apply (Hoff (src + i) _ pa ltac:(lia) HU). rewrite E. by apply (uaddr_page _ _ _ _ _ _ _ Hu HU).
  - intros b Hb. rewrite F2, F1; [done| |]; intros j Hj; [apply Hb; lia|].
    replace (x + k + j) with (x + (k + j)) by lia. apply Hb. lia.
  - by exists m2.
Qed.

Lemma pages_of_pos x len : 0 <= x -> 0 < len -> 0 < pages_of x len.
Proof. intros Hx Hl. unfold pages_of, PGSIZE. destruct (Z.leb_spec len 0); div_lia. Qed.
Lemma pages_of_le x len : 0 <= x -> 0 <= len -> pages_of x len < Z.of_nat (Z.to_nat (len / PGSIZE) + 3).
Proof. intros Hx Hl. unfold pages_of, PGSIZE. destruct (Z.leb_spec len 0); div_lia. Qed.

Lemma copyout_loop_spec n fuel s root T U fl x src len :
  uspace s root T U fl -> umapped s T U PTE_W x len -> off_user U src len ->
  0 <= x -> 0 <= len -> pages_of x len < Z.of_nat n ->
  exists s', copyout_loop n fuel root x src len s = Ret 0 s' /\
    copied_out s s' U x src len /\ uspace s' root T U fl /\
    (forall va, pte_of T (k_mem s') va = pte_of T (k_mem s) va).
Proof.
  revert s x src len. induction n as [|n IH]; intros s x src len Hu Hmap Hoff Hx Hl Hn.
  { destruct (Z.eq_dec len 0) as [->|]; [done|]. pose proof (pages_of_pos x len). lia. }
  rewrite copyout_loop_S. destruct (Z.ltb_spec 0 len) as [Hpos|].
  2:{ exists s. split_and!; try done. split; [lia|done|exists (k_mem s); by destruct s]. }
  destruct (Hmap x) as ((pa & HU) & HfU & HfW); [lia|].
  destruct (user_page_mapped fuel _ _ _ _ _ _ _ Hu HU HfU) as (Hup & Hpa & Hw & Hnz & Hld).
  destruct (user_va _ (us_dom _ _ _ _ _ Hu _ _ HU)) as [Hva _].
  destruct (chunk_bounds x len Hx Hpos) as (Hk & Hoffs & Hfit & Hy & Hnext & Hpg).
  cbv zeta. rewrite pgrounddown_div by done. set (va0 := x / PGSIZE * PGSIZE) in *.
  destruct (Z.leb_spec MAXVA va0); [lia|]. rewrite (bind_ret _ _ _ _ _ Hup).
  destruct (Z.eqb_spec pa 0); [done|]. rewrite (bind_ret _ _ _ _ _ Hw).
  destruct (Z.eqb_spec (leaf_addr T va0) 0); [done|]. unfold pte_get. run.
  rewrite Hld, HfW. cbn [negb]. set (k := Z.min _ len) in *. rewrite Hoffs. unfold kmemmove. run.
  destruct (copyout_chunk s root T U fl x k src pa Hu HU) as (Hc & Hu1 & Hp1); [done|lia|done|done|].
  set (s1 := s <| k_mem := _ |>) in *. clearbody s1.
  destruct (IH s1 (x + k) (src + k) (len - k) Hu1) as (s2 & E & Hc2 & Hu2 & Hp2).
  { apply (umapped_sub s); [lia|done|done]. }
  { apply off_user_sub; [lia|done]. }
  1-3: lia.
  exists s2. split_and!; [|by eapply copied_out_trans|done|intros va; by rewrite Hp2].
  rewrite <- E. destruct (Z.lt_ge_cases k len) as [Hlt|Hge].
  - change MAXVA with 274877906944 in Hva. rewrite u64_small by (unfold PGSIZE; lia). by rewrite Hnext.
  - pose proof (pages_of_pos x len Hx Hpos). replace (len - k) with 0 by lia. destruct n; [lia|]. by rewrite !copyout_loop_S.
Qed.

(** copyin has stored the [len] bytes at user address [srcva] at [dst], and
    nothing else. *)
Record copied_in (s s' : kstate) (U : umap) (dst srcva len : Z) : Prop := {
  ci_bytes : forall i, 0 <= i < len -> ld8 (k_mem s') (dst + i) = ld8 (k_mem s) (uaddr U (srcva + i));
  ci_frame : forall b, ~ (dst <= b < dst + len) -> ld8 (k_mem s') b = ld8 (k_mem s) b;
  ci_only : exists m, s' = s <| k_mem := m |>
}.

Lemma copyin_loop_S n fuel root dst srcva len :
  copyin_loop (S n) fuel root dst srcva len =
  if 0 <? len then
    let va0 := PGROUNDDOWN srcva in
    pa0 ← user_page fuel root va0;
    if pa0 =? 0 then mret (-1)
    else
      let k := Z.min (PGSIZE - (srcva - va0)) len in
      kmemmove dst (pa0 + (srcva - va0)) k;;
      copyin_loop n fuel root (dst + k) (u64 (va0 + PGSIZE)) (len - k)
  else mret 0.
Proof. reflexivity. Qed.

(** Writing a buffer that holds no table and no free page keeps the space. *)
Lemma uspace_buf_write s s' root T U fl a len :
  uspace s root T U fl -> off_tables T fl a len -> k_freelist s' = k_freelist s ->
  (forall b, ~ (a <= b < a + len) -> ld8 (k_mem s') b = ld8 (k_mem s) b) ->
  uspace s' root T U fl /\ (forall va, pte_of T (k_mem s') va = pte_of T (k_mem s) va).
Proof.
  intros Hu Hoff Hf Hout. pose proof (us_ok _ _ _ _ _ Hu) as (Hk & Hwf & Hd).
  assert (Hsame : forall q b, tree_has T q \/ q ∈ fl -> in_page q b -> ld8 (k_mem s') b = ld8 (k_mem s) b).
  { intros q b Hq Hb. apply Hout. intros Hr. by apply (Hoff b q Hr Hq). }
  split; [|apply (pt_ext _ _ root); [intros q b Hq; apply Hsame; by left|done]].
  apply (uspace_ext s _ root T U fl); [done|intros q b Hq; apply Hsame; by left| |done|].
  - apply (kmem_inv_ext s); [done|done|]. intros q b Hq Hb. apply (Hsame q); [by right|done].
  - intros x q Hq. by eapply us_not_free.
Qed.

Lemma copyin_chunk s root T U fl x k dst pa :
  uspace s root T U fl -> U !! (x / PGSIZE) = Some pa -> 0 <= x -> 0 < k -> off_tables T fl dst k ->
  (forall y, x <= y < x + k -> y / PGSIZE = x / PGSIZE /\ y `mod` PGSIZE = x `mod` PGSIZE + (y - x)) ->
  let s' := s <| k_mem := memmove (k_mem s) dst (pa + x `mod` PGSIZE) k |> in
  copied_in s s' U dst x k /\ uspace s' root T U fl /\
  (forall va, pte_of T (k_mem s') va = pte_of T (k_mem s) va).
Proof.
  intros Hu HU Hx Hk Hoff Hy s'.
  assert (Hout : forall b, ~ (dst <= b < dst + k) -> ld8 (k_mem s') b = ld8 (k_mem s) b).
  { intros b Hb. cbn. rewrite ld8_memmove by lia. by rewrite decide_False. }
  split; [|by apply (uspace_buf_write s s' root T U fl dst k Hu Hoff)].
  split; [|done|by eexists].
  intros i Hi. rewrite (uaddr_chunk _ _ _ _ _ _ _ _ _ Hu HU Hy Hi). cbn.
  rewrite ld8_memmove, decide_True by lia. f_equal. lia.
Qed.

Lemma copied_in_trans s s1 s2 root T U fl need x dst k len :
  uspace s root T U fl -> umapped s T U need x len -> off_user U dst len -> 0 < k <= len ->
  copied_in s s1 U dst x k -> copied_in s1 s2 U (dst + k) (x + k) (len - k) ->
  copied_in s s2 U dst x len.
Proof.
  intros Hu Hmap Hoff Hk [B1 F1 (m1 & ->)] [B2 F2 (m2 & ->)]. split.
  - intros i Hi. destruct (Z.lt_ge_cases i k) as [Hlt|Hge].
    + rewrite F2 by lia. apply B1. lia.
    + replace (dst + i) with (dst + k + (i - k)) by lia. rewrite B2 by lia.
      replace (x + k + (i - k)) with (x + i) by lia. apply F1. intros Hr.
      destruct (Hmap (x + i)) as [[pa HU] _]; [lia|].
      apply (Hoff (uaddr U (x + i)) _ pa ltac:(lia) HU). by apply (uaddr_page _ _ _ _ _ _ _ Hu HU).
  - intros b Hb. rewrite F2, F1 by lia. done.
  - by exists m2.
Qed.

Lemma copyin_loop_spec n fuel s root T U fl x dst len :
  uspace s root T U fl -> umapped s T U PTE_U x len -> off_user U dst len -> off_tables T fl dst len ->
  0 <= x -> 0 <= len -> pages_of x len < Z.of_nat n ->
  exists s', copyin_loop n fuel root dst x len s = Ret 0 s' /\
    copied_in s s' U dst x len /\ uspace s' root T U fl /\
    (forall va, pte_of T (k_mem s') va = pte_of T (k_mem s) va).
Proof.
  revert s x dst len. induction n as [|n IH]; intros s x dst len Hu Hmap Hoff Hot Hx Hl Hn.
  { destruct (Z.eq_dec len 0) as [->|]; [done|]. pose proof (pages_of_pos x len). lia. }
  rewrite copyin_loop_S. destruct (Z.ltb_spec 0 len) as [Hpos|].
  2:{ exists s. split_and!; try done. split; [lia|done|exists (k_mem s); by destruct s]. }
  destruct (Hmap x) as ((pa & HU) & HfU & _); [lia|].
  destruct (user_page_mapped fuel _ _ _ _ _ _ _ Hu HU HfU) as (Hup & Hpa & _).
  destruct (user_va _ (us_dom _ _ _ _ _ Hu _ _ HU)) as [Hva _].
  destruct (chunk_bounds x len Hx Hpos) as (Hk & Hoffs & Hfit & Hy & Hnext & Hpg).
  cbv zeta. rewrite pgrounddown_div by done. set (va0 := x / PGSIZE * PGSIZE) in *.
  rewrite (bind_ret _ _ _ _ _ Hup). destruct (Z.eqb_spec pa 0); [done|].
  set (k := Z.min _ len) in *. rewrite Hoffs. unfold kmemmove. run.
  assert (Hot1 : off_tables T fl dst k) by (intros b q Hb; apply Hot; lia).
  destruct (copyin_chunk s root T U fl x k dst pa Hu HU Hx ltac:(lia) Hot1 Hy) as (Hc & Hu1 & Hp1).
  set (s1 := s <| k_mem := _ |>) in *. clearbody s1.
  destruct (IH s1 (x + k) (dst + k) (len - k) Hu1) as (s2 & E & Hc2 & Hu2 & Hp2).
  { apply (umapped_sub s); [lia|done|done]. }
  { apply off_user_sub; [lia|done]. }
  { apply off_tables_sub; [lia|done]. }
  1-3: lia.
  exists s2. split_and!; [|by eapply copied_in_trans|done|intros va; by rewrite Hp2].
  rewrite <- E. destruct (Z.lt_ge_cases k len) as [Hlt|Hge].
  - change MAXVA with 274877906944 in Hva. rewrite u64_small by (unfold PGSIZE; lia). by rewrite Hnext.
  - pose proof (pages_of_pos x len Hx Hpos). replace (len - k) with 0 by lia. destruct n; [lia|]. by rewrite !copyin_loop_S.
Qed.
End Copy.
