(* ===== verification/VMFaultProps.v ===== *)
(** * kernel/vm.c: the properties of page faults and user copies *)

From S2P Require Import Prelude Memory State Sched SchedSpec Kalloc VM PageTable VMSpec UserSpace VMProps Disk DiskProps Memsys Evict MemsysProps VMFault CopySpec.
Import Mem KString Raid DiskQueue.

(** C26. copyout of [len] bytes to a user range that is mapped writable succeeds:
    afterwards the byte at each user address of the range is the byte the
    kernel buffer held, no other byte of memory differs, nothing but memory
    changes, and the page table and the free pages are as they were.  The
    loop ends on every length. *)
Theorem copyout_copies `{KernelImage} (fuel : nat) (s : kstate) (root dstva src len : Z)
    (T : gmap (list Z) Z) (U : gmap Z Z) (fl : list Z)
  (Hu : uspace s root T U fl) (Hmap : umapped s T U PTE_W dstva len) (Hoff : off_user U src len)
  (Hd : 0 <= dstva) (Hl : 0 <= len) :
  exists s', copyout fuel root dstva src len s = Ret 0 s' /\ uspace s' root T U fl /\
    (forall i, 0 <= i < len -> ld8 (k_mem s') (uaddr U (dstva + i)) = ld8 (k_mem s) (src + i)) /\
    (forall b, (forall i, 0 <= i < len -> b <> uaddr U (dstva + i)) -> ld8 (k_mem s') b = ld8 (k_mem s) b) /\
    (exists m, s' = s <| k_mem := m |>).
Proof.
  destruct (copyout_loop_spec (Z.to_nat (len / PGSIZE) + 3) fuel s root T U fl dstva src len)
    as (s' & E & [Hb Hf Ho] & Hu' & _); try done; [by apply pages_of_le|].
  by exists s'.
Qed.

(** C27. copyin of [len] bytes from a user range that is mapped is the converse:
    the kernel buffer holds the bytes of the user range, nothing else differs,
    and the loop ends on every length. *)
Theorem copyin_copies `{KernelImage} (fuel : nat) (s : kstate) (root dst srcva len : Z)
    (T : gmap (list Z) Z) (U : gmap Z Z) (fl : list Z)
  (Hu : uspace s root T U fl) (Hmap : umapped s T U PTE_U srcva len)
  (Hoff : off_user U dst len) (Htab : off_tables T fl dst len)
  (Hd : 0 <= srcva) (Hl : 0 <= len) :
  exists s', copyin fuel root dst srcva len s = Ret 0 s' /\ uspace s' root T U fl /\
    (forall i, 0 <= i < len -> ld8 (k_mem s') (dst + i) = ld8 (k_mem s) (uaddr U (srcva + i))) /\
    (forall b, ~ (dst <= b < dst + len) -> ld8 (k_mem s') b = ld8 (k_mem s) b) /\
    (exists m, s' = s <| k_mem := m |>).
Proof.
  destruct (copyin_loop_spec (Z.to_nat (len / PGSIZE) + 3) fuel s root T U fl srcva dst len)
    as (s' & E & [Hb Hf Ho] & Hu' & _); try done; [by apply pages_of_le|].
  by exists s'.
Qed.

(** A kernel buffer of the example, and the user page at address 0. *)
Lemma ex_buffer : off_user ex_umap 0x80100000 100 /\ off_tables ex_tree ex_free 0x80100000 100.
Proof.
  split.
  - intros b v pa Hb. unfold ex_umap. rewrite lookup_insert_Some, lookup_empty.
    intros [[_ <-]|[_ ?]]; [|done]. unfold in_page, ex_page. lia.
  - intros b q Hb [(π & HT)|Hq] Hp; unfold in_page in Hp.
    + apply ex_tree_lookup in HT. unfold ex_root, ex_l1, ex_l0 in HT. lia.
    + unfold ex_free in Hq. rewrite !elem_of_cons, elem_of_nil in Hq. lia.
Qed.
Lemma ex_mapped need x len :
  0 <= x -> x + len <= 4096 -> need = PTE_W \/ need = PTE_U -> umapped ex_state ex_tree ex_umap need x len.
Proof.
  intros Hx Hl Hn y Hy. assert (y / PGSIZE = 0) as -> by (unfold PGSIZE; div_lia).
  split; [by exists ex_page|]. split; [by vm_compute|]. by destruct Hn as [->| ->]; vm_compute.
Qed.
Lemma copyout_copies_witness :
  exists s', @copyout example_image 0 ex_root 8 0x80100000 100 ex_state = Ret 0 s' /\
    @uspace example_image s' ex_root ex_tree ex_umap ex_free /\
    (forall i, 0 <= i < 100 -> ld8 (k_mem s') (uaddr ex_umap (8 + i)) = ld8 (k_mem ex_state) (0x80100000 + i)) /\
    (forall b, (forall i, 0 <= i < 100 -> b <> uaddr ex_umap (8 + i)) -> ld8 (k_mem s') b = ld8 (k_mem ex_state) b) /\
    (exists m, s' = ex_state <| k_mem := m |>).
Proof.
  apply (@copyout_copies example_image 0 ex_state ex_root 8 0x80100000 100 ex_tree ex_umap ex_free).
  - exact ex_uspace.
  - apply ex_mapped; [lia|lia|by left].
  - apply ex_buffer.
  - lia.
  - lia.
Defined.
Lemma copyin_copies_witness :
  exists s', @copyin example_image 0 ex_root 0x80100000 8 100 ex_state = Ret 0 s' /\
    @uspace example_image s' ex_root ex_tree ex_umap ex_free /\
    (forall i, 0 <= i < 100 -> ld8 (k_mem s') (0x80100000 + i) = ld8 (k_mem ex_state) (uaddr ex_umap (8 + i))) /\
    (forall b, ~ (0x80100000 <= b < 0x80100000 + 100) -> ld8 (k_mem s') b = ld8 (k_mem ex_state) b) /\
    (exists m, s' = ex_state <| k_mem := m |>).
Proof.
  apply (@copyin_copies example_image 0 ex_state ex_root 0x80100000 8 100 ex_tree ex_umap ex_free).
  - exact ex_uspace.
  - apply ex_mapped; [lia|lia|by right].
  - apply ex_buffer.
  - apply ex_buffer.
  - lia.
  - lia.
Defined.

(** ** vmfault *)
Section Fault.
Context `{KernelImage}.


(** An entry that is read as 0: the swap-in is not tried and the page counts
    as unmapped. *)
Lemma vmfault_entry s root T U fl v :
  uspace s root T U fl -> 0 <= v < ULIM ->
  walk root (v * PGSIZE) false s = Ret (leaf_addr T (v * PGSIZE)) s /\
  (leaf_addr T (v * PGSIZE) = 0 /\ pte_of T (k_mem s) (v * PGSIZE) = 0 \/
   leaf_addr T (v * PGSIZE) <> 0 /\
   ld64 (k_mem s) (leaf_addr T (v * PGSIZE)) = pte_of T (k_mem s) (v * PGSIZE)).
Proof.
  intros Hu Hv. destruct (user_va v Hv) as [Hva _]. pose proof (us_ok _ _ _ _ _ Hu) as (_ & Hwf & _).
  split; [apply walk_find; [done|lia]|]. destruct (leaf_page T (v * PGSIZE)) as [q|] eqn:Hq.
  - right. by destruct (leaf_addr_some _ _ _ _ _ Hwf Hq) as (_ & ? & ?).
  - left. unfold leaf_addr, pte_of. by rewrite Hq.
Qed.

Lemma update_frame_table_run s o va pa :
  exists t, update_frame_table o va pa s = Ret tt (s <| k_frame_table := t |>).
Proof.
  unfold update_frame_table, with_entry, set_frame. destruct (get_frame_entry pa) as [i|]; run.
  - by eexists.
  - exists (k_frame_table s). by destruct s.
Qed.

Lemma ismapped_user s root T U fl v :
  uspace s root T U fl -> 0 <= v < ULIM ->
  ismapped root (v * PGSIZE) s = Ret (bool_decide (is_Some (U !! v))) s.
Proof.
  intros Hu Hv. destruct (vmfault_entry _ _ _ _ _ _ Hu Hv) as [Hw Hc].
  assert (Hb : has (pte_of T (k_mem s) (v * PGSIZE)) PTE_V = bool_decide (is_Some (U !! v))).
  { destruct (U !! v) as [pa|] eqn:E; [by apply (us_pte _ _ _ _ _ Hu v pa)|by apply (us_none _ _ _ _ _ Hu)]. }
  unfold ismapped. rewrite (bind_ret _ _ _ _ _ Hw). destruct Hc as [[Hz Hp]|[Hnz Hp]].
  - rewrite Hz, <- Hb, Hp. done.
  - destruct (Z.eqb_spec (leaf_addr T (v * PGSIZE)) 0); [done|]. unfold pte_get. run. by rewrite Hp, Hb.
Qed.

Lemma read_entry s root T U fl v :
  uspace s root T U fl -> 0 <= v < ULIM ->
  (if leaf_addr T (v * PGSIZE) =? 0 then mret 0 else pte_get (leaf_addr T (v * PGSIZE))) s
  = Ret (pte_of T (k_mem s) (v * PGSIZE)) s.
Proof.
  intros Hu Hv. destruct (vmfault_entry _ _ _ _ _ _ Hu Hv) as [_ [[-> ->]|[Hne Hl]]]; [done|].
  destruct (Z.eqb_spec (leaf_addr T (v * PGSIZE)) 0); [done|]. unfold pte_get. run. by rewrite Hl.
Qed.

Definition faulted (s : kstate) (p : nat) : kstate :=
  s <| k_proc := alter (fun q => q <| p_page_faults := i32 (p_page_faults q + 1) |>) p (k_proc s) |>.
Lemma faulted_pr s p :
  (p < length (k_proc s))%nat ->
  pr (faulted s p) p = (pr s p) <| p_page_faults := i32 (p_page_faults (pr s p) + 1) |>.
Proof. intros Hp. exact (pr_alter_eq s p (fun q => q <| p_page_faults := i32 (p_page_faults q + 1) |>) Hp). Qed.

(** A page that has never been mapped is given a page. *)
Lemma vmfault_unmapped fuel s p root va T U fl :
  k_cur s = Some p -> uspace s root T U fl -> 0 <= va < p_sz (pr s p) -> va / PGSIZE < ULIM ->
  U !! (va / PGSIZE) = None -> pte_of T (k_mem s) (va / PGSIZE * PGSIZE) = 0 ->
  vmfault fuel root va s = lazy_page fuel p (va / PGSIZE * PGSIZE) (faulted s p).
Proof.
  intros Hcur Hu Hva Hlim Hnone Hzero. set (v := va / PGSIZE) in *.
  assert (Hv : 0 <= v < ULIM) by (subst v; unfold PGSIZE in *; div_lia).
  destruct (vmfault_entry _ _ _ _ _ _ Hu Hv) as [Hw _].
  pose proof (ismapped_user _ _ _ _ _ _ Hu Hv) as Him. rewrite Hnone in Him.
  change (bool_decide _) with false in Him.
  unfold vmfault. rewrite (bind_ret myproc _ s p s) by (unfold myproc; run; by rewrite Hcur).
  rewrite (bind_ret (gets _) _ s (p_sz (pr s p)) s eq_refl).
  destruct (Z.leb_spec (p_sz (pr s p)) va); [lia|]. cbv zeta.
  rewrite pgrounddown_div by lia. change (va / PGSIZE) with v. rewrite (bind_ret _ _ _ _ _ Hw).
  rewrite (bind_ret _ _ _ _ _ (read_entry _ _ _ _ _ _ Hu Hv)), Hzero.
  rewrite !andb_false_r, (bind_ret (mret (-1)) _ s (-1) s eq_refl). cbn [Z.eqb].
  rewrite (bind_ret _ _ _ _ _ Him). cbv iota.
  by rewrite (bind_ret (set_pr p _) _ s tt _ eq_refl).
Qed.

(** lazy_page with a page free. *)
Lemma lazy_page_run fuel s p root v c T U fl :
  (p < length (k_proc s))%nat -> p_pagetable (pr s p) = root -> uspace s root T U (c :: fl) ->
  0 <= v < ULIM -> U !! v = None ->
  exists s' T' fl' r, lazy_page fuel p (v * PGSIZE) s = Ret r s' /\
    p_page_faults (pr s' p) = p_page_faults (pr s p) /\
    ((r = c /\ uspace s' root T' (<[v := c]> U) fl' /\ zero_page s' c /\
      pte_of T' (k_mem s') (v * PGSIZE) = leaf_entry c (Z.lor (Z.lor PTE_W PTE_U) PTE_R) /\
      p_resident_pages (pr s' p) = i32 (p_resident_pages (pr s p) + 1)) \/
     (r = 0 /\ fl' = [c] /\ uspace s' root T' U fl')).
Proof.
  intros Hp Hroot Hu Hv HU. unfold lazy_page.
  rewrite (bind_ret _ _ _ _ _ (kalloc_eq s c fl (proj1 (us_ok _ _ _ _ _ Hu)))).
  destruct (uspace_kalloc _ _ _ _ _ _ Hu) as [_ (Hc & _)]. pose proof (page_ok_pos c Hc).
  destruct (Z.eqb_spec c 0) as [|Hc0]; [lia|]. rewrite (bind_ret (mret c) _ _ c _ eq_refl).
  rewrite (proj2 (Z.eqb_neq _ _) Hc0).
  destruct (uvmalloc_page s root T U fl v c (Z.lor (Z.lor PTE_W PTE_U) PTE_R))
    as (s2 & T2 & fl2 & r & E & Hcase); try done.
  assert (Hpr2 : k_proc s2 = k_proc s).
  { destruct Hcase as [(_ & _ & Hg)|(_ & _ & _ & _ & _ & _ & Hm & _)];
      [apply gr_only in Hg as (m & f & ->)|destruct Hm as (m & f & ->)]; kproj. }
  unfold kmemset in E |- *. rewrite (bind_ret (modify _) _ _ tt _ eq_refl) in E.
  rewrite (bind_ret (modify _) _ _ tt _ eq_refl). set (sk := (kalloc_state s c) <| k_mem := _ |>) in *.
  rewrite (bind_ret (gets (fun s => p_pagetable (pr s p))) _ sk (p_pagetable (pr s p)) sk eq_refl), Hroot.
  rewrite (bind_ret _ _ _ _ _ E). clear E.
  destruct Hcase as [(-> & Hu2 & Hg)|(-> & -> & Hu2 & Hsp & _)]; cbn [Z.eqb negb].
  - destruct (update_frame_table_run s2 (Some p) (v * PGSIZE) c) as [t Et].
    rewrite (bind_ret _ _ _ _ _ Et). rewrite (bind_ret (set_pr p _) _ _ tt _ eq_refl).
    set (s3 := s2 <| k_frame_table := t |>). assert (Hp3 : (p < length (k_proc s3))%nat) by (cbn; by rewrite Hpr2).
    eexists _, T2, fl2, c. split; [reflexivity|].
    pose proof (pr_alter_eq s3 p (fun q => q <| p_resident_pages := i32 (p_resident_pages q + 1) |>) Hp3) as ->.
    change (pr s3 p) with (pr s2 p). unfold pr. rewrite Hpr2. split; [done|]. left.
    destruct (gr_in _ _ _ _ _ _ _ _ _ _ _ Hg v) as (pa & HUv & _ & Hpte & Hz); [lia|].
    rewrite lookup_insert_eq in HUv. injection HUv as <-. split_and!; try done. by apply (uspace_same s2).
  - rewrite (bind_ret _ _ _ _ _ (kfree_eq s2 c Hc)).
    exists (kfree_state s2 c), T2, [c], 0. split; [done|]. change (pr (kfree_state s2 c) p) with (pr s2 p).
    unfold pr. rewrite Hpr2. split; [done|]. right. split_and!; try done. by apply uspace_kfree.
Qed.
End Fault.

(** C29. A first touch of a page below the process size whose entry is 0, with a
    page free: vmfault counts the fault and returns a page that was free, now
    zeroed and mapped at the faulting address with R, W and U, every other
    page mapped as before; or, when no page is left for a page table, it
    returns 0, maps nothing and gives the page back. *)
Theorem vmfault_lazy `{KernelImage} (fuel : nat) (s : kstate) (p : nat) (root va c : Z)
    (T : gmap (list Z) Z) (U : gmap Z Z) (fl : list Z)
  (Hcur : k_cur s = Some p) (Hp : (p < length (k_proc s))%nat) (Hroot : p_pagetable (pr s p) = root)
  (Hu : uspace s root T U (c :: fl)) (Hva : 0 <= va < p_sz (pr s p))
  (Hlim : va / PGSIZE < ULIM) (Hnone : U !! (va / PGSIZE) = None)
  (Hzero : pte_of T (k_mem s) (va / PGSIZE * PGSIZE) = 0) :
  exists s' T' fl' r, vmfault fuel root va s = Ret r s' /\
    p_page_faults (pr s' p) = i32 (p_page_faults (pr s p) + 1) /\
    ((r = c /\ uspace s' root T' (<[va / PGSIZE := c]> U) fl' /\ zero_page s' c /\
      pte_of T' (k_mem s') (va / PGSIZE * PGSIZE) = leaf_entry c (Z.lor (Z.lor PTE_W PTE_U) PTE_R) /\
      p_resident_pages (pr s' p) = i32 (p_resident_pages (pr s p) + 1)) \/
     (r = 0 /\ fl' = [c] /\ uspace s' root T' U fl')).
Proof.
  rewrite (vmfault_unmapped fuel s p root va T U (c :: fl)) by done. pose proof (faulted_pr s p Hp) as Hpr.
  destruct (lazy_page_run fuel (faulted s p) p root (va / PGSIZE) c T U fl)
    as (s' & T' & fl' & r & E & Hf & Hcase).
  - cbn. by rewrite length_alter.
  - by rewrite Hpr.
  - by apply (uspace_same s).
  - unfold PGSIZE in *. div_lia.
  - done.
  - rewrite Hpr in Hf, Hcase. by exists s', T', fl', r.
Qed.

Definition ex_lazy : kstate :=
  ex_state <| k_proc := [proc0 <| p_sz := 8192 |> <| p_pagetable := ex_root |> <| p_state := RUNNING |>] |>.
Lemma vmfault_lazy_witness :
  exists s' T' fl' r, @vmfault example_image 0 ex_root 5000 ex_lazy = Ret r s' /\
    p_page_faults (pr s' 0) = 1 /\
    ((r = 0x80204000 /\ @uspace example_image s' ex_root T' (<[1 := 0x80204000]> ex_umap) fl' /\
      zero_page s' 0x80204000 /\
      pte_of T' (k_mem s') 4096 = leaf_entry 0x80204000 (Z.lor (Z.lor PTE_W PTE_U) PTE_R) /\
      p_resident_pages (pr s' 0) = 1) \/
     (r = 0 /\ fl' = [0x80204000] /\ @uspace example_image s' ex_root T' ex_umap fl')).
Proof.
  apply (@vmfault_lazy example_image 0 ex_lazy 0%nat ex_root 5000 0x80204000 ex_tree ex_umap
           [0x80205000; 0x80206000]); concrete.
  - exact (@uspace_same example_image ex_state ex_lazy _ _ _ _ eq_refl eq_refl ex_uspace).
Defined.

(** C36. A fault on a page that is in swap (an entry that is not 0 and not
    valid), when the page can be brought back: vmfault makes the page resident
    again, with a valid entry, and still returns 0, which its callers take as
    failure.  copyout, for one, then returns -1 with the page in place. *)
Theorem vmfault_swapped `{KernelImage} (fuel : nat) (s : kstate) (p : nat)
    (va slot d b a c src : Z) (fl : list Z) (T : gmap (list Z) Z)
  (Hcur : k_cur s = Some p) (Hsz : va < p_sz (pr s p))
  (Hslot : find_slot s (Z.to_nat MAX_SWAP_DISK_ENTRIES) 0 p va = slot) (Hs1 : slot <> -1)
  (Hm : raid_map_logical_to_physical (k_raid_mode s) (se_logical_block (swap_at s slot))
        = (0, Some (d, b)))
  (Hq : queue_rep s []) (Hp : policy_ok s)
  (Hvm : vm_ok s (p_pagetable (pr s p)) T (a :: c :: fl))
  (Hva : va `mod` PGSIZE = 0) (Hva0 : 0 <= va) (Hvam : va + PGSIZE <= MAXVA)
  (Hleaf : is_Some (leaf_page T va)) (Hinv : has (pte_of T (k_mem s) va) PTE_V = false)
  (Hsw : pte_of T (k_mem s) va <> 0) :
  exists s' T', vmfault fuel (p_pagetable (pr s p)) va s = Ret 0 s' /\
    copyout fuel (p_pagetable (pr s p)) va src 1 s = Ret (-1) s' /\
    pte_of T' (k_mem s') va = leaf_entry a (Z.lor (Z.lor PTE_W PTE_U) PTE_R) /\
    (forall x, in_page a x -> ld8 (k_mem s') x = 5).
Proof.
  destruct (swap_page_in_run fuel s p va slot d b a c fl T) as (s' & T' & fl' & E & _ & _ & Hpte & H5); try done.
  set (root := p_pagetable (pr s p)) in *. destruct Hvm as (_ & Hwf & _). destruct Hleaf as [q Hl].
  destruct (leaf_addr_some _ _ _ _ _ Hwf Hl) as (Hla & Hnz & Hld).
  assert (Hw : walk root va false s = Ret (leaf_addr T va) s) by (apply walk_find; [done|page_lia]).
  assert (Hr : PGROUNDDOWN va = va) by (rewrite pgrounddown_eq; lia).
  assert (Ef : exists s2, vmfault fuel root va s = Ret 0 s2 /\ k_mem s2 = k_mem s').
  { eexists. split; [unfold vmfault|].
    - rewrite (bind_ret myproc _ s p s) by (unfold myproc; run; by rewrite Hcur).
      rewrite (bind_ret (gets _) _ s (p_sz (pr s p)) s eq_refl).
      destruct (Z.leb_spec (p_sz (pr s p)) va); [lia|]. cbv zeta. rewrite Hr, (bind_ret _ _ _ _ _ Hw).
      rewrite (proj2 (Z.eqb_neq _ _) Hnz), (bind_ret _ _ s (pte_of T (k_mem s) va) s)
        by (unfold pte_get; run; by rewrite Hld).
      rewrite Hinv, (proj2 (Z.eqb_neq _ _) Hsw). cbn [negb andb]. rewrite (bind_ret _ _ _ _ _ E).
      cbn [Z.eqb]. by rewrite (bind_ret (set_pr p _) _ _ tt _ eq_refl).
    - done. }
  destruct Ef as (s2 & Ef & Hm2). exists s2, T'. split; [done|]. split; [|by rewrite Hm2].
  unfold copyout. change (Z.to_nat (1 / PGSIZE) + 3)%nat with 3%nat. rewrite copyout_loop_S. cbn [Z.ltb Z.compare].
  cbv zeta. rewrite Hr. destruct (Z.leb_spec MAXVA va); [page_lia|].
  rewrite (bind_ret _ _ s 0 s2); [done|]. unfold user_page, walkaddr.
  destruct (Z.leb_spec MAXVA va); [lia|]. rewrite (bind_ret _ _ s 0 s); [done|].
  rewrite (bind_ret _ _ _ _ _ Hw), (proj2 (Z.eqb_neq _ _) Hnz).
  unfold pte_get. run. by rewrite Hld, Hinv.
Qed.
Definition ex_in_swap : kstate :=
  pte_stored (ex_lazy <| k_swap_table := <[0 := mkswap true (Some 0%nat) 4096 0 0]> ∅ |>)
    (ex_l0 + 8 * PX 0 (1 * PGSIZE)) 6.
Lemma vmfault_swapped_witness :
  exists s' T', @vmfault example_image 0 ex_root 4096 ex_in_swap = Ret 0 s' /\
    @copyout example_image 0 ex_root 4096 0x80100000 1 ex_in_swap = Ret (-1) s' /\
    pte_of T' (k_mem s') 4096 = leaf_entry 0x80204000 (Z.lor (Z.lor PTE_W PTE_U) PTE_R) /\
    (forall x, in_page 0x80204000 x -> ld8 (k_mem s') x = 5).
Proof.
  apply (@vmfault_swapped example_image 0 ex_in_swap 0%nat 4096 0 0 0 0x80204000 0x80205000 0x80100000
           [0x80206000] ex_tree); concrete.
  - split; [split; [reflexivity|constructor]|reflexivity].
  - left. reflexivity.
  - apply (@user_store example_image _ ex_root ex_tree _ 1 ex_l0 6); [|vm_compute; split; congruence|reflexivity].
    apply (@vm_ok_same example_image ex_state); [unfold ex_lazy; kproj..|exact (us_ok _ _ _ _ _ ex_uspace)].
  - exists ex_l0. reflexivity.
Defined.
