(* ===== verification/Fs.v ===== *)
(** * kernel/fs.c: blocks, inodes, file content, directories and paths

    The inode table is [fs_inode], a [struct inode *] an index into it (or
    none).  On-disk structures are read and written in the buffers: a dinode is
    type@0, major@2, minor@4, nlink@6, size@8, addrs@12, a dirent inum@0,
    name@2.  Names and paths are addresses.  [fuel] is for evict_page's loop,
    which copies to and from user memory can reach. *)

From S2P Require Import Prelude Memory FsState State Sched Printf Sleeplock Bio Log Kalloc VM Disk Memsys VMFault.
Import Mem KString.
From Stdlib Require Import Ascii.

Definition ld16 (m : mem) (a : Z) : Z := ld 2 m a.
Definition st16 (m : mem) (a v : Z) : mem := st 2 m a v.
Arguments ld16 : simpl never.
Arguments st16 : simpl never.

Definition ino (s : kstate) (i : nat) : inode := default inode0 (fs_inode (k_fs s) !! i).
Definition set_ino (i : nat) (f : inode -> inode) : K unit :=
  modify_fs (fun t => t <| fs_inode := alter f i (fs_inode t) |>).
Definition inode_lock (i : nat) : lockref :=
  mkref (fun s => i_lock (ino s i))
    (fun l s => s <| k_fs := (k_fs s) <| fs_inode := alter (fun b => b <| i_lock := l |>) i (fs_inode (k_fs s)) |> |>)
    (ChInode i).
Definition sb (s : kstate) : superblock := fs_sb (k_fs s).

(** IBLOCK, BBLOCK (fs.h) *)
Definition IBLOCK (i : Z) (sb : superblock) : Z := u32 (i / IPB + sb_inodestart sb).
Definition BBLOCK (b : Z) (sb : superblock) : Z := u32 (b / BPB + sb_bmapstart sb).

(** Memory as the kernel's pointers see it. *)
Definition mget (f : mem -> Z) : K Z := gets (fun s => f (k_mem s)).
Definition mset (f : mem -> mem) : K unit := modify (fun s => s <| k_mem := f (k_mem s) |>).

Section Fs.
Context `{KernelImage}.

(** readsb: eight words *)
Definition readsb (dev : Z) : K unit :=
  bp ← bread (u32 dev) 1;
  modify (fun s =>
    let w k := ld32 (k_mem s) (kbuf bp + 4 * k) in
    s <| k_fs := (k_fs s) <| fs_sb := mksb (w 0) (w 1) (w 2) (w 3) (w 4) (w 5) (w 6) (w 7) |> |>);;
  brelse bp.

(** bzero *)
Definition bzero (dev bno : Z) : K unit :=
  bp ← bread (u32 dev) (u32 bno);
  kmemset (kbuf bp) 0 BSIZE;;
  log_write bp;;
  brelse bp.

(** balloc: the bits of one bitmap block, then the blocks *)
Fixpoint balloc_bits (n : nat) (bp : nat) (b bi : Z) : K (option Z) :=
  match n with
  | O => mret None
  | S n' =>
      size ← gets (fun s => sb_size (sb s));
      if b + bi <? size then
        let m := Z.shiftl 1 (bi `mod` 8) in
        v ← mget (fun mm => ld8 mm (kbuf bp + bi / 8));
        if Z.land v m =? 0 then
          mset (fun mm => st8 mm (kbuf bp + bi / 8) (Z.lor v m));;
          mret (Some bi)
        else balloc_bits n' bp b (bi + 1)
      else mret None
  end.
Fixpoint balloc_loop (n : nat) (dev b : Z) : K Z :=
  match n with
  | O => no_fuel
  | S n' =>
      size ← gets (fun s => sb_size (sb s));
      if b <? size then
        x ← gets sb;
        bp ← bread dev (BBLOCK b x);
        r ← balloc_bits (Z.to_nat BPB) bp b 0;
        match r with
        | Some bi =>
            log_write bp;;
            brelse bp;;
            bzero dev (b + bi);;
            mret (b + bi)
        | None => brelse bp;; balloc_loop n' dev (b + BPB)
        end
      else
        printf "balloc: out of blocks
" [];;
        mret 0
  end.
Definition balloc (dev : Z) : K Z :=
  size ← gets (fun s => sb_size (sb s));
  balloc_loop (Z.to_nat (size / BPB) + 2) dev 0.

(** bfree *)
Definition bfree (dev b : Z) : K unit :=
  x ← gets sb;
  bp ← bread (u32 dev) (BBLOCK b x);
  let bi := b `mod` BPB in
  let m := Z.shiftl 1 (bi `mod` 8) in
  v ← mget (fun mm => ld8 mm (kbuf bp + bi / 8));
  if Z.land v m =? 0 then panic "freeing free block"
  else
    mset (fun mm => st8 mm (kbuf bp + bi / 8) (Z.land v (Z.lnot m)));;
    log_write bp;;
    brelse bp.

(** iinit *)
Definition iinit : K unit := for_loop (Z.to_nat NINODE) 0 (fun i => initsleeplock (inode_lock (Z.to_nat i))).

(** iget: the entry that holds the inode, or the first free one *)
Definition in_table (s : kstate) (dev inum : Z) (i : nat) : bool :=
  (0 <? i_ref (ino s i)) && (i_dev (ino s i) =? dev) && (i_inum (ino s i) =? inum).
Definition iget (dev inum : Z) : K nat :=
  hit ← gets (fun s => find (in_table s dev inum) (seq 0 (Z.to_nat NINODE)));
  match hit with
  | Some i => set_ino i (fun p => p <| i_ref := i32 (i_ref p + 1) |>);; mret i
  | None =>
      empty ← gets (fun s => find (fun i => i_ref (ino s i) =? 0) (seq 0 (Z.to_nat NINODE)));
      match empty with
      | None => panic "iget: no inodes"
      | Some i =>
          set_ino i (fun p => p <| i_dev := dev |> <| i_inum := inum |> <| i_ref := 1 |> <| i_valid := false |>);;
          mret i
      end
  end.

(** The dinode of inode [inum] in the buffer of its block. *)
Definition dip (bp : nat) (inum : Z) : Z := kbuf bp + DINODE_SIZE * (inum `mod` IPB).

(** ialloc *)
Fixpoint ialloc_loop (n : nat) (dev type inum : Z) : K (option nat) :=
  match n with
  | O =>
      printf "ialloc: no inodes
" [];;
      mret None
  | S n' =>
      x ← gets sb;
      bp ← bread dev (IBLOCK inum x);
      t ← mget (fun m => i16 (ld16 m (dip bp inum)));
      if t =? 0 then
        kmemset (dip bp inum) 0 DINODE_SIZE;;
        mset (fun m => st16 m (dip bp inum) type);;
        log_write bp;;
        brelse bp;;
        i ← iget dev inum;
        mret (Some i)
      else brelse bp;; ialloc_loop n' dev type (inum + 1)
  end.
Definition ialloc (dev type : Z) : K (option nat) :=
  n ← gets (fun s => sb_ninodes (sb s));
  ialloc_loop (Z.to_nat (n - 1)) dev type 1.

(** iupdate *)
Fixpoint st_addrs (m : mem) (a : Z) (l : list Z) : mem :=
  match l with [] => m | x :: l' => st_addrs (st32 m a x) (a + 4) l' end.
Definition st_dinode (m : mem) (a : Z) (p : inode) : mem :=
  let m := st16 m a (i_type p) in
  let m := st16 m (a + 2) (i_major p) in
  let m := st16 m (a + 4) (i_minor p) in
  let m := st16 m (a + 6) (i_nlink p) in
  let m := st32 m (a + 8) (i_size p) in
  st_addrs m (a + 12) (i_addrs p).
Definition iupdate (i : nat) : K unit :=
  p ← gets (fun s => ino s i);
  x ← gets sb;
  bp ← bread (i_dev p) (IBLOCK (i_inum p) x);
  mset (fun m => st_dinode m (dip bp (i_inum p)) p);;
  log_write bp;;
  brelse bp.

(** idup *)
Definition idup (i : nat) : K nat :=
  set_ino i (fun p => p <| i_ref := i32 (i_ref p + 1) |>);; mret i.

(** ilock *)
Definition ld_dinode (m : mem) (a : Z) (p : inode) : inode :=
  p <| i_type := i16 (ld16 m a) |> <| i_major := i16 (ld16 m (a + 2)) |> <| i_minor := i16 (ld16 m (a + 4)) |>
    <| i_nlink := i16 (ld16 m (a + 6)) |> <| i_size := ld32 m (a + 8) |>
    <| i_addrs := (fun k => ld32 m (a + 12 + 4 * k)) <$> seqZ 0 (NDIRECT + 1) |>.
Definition ilock (ip : option nat) : K unit :=
  match ip with
  | None => panic "ilock"
  | Some i =>
      r ← gets (fun s => i_ref (ino s i));
      if r <? 1 then panic "ilock"
      else
        acquiresleep (inode_lock i);;
        v ← gets (fun s => i_valid (ino s i));
        if (v : bool) then mret tt
        else
          p ← gets (fun s => ino s i);
          x ← gets sb;
          bp ← bread (i_dev p) (IBLOCK (i_inum p) x);
          m ← gets k_mem;
          set_ino i (ld_dinode m (dip bp (i_inum p)));;
          brelse bp;;
          set_ino i (fun p => p <| i_valid := true |>);;
          t ← gets (fun s => i_type (ino s i));
          if t =? 0 then panic "ilock: no type" else mret tt
  end.

(** iunlock *)
Definition iunlock (ip : option nat) : K unit :=
  match ip with
  | None => panic "iunlock"
  | Some i =>
      h ← holdingsleep (inode_lock i);
      r ← gets (fun s => i_ref (ino s i));
      if negb h || (r <? 1) then panic "iunlock" else releasesleep (inode_lock i)
  end.

(** bmap *)
Definition addr_at (s : kstate) (i : nat) (k : Z) : Z := default 0 (i_addrs (ino s i) !! Z.to_nat k).
Definition set_addr (i : nat) (k a : Z) : K unit :=
  set_ino i (fun p => p <| i_addrs := <[Z.to_nat k := a]> (i_addrs p) |>).
Definition bmap (i : nat) (bn : Z) : K Z :=
  dev ← gets (fun s => i_dev (ino s i));
  if bn <? NDIRECT then
    addr ← gets (fun s => addr_at s i bn);
    if addr =? 0 then
      addr ← balloc dev;
      if addr =? 0 then mret 0 else set_addr i bn addr;; mret addr
    else mret addr
  else
    let bn := bn - NDIRECT in
    if bn <? NINDIRECT then
      addr ← gets (fun s => addr_at s i NDIRECT);
      addr ← (if addr =? 0 then
                addr ← balloc dev;
                (if addr =? 0 then mret tt else set_addr i NDIRECT addr);;
                mret addr
              else mret addr);
      if addr =? 0 then mret 0
      else
        bp ← bread dev addr;
        addr ← mget (fun m => ld32 m (kbuf bp + 4 * bn));
        addr ← (if addr =? 0 then
                  addr ← balloc dev;
                  (if negb (addr =? 0) then
                     mset (fun m => st32 m (kbuf bp + 4 * bn) addr);;
                     log_write bp
                   else mret tt);;
                  mret addr
                else mret addr);
        brelse bp;;
        mret addr
    else panic "bmap: out of range".

(** itrunc *)
Definition itrunc (i : nat) : K unit :=
  dev ← gets (fun s => i_dev (ino s i));
  for_loop (Z.to_nat NDIRECT) 0 (fun k =>
    a ← gets (fun s => addr_at s i k);
    if negb (a =? 0) then bfree dev a;; set_addr i k 0 else mret tt);;
  a ← gets (fun s => addr_at s i NDIRECT);
  (if negb (a =? 0) then
     bp ← bread dev a;
     for_loop (Z.to_nat NINDIRECT) 0 (fun j =>
       b ← mget (fun m => ld32 m (kbuf bp + 4 * j));
       if negb (b =? 0) then bfree dev b else mret tt);;
     brelse bp;;
     bfree dev a;;
     set_addr i NDIRECT 0
   else mret tt);;
  set_ino i (fun p => p <| i_size := 0 |>);;
  iupdate i.

(** iput *)
Definition iput (i : nat) : K unit :=
  p ← gets (fun s => ino s i);
  (if (i_ref p =? 1) && i_valid p && (i_nlink p =? 0) then
     acquiresleep (inode_lock i);;
     itrunc i;;
     set_ino i (fun p => p <| i_type := 0 |>);;
     iupdate i;;
     set_ino i (fun p => p <| i_valid := false |>);;
     releasesleep (inode_lock i)
   else mret tt);;
  set_ino i (fun p => p <| i_ref := i32 (i_ref p - 1) |>).

(** iunlockput *)
Definition iunlockput (i : nat) : K unit := iunlock (Some i);; iput i.

(** ireclaim *)
Definition ireclaim (dev : Z) : K unit :=
  n ← gets (fun s => sb_ninodes (sb s));
  for_loop (Z.to_nat (n - 1)) 1 (fun inum =>
    x ← gets sb;
    bp ← bread (u32 dev) (IBLOCK inum x);
    t ← mget (fun m => i16 (ld16 m (dip bp inum)));
    nl ← mget (fun m => i16 (ld16 m (dip bp inum + 6)));
    ip ← (if negb (t =? 0) && (nl =? 0) then
            printf "ireclaim: orphaned inode %d
" [VInt inum];;
            i ← iget (u32 dev) inum;
            mret (Some i)
          else mret None);
    brelse bp;;
    match ip with
    | Some i => begin_op;; ilock (Some i);; iunlock (Some i);; iput i;; end_op
    | None => mret tt
    end).

(** fsinit *)
Definition fsinit (dev : Z) : K unit :=
  readsb dev;;
  x ← gets sb;
  if negb (sb_magic x =? FSMAGIC) then panic "invalid file system"
  else initlog dev (sb_logstart x);; ireclaim dev.

(** stati: struct stat is dev@0, ino@4, type@8, nlink@10, size@16 *)
Definition stati (i : nat) (st : Z) : K unit :=
  p ← gets (fun s => ino s i);
  mset (fun m =>
    let m := st32 m st (i_dev p) in
    let m := st32 m (st + 4) (i_inum p) in
    let m := st16 m (st + 8) (i_type p) in
    let m := st16 m (st + 10) (i_nlink p) in
    st64 m (st + 16) (i_size p)).

(** readi; the loop takes a step for each block it touches *)
Fixpoint readi_loop (k fuel : nat) (i : nat) (user_dst : bool) (dst off tot n : Z) : K Z :=
  match k with
  | O => no_fuel
  | S k' =>
      if tot <? n then
        addr ← bmap i (off / BSIZE);
        if addr =? 0 then mret tot
        else
          dev ← gets (fun s => i_dev (ino s i));
          bp ← bread dev addr;
          let m := Z.min (n - tot) (BSIZE - off `mod` BSIZE) in
          r ← either_copyout fuel user_dst dst (kbuf bp + off `mod` BSIZE) m;
          brelse bp;;
          if r =? -1 then mret (u32 (-1))
          else readi_loop k' fuel i user_dst (u64 (dst + m)) (u32 (off + m)) (tot + m) n
      else mret tot
  end.
Definition readi (fuel : nat) (i : nat) (user_dst : bool) (dst off n : Z) : K Z :=
  size ← gets (fun s => i_size (ino s i));
  if (size <? off) || (u32 (off + n) <? off) then mret 0
  else
    let n := if size <? u32 (off + n) then u32 (size - off) else n in
    tot ← readi_loop (Z.to_nat (n / BSIZE) + 3) fuel i user_dst dst off 0 n;
    mret (i32 tot).

(** writei: the loop gives [tot] and the final [off] *)
Fixpoint writei_loop (k fuel : nat) (i : nat) (user_src : bool) (src off tot n : Z) : K (Z * Z) :=
  match k with
  | O => no_fuel
  | S k' =>
      if tot <? n then
        addr ← bmap i (off / BSIZE);
        if addr =? 0 then mret (tot, off)
        else
          dev ← gets (fun s => i_dev (ino s i));
          bp ← bread dev addr;
          let m := Z.min (n - tot) (BSIZE - off `mod` BSIZE) in
          r ← either_copyin fuel (kbuf bp + off `mod` BSIZE) user_src src m;
          if r =? -1 then brelse bp;; mret (tot, off)
          else
            log_write bp;;
            brelse bp;;
            writei_loop k' fuel i user_src (u64 (src + m)) (u32 (off + m)) (tot + m) n
      else mret (tot, off)
  end.
Definition writei (fuel : nat) (i : nat) (user_src : bool) (src off n : Z) : K Z :=
  size ← gets (fun s => i_size (ino s i));
  if (size <? off) || (u32 (off + n) <? off) then mret (-1)
  else if MAXFILE * BSIZE <? u32 (off + n) then mret (-1)
  else
    r ← writei_loop (Z.to_nat (n / BSIZE) + 3) fuel i user_src src off 0 n;
    (if size <? snd r then set_ino i (fun p => p <| i_size := snd r |>) else mret tt);;
    iupdate i;;
    mret (i32 (fst r)).

(** namecmp *)
Definition namecmp (m : mem) (s t : Z) : Z := strncmp m s t DIRSIZ.

(** dirlookup, with the offset of the entry; its local [de] *)
Definition de_lookup : Z := kstk 0.
Fixpoint dirlookup_loop (k fuel : nat) (dp : nat) (name off : Z) : K (option (nat * Z)) :=
  match k with
  | O => no_fuel
  | S k' =>
      size ← gets (fun s => i_size (ino s dp));
      if off <? size then
        r ← readi fuel dp false de_lookup off DIRENT_SIZE;
        if negb (r =? DIRENT_SIZE) then panic "dirlookup read"
        else
          inum ← mget (fun m => ld16 m de_lookup);
          c ← mget (fun m => namecmp m name (de_lookup + 2));
          if (inum =? 0) || negb (c =? 0) then dirlookup_loop k' fuel dp name (u32 (off + DIRENT_SIZE))
          else
            dev ← gets (fun s => i_dev (ino s dp));
            i ← iget dev inum;
            mret (Some (i, off))
      else mret None
  end.
Definition dirlookup (fuel : nat) (dp : nat) (name : Z) : K (option (nat * Z)) :=
  t ← gets (fun s => i_type (ino s dp));
  if negb (t =? T_DIR) then panic "dirlookup not DIR"
  else
    size ← gets (fun s => i_size (ino s dp));
    dirlookup_loop (Z.to_nat (size / DIRENT_SIZE) + 2) fuel dp name 0.

(** dirlink; its local [de] *)
Definition de_link : Z := kstk 1.
Fixpoint dirlink_slot (k fuel : nat) (dp : nat) (off : Z) : K Z :=
  match k with
  | O => no_fuel
  | S k' =>
      size ← gets (fun s => i_size (ino s dp));
      if off <? size then
        r ← readi fuel dp false de_link off DIRENT_SIZE;
        if negb (r =? DIRENT_SIZE) then panic "dirlink read"
        else
          inum ← mget (fun m => ld16 m de_link);
          if inum =? 0 then mret off else dirlink_slot k' fuel dp (off + DIRENT_SIZE)
      else mret off
  end.
Definition dirlink (fuel : nat) (dp : nat) (name inum : Z) : K Z :=
  r ← dirlookup fuel dp name;
  match r with
  | Some (i, _) => iput i;; mret (-1)
  | None =>
      size ← gets (fun s => i_size (ino s dp));
      off ← dirlink_slot (Z.to_nat (size / DIRENT_SIZE) + 2) fuel dp 0;
      mset (fun m => st16 (strncpy m (de_link + 2) name DIRSIZ) de_link inum);;
      r ← writei fuel dp false de_link off DIRENT_SIZE;
      if negb (r =? DIRENT_SIZE) then mret (-1) else mret 0
  end.

(** skipelem: the scans over slashes and over the element; [None] is the null
    pointer.  A path has at most [path_fuel] bytes (argstr copies MAXPATH). *)
Definition path_fuel : nat := 4096.
Definition slash : Z := chr "/".
Fixpoint skip_slashes (k : nat) (m : mem) (path : Z) : option Z :=
  match k with
  | O => None
  | S k' => if ld8 m path =? slash then skip_slashes k' m (path + 1) else Some path
  end.
Fixpoint skip_element (k : nat) (m : mem) (path : Z) : option Z :=
  match k with
  | O => None
  | S k' =>
      if negb (ld8 m path =? slash) && negb (ld8 m path =? 0) then skip_element k' m (path + 1) else Some path
  end.
Definition skipelem (path name : Z) : K (option Z) :=
  m ← gets k_mem;
  match skip_slashes path_fuel m path with
  | None => no_fuel
  | Some s =>
      if ld8 m s =? 0 then mret None
      else
        match skip_element path_fuel m s with
        | None => no_fuel
        | Some e =>
            let len := i32 (e - s) in
            (if DIRSIZ <=? len then kmemmove name s DIRSIZ
             else kmemmove name s len;; mset (fun m => st8 m (name + len) 0));;
            m ← gets k_mem;
            match skip_slashes path_fuel m e with
            | None => no_fuel
            | Some path => mret (Some path)
            end
        end
  end.

(** namex *)
Fixpoint namex_loop (k fuel : nat) (ip : nat) (path : Z) (nameiparent : bool) (name : Z) : K (option nat) :=
  match k with
  | O => no_fuel
  | S k' =>
      r ← skipelem path name;
      match r with
      | None =>
          if nameiparent then iput ip;; mret None else mret (Some ip)
      | Some path =>
          ilock (Some ip);;
          t ← gets (fun s => i_type (ino s ip));
          if negb (t =? T_DIR) then iunlockput ip;; mret None
          else
            c ← mget (fun m => ld8 m path);
            if nameiparent && (c =? 0) then iunlock (Some ip);; mret (Some ip)
            else
              r ← dirlookup fuel ip name;
              match r with
              | None => iunlockput ip;; mret None
              | Some (next, _) => iunlockput ip;; namex_loop k' fuel next path nameiparent name
              end
      end
  end.
Definition namex (fuel : nat) (path : Z) (nameiparent : bool) (name : Z) : K (option nat) :=
  c ← mget (fun m => ld8 m path);
  ip ← (if c =? slash then iget ROOTDEV ROOTINO
        else
          p ← myproc;
          cwd ← gets (fun s => p_cwd (pr s p));
          match cwd with Some i => idup i | None => fault "idup" end);
  namex_loop path_fuel fuel ip path nameiparent name.

(** namei, nameiparent *)
Definition name_namei : Z := kstk 2.
Definition namei (fuel : nat) (path : Z) : K (option nat) := namex fuel path false name_namei.
Definition nameiparent (fuel : nat) (path name : Z) : K (option nat) := namex fuel path true name.

End Fs.
