(* ===== verification/FsSpec.v ===== *)
(** * Blocks under a transaction

    What the routines of bio.c and log.c leave alone ([frame]), log_write, and
    the pattern every routine of fs.c uses to change a block: bread, change the
    buffer, log_write, brelse. *)

From S2P Require Import Prelude Memory FsState State Sched SchedSpec Printf Sleeplock Bio BioSpec Log LogSpec Kalloc VM Disk Memsys VMFault Fs.
Import Mem KString.

Create HintDb frames discriminated.

Lemma seq_ret {A} (m m' : K unit) (k : K A) s s' : (m;; m') s = Ret tt s' -> (m;; m';; k) s = k s'.
Proof. intros E. rewrite <- bind_assoc. by rewrite (bind_ret _ _ _ _ _ E). Qed.

Section Frames.
Context `{KernelImage}.

(** ** Frames

    Outside the buffers memory is as before, and so are the inode table, the
    superblock and the current process. *)
Definition off_buffers (a : Z) : Prop := forall i, (i < 30)%nat -> a < kbuf i \/ kbuf i + BSIZE <= a.
Record frame (s s' : kstate) : Prop := {
  fr_mem : forall a, off_buffers a -> ld8 (k_mem s') a = ld8 (k_mem s) a;
  fr_inode : fs_inode (k_fs s') = fs_inode (k_fs s);
  fr_sb : fs_sb (k_fs s') = fs_sb (k_fs s);
  fr_cur : k_cur s' = k_cur s
}.
#[global] Instance frame_preorder : PreOrder frame.
Proof.
  split; [by split|]. intros s1 s2 s3 [H1 H2 H3 H4] [G1 G2 G3 G4].
  split; [intros a Ha; by rewrite G1, H1|congruence..].
Qed.

(** The buffers in the chain exist, and blocks have their size. *)
Definition sane (s : kstate) : Prop := Forall (fun i => (i < 30)%nat) (fs_order (k_fs s)) /\ disk_ok (disk s).
Definition frames {A} (m : K A) : Prop := forall s a s', sane s -> m s = Ret a s' -> frame s s' /\ sane s'.

Lemma cache_inv_sane s p L held : cache_inv s p L held -> sane s.
Proof.
  intros Hci. split; [|apply Hci]. rewrite (ci_order _ _ _ _ Hci). apply Forall_forall. intros i Hi%list_elem_of_In%in_seq. lia.
Qed.
Lemma frames_ret {A} (a : A) : frames (mret a).
Proof. intros s b s' Hs [= <- <-]. done. Qed.
Lemma frames_gets {A} (f : kstate -> A) : frames (gets f).
Proof. intros s b s' Hs [= <- <-]. done. Qed.
Lemma frames_panic {A} msg : frames (A := A) (panic msg).
Proof. intros s b s' Hs [=]. Qed.
Lemma frames_fault {A} msg : frames (A := A) (fault msg).
Proof. intros s b s' Hs [=]. Qed.
Lemma frames_switch {A} : frames (A := A) switch_out.
Proof. intros s b s' Hs [=]. Qed.
Lemma frames_bind {A B} (m : K A) (f : A -> K B) : frames m -> (forall a, frames (f a)) -> frames (m ≫= f).
Proof.
  intros Hm Hf s b s' Hs (a & s1 & Em & E)%bind_inv.
  destruct (Hm _ _ _ Hs Em) as [F1 Hs1], (Hf _ _ _ _ Hs1 E) as [F2 Hs2]. split; [by transitivity s1|done].
Qed.
Lemma frames_modify (f : kstate -> kstate) :
  (forall s, k_mem (f s) = k_mem s /\ fs_inode (k_fs (f s)) = fs_inode (k_fs s) /\ fs_sb (k_fs (f s)) = fs_sb (k_fs s) /\
     k_cur (f s) = k_cur s /\ disk (f s) = disk s /\ fs_order (k_fs (f s)) = fs_order (k_fs s)) -> frames (modify f).
Proof.
  intros Hf s a s' Hs [= <- <-]. destruct (Hf s) as (H1 & H2 & H3 & H4 & H5 & H6). unfold sane. rewrite H5, H6.
  split; [|done]. split; [intros x _; by rewrite H1|done..].
Qed.
Lemma frames_if {A} (b : bool) (m m' : K A) : frames m -> frames m' -> frames (if b then m else m').
Proof. by destruct b. Qed.
Lemma frames_for_procs n : forall i body, (forall j, frames (body j)) -> frames (for_procs n i body).
Proof. induction n as [|n IH]; intros i body Hb; [apply frames_ret|]. apply frames_bind; [done|]. intros _. by apply IH. Qed.
End Frames.

#[export] Hint Resolve frames_ret frames_gets frames_panic frames_fault frames_switch frames_bind frames_if frames_for_procs : frames.
#[export] Hint Extern 2 (frames (modify _)) => (apply frames_modify; intros; split_and!; reflexivity) : frames.
Ltac framed := repeat first [progress intros | case_match | solve [eauto 3 with frames nocore] | apply frames_bind | apply frames_if].

Section FrameOps.
Context `{KernelImage}.

Lemma frames_myproc : frames myproc.
Proof. unfold myproc. framed. Qed.
Hint Resolve frames_myproc : frames.
Lemma frames_wakeup ch : frames (wakeup ch).
Proof. unfold wakeup, each_proc, set_pr. apply frames_for_procs. framed. Qed.
Lemma frames_acquiresleep i : frames (acquiresleep (buf_lock i)).
Proof. unfold acquiresleep, sleep, sched, set_pr. framed. Qed.
Lemma frames_holdingsleep lk : frames (holdingsleep lk).
Proof. unfold holdingsleep. framed. Qed.
Lemma frames_releasesleep i : frames (releasesleep (buf_lock i)).
Proof. unfold releasesleep. apply frames_bind; [framed|]. intros _. apply frames_wakeup. Qed.
Hint Resolve frames_wakeup frames_acquiresleep frames_holdingsleep frames_releasesleep : frames.

Lemma frames_bget dev b : frames (bget dev b).
Proof. unfold bget, set_buf, modify_fs. framed. Qed.
Lemma bget_chain dev b s i s' : sane s -> bget dev b s = Ret i s' -> (i < 30)%nat.
Proof.
  intros [Ho _]. rewrite Forall_forall in Ho. unfold bget. rewrite bind_gets.
  assert (Hk : forall (x : nat) (m : K unit), (m;; mret x) s = Ret i s' -> i = x).
  { intros x m ([] & s1 & _ & E)%bind_inv. by inversion E. }
  destruct (find _ _) as [x|] eqn:E1.
  - intros ->%(fun e => Hk x (set_buf x _;; acquiresleep (buf_lock x)) (eq_trans (bind_assoc _ _ _ _) e)).
    apply find_some in E1 as [Hin _]. by apply Ho, list_elem_of_In.
  - rewrite bind_gets. destruct (find _ (rev _)) as [x|] eqn:E2; [|done].
    intros ->%(fun e => Hk x (set_buf x _;; acquiresleep (buf_lock x)) (eq_trans (bind_assoc _ _ _ _) e)).
    apply find_some in E2 as [Hin%in_rev _]. by apply Ho, list_elem_of_In.
Qed.
Lemma frames_bread dev b : frames (bread dev b).
Proof.
  intros s a s' Hs (i & s1 & Eb & E)%bind_inv. pose proof (bget_chain _ _ _ _ _ Hs Eb) as Hi.
  destruct (frames_bget dev b s i s1 Hs Eb) as [F1 Hs1]. rewrite bind_gets in E.
  destruct (b_valid (bf s1 i)); cbn [negb] in E; [by inversion E; subst|].
  injection E as <- <-. split; [transitivity s1; [done|]|done]. split; [|done..]. intros x Hx.
  change (ld8 (store_bytes (k_mem s1) (kbuf i) (disk_block (disk s1) (b_blockno (bf s1 i)))) x = ld8 (k_mem s1) x).
  rewrite ld8_store_bytes, decide_False; [done|].
  destruct (disk_block_ok (disk s1) (b_blockno (bf s1 i)) (proj2 Hs1)) as [-> _]. specialize (Hx i Hi). unfold BSIZE in *. lia.
Qed.
Lemma frames_brelse i : (i < 30)%nat -> frames (brelse i).
Proof.
  intros Hi. unfold brelse, set_buf, modify_fs.
  apply frames_bind; [apply frames_holdingsleep|]. intros h. apply frames_if; [apply frames_panic|].
  apply frames_bind; [apply frames_releasesleep|]. intros _. apply frames_bind; [framed|]. intros _.
  apply frames_bind; [apply frames_gets|]. intros r. apply frames_if; [|apply frames_ret].
  intros s a s' [Ho Hd] [= <- <-]. split; [done|]. split; [|done]. cbn. apply Forall_cons. split; [done|].
  rewrite Forall_forall in Ho |- *. intros x [Hx _]%list_elem_of_In%filter_In. by apply Ho, list_elem_of_In.
Qed.
Lemma frames_log_block i : frames (log_block i).
Proof. unfold log_block. framed. Qed.
Hint Resolve frames_log_block : frames.
Lemma frames_log_slot n : forall i b, frames (log_slot n i b).
Proof. induction n as [|n IH]; intros i b; cbn [log_slot]; framed. Qed.
Hint Resolve frames_log_slot : frames.
Lemma frames_log_write i : frames (log_write i).
Proof. unfold log_write, set_log_block, set_log, bpin, set_buf, modify_fs. framed. Qed.
End FrameOps.

Section LogWrite.
Context `{KernelImage}.

(** ** log_write *)
Definition log_add (bs : list Z) (b : Z) : list Z := if decide (b ∈ bs) then bs else bs ++ [b].
Lemma length_log_add bs b : (length bs <= length (log_add bs b) <= S (length bs))%nat.
Proof. unfold log_add. case_decide; [lia|]. rewrite length_app. cbn. lia. Qed.
Lemma elem_of_log_add bs b x : x ∈ log_add bs b <-> x ∈ bs \/ x = b.
Proof. unfold log_add. case_decide; [naive_solver|]. rewrite elem_of_app, list_elem_of_singleton. done. Qed.
Lemma NoDup_log_add bs b : NoDup bs -> NoDup (log_add bs b).
Proof.
  intros Hnd. unfold log_add. case_decide; [done|]. apply NoDup_app. split_and!; [done| |apply NoDup_singleton].
  intros x Hx ->%list_elem_of_singleton. done.
Qed.

Lemma log_slot_spec s start b bs2 : forall bs bs1, bs = bs1 ++ bs2 -> log_ok (lg s) start bs ->
  Forall (fun x => 0 <= x < 2 ^ 31) bs -> b ∉ bs1 ->
  exists k, log_slot (length bs2) (Z.of_nat (length bs1)) b s = Ret (Z.of_nat k) s /\
    (bs !! k = Some b \/ k = length bs /\ b ∉ bs).
Proof.
  induction bs2 as [|x bs2 IH]; intros bs bs1 -> Hl Hr Hb; cbn [length log_slot].
  - exists (length bs1). rewrite app_nil_r. split; [done|by right].
  - assert (Hx : (bs1 ++ x :: bs2) !! length bs1 = Some x) by (by apply list_lookup_middle).
    rewrite (bind_ret _ _ _ _ _ (log_block_eq s start _ _ x Hl Hx)).
    assert (0 <= x < 2 ^ 31) by (rewrite Forall_forall in Hr; apply Hr; apply list_elem_of_lookup_2 in Hx; done).
    rewrite u32_small by lia. destruct (Z.eqb_spec x b) as [->|Hne]; [exists (length bs1); split; [done|by left]|].
    replace (Z.of_nat (length bs1) + 1) with (Z.of_nat (length (bs1 ++ [x]))) by (rewrite length_app; cbn; lia).
    apply IH; [by rewrite <- app_assoc|done|done|]. rewrite elem_of_app, list_elem_of_singleton. naive_solver.
Qed.

Lemma bpin_spec s p L held i :
  cache_inv s p L held -> i ∈ held -> b_blockno (bf s i) ∉ L ->
  let s' := upd_buf s i (fun b => b <| b_refcnt := u32 (b_refcnt b + 1) |>) in
  bpin i s = Ret tt s' /\ cache_inv s' p (log_add L (b_blockno (bf s i))) held /\ (forall b, lc s' b = lc s b) /\
  (forall j, (j < 30)%nat -> b_blockno (bf s' j) = b_blockno (bf s j)).
Proof.
  intros Hci Hih HL s'. destruct (proj2 (ci_held _ _ _ _ Hci) i Hih) as [Hi Hd].
  destruct (cache_inv_meta s p L held i (fun b => b <| b_refcnt := u32 (b_refcnt b + 1) |>) (log_add L (b_blockno (bf s i))) held) as [Hinv Hlc]; try done.
  - apply Hci.
  - intros b Hb. rewrite elem_of_log_add. naive_solver.
  - cbn. by rewrite (ci_lock _ _ _ _ Hci i Hi).
  - cbn. rewrite (ci_ref _ _ _ _ Hci i Hi), decide_True by done. unfold pinned. rewrite Hd, Z.eqb_refl. cbn [andb].
    rewrite bool_decide_false, bool_decide_true by (done || rewrite elem_of_log_add; by right). done.
  - split_and!; [apply set_buf_eq|done|done|]. intros j Hj. unfold s'. rewrite bf_upd by (by rewrite (ci_len _ _ _ _ Hci)). by case_decide.
Qed.

(** A transaction: the log holds [bs], which are pinned, and there is room for
    another block. *)
Record txn (s : kstate) (p : nat) (start : Z) (bs : list Z) (held : list nat) : Prop := {
  tx_inv : cache_inv s p bs held;
  tx_log : log_ok (lg s) start bs;
  tx_out : 1 <= lg_outstanding (lg s);
  tx_range : Forall (fun x => 0 <= x < 2 ^ 31) bs;
  tx_nodup : NoDup bs
}.
Record logged (s s' : kstate) (p : nat) (start : Z) (bs : list Z) (held : list nat) : Prop := {
  lw_txn : txn s' p start bs held;
  lw_lc : forall b, lc s' b = lc s b;
  lw_disk : disk s' = disk s;
  lw_data : forall j, bc s' j = bc s j;
  lw_block : forall j, (j < 30)%nat -> b_blockno (bf s' j) = b_blockno (bf s j);
  lw_frame : frame s s'
}.

Lemma txn_add s p start bs held b : txn s p start bs held -> 0 <= b < 2 ^ 31 ->
  Forall (fun x => 0 <= x < 2 ^ 31) (log_add bs b) /\ NoDup (log_add bs b).
Proof.
  intros Ht Hb. split; [|apply NoDup_log_add, Ht]. apply Forall_forall. intros x [Hx| ->]%elem_of_log_add; [|done].
  pose proof (tx_range _ _ _ _ _ Ht) as Hr. rewrite Forall_forall in Hr. by apply Hr.
Qed.
Lemma log_write_spec s p start bs held i :
  txn s p start bs held -> i ∈ held -> (length bs < 30)%nat -> 0 <= b_blockno (bf s i) < 2 ^ 31 ->
  exists s', log_write i s = Ret tt s' /\ logged s s' p start (log_add bs (b_blockno (bf s i))) held.
Proof.
  intros Ht Hih Hlen Hbr. set (b := b_blockno (bf s i)) in *. pose proof (txn_add _ _ _ _ _ b Ht Hbr) as [Hr' Hnd'].
  destruct Ht as [Hci Hl Hout Hr Hnd].
  assert (Hf : forall s' a, log_write i s = Ret a s' -> frame s s')
    by (intros s' a E; by apply (frames_log_write i s a s' (cache_inv_sane _ _ _ _ Hci) E)).
  destruct (log_slot_spec s start b bs bs [] eq_refl Hl Hr (not_elem_of_nil _)) as (k & Ek & Hk).
  assert (Hk29 : (k < 30)%nat) by (destruct Hk as [Hk%lookup_lt_Some|[-> _]]; lia).
  set (l1 := (lg s) <| lg_block := <[k := b]> (lg_block (lg s)) |>).
  assert (E1 : log_write i s = (if Z.of_nat k =? lg_n (lg s) then bpin i;; set_log (fun l => l <| lg_n := lg_n l + 1 |>) else mret tt) (with_log s l1)).
  { unfold log_write. rewrite bind_gets, (lo_n _ _ _ Hl). destruct (Z.leb_spec LOGBLOCKS (Z.of_nat (length bs))) as [?|_]; [unfold LOGBLOCKS, MAXOPBLOCKS in *; lia|].
    destruct (Z.ltb_spec (lg_outstanding (lg s)) 1); [lia|]. rewrite bind_gets, Nat2Z.id, (bind_ret _ _ _ _ _ Ek).
    unfold set_log_block. destruct (Z.leb_spec 0 (Z.of_nat k)); [|lia]. destruct (Z.ltb_spec (Z.of_nat k) LOGBLOCKS); [|unfold LOGBLOCKS, MAXOPBLOCKS in *; lia].
    cbn [andb]. rewrite i32_small by lia. unfold set_log, modify_fs. rewrite bind_modify, Nat2Z.id. done. }
  destruct Hk as [Hk|[-> Hnin]].
  - assert (Hl1 : with_log s l1 = s).
    { unfold with_log, l1. rewrite list_insert_id; [apply lg_block_same|]. rewrite <- (lo_block _ _ _ Hl) in Hk. by apply lookup_take_Some in Hk as [? _]. }
    exists s. rewrite E1, Hl1, (lo_n _ _ _ Hl). pose proof (lookup_lt_Some _ _ _ Hk). destruct (Z.eqb_spec (Z.of_nat k) (Z.of_nat (length bs))); [lia|].
    split; [done|]. unfold log_add. rewrite decide_True by (by eapply list_elem_of_lookup_2). by split.
  - rewrite (lo_n _ _ _ Hl), Z.eqb_refl in E1. destruct (bpin_spec (with_log s l1) p bs held i) as (E2 & Hci2 & Hlc2 & Hb2); [by apply cache_inv_log|done|done|].
    change (b_blockno (bf (with_log s l1) i)) with b in Hci2. rewrite (bind_ret _ _ _ _ _ E2) in E1. set (s2 := upd_buf _ _ _) in *.
    eexists. split; [exact E1|]. pose proof (Hf _ _ E1) as Hf1. unfold log_add in *. rewrite decide_False in * by done. split; try done.
    split; [by apply cache_inv_log| |done|done|done].
    change (log_ok (l1 <| lg_n := lg_n l1 + 1 |>) start (bs ++ [b])). destruct Hl as [L1 L2 L3 L4 L5].
    split; cbn; [done|done|rewrite L3, length_app; cbn; lia|by rewrite length_insert|].
    rewrite length_app, Nat.add_1_r. erewrite take_S_r by (apply list_lookup_insert_eq; lia). by rewrite take_insert_ge, L5.
Qed.
End LogWrite.

Section Blocks.
Context `{KernelImage}.

(** ** One block at a time

    [upto s s' p start bs held keep ws]: from [s] the file system sees the
    blocks [ws] changed, the log holds [bs], the buffers [held] are locked, and
    those of [keep] are as before. *)
Record upto (s s' : kstate) (p : nat) (start : Z) (bs : list Z) (held keep : list nat) (ws : list (Z * list Z)) : Prop := {
  up_txn : txn s' p start bs held;
  up_lc : forall x, lc s' x = overlay ws (lc s) x;
  up_disk : disk s' = disk s;
  up_keep : forall j, j ∈ keep -> bc s' j = bc s j /\ b_blockno (bf s' j) = b_blockno (bf s j);
  up_frame : frame s s'
}.
Lemma upto_refl s p start bs held keep : txn s p start bs held -> upto s s p start bs held keep [].
Proof. by split. Qed.
Lemma upto_trans s1 s2 s3 p start bs bs' held held' keep ws ws' :
  upto s1 s2 p start bs held keep ws -> upto s2 s3 p start bs' held' keep ws' ->
  upto s1 s3 p start bs' held' keep (ws' ++ ws).
Proof.
  intros [H1 H2 H3 H4 H5] [G1 G2 G3 G4 G5]. split; [done| |congruence| |by transitivity s2].
  - intros x. rewrite G2, overlay_app. by apply overlay_ext.
  - intros j Hj. destruct (H4 j Hj), (G4 j Hj). split; congruence.
Qed.
Lemma upto_weaken s s' p start bs held keep keep' ws :
  (forall j, j ∈ keep' -> j ∈ keep) -> upto s s' p start bs held keep ws -> upto s s' p start bs held keep' ws.
Proof. intros Hk [H1 H2 H3 H4 H5]. split; auto. Qed.

Lemma lc_clean_held s p L held b :
  cache_inv s p L held -> b ∉ L -> (forall i, i ∈ held -> b_blockno (bf s i) <> b) -> lc s b = disk_block (disk s) b.
Proof.
  intros Hci HL Hh. destruct (cached_dec s b) as [(i & Hi & Hc)|Hn]; [|by apply lc_uncached].
  rewrite (lc_cached s p L held b i Hci Hi Hc). apply cached_spec in Hc as (_ & <- & Hv).
  apply (ci_clean _ _ _ _ Hci); [done|done| |done]. intros Hin. by apply (Hh i).
Qed.
Lemma bread_txn s p start bs held b :
  txn s p start bs held -> (length held + length bs < 30)%nat -> (forall i, i ∈ held -> b_blockno (bf s i) <> b) ->
  exists i s', bread ROOTDEV b s = Ret i s' /\ (i < 30)%nat /\ i ∉ held /\ upto s s' p start bs (i :: held) held [] /\
    b_blockno (bf s' i) = b /\ bc s' i = lc s b /\ (b ∉ bs -> bc s' i = disk_block (disk s') b).
Proof.
  intros [Hci Hl Hout Hr Hnd] Hlen Hh.
  destruct (bread_spec s p bs held b Hci (or_introl Hlen) Hh) as (i & s' & E & Hi & [H1 H2 H3 H4 H5 H6 H7]).
  exists i, s'. destruct (proj2 (ci_held _ _ _ _ H1) i) as [Hi30 _]; [left|]. split_and!; try done.
  - split; [by split; unfold lg in *; rewrite ?H7|done|done| |].
    + intros j Hj. destruct (H4 j Hj) as [-> ->]. done.
    + by apply (frames_bread ROOTDEV b s i s' (cache_inv_sane _ _ _ _ Hci)).
  - intros Hb. rewrite H3, H6. by apply (lc_clean_held s p bs held).
Qed.
Lemma brelse_txn s p start bs held i :
  txn s p start bs (i :: held) -> (b_blockno (bf s i) ∉ bs -> bc s i = disk_block (disk s) (b_blockno (bf s i))) ->
  exists s', brelse i s = Ret tt s' /\ upto s s' p start bs held held [].
Proof.
  intros [Hci Hl Hout Hr Hnd] Hclean. destruct (ci_held _ _ _ _ Hci) as [_ Hh]. destruct (Hh i) as [Hi30 _]; [left|].
  destruct (brelse_spec s p bs (i :: held) held i Hci ltac:(done) Hclean) as (s' & E & [H1 H2 H3 H4 H5 H6]).
  exists s'. split; [done|]. split; [by split; unfold lg in *; rewrite ?H4|done|done| |].
  - intros j Hj. split; [done|]. apply H6. apply Hh. by right.
  - by apply (frames_brelse i Hi30 s tt s' (cache_inv_sane _ _ _ _ Hci)).
Qed.
(** Reading a block. *)
Lemma read_txn {A} (f : nat -> K A) s p start bs held b :
  txn s p start bs held -> (length held + length bs < 30)%nat -> (forall i, i ∈ held -> b_blockno (bf s i) <> b) ->
  exists i s1 s2, (i < 30)%nat /\ bc s1 i = lc s b /\ upto s s1 p start bs (i :: held) held [] /\
    (i ← bread ROOTDEV b; f i) s = f i s1 /\ brelse i s1 = Ret tt s2 /\ upto s s2 p start bs held held [].
Proof.
  intros Ht Hlen Hh. destruct (bread_txn s p start bs held b Ht Hlen Hh) as (i & s1 & E1 & Hi & Hih & Hu1 & Hb & Hd & Hc).
  destruct (brelse_txn s1 p start bs held i (up_txn _ _ _ _ _ _ _ _ Hu1)) as (s2 & E2 & Hu2); [by rewrite Hb|].
  exists i, s1, s2. split_and!; try done; [by apply bind_ret|]. apply (upto_trans _ _ _ _ _ _ _ _ _ _ _ _ Hu1 Hu2).
Qed.
(** Changing the block in a locked buffer: memory, log_write and brelse. *)
Lemma change_txn s p start bs held i m :
  txn s p start bs (i :: held) -> (length bs < 30)%nat -> 0 <= b_blockno (bf s i) < 2 ^ 31 ->
  (forall a, a < kbuf i \/ kbuf i + BSIZE <= a -> ld8 m a = ld8 (k_mem s) a) ->
  exists s', (log_write i;; brelse i) (s <| k_mem := m |>) = Ret tt s' /\
    upto s s' p start (log_add bs (b_blockno (bf s i))) held held [(b_blockno (bf s i), bytes m (kbuf i) BSIZE)].
Proof.
  intros [Hci Hl Hout Hr Hnd] Hlen Hb Hm. destruct (ci_held _ _ _ _ Hci) as [Hnd2 Hh]. destruct (Hh i) as [Hi30 _]; [left|].
  apply NoDup_cons in Hnd2 as [Hih _].
  assert (Hoth : forall j, (j < 30)%nat -> j <> i -> bytes m (kbuf j) BSIZE = bc s j).
  { intros j Hj Hji. apply bytes_eq. intros k Hk. apply Hm. destruct (kbuf_sep i j Hi30 Hj ltac:(done)); unfold BSIZE in *; lia. }
  destruct (cache_inv_data s p bs (i :: held) i m Hci ltac:(left) Hoth) as [Hci1 Hlc1]. set (s1 := s <| k_mem := m |>) in *.
  destruct (log_write_spec s1 p start bs (i :: held) i) as (s2 & E2 & [T2 Hlc2 Hd2 Hbc2 Hbn2 Hf2]); [by split|left|done|done|].
  change (b_blockno (bf s1 i)) with (b_blockno (bf s i)) in *. set (b := b_blockno (bf s i)) in *.
  destruct (brelse_txn s2 p start (log_add bs b) held i T2) as (s3 & E3 & [T3 Hlc3 Hd3 Hk3 Hf3]).
  { rewrite Hbn2 by done. intros []. apply elem_of_log_add. by right. }
  exists s3. split; [by rewrite (bind_ret _ _ _ _ _ E2)|]. split; [done| |by rewrite Hd3, Hd2| |].
  - intros x. rewrite Hlc3. cbn [overlay]. rewrite Hlc2, Hlc1. destruct (Z.eqb_spec b x) as [->|]; [by rewrite decide_True|].
    by rewrite decide_False.
  - intros j Hj. destruct (Hk3 j Hj) as [-> ->]. destruct (Hh j) as [Hj30 _]; [by right|]. rewrite Hbc2, Hbn2 by done.
    split; [|done]. apply Hoth; [done|]. by intros ->.
  - transitivity s1; [|by transitivity s2]. split; [|done..]. intros a Ha. apply Hm. by apply Ha.
Qed.
End Blocks.

(** ** Example: a transaction over the disk [h], with nothing logged yet *)
Definition ex_fs (h : list (Z * list Z)) (x : superblock) (ip : inode) : kstate :=
  (ex_cache 0 h) <| k_fs := (k_fs (ex_cache 0 h)) <| fs_sb := x |> <| fs_inode := ip :: replicate 49 inode0 |>
    <| fs_log := (lg (ex_cache 0 h)) <| lg_outstanding := 1 |> |> |>.
Lemma ex_fs_txn h x ip : disk_ok h -> @txn example_image (ex_fs h x ip) 0 2 [] [].
Proof.
  intros Hh. split; [|destruct (ex_log_ok 0 h ltac:(lia)) as [H1 H2 H3 H4 H5]; by split|done|by apply Forall_nil|by apply NoDup_nil].
  destruct (ex_cache_inv 0 h ltac:(lia) Hh) as [H1 H2 H3 H4 H5 H6 H7 H8 H9 H10 H11 H12]. split; assumption.
Qed.
