(* ===== verification/Bitmap.v ===== *)
(** * Block allocation: balloc, bfree and the bitmap

    [used s b] is the bit of block [b] in the free bitmap, as the file system
    sees it. *)

From S2P Require Import Prelude Memory FsState State Sched SchedSpec Printf Sleeplock Bio BioSpec Log LogSpec Kalloc VM Disk Memsys VMFault Fs FsSpec.
Import Mem KString.

(** ** Bits of a block *)
Definition bit (d : list Z) (k : Z) : bool := Z.testbit (default 0 (d !! Z.to_nat (k / 8))) (k `mod` 8).
Definition put_byte (d : list Z) (k : Z) (f : Z -> Z -> Z) : list Z :=
  <[Z.to_nat (k / 8) := f (default 0 (d !! Z.to_nat (k / 8))) (Z.shiftl 1 (k `mod` 8))]> d.
Definition set_bit (d : list Z) (k : Z) : list Z := put_byte d k Z.lor.
Definition clear_bit (d : list Z) (k : Z) : list Z := put_byte d k (fun v m => Z.land v (Z.lnot m)).

Lemma land_bit v j : 0 <= j -> (Z.land v (Z.shiftl 1 j) =? 0) = negb (Z.testbit v j).
Proof.
  intros Hj. rewrite Z.shiftl_1_l. apply eq_true_iff_eq. rewrite Z.eqb_eq, negb_true_iff. split; intros Hz.
  - assert (Hb : Z.testbit (Z.land v (2 ^ j)) j = false) by (by rewrite Hz, Z.bits_0).
    by rewrite Z.land_spec, Z.pow2_bits_true, andb_true_r in Hb.
  - apply Z.bits_inj. intros k. rewrite Z.land_spec, Z.bits_0. destruct (decide (k = j)) as [->|Hk]; [by rewrite Hz|].
    rewrite Z.pow2_bits_false by done. apply andb_false_r.
Qed.
Lemma bit_put d k x f : length d = Z.to_nat BSIZE -> 0 <= k < BPB -> 0 <= x < BPB ->
  bit (put_byte d k f) x =
  if decide (x / 8 = k / 8) then Z.testbit (f (default 0 (d !! Z.to_nat (k / 8))) (Z.shiftl 1 (k `mod` 8))) (x `mod` 8) else bit d x.
Proof.
  intros Hd Hk Hx. unfold bit, put_byte. change BPB with 8192 in *. change (Z.to_nat BSIZE) with 1024%nat in *. case_decide as E.
  - rewrite E, list_lookup_insert_eq; [done|]. div_lia.
  - rewrite list_lookup_insert_ne; [done|]. intros E2. apply E. apply Z2Nat.inj in E2; div_lia.
Qed.
Lemma bit_set d k x : length d = Z.to_nat BSIZE -> 0 <= k < BPB -> 0 <= x < BPB ->
  bit (set_bit d k) x = if decide (x = k) then true else bit d x.
Proof.
  intros Hd Hk Hx. unfold set_bit. rewrite bit_put by done. change BPB with 8192 in *.
  destruct (decide (x = k)) as [->|Hne].
  - rewrite decide_True by done. rewrite Z.lor_spec, Z.shiftl_1_l, Z.pow2_bits_true by div_lia. apply orb_true_r.
  - case_decide as E; [|done]. rewrite Z.lor_spec, Z.shiftl_1_l, Z.pow2_bits_false by div_lia.
    unfold bit. by rewrite E, orb_false_r.
Qed.
Lemma bit_clear d k x : length d = Z.to_nat BSIZE -> 0 <= k < BPB -> 0 <= x < BPB ->
  bit (clear_bit d k) x = if decide (x = k) then false else bit d x.
Proof.
  intros Hd Hk Hx. unfold clear_bit. rewrite bit_put by done. change BPB with 8192 in *.
  destruct (decide (x = k)) as [->|Hne].
  - rewrite decide_True by done. rewrite Z.land_spec, Z.lnot_spec, Z.shiftl_1_l, Z.pow2_bits_true by div_lia. apply andb_false_r.
  - case_decide as E; [|done]. rewrite Z.land_spec, Z.lnot_spec, Z.shiftl_1_l, Z.pow2_bits_false by div_lia.
    unfold bit. by rewrite E, andb_true_r.
Qed.
Lemma bytes_st8 m a o v : 0 <= o < BSIZE -> bytes (st8 m (a + o) v) a BSIZE = <[Z.to_nat o := u8 v]> (bytes m a BSIZE).
Proof.
  intros Ho. apply list_eq. intros k. destruct (decide (k < Z.to_nat BSIZE)%nat) as [Hk|Hk].
  - rewrite <- (Nat2Z.id k), bytes_lookup by lia.
    destruct (decide (Z.of_nat k = o)) as [->|E].
    + rewrite ld8_st8_eq, list_lookup_insert_eq; [done|]. rewrite length_bytes. lia.
    + rewrite ld8_st8_ne, list_lookup_insert_ne by lia. by rewrite bytes_lookup by lia.
  - rewrite !lookup_ge_None_2; [done|rewrite ?length_insert, length_bytes; lia..].
Qed.
Lemma u8_lor v j : 0 <= v < 256 -> 0 <= j < 8 -> u8 (Z.lor v (Z.shiftl 1 j)) = Z.lor v (Z.shiftl 1 j).
Proof.
  intros Hv Hj. rewrite Z.shiftl_1_l. assert (0 <= 2 ^ j) by lia.
  assert (0 <= Z.lor v (2 ^ j)) by (apply Z.lor_nonneg; lia). apply u8_small. split; [done|].
  apply Z.bounded_iff_bits_nonneg; [lia|done|]. intros l Hl. rewrite Z.lor_spec, Z.pow2_bits_false, orb_false_r by lia.
  apply (proj1 (Z.bounded_iff_bits_nonneg 8 v ltac:(lia) ltac:(lia))); [lia|done].
Qed.
Lemma u8_land_not v m : 0 <= v < 256 -> u8 (Z.land v (Z.lnot m)) = Z.land v (Z.lnot m).
Proof.
  intros Hv. assert (0 <= Z.land v (Z.lnot m)) by (apply Z.land_nonneg; lia). apply u8_small. split; [done|].
  apply Z.bounded_iff_bits_nonneg; [lia|done|]. intros l Hl. rewrite Z.land_spec.
  rewrite (proj1 (Z.bounded_iff_bits_nonneg 8 v ltac:(lia) ltac:(lia))); [done|lia|done].
Qed.

Section Bitmap.
Context `{KernelImage}.

(** The byte of bit [k] in the buffer. *)
Lemma bc_byte s i k : 0 <= k < BPB -> default 0 (bc s i !! Z.to_nat (k / 8)) = ld8 (k_mem s) (kbuf i + k / 8).
Proof. intros Hk. change BPB with 8192 in Hk. unfold bc. rewrite bytes_lookup; [done|]. unfold BSIZE. div_lia. Qed.
Lemma bit_test s i k : 0 <= k < BPB ->
  (Z.land (ld8 (k_mem s) (kbuf i + k / 8)) (Z.shiftl 1 (k `mod` 8)) =? 0) = negb (bit (bc s i) k).
Proof. intros Hk. rewrite land_bit by div_lia. unfold bit. by rewrite bc_byte. Qed.
Lemma bytes_put s i k f : 0 <= k < BPB ->
  (forall v, 0 <= v < 256 -> u8 (f v (Z.shiftl 1 (k `mod` 8))) = f v (Z.shiftl 1 (k `mod` 8))) ->
  bytes (st8 (k_mem s) (kbuf i + k / 8) (f (ld8 (k_mem s) (kbuf i + k / 8)) (Z.shiftl 1 (k `mod` 8)))) (kbuf i) BSIZE = put_byte (bc s i) k f.
Proof.
  intros Hk Hf. rewrite bytes_st8 by (change BPB with 8192 in Hk; unfold BSIZE; div_lia).
  unfold put_byte. rewrite bc_byte, Hf by (done || apply ld8_range). done.
Qed.

Definition bit_set_state (s : kstate) (bp : nat) (bi : Z) : kstate :=
  s <| k_mem := st8 (k_mem s) (kbuf bp + bi / 8) (Z.lor (ld8 (k_mem s) (kbuf bp + bi / 8)) (Z.shiftl 1 (bi `mod` 8))) |>.
Lemma balloc_bits_spec s bp b n : forall bi, 0 <= bi -> bi + Z.of_nat n <= BPB ->
  (balloc_bits n bp b bi s = Ret None s /\
     forall k, bi <= k < bi + Z.of_nat n -> b + k < sb_size (sb s) -> bit (bc s bp) k = true) \/
  exists k, balloc_bits n bp b bi s = Ret (Some k) (bit_set_state s bp k) /\ bi <= k < bi + Z.of_nat n /\
    b + k < sb_size (sb s) /\ bit (bc s bp) k = false /\ forall j, bi <= j < k -> bit (bc s bp) j = true.
Proof.
  induction n as [|n IH]; intros bi Hbi Hn; cbn [balloc_bits]; [left; split; [done|lia]|].
  rewrite bind_gets. destruct (Z.ltb_spec (b + bi) (sb_size (sb s))) as [Hlt|Hge]; [|left; split; [done|intros; lia]].
  unfold mget. rewrite bind_gets. rewrite bit_test by lia. destruct (bit (bc s bp) bi) eqn:Eb; cbn [negb].
  - destruct (IH (bi + 1)) as [[E Hk]|(k & E & Hk & Hsz & Hf & Hall)]; [lia|lia| |].
    + left. split; [done|]. intros k Hk2 Hsz. destruct (decide (k = bi)) as [->|]; [done|]. apply Hk; lia.
    + right. exists k. split_and!; try done; try lia. intros j Hj. destruct (decide (j = bi)) as [->|]; [done|]. apply Hall. lia.
  - right. exists bi. split_and!; try done; lia.
Qed.

(** ** The bitmap *)
Definition used (s : kstate) (b : Z) : bool := bit (lc s (BBLOCK b (sb s))) (b `mod` BPB).
Record bitmap_ok (s : kstate) : Prop := {
  bm_size : 0 <= sb_size (sb s) < 2 ^ 31 - BPB;
  bm_start : 0 <= sb_bmapstart (sb s) /\ sb_bmapstart (sb s) + sb_size (sb s) / BPB < 2 ^ 31
}.
(** The locked buffers are neither of bitmap blocks nor of free blocks. *)
Definition apart (s : kstate) (held : list nat) : Prop := forall i x, i ∈ held -> 0 <= x < sb_size (sb s) ->
  b_blockno (bf s i) <> BBLOCK x (sb s) /\ (used s x = false -> b_blockno (bf s i) <> x).

Lemma BBLOCK_eq s b : bitmap_ok s -> 0 <= b < sb_size (sb s) ->
  BBLOCK b (sb s) = sb_bmapstart (sb s) + b / BPB /\ 0 <= BBLOCK b (sb s) < 2 ^ 31.
Proof.
  intros [H1 H2] Hb. unfold BBLOCK. change BPB with 8192 in *. rewrite u32_small by div_lia. split; [lia|div_lia].
Qed.
Lemma BBLOCK_next b k x : 0 <= k < BPB -> b `mod` BPB = 0 -> BBLOCK (b + k) x = BBLOCK b x.
Proof. intros Hk Hb. unfold BBLOCK. change BPB with 8192 in *. f_equal. f_equal. div_lia. Qed.
Lemma used_same s s' b : sb s' = sb s -> (forall x, lc s' x = lc s x) -> used s' b = used s b.
Proof. intros E1 E2. unfold used. by rewrite E1, E2. Qed.
Lemma length_lc s p L held b : cache_inv s p L held -> length (lc s b) = Z.to_nat BSIZE.
Proof.
  intros Hci. destruct (cached_dec s b) as [(i & Hi & Hc)|Hn].
  - rewrite (lc_cached s p L held b i Hci Hi Hc). apply length_bytes.
  - rewrite lc_uncached by done. apply (disk_block_ok _ b (ci_disk _ _ _ _ Hci)).
Qed.

Lemma bzero_spec s p start bs held b :
  txn s p start bs held -> (length held + length bs < 30)%nat -> (forall i, i ∈ held -> b_blockno (bf s i) <> b) -> 0 <= b < 2 ^ 31 ->
  exists s', bzero ROOTDEV b s = Ret tt s' /\ upto s s' p start (log_add bs b) held held [(b, zero_block)].
Proof.
  intros Ht Hlen Hh Hb. destruct (bread_txn s p start bs held b Ht Hlen Hh) as (i & s1 & E1 & Hi & Hih & Hu1 & Hbn & Hd & Hc).
  destruct (change_txn s1 p start bs held i (memset (k_mem s1) (kbuf i) 0 BSIZE) (up_txn _ _ _ _ _ _ _ _ Hu1)) as (s2 & E2 & Hu2);
    [lia|by rewrite Hbn|intros a Ha; rewrite ld8_memset by (unfold BSIZE; lia); rewrite decide_False; [done|unfold BSIZE in *; lia]|].
  exists s2. split.
  - unfold bzero. rewrite (u32_small b) by lia. change (u32 ROOTDEV) with ROOTDEV. rewrite (bind_ret _ _ _ _ _ E1).
    unfold kmemset. rewrite bind_modify. exact E2.
  - rewrite Hbn in Hu2. replace zero_block with (bytes (memset (k_mem s1) (kbuf i) 0 BSIZE) (kbuf i) BSIZE).
    { exact (upto_trans _ _ _ _ _ _ _ _ _ _ _ _ Hu1 Hu2). }
    apply list_eq. intros k. unfold zero_block. destruct (decide (k < Z.to_nat BSIZE)%nat) as [Hk|Hk].
    + rewrite lookup_replicate_2 by done. rewrite <- (Nat2Z.id k), bytes_lookup by lia.
      rewrite ld8_memset by (unfold BSIZE; lia). rewrite decide_True by (unfold BSIZE in *; lia). done.
    + rewrite !lookup_ge_None_2; [done|rewrite ?length_replicate, ?length_bytes; lia..].
Qed.

(** ** balloc *)
Definition allocated (s s' : kstate) (p : nat) (start : Z) (bs : list Z) (held : list nat) (x : Z) : Prop :=
  upto s s' p start (log_add (log_add bs (BBLOCK x (sb s))) x) held held
    [(x, zero_block); (BBLOCK x (sb s), set_bit (lc s (BBLOCK x (sb s))) (x `mod` BPB))].
Definition balloc_post (s s' : kstate) (p : nat) (start : Z) (bs : list Z) (held : list nat) (b r : Z) : Prop :=
  (b <= r < sb_size (sb s) /\ used s r = false /\ (forall y, b <= y < r -> used s y = true) /\ allocated s s' p start bs held r) \/
  (r = 0 /\ (forall y, b <= y < sb_size (sb s) -> used s y = true) /\ upto s s' p start bs held held []).

Lemma mod_block b k : 0 <= k < BPB -> b `mod` BPB = 0 -> (b + k) `mod` BPB = k.
Proof. intros Hk Hb. change BPB with 8192 in *. div_lia. Qed.
Lemma upto_sb s s' p start bs held keep ws : upto s s' p start bs held keep ws -> sb s' = sb s.
Proof. intros Hu. apply (fr_sb _ _ (up_frame _ _ _ _ _ _ _ _ Hu)). Qed.

(** The block was found: its bit is set, the bitmap block logged, the block zeroed. *)
Lemma balloc_found s p start bs held b k i s1 :
  txn s p start bs held -> (length held + length bs < 29)%nat -> bitmap_ok s -> apart s held ->
  0 <= k < BPB -> 0 <= b -> b `mod` BPB = 0 -> b + k < sb_size (sb s) -> used s (b + k) = false ->
  upto s s1 p start bs (i :: held) held [] -> bc s1 i = lc s (BBLOCK b (sb s)) -> b_blockno (bf s1 i) = BBLOCK b (sb s) ->
  exists s', (log_write i;; brelse i;; bzero ROOTDEV (b + k);; mret (b + k)) (bit_set_state s1 i k) = Ret (b + k) s' /\
    allocated s s' p start bs held (b + k).
Proof.
  intros Ht Hlen Hbm Hap Hk Hb Hbm0 Hsz Hfree Hu1 Hd Hbn. pose proof (BBLOCK_next b k (sb s) Hk Hbm0) as EB.
  destruct (BBLOCK_eq s (b + k) Hbm ltac:(lia)) as [_ HB]. rewrite EB in HB. set (B := BBLOCK b (sb s)) in *.
  pose proof (bm_size _ Hbm). destruct (change_txn s1 p start bs held i (k_mem (bit_set_state s1 i k))) as (s2 & E2 & Hu2).
  { apply Hu1. }
  { lia. }
  { by rewrite Hbn. }
  { intros a Ha. apply ld8_st8_ne. change BPB with 8192 in Hk. unfold BSIZE in Ha. div_lia. }
  assert (Hbytes : bytes (k_mem (bit_set_state s1 i k)) (kbuf i) BSIZE = set_bit (lc s B) k).
  { rewrite <- Hd. apply (bytes_put s1 i k Z.lor Hk). intros v Hv. apply u8_lor; [done|div_lia]. }
  rewrite Hbytes, Hbn in Hu2. pose proof (upto_trans _ _ _ _ _ _ _ _ _ _ _ _ Hu1 Hu2) as Hu12. pose proof (length_log_add bs B).
  destruct (bzero_spec s2 p start (log_add bs B) held (b + k)) as (s3 & E3 & Hu3); [apply Hu12|lia| |lia|].
  { intros j Hj. destruct (up_keep _ _ _ _ _ _ _ _ Hu12 j Hj) as [_ ->]. by apply (Hap j (b + k)); [|lia|]. }
  exists s3. split; [|unfold allocated; rewrite EB, mod_block by done; exact (upto_trans _ _ _ _ _ _ _ _ _ _ _ _ Hu12 Hu3)].
  change (s1 <| k_mem := k_mem (bit_set_state s1 i k) |>) with (bit_set_state s1 i k) in E2.
  rewrite (seq_ret _ _ _ _ _ E2), (bind_ret _ _ _ _ _ E3). done.
Qed.

Lemma txn_out s p start bs held o : txn s p start bs held -> upto s (with_out s o) p start bs held held [].
Proof.
  intros Ht. split; try done. destruct Ht as [[H1 H2 H3 H4 H5 H6 H7 H8 H9 H10 H11 H12] G2 G3 G4 G5].
  split; try assumption. split; assumption.
Qed.
(** A read that changes nothing keeps the bitmap and the locked buffers. *)
Lemma apart_same s s' p start bs held : upto s s' p start bs held held [] -> apart s held -> apart s' held.
Proof.
  intros Hu Hap i x Hi Hx. rewrite (upto_sb _ _ _ _ _ _ _ _ Hu) in *. destruct (up_keep _ _ _ _ _ _ _ _ Hu i Hi) as [_ ->].
  destruct (Hap i x Hi Hx) as [H1 H2]. split; [done|]. rewrite (used_same s s'); [done|apply (upto_sb _ _ _ _ _ _ _ _ Hu)|apply Hu].
Qed.
Lemma balloc_post_same s s1 s' p start bs held b b' r :
  upto s s1 p start bs held held [] -> (forall y, b <= y < b' -> y < sb_size (sb s) -> used s y = true) -> b <= b' ->
  balloc_post s1 s' p start bs held b' r -> balloc_post s s' p start bs held b r.
Proof.
  intros Hu Hall Hbb. pose proof (upto_sb _ _ _ _ _ _ _ _ Hu) as Esb.
  assert (Hus : forall y, used s1 y = used s y) by (intros y; apply used_same; [done|apply Hu]).
  unfold balloc_post, allocated. rewrite Esb, !(up_lc _ _ _ _ _ _ _ _ Hu). cbn [overlay].
  intros [(H1 & H2 & H3 & H4)|(-> & H3 & H4)].
  - left. split_and!; [lia|lia|by rewrite <- Hus| |exact (upto_trans _ _ _ _ _ _ _ _ _ _ _ _ Hu H4)].
    intros y Hy. destruct (decide (y < b')); [apply Hall; lia|]. rewrite <- Hus. apply H3. lia.
  - right. split_and!; [done| |exact (upto_trans _ _ _ _ _ _ _ _ _ _ _ _ Hu H4)].
    intros y Hy. destruct (decide (y < b')); [apply Hall; lia|]. rewrite <- Hus. apply H3. lia.
Qed.
Lemma balloc_loop_spec p start bs held n : forall s b,
  txn s p start bs held -> (length held + length bs < 29)%nat -> bitmap_ok s -> apart s held ->
  0 <= b -> b `mod` BPB = 0 -> sb_size (sb s) <= b + Z.of_nat n * BPB - BPB -> (0 < n)%nat ->
  exists r s', balloc_loop n ROOTDEV b s = Ret r s' /\ balloc_post s s' p start bs held b r.
Proof.
  induction n as [|n IH]; intros s b Ht Hlen Hbm Hap Hb Hb0 Hsz Hn; [lia|]. cbn [balloc_loop]. rewrite bind_gets.
  destruct (Z.ltb_spec b (sb_size (sb s))) as [Hlt|Hge].
  2:{ destruct (outputs_printf "balloc: out of blocks
" [] s) as [o Eo]. rewrite (bind_ret _ _ _ _ _ Eo). exists 0, (with_out s o). split; [done|]. right.
      split_and!; [done|intros; lia|by apply txn_out]. }
  rewrite bind_gets. destruct (BBLOCK_eq s b Hbm ltac:(lia)) as [EB HB].
  destruct (bread_txn s p start bs held (BBLOCK b (sb s)) Ht ltac:(lia)) as (i & s1 & E1 & Hi & Hih & Hu1 & Hbn & Hd & Hc).
  { intros j Hj. by apply (Hap j b Hj); lia. }
  rewrite (bind_ret _ _ _ _ _ E1). pose proof (upto_sb _ _ _ _ _ _ _ _ Hu1) as Esb1.
  assert (Hbit : forall k, 0 <= k < BPB -> bit (bc s1 i) k = used s (b + k)).
  { intros k Hk. unfold used. by rewrite Hd, BBLOCK_next, mod_block. }
  assert (HBPB : Z.of_nat (Z.to_nat BPB) = BPB) by done.
  destruct (balloc_bits_spec s1 i b (Z.to_nat BPB) 0) as [[E2 Hall]|(k & E2 & Hk & Hk2 & Hfree & Hall)]; [lia|rewrite HBPB; lia| |];
    rewrite (bind_ret _ _ _ _ _ E2), HBPB in *.
  - destruct (brelse_txn s1 p start bs held i (up_txn _ _ _ _ _ _ _ _ Hu1)) as (s2 & E3 & Hu2); [by rewrite Hbn|].
    rewrite (bind_ret _ _ _ _ _ E3). pose proof (upto_trans _ _ _ _ _ _ _ _ _ _ _ _ Hu1 Hu2) as Hu. cbn [app] in Hu.
    pose proof (upto_sb _ _ _ _ _ _ _ _ Hu) as Esb2. assert (b + Z.of_nat (S n) * BPB - BPB = b + BPB + Z.of_nat n * BPB - BPB) by lia.
    destruct (IH s2 (b + BPB)) as (r & s' & E & Hp).
    + apply Hu.
    + done.
    + destruct Hbm. split; by rewrite Esb2.
    + by apply (apart_same s s2 p start bs).
    + change BPB with 8192. lia.
    + change BPB with 8192 in *. div_lia.
    + rewrite Esb2. lia.
    + destruct n; [change (Z.of_nat 1) with 1 in Hsz; lia|lia].
    + exists r, s'. split; [done|]. apply (balloc_post_same s s2 s' p start bs held b (b + BPB) r Hu); [|change BPB with 8192; lia|done].
      intros y Hy Hys. replace y with (b + (y - b)) by lia. rewrite <- Hbit by lia. rewrite Esb1 in Hall. apply Hall; lia.
  - rewrite Esb1 in Hk2. rewrite Hbit in Hfree by lia.
    destruct (balloc_found s p start bs held b k i s1 Ht Hlen Hbm Hap ltac:(lia) Hb Hb0 Hk2 Hfree Hu1 Hd Hbn) as (s' & E3 & Hal).
    exists (b + k), s'. split; [exact E3|]. left. split_and!; [lia|lia|done|intros y Hy|done].
    replace y with (b + (y - b)) by lia. rewrite <- Hbit by lia. apply Hall. lia.
Qed.
Lemma balloc_spec s p start bs held :
  txn s p start bs held -> (length held + length bs < 29)%nat -> bitmap_ok s -> apart s held ->
  exists r s', balloc ROOTDEV s = Ret r s' /\ balloc_post s s' p start bs held 0 r.
Proof.
  intros Ht Hlen Hbm Hap. unfold balloc. rewrite bind_gets. pose proof (bm_size _ Hbm).
  apply balloc_loop_spec; try done; change BPB with 8192 in *; [|lia].
  rewrite Nat2Z.inj_add, Z2Nat.id by div_lia. div_lia.
Qed.

(** ** bfree *)
Lemma bfree_spec s p start bs held b :
  txn s p start bs held -> (length held + length bs < 30)%nat -> bitmap_ok s -> 0 <= b < sb_size (sb s) ->
  (forall i, i ∈ held -> b_blockno (bf s i) <> BBLOCK b (sb s)) ->
  let B := BBLOCK b (sb s) in
  if used s b
  then exists s', bfree ROOTDEV b s = Ret tt s' /\ upto s s' p start (log_add bs B) held held [(B, clear_bit (lc s B) (b `mod` BPB))]
  else exists s', bfree ROOTDEV b s = Panic "freeing free block" s'.
Proof.
  intros Ht Hlen Hbm Hb Hh B. destruct (BBLOCK_eq s b Hbm Hb) as [_ HB].
  destruct (bread_txn s p start bs held B Ht Hlen Hh) as (i & s1 & E1 & Hi & Hih & Hu1 & Hbn & Hd & Hc).
  set (k := b `mod` BPB). assert (Hk : 0 <= k < BPB) by (unfold k; change BPB with 8192; div_lia).
  unfold bfree. rewrite bind_gets. change (u32 ROOTDEV) with ROOTDEV. fold B. rewrite (bind_ret _ _ _ _ _ E1). fold k.
  unfold mget. rewrite bind_gets, bit_test by done. rewrite Hd. change (bit (lc s B) k) with (used s b).
  destruct (used s b); cbn [negb]; [|by eexists]. unfold mset. rewrite bind_modify. cbv beta.
  set (m := st8 _ _ _). destruct (change_txn s1 p start bs held i m (up_txn _ _ _ _ _ _ _ _ Hu1)) as (s2 & E2 & Hu2).
  { lia. }
  { by rewrite Hbn. }
  { intros a Ha. apply ld8_st8_ne. change BPB with 8192 in Hk. unfold BSIZE in Ha. div_lia. }
  exists s2. split; [exact E2|]. rewrite Hbn in Hu2.
  replace (clear_bit (lc s B) k) with (bytes m (kbuf i) BSIZE); [exact (upto_trans _ _ _ _ _ _ _ _ _ _ _ _ Hu1 Hu2)|].
  rewrite <- Hd. apply (bytes_put s1 i k (fun v m => Z.land v (Z.lnot m)) Hk). intros v Hv. by apply u8_land_not.
Qed.

(** ** What the bits say afterwards *)
Lemma used_overlay s s' p start bs held ws r f (v : bool) :
  bitmap_ok s -> 0 <= r < sb_size (sb s) -> txn s p start bs held -> sb s' = sb s ->
  (forall d k x, length d = Z.to_nat BSIZE -> 0 <= k < BPB -> 0 <= x < BPB -> bit (f d k) x = if decide (x = k) then v else bit d x) ->
  (forall x, lc s' x = overlay (ws ++ [(BBLOCK r (sb s), f (lc s (BBLOCK r (sb s))) (r `mod` BPB))]) (lc s) x) ->
  (forall x b d, 0 <= x < sb_size (sb s) -> (b, d) ∈ ws -> b <> BBLOCK x (sb s)) ->
  forall y, 0 <= y < sb_size (sb s) -> used s' y = if decide (y = r) then v else used s y.
Proof.
  intros Hbm Hr Ht Esb Hf Hlc Hws y Hy. destruct (BBLOCK_eq s r Hbm Hr) as [EBr _], (BBLOCK_eq s y Hbm Hy) as [EBy _].
  assert (HBPB : forall x, 0 <= x `mod` BPB < BPB) by (intros x; change BPB with 8192; div_lia).
  unfold used at 1. rewrite Esb, Hlc, overlay_app, overlay_out by (intros b d Hin; by apply (Hws y b d)). cbn [overlay].
  destruct (Z.eqb_spec (BBLOCK r (sb s)) (BBLOCK y (sb s))) as [E|E].
  - rewrite Hf; [|by eapply length_lc, Ht|done|done]. unfold used. rewrite <- E.
    destruct (decide (y = r)) as [->|Hne]; [by rewrite decide_True|]. rewrite decide_False; [done|].
    change BPB with 8192 in *. div_lia.
  - rewrite decide_False by (by intros ->). done.
Qed.
End Bitmap.

Section BitmapClaims.
Context `{KernelImage}.

(** The bitmap's own blocks are marked used. *)
Definition bitmap_reserved (s : kstate) : Prop :=
  forall x y, 0 <= x < sb_size (sb s) -> 0 <= y < sb_size (sb s) -> used s y = false -> BBLOCK x (sb s) <> y.

(** C20. balloc takes the first free block: it sets that block's bit and no
    other, zeroes the block, and changes nothing else that the file system can
    see; with every block in use it returns 0 and changes nothing.  The changes
    are logged and the disk is untouched until the transaction commits. *)
Theorem balloc_allocates s p start bs :
  txn s p start bs [] -> (length bs < 29)%nat -> bitmap_ok s -> bitmap_reserved s ->
  exists r s' bs', balloc ROOTDEV s = Ret r s' /\ txn s' p start bs' [] /\ disk s' = disk s /\
    ((0 <= r < sb_size (sb s) /\ used s r = false /\ (forall y, 0 <= y < r -> used s y = true) /\
      (forall y, 0 <= y < sb_size (sb s) -> used s' y = if decide (y = r) then true else used s y) /\
      lc s' r = zero_block /\ (forall y, y <> r -> y <> BBLOCK r (sb s) -> lc s' y = lc s y) /\
      r ∈ bs' /\ BBLOCK r (sb s) ∈ bs') \/
     (r = 0 /\ (forall y, 0 <= y < sb_size (sb s) -> used s y = true) /\ (forall y, lc s' y = lc s y) /\ bs' = bs)).
Proof.
  intros Ht Hlen Hbm Hres. destruct (balloc_spec s p start bs [] Ht Hlen Hbm) as (r & s' & E & Hp); [by intros i x ?%not_elem_of_nil|].
  destruct Hp as [(Hr & Hfree & Hall & Hal)|(-> & Hall & Hu)].
  - pose proof Hal as [T Hlc Hd _ Hf]. exists r, s', (log_add (log_add bs (BBLOCK r (sb s))) r). split_and!; try done. left.
    pose proof (Hres r r ltac:(lia) ltac:(lia) Hfree) as HBr. split_and!; try done; try lia.
    + apply (used_overlay s s' p start bs [] [(r, zero_block)] r set_bit true Hbm ltac:(lia) Ht (fr_sb _ _ Hf) bit_set Hlc).
      intros x b d Hx [= -> ->]%list_elem_of_singleton E2. by apply (Hres x r Hx ltac:(lia) Hfree).
    + rewrite Hlc. cbn [overlay]. by rewrite Z.eqb_refl.
    + intros y Hy HyB. rewrite Hlc. cbn [overlay]. by rewrite !(proj2 (Z.eqb_neq _ _)) by done.
    + apply elem_of_log_add. by right.
    + apply elem_of_log_add. left. apply elem_of_log_add. by right.
  - exists 0, s', bs. destruct Hu as [T Hlc Hd _ Hf]. split_and!; try done. by right.
Qed.

(** bfree clears the bit of a block in use and changes nothing else that
    the file system can see; freeing a free block panics. *)
Theorem bfree_frees s p start bs b :
  txn s p start bs [] -> (length bs < 30)%nat -> bitmap_ok s -> 0 <= b < sb_size (sb s) ->
  if used s b
  then exists s', bfree ROOTDEV b s = Ret tt s' /\ txn s' p start (log_add bs (BBLOCK b (sb s))) [] /\ disk s' = disk s /\
    (forall y, 0 <= y < sb_size (sb s) -> used s' y = if decide (y = b) then false else used s y) /\
    (forall y, y <> BBLOCK b (sb s) -> lc s' y = lc s y)
  else exists s', bfree ROOTDEV b s = Panic "freeing free block" s'.
Proof.
  intros Ht Hlen Hbm Hb. pose proof (bfree_spec s p start bs [] b Ht Hlen Hbm Hb ltac:(by intros i ?%not_elem_of_nil)) as Hs.
  cbv zeta in Hs. destruct (used s b); [|done]. destruct Hs as (s' & E & [T Hlc Hd _ Hf]). exists s'. split_and!; try done.
  - apply (used_overlay s s' p start bs [] [] b clear_bit false Hbm Hb Ht (fr_sb _ _ Hf) bit_clear Hlc).
    by intros x c d _ ?%not_elem_of_nil.
  - intros y Hy. rewrite Hlc. cbn [overlay]. by rewrite (proj2 (Z.eqb_neq _ _)) by done.
Qed.
End BitmapClaims.

(** A disk whose bitmap, block 45, has the blocks up to 45 in use. *)
Definition ex_bitmap : list (Z * list Z) := [(45, replicate 5 255 ++ [63] ++ replicate 1018 0)].
Definition ex_sb : superblock := mksb FSMAGIC 100 54 200 31 2 32 45.
Definition ex_bm : kstate := ex_fs ex_bitmap ex_sb inode0.
Lemma ex_bitmap_disk : disk_ok ex_bitmap.
Proof. apply Forall_singleton. split; [done|]. apply Forall_app; split; [by apply Forall_replicate|]. apply Forall_cons; split; [done|by apply Forall_replicate]. Qed.
Lemma ex_bitmap_ok : bitmap_ok ex_bm.
Proof. split; split; vm_compute; (discriminate || reflexivity). Qed.
Lemma balloc_allocates_witness : exists s', @balloc example_image ROOTDEV ex_bm = Ret 46 s' /\ @used example_image s' 46 = true.
Proof.
  destruct (@balloc_allocates example_image ex_bm 0 2 []) as (r & s' & bs' & E & _ & _ & Hr).
  - apply ex_fs_txn, ex_bitmap_disk.
  - cbn. lia.
  - exact ex_bitmap_ok.
  - intros x y Hx Hy Hu E. destruct (@BBLOCK_eq ex_bm x ex_bitmap_ok Hx) as [EB _]. rewrite EB in E.
    assert (Ey : y = 45) by (subst y; change (sb_size (sb ex_bm)) with 100 in Hx; change BPB with 8192; change (sb_bmapstart (sb ex_bm)) with 45; div_lia).
    rewrite Ey in Hu. by vm_compute in Hu.
  - assert (Hu : @used example_image ex_bm 46 = false) by (by vm_compute).
    change (sb_size (sb ex_bm)) with 100 in Hr. destruct Hr as [(Hr & Hf & Hall & Hus & _)|(_ & Hall & _)].
    2:{ pose proof (Hall 46 ltac:(lia)). congruence. }
    assert (Er : r = 46).
    { destruct (Z.lt_trichotomy r 46) as [Hlt|[->|Hgt]]; [|done|pose proof (Hall 46 ltac:(lia)); congruence].
      exfalso. assert (Hc : forallb (fun k => @used example_image ex_bm k) (seqZ 0 46) = true) by (by vm_compute).
      rewrite forallb_forall in Hc. specialize (Hc r ltac:(apply list_elem_of_In, elem_of_seqZ; lia)). congruence. }
    subst r. exists s'. split; [exact E|]. pose proof (Hus 46 ltac:(lia)) as H46. by rewrite decide_True in H46.
Defined.
Lemma bfree_frees_witness : exists s', @bfree example_image ROOTDEV 9 ex_bm = Ret tt s' /\ @used example_image s' 9 = false.
Proof.
  pose proof (@bfree_frees example_image ex_bm 0 2 [] 9 (ex_fs_txn _ _ _ ex_bitmap_disk) ltac:(cbn; lia) ex_bitmap_ok ltac:(vm_compute; split; congruence)) as Hf.
  replace (@used example_image ex_bm 9) with true in Hf by (by vm_compute).
  change (sb_size (sb ex_bm)) with 100 in Hf. destruct Hf as (s' & E & _ & _ & Hu & _). exists s'. split; [exact E|].
  pose proof (Hu 9 ltac:(lia)) as H9. by rewrite decide_True in H9.
Defined.
