(* ===== verification/Dinode.v ===== *)
(** * On-disk inodes: iupdate and ilock

    [din d k q] is the [k]th dinode of the inode block [d], read into the inode
    [q] as ilock does. *)

From S2P Require Import Prelude Memory FsState State Sched SchedSpec Printf Sleeplock Bio BioSpec Log LogSpec Kalloc VM Disk Memsys VMFault Fs FsSpec.
Import Mem KString.

Lemma ld_shift k : forall m m' a a', (forall o, 0 <= o < Z.of_nat k -> ld8 m (a + o) = ld8 m' (a' + o)) -> ld k m a = ld k m' a'.
Proof.
  induction k as [|k IH]; intros m m' a a' E; cbn [ld]; [done|]. f_equal.
  - specialize (E 0 ltac:(lia)). by rewrite !Z.add_0_r in E.
  - f_equal. apply IH. intros o Ho. rewrite <- !Z.add_assoc. apply E. lia.
Qed.
Lemma ld16_st16_eq m a v : ld16 (st16 m a v) a = u16 v.
Proof. unfold ld16, st16. by rewrite ld_st_eq. Qed.
Lemma i16_u16 x : - 2 ^ 15 <= x < 2 ^ 15 -> i16 (u16 x) = x.
Proof. intros Hx. unfold i16, u16. rewrite Zplus_mod_idemp_l. rewrite Z.mod_small; lia. Qed.

(** ** The fields of a dinode *)
Record dinode_wf (p : inode) : Prop := {
  dw_type : - 2 ^ 15 <= i_type p < 2 ^ 15;
  dw_major : - 2 ^ 15 <= i_major p < 2 ^ 15;
  dw_minor : - 2 ^ 15 <= i_minor p < 2 ^ 15;
  dw_nlink : - 2 ^ 15 <= i_nlink p < 2 ^ 15;
  dw_size : 0 <= i_size p < 2 ^ 32;
  dw_len : length (i_addrs p) = 13%nat;
  dw_addrs : Forall (fun x => 0 <= x < 2 ^ 32) (i_addrs p)
}.
(** [q] with the dinode of [p]. *)
Definition with_dinode (q p : inode) : inode :=
  q <| i_type := i_type p |> <| i_major := i_major p |> <| i_minor := i_minor p |> <| i_nlink := i_nlink p |>
    <| i_size := i_size p |> <| i_addrs := i_addrs p |>.

Lemma st_addrs_out l : forall m a b, b < a \/ a + 4 * Z.of_nat (length l) <= b -> ld8 (st_addrs m a l) b = ld8 m b.
Proof.
  induction l as [|x l IH]; intros m a b Hb; cbn [st_addrs length] in *; [done|]. rewrite IH by lia. unfold st32. apply ld8_st_out. lia.
Qed.
Lemma st_addrs_at l : forall m a k x, l !! k = Some x -> ld32 (st_addrs m a l) (a + 4 * Z.of_nat k) = u32 x.
Proof.
  induction l as [|y l IH]; intros m a k x Hk; [done|]. cbn [st_addrs]. destruct k as [|k]; cbn in Hk.
  - injection Hk as ->. rewrite (ld32_ext (st32 m a x)); [|intros b Hb; apply st_addrs_out; lia].
    replace (a + 4 * Z.of_nat 0) with a by lia. apply ld32_st32_eq.
  - rewrite <- (IH (st32 m a y) (a + 4) k x Hk). f_equal. lia.
Qed.
Lemma st_dinode_out m a p b : length (i_addrs p) = 13%nat -> b < a \/ a + DINODE_SIZE <= b -> ld8 (st_dinode m a p) b = ld8 m b.
Proof.
  intros Hl Hb. unfold st_dinode, DINODE_SIZE in *. rewrite st_addrs_out by (rewrite Hl; lia). unfold st16, st32.
  rewrite !ld8_st_out by lia. done.
Qed.
Lemma short_at m m' a v : - 2 ^ 15 <= v < 2 ^ 15 -> (forall b, a <= b < a + 2 -> ld8 m' b = ld8 (st16 m a v) b) -> i16 (ld16 m' a) = v.
Proof.
  intros Hv E. transitivity (i16 (ld16 (st16 m a v) a)); [|by rewrite ld16_st16_eq, i16_u16].
  f_equal. apply ld_ext. intros b Hb. apply E. lia.
Qed.
(** Bytes of a field after the later stores. *)
Ltac dinode_bytes :=
  let b := fresh "b" in let Hb := fresh "Hb" in
  intros b Hb; repeat (match goal with m := _ : mem |- _ => subst m end);
  rewrite st_addrs_out by lia; unfold st16, st32; rewrite ?ld8_st_out by lia; reflexivity.
Lemma dinode_roundtrip m a p q : dinode_wf p -> ld_dinode (st_dinode m a p) a q = with_dinode q p.
Proof.
  intros [H1 H2 H3 H4 H5 H6 H7]. unfold ld_dinode, st_dinode, with_dinode.
  set (m1 := st16 m a (i_type p)). set (m2 := st16 m1 (a + 2) (i_major p)). set (m3 := st16 m2 (a + 4) (i_minor p)).
  set (m4 := st16 m3 (a + 6) (i_nlink p)). set (m5 := st32 m4 (a + 8) (i_size p)). set (m6 := st_addrs m5 (a + 12) (i_addrs p)).
  assert (Et : i16 (ld16 m6 a) = i_type p) by (apply (short_at m); [done|dinode_bytes]).
  assert (Ema : i16 (ld16 m6 (a + 2)) = i_major p) by (apply (short_at m1); [done|dinode_bytes]).
  assert (Emi : i16 (ld16 m6 (a + 4)) = i_minor p) by (apply (short_at m2); [done|dinode_bytes]).
  assert (En : i16 (ld16 m6 (a + 6)) = i_nlink p) by (apply (short_at m3); [done|dinode_bytes]).
  assert (Es : ld32 m6 (a + 8) = i_size p) by (rewrite (ld32_ext (st32 m4 (a + 8) (i_size p))); [by rewrite ld32_st32_eq, u32_small|dinode_bytes]).
  assert (Ea : (fun k => ld32 m6 (a + 12 + 4 * k)) <$> seqZ 0 (NDIRECT + 1) = i_addrs p).
  { apply list_eq. intros k. rewrite list_lookup_fmap. destruct (i_addrs p !! k) as [x|] eqn:Ex.
    - pose proof (lookup_lt_Some _ _ _ Ex). rewrite lookup_seqZ_lt by (unfold NDIRECT; lia). cbn [fmap option_fmap option_map].
      rewrite Z.add_0_l. unfold m6. rewrite (st_addrs_at _ _ _ _ _ Ex). rewrite u32_small; [done|]. by eapply Forall_lookup_1 in H7.
    - apply lookup_ge_None in Ex. rewrite lookup_seqZ_ge by (unfold NDIRECT; lia). done. }
  rewrite Et, Ema, Emi, En, Es, Ea. done.
Qed.

(** ** Inode blocks *)
Definition din (d : list Z) (k : Z) (q : inode) : inode := ld_dinode (store_bytes ∅ 0 d) (DINODE_SIZE * k) q.
Lemma ld_dinode_shift m m' a a' q : (forall o, 0 <= o < DINODE_SIZE -> ld8 m (a + o) = ld8 m' (a' + o)) -> ld_dinode m a q = ld_dinode m' a' q.
Proof.
  intros E. assert (Hk : forall k o, 0 <= o -> o + Z.of_nat k <= DINODE_SIZE -> ld k m (a + o) = ld k m' (a' + o)).
  { intros k o Ho Hk. apply ld_shift. intros x Hx. rewrite <- !Z.add_assoc. apply E. lia. }
  pose proof (Hk 2%nat 0 ltac:(lia) ltac:(done)) as H0. rewrite !Z.add_0_r in H0.
  assert (Ha : (fun k => ld 4 m (a + 12 + 4 * k)) <$> seqZ 0 (NDIRECT + 1) = (fun k => ld 4 m' (a' + 12 + 4 * k)) <$> seqZ 0 (NDIRECT + 1));
    [|unfold ld_dinode, ld16, ld32; by rewrite H0, Ha, !Hk by done].
  apply list_fmap_ext. intros j x Hx%list_elem_of_lookup_2%elem_of_seqZ. change (NDIRECT + 1) with 13 in Hx.
  rewrite <- !Z.add_assoc. apply Hk; [lia|]. unfold DINODE_SIZE. lia.
Qed.
Lemma din_bytes m a k q : 0 <= k < IPB -> din (bytes m a BSIZE) k q = ld_dinode m (a + DINODE_SIZE * k) q.
Proof.
  intros Hk. change IPB with 16 in Hk. apply ld_dinode_shift. unfold DINODE_SIZE. intros o Ho. rewrite ld8_store_bytes, length_bytes.
  rewrite decide_True by (unfold BSIZE; lia).
  replace (Z.to_nat (64 * k + o - 0)) with (Z.to_nat (64 * k + o)) by lia. rewrite bytes_lookup by (unfold BSIZE; lia). cbn.
  rewrite u8_small by (apply ld8_range). unfold id. f_equal. lia.
Qed.

Section Inodes.
Context `{KernelImage}.

Definition upd_ino (s : kstate) (i : nat) (f : inode -> inode) : kstate :=
  s <| k_fs := (k_fs s) <| fs_inode := alter f i (fs_inode (k_fs s)) |> |>.
Lemma ino_upd s i f j : (i < length (fs_inode (k_fs s)))%nat -> ino (upd_ino s i f) j = if decide (j = i) then f (ino s j) else ino s j.
Proof.
  intros Hi. unfold ino. cbn. case_decide as Hd; [|by rewrite list_lookup_alter_ne].
  subst j. rewrite list_lookup_alter_eq. by destruct (lookup_lt_is_Some_2 _ _ Hi) as [x ->].
Qed.
Lemma txn_ino s p start bs held i f : txn s p start bs held -> txn (upd_ino s i f) p start bs held.
Proof.
  intros [[H1 H2 H3 H4 H5 H6 H7 H8 H9 H10 H11 H12] G2 G3 G4 G5]. split; try assumption. split; assumption.
Qed.

(** The block of inode [inum], and its place there. *)
Definition inode_block (s : kstate) (inum : Z) : Prop := 0 <= inum /\ 0 <= sb_inodestart (sb s) /\ inum / IPB + sb_inodestart (sb s) < 2 ^ 31.
Lemma IBLOCK_range s inum : inode_block s inum -> 0 <= IBLOCK inum (sb s) < 2 ^ 31 /\ 0 <= inum `mod` IPB < IPB.
Proof. intros (H1 & H2 & H3). unfold IBLOCK. change IPB with 16 in *. rewrite u32_small by div_lia. split; div_lia. Qed.

Lemma iupdate_spec s p start bs i :
  let q := ino s i in let B := IBLOCK (i_inum q) (sb s) in
  txn s p start bs [] -> (length bs < 30)%nat -> i_dev q = ROOTDEV -> dinode_wf q -> inode_block s (i_inum q) ->
  exists s' d, iupdate i s = Ret tt s' /\ upto s s' p start (log_add bs B) [] [] [(B, d)] /\
    (forall x, din d (i_inum q `mod` IPB) x = with_dinode x q) /\
    (forall k x, 0 <= k < IPB -> k <> i_inum q `mod` IPB -> din d k x = din (lc s B) k x).
Proof.
  intros q B Ht Hlen Hdev Hwf Hib. destruct (IBLOCK_range s _ Hib) as [HB Hk]. fold B in HB.
  destruct (bread_txn s p start bs [] B Ht Hlen) as (bp & s1 & E1 & Hbp & _ & Hu1 & Hbn & Hd & Hc); [by intros j ?%not_elem_of_nil|].
  set (m := st_dinode (k_mem s1) (dip bp (i_inum q)) q).
  assert (Hout : forall a, a < dip bp (i_inum q) \/ dip bp (i_inum q) + DINODE_SIZE <= a -> ld8 m a = ld8 (k_mem s1) a).
  { intros a Ha. apply st_dinode_out; [apply Hwf|done]. }
  destruct (change_txn s1 p start bs [] bp m (up_txn _ _ _ _ _ _ _ _ Hu1)) as (s2 & E2 & Hu2).
  { done. }
  { by rewrite Hbn. }
  { intros a Ha. apply Hout. unfold dip, DINODE_SIZE, BSIZE in *. change IPB with 16 in *. lia. }
  rewrite Hbn in Hu2. exists s2, (bytes m (kbuf bp) BSIZE). split_and!.
  - unfold iupdate. rewrite !bind_gets. fold q B. rewrite Hdev, (bind_ret _ _ _ _ _ E1). unfold mset. rewrite bind_modify. exact E2.
  - exact (upto_trans _ _ _ _ _ _ _ _ _ _ _ _ Hu1 Hu2).
  - intros x. rewrite din_bytes by done. by apply dinode_roundtrip.
  - intros k x Hkk Hne. rewrite <- Hd. unfold bc. rewrite !din_bytes by done. apply ld_dinode_shift. intros o Ho. apply Hout.
    unfold dip, DINODE_SIZE in *. lia.
Qed.

Lemma acquire_inode_eq s i p :
  k_cur s = Some p -> i_lock (ino s i) = mklock false 0 ->
  acquiresleep (inode_lock i) s = Ret tt (upd_ino s i (fun b => b <| i_lock := mklock true (p_pid (pr s p)) |>)).
Proof.
  intros Hcur Hl. unfold acquiresleep. rewrite (bind_ret (gets _) _ s (i_lock (ino s i)) s eq_refl), Hl.
  cbn [sl_locked]. rewrite (bind_ret myproc _ s p s) by (unfold myproc; run; by rewrite Hcur). done.
Qed.

(** An entry that iget has just set up: not read from the disk, not locked. *)
Record cold (s : kstate) (i : nat) : Prop := {
  co_len : (i < length (fs_inode (k_fs s)))%nat;
  co_ref : 1 <= i_ref (ino s i);
  co_lock : i_lock (ino s i) = mklock false 0;
  co_valid : i_valid (ino s i) = false;
  co_dev : i_dev (ino s i) = ROOTDEV;
  co_block : inode_block s (i_inum (ino s i))
}.
Definition loaded (s : kstate) (i : nat) (p : nat) : inode :=
  (din (lc s (IBLOCK (i_inum (ino s i)) (sb s))) (i_inum (ino s i) `mod` IPB) (ino s i))
    <| i_lock := mklock true (p_pid (pr s p)) |> <| i_valid := true |>.
Lemma ilock_spec s p start bs i :
  txn s p start bs [] -> (length bs < 30)%nat -> cold s i ->
  exists s', ilock (Some i) s = (if i_type (loaded s i p) =? 0 then Panic "ilock: no type" s' else Ret tt s') /\
    txn s' p start bs [] /\ (forall x, lc s' x = lc s x) /\ disk s' = disk s /\
    forall j, ino s' j = if decide (j = i) then loaded s i p else ino s j.
Proof.
  intros Ht Hlen [Hi Href Hlk Hv Hdev Hib]. set (q := ino s i) in *. destruct (IBLOCK_range s _ Hib) as [HB Hk].
  set (B := IBLOCK (i_inum q) (sb s)) in *. set (f1 := fun b : inode => b <| i_lock := mklock true (p_pid (pr s p)) |>). set (s1 := upd_ino s i f1).
  assert (Hq1 : ino s1 i = f1 q) by (unfold s1; rewrite ino_upd, decide_True by done; done).
  pose proof (txn_ino s p start bs [] i f1 Ht) as Ht1. fold s1 in Ht1.
  destruct (bread_txn s1 p start bs [] B Ht1 Hlen) as (bp & s2 & E2 & Hbp & _ & Hu2 & Hbn & Hd & Hc); [by intros j ?%not_elem_of_nil|].
  set (f2 := ld_dinode (k_mem s2) (dip bp (i_inum q))). set (s3 := upd_ino s2 i f2). pose proof (txn_ino _ _ _ _ _ i f2 (up_txn _ _ _ _ _ _ _ _ Hu2)) as Ht3.
  destruct (brelse_txn s3 p start bs [] bp Ht3) as (s4 & E4 & [T4 Hlc4 Hd4 _ Hf4]).
  { change (bf s3 bp) with (bf s2 bp). change (bc s3 bp) with (bc s2 bp). rewrite Hbn. exact Hc. }
  set (f5 := fun b : inode => b <| i_valid := true |>). set (s5 := upd_ino s4 i f5).
  destruct Hu2 as [T2 Hlc2 Hd2 _ [_ Hin2 _ _]]. assert (Hin4 : fs_inode (k_fs s4) = alter f2 i (alter f1 i (fs_inode (k_fs s)))).
  { rewrite (fr_inode _ _ Hf4). unfold s3. cbn. by rewrite Hin2. }
  assert (Hino : forall j, ino s5 j = if decide (j = i) then loaded s i p else ino s j).
  { intros j. unfold s5. rewrite ino_upd by (by rewrite Hin4, !length_alter). unfold ino at 1 2. rewrite Hin4. destruct (decide (j = i)) as [->|Hne].
    - rewrite !list_lookup_alter_eq. destruct (lookup_lt_is_Some_2 _ _ Hi) as [x Hx]. unfold loaded. fold q B.
      assert (Ex : q = x) by (unfold q, ino; by rewrite Hx). rewrite Hx. cbn [fmap option_fmap option_map default]. rewrite <- Ex. unfold f2.
      replace (lc s B) with (bc s2 bp) by (rewrite Hd; done). unfold bc. by rewrite din_bytes.
    - by rewrite !list_lookup_alter_ne. }
  exists s5. split_and!.
  - unfold ilock. rewrite bind_gets. fold q. destruct (Z.ltb_spec (i_ref q) 1); [lia|].
    rewrite (bind_ret _ _ _ _ _ (acquire_inode_eq s i p (ci_cur _ _ _ _ (tx_inv _ _ _ _ _ Ht)) Hlk)). fold f1 s1. rewrite bind_gets, Hq1.
    change (i_valid (f1 q)) with (i_valid q). rewrite Hv, !bind_gets, Hq1. change (i_dev (f1 q)) with (i_dev q). change (i_inum (f1 q)) with (i_inum q).
    change (sb s1) with (sb s). fold B. rewrite Hdev, (bind_ret _ _ _ _ _ E2), bind_gets. unfold set_ino, modify_fs. rewrite bind_modify.
    fold f2. change (s2 <| k_fs := _ |>) with s3. rewrite (bind_ret _ _ _ _ _ E4), bind_modify. change (s4 <| k_fs := _ |>) with s5.
    rewrite bind_gets, Hino, decide_True by done. by destruct (i_type (loaded s i p) =? 0).
  - by apply txn_ino.
  - intros x. exact (eq_trans (Hlc4 x) (Hlc2 x)).
  - exact (eq_trans Hd4 Hd2).
  - done.
Qed.
End Inodes.

Section InodeClaims.
Context `{KernelImage}.

(** C30. What iupdate writes, ilock reads back: after iupdate of an inode the
    file system sees its dinode on disk, the other dinodes of the block are as
    before, and ilock of an entry of the same inode that is not yet read from
    the disk gives the type, device numbers, link count, size and block
    addresses that were written. *)
Theorem inode_roundtrip s p start bs i :
  let q := ino s i in let B := IBLOCK (i_inum q) (sb s) in
  txn s p start bs [] -> (length bs < 30)%nat -> i_dev q = ROOTDEV -> dinode_wf q -> i_type q <> 0 -> inode_block s (i_inum q) ->
  exists s1, iupdate i s = Ret tt s1 /\ txn s1 p start (log_add bs B) [] /\ disk s1 = disk s /\ frame s s1 /\
    (forall x, x <> B -> lc s1 x = lc s x) /\
    (forall k x, 0 <= k < IPB -> k <> i_inum q `mod` IPB -> din (lc s1 B) k x = din (lc s B) k x) /\
    forall s2 bs2 j, txn s2 p start bs2 [] -> (length bs2 < 30)%nat -> cold s2 j -> i_inum (ino s2 j) = i_inum q ->
      sb s2 = sb s -> lc s2 B = lc s1 B ->
      exists s3, ilock (Some j) s2 = Ret tt s3 /\
        ino s3 j = (with_dinode (ino s2 j) q) <| i_lock := mklock true (p_pid (pr s2 p)) |> <| i_valid := true |>.
Proof.
  intros q B Ht Hlen Hdev Hwf Hty Hib.
  destruct (iupdate_spec s p start bs i Ht Hlen Hdev Hwf Hib) as (s1 & d & E & [T Hlc Hd _ Hf] & Hdin & Hoth). fold q B in T, Hlc, Hdin, Hoth. cbn [overlay] in Hlc.
  assert (HlcB : lc s1 B = d) by (by rewrite Hlc, Z.eqb_refl). exists s1. split_and!; try done.
  - intros x Hx. by rewrite Hlc, (proj2 (Z.eqb_neq B x)) by done.
  - rewrite HlcB. exact Hoth.
  - intros s2 bs2 j T2 Hlen2 Hcold Hinum Esb Elc. destruct (ilock_spec s2 p start bs2 j T2 Hlen2 Hcold) as (s3 & E3 & _ & _ & _ & Hino).
    assert (El : loaded s2 j p = (with_dinode (ino s2 j) q) <| i_lock := mklock true (p_pid (pr s2 p)) |> <| i_valid := true |>).
    { unfold loaded. rewrite Hinum, Esb. fold B. by rewrite Elc, HlcB, Hdin. }
    assert (Ety : i_type (loaded s2 j p) = i_type q) by (by rewrite El).
    exists s3. rewrite E3, Ety, Hino, decide_True, El by done. by destruct (Z.eqb_spec (i_type q) 0).
Qed.
End InodeClaims.

Definition ex_inode : inode := mkinode ROOTDEV 5 1 sleeplock0 true T_FILE 0 0 1 3000 (60 :: 61 :: 62 :: replicate 10 0).
Definition ex_ino : kstate := ex_fs [] (mksb FSMAGIC 100 54 200 31 2 32 45) ex_inode.
Lemma ex_inode_wf : dinode_wf ex_inode.
Proof.
  split; [split; vm_compute; (discriminate || reflexivity)..|reflexivity|].
  repeat (apply Forall_cons; split; [split; vm_compute; (discriminate || reflexivity)|]). apply Forall_nil. exact I.
Qed.
Lemma inode_roundtrip_witness : exists s1 s2 s3, @iupdate example_image 0 ex_ino = Ret tt s1 /\
  @ilock example_image (Some 0%nat) s2 = Ret tt s3 /\ i_valid (ino s2 0) = false /\ i_valid (ino s3 0) = true /\
  i_size (ino s3 0) = 3000.
Proof.
  destruct (@inode_roundtrip example_image ex_ino 0 2 [] 0) as (s1 & E & T & _ & Hf & _ & _ & Hl).
  - apply ex_fs_txn. constructor.
  - cbn. lia.
  - reflexivity.
  - exact ex_inode_wf.
  - vm_compute. discriminate.
  - split_and!; vm_compute; (discriminate || reflexivity).
  - assert (Ei : forall j, ino s1 j = ino ex_ino j) by (intros j; unfold ino; by rewrite (fr_inode _ _ Hf)).
    set (s2 := upd_ino s1 0 (fun q => q <| i_valid := false |>)).
    assert (Hlen : (0 < length (fs_inode (k_fs s1)))%nat) by (rewrite (fr_inode _ _ Hf); cbn; lia).
    assert (E2 : ino s2 0 = ex_inode <| i_valid := false |>) by (unfold s2; rewrite ino_upd, Ei by done; reflexivity).
    assert (Hsb : sb s2 = sb ex_ino) by (exact (fr_sb _ _ Hf)).
    destruct (Hl s2 (log_add [] (IBLOCK 5 (sb ex_ino))) 0%nat) as (s3 & E3 & Hi3).
    + apply txn_ino. exact T.
    + pose proof (length_log_add [] (IBLOCK 5 (sb ex_ino))) as Hn. cbn [length] in Hn. lia.
    + split; [unfold s2; cbn; by rewrite length_alter|rewrite E2; vm_compute; discriminate|by rewrite E2..|].
      rewrite E2. unfold inode_block. rewrite Hsb. split_and!; vm_compute; (discriminate || reflexivity).
    + by rewrite E2.
    + exact Hsb.
    + reflexivity.
    + exists s1, s2, s3. rewrite Hi3, E2. split_and!; [exact E|exact E3|reflexivity..].
Defined.
