(* ===== verification/Inode.v ===== *)
(** * The content of a file: bmap, readi and writei

    [fblock s i bn] is the block that holds block [bn] of the file of inode
    [i], through the direct addresses or the indirect block, and [fbyte s i o]
    the byte at offset [o]. *)

From S2P Require Import Prelude Memory FsState State Sched SchedSpec Printf Sleeplock Bio BioSpec Log LogSpec Kalloc VM Disk Memsys VMFault Fs FsSpec Dinode.
Import Mem KString.

Section Inode.
Context `{KernelImage}.

Definition fblock (s : kstate) (i : nat) (bn : Z) : Z :=
  if bn <? NDIRECT then addr_at s i bn else le32 (lc s (addr_at s i NDIRECT)) (4 * (bn - NDIRECT)).
Definition fbyte (s : kstate) (i : nat) (o : Z) : Z :=
  default 0 (lc s (fblock s i (o / BSIZE)) !! Z.to_nat (o `mod` BSIZE)).
(** The first [n] blocks of the file are there. *)
Record file_blocks (s : kstate) (i : nat) (n : Z) : Prop := {
  fb_dev : i_dev (ino s i) = ROOTDEV;
  fb_max : n <= MAXFILE;
  fb_block : forall bn, 0 <= bn < n -> 0 < fblock s i bn < 2 ^ 31;
  fb_ind : NDIRECT < n -> 0 < addr_at s i NDIRECT < 2 ^ 31
}.
(** Two states with the same inodes and the same blocks have the same files. *)
Record same_files (s s' : kstate) : Prop := {
  sf_inode : fs_inode (k_fs s') = fs_inode (k_fs s);
  sf_lc : forall x, lc s' x = lc s x
}.
Lemma upto_files s s' p start bs held keep : upto s s' p start bs held keep [] -> same_files s s'.
Proof. intros Hu. split; [apply Hu|apply Hu]. Qed.
Section Same.
Context (s s' : kstate) (E : same_files s s').
Lemma ino_same i : ino s' i = ino s i.
Proof. unfold ino. by rewrite (sf_inode _ _ E). Qed.
Lemma addr_at_same i k : addr_at s' i k = addr_at s i k.
Proof. unfold addr_at. by rewrite ino_same. Qed.
Lemma fblock_same i bn : fblock s' i bn = fblock s i bn.
Proof. unfold fblock. by rewrite !addr_at_same, (sf_lc _ _ E). Qed.
Lemma fbyte_same i o : fbyte s' i o = fbyte s i o.
Proof. unfold fbyte. by rewrite fblock_same, (sf_lc _ _ E). Qed.
Lemma file_blocks_same i n : file_blocks s i n -> file_blocks s' i n.
Proof.
  intros [H1 H2 H3 H4]. split; [by rewrite ino_same|done| |].
  - intros bn Hbn. rewrite fblock_same. by apply H3.
  - rewrite addr_at_same. done.
Qed.
End Same.

(** ** bmap, on a block that is there *)
Lemma bmap_present s p start bs i n bn :
  txn s p start bs [] -> (length bs < 30)%nat -> file_blocks s i n -> 0 <= bn < n ->
  exists s', bmap i bn s = Ret (fblock s i bn) s' /\ upto s s' p start bs [] [] [].
Proof.
  intros Ht Hlen [Hdev Hmax Hb Hind] Hbn. specialize (Hb bn Hbn). unfold bmap, fblock in *. rewrite bind_gets.
  destruct (Z.ltb_spec bn NDIRECT) as [Hd|Hd].
  - rewrite bind_gets. destruct (Z.eqb_spec (addr_at s i bn) 0); [lia|]. exists s. split; [done|by apply upto_refl].
  - destruct (Z.ltb_spec (bn - NDIRECT) NINDIRECT) as [Hi|]; [|unfold MAXFILE in *; lia]. specialize (Hind ltac:(lia)).
    set (a := addr_at s i NDIRECT) in *. rewrite bind_gets. fold a. destruct (Z.eqb_spec a 0); [lia|].
    rewrite (bind_ret (mret a) _ s a s eq_refl). destruct (Z.eqb_spec a 0); [lia|]. rewrite Hdev.
    destruct (bread_txn s p start bs [] a Ht ltac:(cbn; lia)) as (bp & s1 & E1 & Hbp & _ & Hu1 & Hbn1 & Hd1 & Hc1); [by intros j ?%not_elem_of_nil|].
    rewrite (bind_ret _ _ _ _ _ E1). unfold mget. rewrite bind_gets, ld32_bytes by (change NINDIRECT with 256 in *; change BSIZE with 1024; lia).
    fold (bc s1 bp). rewrite Hd1. destruct (Z.eqb_spec (le32 (lc s a) (4 * (bn - NDIRECT))) 0); [lia|].
    rewrite (bind_ret (mret _) _ s1 _ s1 eq_refl).
    destruct (brelse_txn s1 p start bs [] bp (up_txn _ _ _ _ _ _ _ _ Hu1)) as (s2 & E2 & Hu2); [by rewrite Hbn1|].
    rewrite (bind_ret _ _ _ _ _ E2). exists s2. split; [done|]. exact (upto_trans _ _ _ _ _ _ _ _ _ _ _ _ Hu1 Hu2).
Qed.

(** ** Kernel memory beside the buffers *)
Definition clear_of_buffers (a n : Z) : Prop := forall i, (i < 30)%nat -> a + n <= kbuf i \/ kbuf i + BSIZE <= a.
Lemma txn_mem s p start bs held m :
  txn s p start bs held -> (forall a, ~ off_buffers a -> ld8 m a = ld8 (k_mem s) a) ->
  txn (s <| k_mem := m |>) p start bs held /\ (forall x, lc (s <| k_mem := m |>) x = lc s x) /\
  (forall j, (j < 30)%nat -> bc (s <| k_mem := m |>) j = bc s j).
Proof.
  intros [Hci Hl Hout Hr Hnd] Hm. set (s' := s <| k_mem := m |>).
  assert (Hbc : forall j, (j < 30)%nat -> bc s' j = bc s j).
  { intros j Hj. apply bytes_eq. intros k Hk. apply Hm. intros Hoff. specialize (Hoff j Hj). lia. }
  assert (Hci' : cache_inv s' p bs held).
  { destruct Hci as [H1 H2 H3 H4 H5 H6 H7 H8 H9 H10 H11 H12]. split; try assumption.
    intros j Hj. rewrite Hbc by done. apply H10, Hj. }
  split_and!; [by split|by apply (lc_ext s s' p bs held p bs held)|done].
Qed.
Lemma clear_off a n x : clear_of_buffers a n -> a <= x < a + n -> off_buffers x.
Proof. intros Hc Hx j Hj. specialize (Hc j Hj). lia. Qed.

(** ** readi to kernel memory *)
Record copied (s s' : kstate) (p : nat) (start : Z) (bs : list Z) (dst n : Z) (f : Z -> Z) : Prop := {
  cp_txn : txn s' p start bs [];
  cp_files : same_files s s';
  cp_disk : disk s' = disk s;
  cp_sb : sb s' = sb s;
  cp_mem : forall a, off_buffers a -> ld8 (k_mem s') a = if decide (dst <= a < dst + n) then f (a - dst) else ld8 (k_mem s) a
}.
Lemma copied_upto s s' p start bs dst f : upto s s' p start bs [] [] [] -> copied s s' p start bs dst 0 f.
Proof.
  intros Hu. split; [apply Hu|by eapply upto_files|apply Hu|apply (fr_sb _ _ (up_frame _ _ _ _ _ _ _ _ Hu))|].
  intros a Ha. rewrite decide_False by lia. by apply (fr_mem _ _ (up_frame _ _ _ _ _ _ _ _ Hu)).
Qed.
Lemma copied_trans s1 s2 s3 p start bs dst m n f : 0 <= m -> 0 <= n ->
  copied s1 s2 p start bs dst m f -> copied s2 s3 p start bs (dst + m) n (fun o => f (m + o)) -> copied s1 s3 p start bs dst (m + n) f.
Proof.
  intros Hm Hn [H1 [H2 H2'] H3 H4 H5] [G1 [G2 G2'] G3 G4 G5]. split; [done|split; [congruence|intros x; by rewrite G2', H2']|congruence..|].
  intros a Ha. rewrite G5 by done. case_decide as Ed; [rewrite decide_True by lia; f_equal; lia|]. rewrite H5 by done.
  destruct (decide (dst <= a < dst + m)); [by rewrite decide_True by lia|by rewrite decide_False by lia].
Qed.
(** One turn of the loop. *)
Lemma readi_step k fuel s p start bs i nb dst off tot n :
  let m := Z.min (n - tot) (BSIZE - off `mod` BSIZE) in
  txn s p start bs [] -> (length bs < 30)%nat -> file_blocks s i nb -> 0 <= off -> off / BSIZE < nb -> tot < n ->
  clear_of_buffers dst m ->
  exists s', readi_loop (S k) fuel i false dst off tot n s = readi_loop k fuel i false (u64 (dst + m)) (u32 (off + m)) (tot + m) n s' /\
    copied s s' p start bs dst m (fun o => fbyte s i (off + o)).
Proof.
  intros m Ht Hlen Hfb Hoff Hnb Htot Hclear. assert (Hm : 0 < m <= BSIZE - off `mod` BSIZE) by (unfold m, BSIZE in *; div_lia).
  assert (Hq : 0 <= off / BSIZE) by (unfold BSIZE; div_lia).
  destruct (bmap_present s p start bs i nb (off / BSIZE) Ht Hlen Hfb ltac:(lia)) as (s1 & E1 & Hu1). pose proof (fb_block _ _ _ Hfb (off / BSIZE) ltac:(lia)) as Hb.
  cbn [readi_loop]. destruct (Z.ltb_spec tot n); [|lia]. rewrite (bind_ret _ _ _ _ _ E1). set (b := fblock s i (off / BSIZE)) in *.
  destruct (Z.eqb_spec b 0); [lia|]. rewrite bind_gets, (ino_same _ _ (upto_files _ _ _ _ _ _ _ Hu1)), (fb_dev _ _ _ Hfb).
  destruct (bread_txn s1 p start bs [] b (up_txn _ _ _ _ _ _ _ _ Hu1) ltac:(cbn; lia)) as (bp & s2 & E2 & Hbp & _ & Hu2 & Hbn2 & Hd2 & Hc2); [by intros j ?%not_elem_of_nil|].
  rewrite (bind_ret _ _ _ _ _ E2). fold m. unfold either_copyout, kmemmove. rewrite bind_assoc, bind_modify. cbv beta.
  set (mm := memmove (k_mem s2) dst (kbuf bp + off `mod` BSIZE) m). set (s3 := s2 <| k_mem := mm |>).
  destruct (txn_mem s2 p start bs [bp] mm (up_txn _ _ _ _ _ _ _ _ Hu2)) as (T3 & Hlc3 & Hbc3).
  { intros a Ha. unfold mm. rewrite ld8_memmove by lia. rewrite decide_False; [done|]. intros Hx. by apply Ha, (clear_off dst m). }
  destruct (brelse_txn s3 p start bs [] bp T3) as (s4 & E4 & Hu4).
  { change (bf s3 bp) with (bf s2 bp). change (disk s3) with (disk s2). rewrite Hbc3, Hbn2 by done. done. }
  rewrite (bind_ret (mret 0) _ s3 0 s3 eq_refl), (bind_ret _ _ _ _ _ E4). change (0 =? -1) with false. cbv beta iota. exists s4. split; [done|].
  pose proof (upto_trans _ _ _ _ _ _ _ _ _ _ _ _ Hu1 Hu2) as Hu. destruct Hu as [_ Hlc Hd _ [Fm Fi Fs Fc]], Hu4 as [T4 Hlc4 Hd4 _ [Gm Gi Gs Gc]].
  split; [done|split; [by rewrite Gi|intros x; exact (eq_trans (Hlc4 x) (eq_trans (Hlc3 x) (Hlc x)))]|by rewrite Hd4|unfold sb; by rewrite Gs|].
  intros a Ha. rewrite Gm by done. change (k_mem s3) with mm. unfold mm. rewrite ld8_memmove by lia. case_decide as Ed; [|by apply Fm].
  set (o := a - dst) in *. assert (Ho : (off + o) / BSIZE = off / BSIZE /\ (off + o) `mod` BSIZE = off `mod` BSIZE + o) by (unfold BSIZE in *; div_lia).
  destruct Ho as [Ho1 Ho2]. unfold fbyte. rewrite Ho1, Ho2. fold b. rewrite (up_lc _ _ _ _ _ _ _ _ Hu1) in Hd2. cbn in Hd2. rewrite <- Hd2.
  unfold bc. rewrite bytes_lookup by (unfold BSIZE in *; div_lia). cbn. f_equal. lia.
Qed.

(** The turns the loop takes. *)
Definition touched (off n : Z) : Z := (off `mod` BSIZE + n + BSIZE - 1) / BSIZE.
Lemma touched_step off rem : 0 <= off -> 0 < rem ->
  let m := Z.min rem (BSIZE - off `mod` BSIZE) in touched (off + m) (rem - m) = touched off rem - 1 \/ m = rem.
Proof. intros Ho Hr m. unfold touched, m, BSIZE. div_lia. Qed.
Lemma clear_sub a n a' n' : clear_of_buffers a n -> a <= a' -> a' + n' <= a + n -> clear_of_buffers a' n'.
Proof. intros Hc H1 H2 j Hj. specialize (Hc j Hj). lia. Qed.
Lemma readi_loop_spec fuel p start bs i nb n k : forall s dst off tot,
  txn s p start bs [] -> (length bs < 30)%nat -> file_blocks s i nb -> 0 <= off -> tot <= n -> 0 <= dst -> dst + (n - tot) < 2 ^ 64 ->
  off + (n - tot) <= nb * BSIZE -> clear_of_buffers dst (n - tot) -> touched off (n - tot) < Z.of_nat k ->
  exists s', readi_loop k fuel i false dst off tot n s = Ret n s' /\ copied s s' p start bs dst (n - tot) (fun o => fbyte s i (off + o)).
Proof.
  induction k as [|k IH]; intros s dst off tot Ht Hlen Hfb Hoff Htot Hdst Hdn Hon Hclear Hk.
  { exfalso. unfold touched, BSIZE in Hk. div_lia. }
  destruct (decide (tot < n)) as [Hlt|Hge].
  2:{ assert (tot = n) as -> by lia. exists s. cbn [readi_loop]. rewrite Z.ltb_irrefl, Z.sub_diag. split; [done|]. by apply copied_upto, upto_refl. }
  pose proof (fb_max _ _ _ Hfb) as Hmax. change MAXFILE with 268 in Hmax.
  set (m := Z.min (n - tot) (BSIZE - off `mod` BSIZE)). assert (Hm : 0 < m <= n - tot) by (unfold m, BSIZE; div_lia).
  destruct (readi_step k fuel s p start bs i nb dst off tot n) as (s1 & E1 & Hc1); [done..|unfold BSIZE in *; div_lia|done| |].
  { apply (clear_sub dst (n - tot)); [done|lia|fold m; lia]. }
  fold m in E1, Hc1. rewrite E1, u64_small, u32_small by (unfold BSIZE in *; lia). pose proof (cp_files _ _ _ _ _ _ _ _ Hc1) as Hsf.
  destruct (touched_step off (n - tot) Hoff ltac:(lia)) as [Hts|Heq]; fold m in Hts || fold m in Heq.
  - destruct (IH s1 (dst + m) (off + m) (tot + m)) as (s2 & E2 & Hc2).
    { apply Hc1. }
    { done. }
    { by apply (file_blocks_same s s1). }
    1-5: lia.
    { apply (clear_sub dst (n - tot)); [done|lia|lia]. }
    { replace (n - (tot + m)) with (n - tot - m) by lia. lia. }
    exists s2. split; [done|]. replace (n - tot) with (m + (n - (tot + m))) by lia. apply (copied_trans _ s1); [lia|lia|done|].
    destruct Hc2 as [G1 G2 G3 G4 G5]. split; try done. intros a Ha. rewrite G5 by done. case_decide; [|done].
    rewrite (fbyte_same s s1 Hsf). f_equal. lia.
  - replace (tot + m) with n by lia. exists s1. rewrite Heq in Hc1. split; [|done]. destruct k; [|cbn [readi_loop]; by rewrite Z.ltb_irrefl].
    exfalso. unfold touched, BSIZE in Hk. div_lia.
Qed.

Lemma readi_spec fuel s p start bs i nb dst off n :
  txn s p start bs [] -> (length bs < 30)%nat -> file_blocks s i nb -> 0 <= i_size (ino s i) <= nb * BSIZE ->
  0 <= off < 2 ^ 32 -> 0 <= n < 2 ^ 32 -> 0 <= dst -> dst + n < 2 ^ 64 -> clear_of_buffers dst n ->
  let size := i_size (ino s i) in
  if (size <? off) || (2 ^ 32 <=? off + n) then readi fuel i false dst off n s = Ret 0 s
  else let r := Z.min n (size - off) in
    exists s', readi fuel i false dst off n s = Ret r s' /\ copied s s' p start bs dst r (fun o => fbyte s i (off + o)).
Proof.
  intros Ht Hlen Hfb Hsz Hoff Hn Hdst Hdn Hclear size. pose proof (fb_max _ _ _ Hfb) as Hmax. change MAXFILE with 268 in Hmax.
  unfold readi. rewrite bind_gets. fold size in Hsz |- *. destruct (Z.ltb_spec size off) as [|Hso]; [done|]. cbn [orb].
  destruct (Z.leb_spec (2 ^ 32) (off + n)) as [Hov|Hov].
  - replace (u32 (off + n)) with (off + n - 2 ^ 32) by (unfold u32; div_lia). by destruct (Z.ltb_spec (off + n - 2 ^ 32) off); [|lia].
  - rewrite u32_small by lia. destruct (Z.ltb_spec (off + n) off); [lia|]. cbv zeta.
    replace (if size <? off + n then u32 (size - off) else n) with (Z.min n (size - off)).
    2:{ destruct (Z.ltb_spec size (off + n)); [rewrite u32_small by (unfold BSIZE in *; lia)|]; lia. }
    set (r := Z.min n (size - off)). assert (Hr : 0 <= r <= n /\ off + r <= size) by lia.
    destruct (readi_loop_spec fuel p start bs i nb r (Z.to_nat (r / BSIZE) + 3) s dst off 0) as (s' & E & Hc); rewrite ?Z.sub_0_r in *; try done; try lia.
    { by apply (clear_sub dst n); [|lia|lia]. }
    { rewrite Nat2Z.inj_add, Z2Nat.id by (unfold BSIZE; div_lia). unfold touched, BSIZE. div_lia. }
    exists s'. rewrite (bind_ret _ _ _ _ _ E), i32_small by (unfold BSIZE in *; lia). done.
Qed.

(** ** writei from kernel memory, over blocks that are there *)
Record file_distinct (s : kstate) (i : nat) (n : Z) : Prop := {
  fd_inj : forall bn bn', 0 <= bn < n -> 0 <= bn' < n -> fblock s i bn = fblock s i bn' -> bn = bn';
  fd_ind : forall bn, 0 <= bn < n -> fblock s i bn <> addr_at s i NDIRECT
}.
Record stored (s s' : kstate) (p : nat) (start : Z) (bs bs' : list Z) (i : nat) (nb off n : Z) (f : Z -> Z) : Prop := {
  sd_txn : txn s' p start bs' [];
  sd_log : Z.of_nat (length bs') <= Z.of_nat (length bs) + touched off n;
  sd_disk : disk s' = disk s;
  sd_block : forall bn, fblock s' i bn = fblock s i bn;
  sd_byte : forall o, 0 <= o < nb * BSIZE -> fbyte s' i o = if decide (off <= o < off + n) then f (o - off) else fbyte s i o;
  sd_other : forall x, (forall bn, 0 <= bn < nb -> x <> fblock s i bn) -> lc s' x = lc s x;
  sd_frame : frame s s'
}.
Lemma file_blocks_stored s s' p start bs bs' i nb off n f :
  stored s s' p start bs bs' i nb off n f -> file_blocks s i nb /\ file_distinct s i nb -> file_blocks s' i nb /\ file_distinct s' i nb.
Proof.
  intros [_ _ _ Hb _ _ Hf] [[H1 H2 H3 H4] [G1 G2]].
  assert (Ha : forall k, addr_at s' i k = addr_at s i k) by (intros k; unfold addr_at, ino; by rewrite (fr_inode _ _ Hf)).
  split; split; [unfold ino; by rewrite (fr_inode _ _ Hf)|done| | | |].
  - intros bn. rewrite Hb. apply H3.
  - rewrite Ha. done.
  - intros bn bn'. rewrite !Hb. apply G1.
  - intros bn. rewrite Hb, Ha. apply G2.
Qed.
(** Changing [m] bytes of one block of the file. *)
Lemma stored_block s s' p start bs i nb off m f d :
  txn s p start bs [] -> file_blocks s i nb -> file_distinct s i nb ->
  0 <= off -> off / BSIZE < nb -> 0 < m <= BSIZE - off `mod` BSIZE ->
  upto s s' p start (log_add bs (fblock s i (off / BSIZE))) [] [] [(fblock s i (off / BSIZE), d)] ->
  (forall k, 0 <= k < BSIZE -> default 0 (d !! Z.to_nat k) =
     if decide (off `mod` BSIZE <= k < off `mod` BSIZE + m) then f (k - off `mod` BSIZE)
     else default 0 (lc s (fblock s i (off / BSIZE)) !! Z.to_nat k)) ->
  stored s s' p start bs (log_add bs (fblock s i (off / BSIZE))) i nb off m f.
Proof.
  intros Ht Hfb [Hinj Hind] Hoff Hnb Hm [T Hlc Hd _ Hf] Hk. set (q := off / BSIZE) in *.
  assert (Hq : 0 <= q < nb) by (unfold q, BSIZE in *; div_lia). set (b := fblock s i q) in *. cbn [overlay] in Hlc.
  assert (Ha : forall k, addr_at s' i k = addr_at s i k) by (intros k; unfold addr_at, ino; by rewrite (fr_inode _ _ Hf)).
  assert (Hfbl : forall bn, fblock s' i bn = fblock s i bn).
  { intros bn. unfold fblock. rewrite !Ha, Hlc. by rewrite (proj2 (Z.eqb_neq b _)) by (by apply Hind). }
  split; [done| |done|done| | |done].
  - pose proof (length_log_add bs b). unfold touched, BSIZE in *. div_lia.
  - intros o Ho. unfold fbyte. rewrite Hfbl, Hlc. assert (Hoq : 0 <= o / BSIZE < nb) by (unfold BSIZE in *; div_lia).
    destruct (Z.eqb_spec b (fblock s i (o / BSIZE))) as [E|E].
    + apply (Hinj q) in E; [|done|done]. rewrite Hk by (unfold BSIZE; div_lia). rewrite <- E. fold b.
      assert (o - off = o `mod` BSIZE - off `mod` BSIZE) by (unfold q, BSIZE in *; div_lia).
      destruct (decide (off <= o < off + m)); [rewrite decide_True by lia; f_equal; lia|by rewrite decide_False by lia].
    + rewrite decide_False; [done|]. intros Hin. apply E. unfold b. f_equal. unfold q, BSIZE in *. div_lia.
  - intros x Hx. rewrite Hlc, (proj2 (Z.eqb_neq b x)); [done|]. intros E. by apply (Hx q Hq).
Qed.

Lemma stored_trans s1 s2 s3 p start bs bs' bs'' i nb off m n f :
  0 <= m -> 0 <= n -> touched off m + touched (off + m) n <= touched off (m + n) ->
  stored s1 s2 p start bs bs' i nb off m f -> stored s2 s3 p start bs' bs'' i nb (off + m) n (fun o => f (m + o)) ->
  stored s1 s3 p start bs bs'' i nb off (m + n) f.
Proof.
  intros Hm Hn Ht [H1 H2 H3 H4 H5 H6 H7] [G1 G2 G3 G4 G5 G6 G7]. split; [done|lia|congruence|congruence| | |by transitivity s2].
  - intros o Ho. rewrite G5 by done. case_decide; [rewrite decide_True by lia; f_equal; lia|]. rewrite H5 by done.
    destruct (decide (off <= o < off + m)); [by rewrite decide_True by lia|by rewrite decide_False by lia].
  - intros x Hx. rewrite G6, H6; [done|done|]. intros bn Hbn. rewrite H4. by apply Hx.
Qed.
Lemma writei_step k fuel s p start bs i nb src off tot n :
  let m := Z.min (n - tot) (BSIZE - off `mod` BSIZE) in
  txn s p start bs [] -> (length bs < 30)%nat -> file_blocks s i nb -> file_distinct s i nb -> 0 <= off -> off / BSIZE < nb -> tot < n ->
  clear_of_buffers src m ->
  exists s' bs', writei_loop (S k) fuel i false src off tot n s = writei_loop k fuel i false (u64 (src + m)) (u32 (off + m)) (tot + m) n s' /\
    stored s s' p start bs bs' i nb off m (fun o => ld8 (k_mem s) (src + o)).
Proof.
  intros m Ht Hlen Hfb Hfd Hoff Hnb Htot Hclear. assert (Hm : 0 < m <= BSIZE - off `mod` BSIZE) by (unfold m, BSIZE in *; div_lia).
  assert (Hq : 0 <= off / BSIZE) by (unfold BSIZE; div_lia).
  destruct (bmap_present s p start bs i nb (off / BSIZE) Ht Hlen Hfb ltac:(lia)) as (s1 & E1 & Hu1). pose proof (fb_block _ _ _ Hfb (off / BSIZE) ltac:(lia)) as Hb.
  cbn [writei_loop]. destruct (Z.ltb_spec tot n); [|lia]. rewrite (bind_ret _ _ _ _ _ E1).
  destruct (Z.eqb_spec (fblock s i (off / BSIZE)) 0); [lia|]. rewrite bind_gets, (ino_same _ _ (upto_files _ _ _ _ _ _ _ Hu1)), (fb_dev _ _ _ Hfb).
  destruct (bread_txn s1 p start bs [] (fblock s i (off / BSIZE)) (up_txn _ _ _ _ _ _ _ _ Hu1) ltac:(cbn; lia)) as (bp & s2 & E2 & Hbp & _ & Hu2 & Hbn2 & Hd2 & Hc2); [by intros j ?%not_elem_of_nil|].
  rewrite (bind_ret _ _ _ _ _ E2). fold m. unfold either_copyin, kmemmove. rewrite bind_assoc, bind_modify. cbv beta.
  set (mm := memmove (k_mem s2) (kbuf bp + off `mod` BSIZE) src m). pose proof (upto_trans _ _ _ _ _ _ _ _ _ _ _ _ Hu1 Hu2) as Hu.
  destruct (change_txn s2 p start bs [] bp mm (up_txn _ _ _ _ _ _ _ _ Hu2)) as (s3 & E3 & Hu3).
  { lia. }
  { by rewrite Hbn2; lia. }
  { intros a Ha. unfold mm. rewrite ld8_memmove by lia. rewrite decide_False; [done|]. unfold BSIZE in *. div_lia. }
  rewrite (bind_ret (mret 0) _ (s2 <| k_mem := mm |>) 0 (s2 <| k_mem := mm |>) eq_refl). change (0 =? -1) with false. cbv beta iota.
  rewrite (seq_ret _ _ _ _ _ E3). exists s3, (log_add bs (fblock s i (off / BSIZE))). split; [done|].
  rewrite Hbn2 in Hu3. pose proof (upto_trans _ _ _ _ _ _ _ _ _ _ _ _ Hu Hu3) as Hu13. rewrite app_nil_r in Hu13.
  apply (stored_block _ _ _ _ _ _ _ _ _ _ (bytes mm (kbuf bp) BSIZE)); try done.
  intros x Hx. rewrite bytes_lookup by done. cbn [default]. unfold mm. rewrite ld8_memmove by lia. case_decide as Ed.
  - rewrite decide_True by lia. replace (src + (kbuf bp + x - (kbuf bp + off `mod` BSIZE))) with (src + (x - off `mod` BSIZE)) by lia.
    apply (fr_mem _ _ (up_frame _ _ _ _ _ _ _ _ Hu)). apply (clear_off src m); [done|lia].
  - rewrite decide_False by lia. rewrite (up_lc _ _ _ _ _ _ _ _ Hu1) in Hd2. cbn in Hd2. rewrite <- Hd2. unfold bc. by rewrite bytes_lookup.
Qed.
Lemma writei_loop_spec fuel p start i nb n k : forall s bs src off tot,
  txn s p start bs [] -> Z.of_nat (length bs) + touched off (n - tot) <= 30 -> file_blocks s i nb -> file_distinct s i nb ->
  0 <= off -> tot <= n -> 0 <= src -> src + (n - tot) < 2 ^ 64 ->
  off + (n - tot) <= nb * BSIZE -> clear_of_buffers src (n - tot) -> touched off (n - tot) < Z.of_nat k ->
  exists s' bs', writei_loop k fuel i false src off tot n s = Ret (n, off + (n - tot)) s' /\
    stored s s' p start bs bs' i nb off (n - tot) (fun o => ld8 (k_mem s) (src + o)).
Proof.
  induction k as [|k IH]; intros s bs src off tot Ht Hlen Hfb Hfd Hoff Htot Hsrc Hdn Hon Hclear Hk.
  { exfalso. unfold touched, BSIZE in Hk. div_lia. }
  destruct (decide (tot < n)) as [Hlt|Hge].
  2:{ assert (tot = n) as -> by lia. exists s, bs. cbn [writei_loop]. rewrite Z.ltb_irrefl, Z.sub_diag, Z.add_0_r. split; [done|].
      split; try done; [unfold touched, BSIZE; div_lia|]. intros o Ho. by rewrite decide_False by lia. }
  pose proof (fb_max _ _ _ Hfb) as Hmax. change MAXFILE with 268 in Hmax.
  assert (Hlen2 : (length bs < 30)%nat) by (unfold touched, BSIZE in Hlen; div_lia).
  set (m := Z.min (n - tot) (BSIZE - off `mod` BSIZE)). assert (Hm : 0 < m <= n - tot) by (unfold m, BSIZE; div_lia).
  destruct (writei_step k fuel s p start bs i nb src off tot n) as (s1 & bs1 & E1 & Hc1); [done..|unfold BSIZE in *; div_lia|done| |].
  { apply (clear_sub src (n - tot)); [done|lia|fold m; lia]. }
  fold m in E1, Hc1. rewrite E1, u64_small, u32_small by (unfold BSIZE in *; lia).
  destruct (file_blocks_stored _ _ _ _ _ _ _ _ _ _ _ Hc1 (conj Hfb Hfd)) as [Hfb1 Hfd1]. pose proof (sd_log _ _ _ _ _ _ _ _ _ _ _ Hc1) as Hl1.
  assert (Htm : touched off m = 1) by (unfold touched, m, BSIZE in *; div_lia).
  destruct (touched_step off (n - tot) Hoff ltac:(lia)) as [Hts|Heq]; fold m in Hts || fold m in Heq.
  - replace (n - tot - m) with (n - (tot + m)) in Hts by lia.
    destruct (IH s1 bs1 (src + m) (off + m) (tot + m)) as (s2 & bs2 & E2 & Hc2); try done; try lia.
    { apply Hc1. }
    { apply (clear_sub src (n - tot)); [done|lia|lia]. }
    exists s2, bs2. split; [rewrite E2; f_equal; f_equal; lia|]. replace (n - tot) with (m + (n - (tot + m))) in * by lia.
    apply (stored_trans _ s1 _ _ _ _ bs1); [lia|lia|lia|done|]. destruct Hc2 as [G1 G2 G3 G4 G5 G6 G7]. split; try done.
    intros o Ho. rewrite G5 by done. case_decide; [|done]. replace (src + m + (o - (off + m))) with (src + (m + (o - (off + m)))) by lia.
    apply (fr_mem _ _ (sd_frame _ _ _ _ _ _ _ _ _ _ _ Hc1)). apply (clear_off src (m + (n - (tot + m)))); [done|lia].
  - replace (tot + m) with n by lia. exists s1, bs1. rewrite Heq in *. split; [|done].
    destruct k; [|cbn [writei_loop]; by rewrite Z.ltb_irrefl]. exfalso. unfold touched, BSIZE in Hk. div_lia.
Qed.

(** Everything writei needs to know about the inode and its blocks. *)
Record writable (s : kstate) (i : nat) (nb : Z) : Prop := {
  wb_blocks : file_blocks s i nb;
  wb_distinct : file_distinct s i nb;
  wb_len : (i < length (fs_inode (k_fs s)))%nat;
  wb_wf : dinode_wf (ino s i);
  wb_inode : inode_block s (i_inum (ino s i));
  wb_apart : forall bn, 0 <= bn < nb -> fblock s i bn <> IBLOCK (i_inum (ino s i)) (sb s);
  wb_apart_ind : addr_at s i NDIRECT <> IBLOCK (i_inum (ino s i)) (sb s)
}.
(** The size and the dinode, after the loop. *)
Lemma writei_end s s1 p start bs bs1 i nb off n f (sz : Z) :
  writable s i nb -> stored s s1 p start bs bs1 i nb off n f -> (length bs1 < 30)%nat -> 0 <= sz < 2 ^ 32 ->
  let q' := (ino s i) <| i_size := sz |> in let B := IBLOCK (i_inum (ino s i)) (sb s) in
  exists s', iupdate i (upd_ino s1 i (fun p => p <| i_size := sz |>)) = Ret tt s' /\
    txn s' p start (log_add bs1 B) [] /\ disk s' = disk s /\ sb s' = sb s /\
    (forall j, ino s' j = if decide (j = i) then q' else ino s j) /\
    (forall a, off_buffers a -> ld8 (k_mem s') a = ld8 (k_mem s) a) /\
    (forall bn, fblock s' i bn = fblock s i bn) /\
    (forall o, 0 <= o < nb * BSIZE -> fbyte s' i o = fbyte s1 i o) /\
    (forall x, x <> B -> lc s' x = lc s1 x).
Proof.
  intros [Hfb Hfd Hi Hwf Hib Hap Hapi] [T1 _ Hd1 Hb1 Hbyte1 Hoth1 Hf1] Hlen Hsz q' B. set (g := fun p : inode => p <| i_size := sz |>).
  set (s2 := upd_ino s1 i g). assert (Ei1 : forall j, ino s1 j = ino s j) by (intros j; unfold ino; by rewrite (fr_inode _ _ Hf1)).
  assert (Hi1 : (i < length (fs_inode (k_fs s1)))%nat) by (by rewrite (fr_inode _ _ Hf1)).
  assert (Hino2 : forall j, ino s2 j = if decide (j = i) then q' else ino s j).
  { intros j. unfold s2. rewrite ino_upd, Ei1 by done. by destruct (decide (j = i)) as [->|]. }
  assert (Hq2 : ino s2 i = q') by (by rewrite Hino2, decide_True). assert (Esb : sb s2 = sb s) by (exact (fr_sb _ _ Hf1)).
  destruct (iupdate_spec s2 p start bs1 i) as (s3 & d & E3 & [T3 Hlc3 Hd3 _ Hf3] & _ & _).
  { by apply txn_ino. }
  { done. }
  { rewrite Hq2. apply Hfb. }
  { rewrite Hq2. destruct Hwf. by split. }
  { rewrite Hq2. unfold inode_block. rewrite Esb. exact Hib. }
  rewrite Hq2, Esb in *. change (i_inum q') with (i_inum (ino s i)) in *. fold B in T3, Hlc3. cbn [overlay] in Hlc3.
  assert (Hlc : forall x, x <> B -> lc s3 x = lc s1 x) by (intros x Hx; by rewrite Hlc3, (proj2 (Z.eqb_neq B x)) by done).
  assert (Ei3 : forall j, ino s3 j = ino s2 j) by (intros j; unfold ino; by rewrite (fr_inode _ _ Hf3)).
  assert (Ea3 : forall k, addr_at s3 i k = addr_at s i k) by (intros k; unfold addr_at; by rewrite Ei3, Hq2).
  assert (Ea1 : forall k, addr_at s1 i k = addr_at s i k) by (intros k; unfold addr_at; by rewrite Ei1).
  assert (Hb3 : forall bn, fblock s3 i bn = fblock s i bn).
  { intros bn. rewrite <- Hb1. unfold fblock. by rewrite !Ea3, !Ea1, Hlc. }
  exists s3. split_and!; try done.
  - exact (eq_trans Hd3 Hd1).
  - exact (eq_trans (fr_sb _ _ Hf3) Esb).
  - intros j. by rewrite Ei3, Hino2.
  - intros a Ha. exact (eq_trans (fr_mem _ _ Hf3 a Ha) (fr_mem _ _ Hf1 a Ha)).
  - intros o Ho. unfold fbyte. rewrite Hb3, Hb1, Hlc; [done|]. apply Hap. unfold BSIZE in *. div_lia.
Qed.

Lemma upd_ino_same s i f : f (ino s i) = ino s i -> (i < length (fs_inode (k_fs s)))%nat -> upd_ino s i f = s.
Proof.
  intros Hf Hi. assert (E : alter f i (fs_inode (k_fs s)) = fs_inode (k_fs s)).
  { apply list_eq. intros j. destruct (decide (j = i)) as [->|]; [|by rewrite list_lookup_alter_ne]. rewrite list_lookup_alter_eq.
    unfold ino in Hf. destruct (lookup_lt_is_Some_2 _ _ Hi) as [x Hx]. rewrite Hx in *. cbn in *. by rewrite Hf. }
  unfold upd_ino. rewrite E. by destruct s as [? ? ? ? ? ? ? ? ? ? ? ? ? ? ? ? ? ? ? ? ? ? ? ? []].
Qed.
Lemma touched_room off n : 0 <= off -> 0 <= n -> touched off n <= n / BSIZE + 2.
Proof. intros Ho Hn. unfold touched, BSIZE. div_lia. Qed.
Lemma writei_spec fuel s p start bs i nb src off n :
  txn s p start bs [] -> writable s i nb -> 0 <= off <= i_size (ino s i) -> 0 <= n -> off + n <= nb * BSIZE ->
  Z.of_nat (length bs) + touched off n < 30 -> 0 <= src -> src + n < 2 ^ 64 -> clear_of_buffers src n ->
  let sz := Z.max (i_size (ino s i)) (off + n) in let B := IBLOCK (i_inum (ino s i)) (sb s) in
  exists s' bs', writei fuel i false src off n s = Ret n s' /\ txn s' p start bs' [] /\
    Z.of_nat (length bs') <= Z.of_nat (length bs) + touched off n + 1 /\ disk s' = disk s /\ sb s' = sb s /\
    (forall j, ino s' j = if decide (j = i) then (ino s i) <| i_size := sz |> else ino s j) /\
    (forall a, off_buffers a -> ld8 (k_mem s') a = ld8 (k_mem s) a) /\
    (forall bn, fblock s' i bn = fblock s i bn) /\
    (forall o, 0 <= o < nb * BSIZE -> fbyte s' i o = if decide (off <= o < off + n) then ld8 (k_mem s) (src + (o - off)) else fbyte s i o) /\
    (forall x, (forall bn, 0 <= bn < nb -> x <> fblock s i bn) -> x <> B -> lc s' x = lc s x).
Proof.
  intros Ht Hw Hoff Hn Hon Hroom Hsrc Hsn Hclear sz B. pose proof Hw as [Hfb Hfd Hi Hwf Hib Hap Hapi].
  pose proof (fb_max _ _ _ Hfb) as Hmax. pose proof (dw_size _ Hwf) as Hsz. change MAXFILE with 268 in Hmax. set (size := i_size (ino s i)) in *.
  destruct (writei_loop_spec fuel p start i nb n (Z.to_nat (n / BSIZE) + 3) s bs src off 0) as (s1 & bs1 & E1 & Hst); rewrite ?Z.sub_0_r in *; try done; try lia.
  { pose proof (touched_room off n ltac:(lia) Hn). rewrite Nat2Z.inj_add, Z2Nat.id by (unfold BSIZE; div_lia). lia. }
  pose proof (sd_log _ _ _ _ _ _ _ _ _ _ _ Hst) as Hl1.
  destruct (writei_end s s1 p start bs bs1 i nb off n _ sz Hw Hst) as (s2 & E2 & T2 & Hd2 & Hsb2 & Hi2 & Hm2 & Hb2 & Hy2 & Hx2); [lia|unfold sz, BSIZE in *; lia|].
  exists s2, (log_add bs1 B). split_and!; try done.
  - unfold writei. rewrite bind_gets. fold size. rewrite u32_small by (unfold BSIZE in *; lia).
    destruct (Z.ltb_spec size off); [lia|]. destruct (Z.ltb_spec (off + n) off); [lia|]. cbn [orb].
    destruct (Z.ltb_spec (MAXFILE * BSIZE) (off + n)); [change MAXFILE with 268 in *; unfold BSIZE in *; lia|].
    rewrite (bind_ret _ _ _ _ _ E1). cbn [fst snd]. fold size.
    rewrite (bind_ret (if size <? off + n then _ else _) _ s1 tt (upd_ino s1 i (fun p => p <| i_size := sz |>))).
    + rewrite (bind_ret _ _ _ _ _ E2), i32_small by (unfold BSIZE in *; lia). done.
    + destruct (Z.ltb_spec size (off + n)); [unfold sz; rewrite Z.max_r by lia; done|]. rewrite upd_ino_same; [done| |by rewrite (fr_inode _ _ (sd_frame _ _ _ _ _ _ _ _ _ _ _ Hst))].
      assert (Ei : ino s1 i = ino s i) by (unfold ino; by rewrite (fr_inode _ _ (sd_frame _ _ _ _ _ _ _ _ _ _ _ Hst))). rewrite Ei.
      unfold sz. rewrite Z.max_l by lia. unfold size. by destruct (ino s i).
  - pose proof (length_log_add bs1 B). lia.
  - intros o Ho. rewrite Hy2 by done. exact (sd_byte _ _ _ _ _ _ _ _ _ _ _ Hst o Ho).
  - intros x Hx HxB. rewrite Hx2 by done. by apply (sd_other _ _ _ _ _ _ _ _ _ _ _ Hst).
Qed.
End Inode.

Section FileClaims.
Context `{KernelImage}.

(** readi copies the bytes of the file to kernel memory: from an offset
    inside the file it returns the number of bytes asked for, or the number up
    to the end of the file, and memory elsewhere, the file system's blocks and
    the inodes stay as they are; past the end of the file, or when the range
    wraps around, it returns 0. *)
Theorem readi_reads fuel s p start bs i nb dst off n :
  txn s p start bs [] -> (length bs < 30)%nat -> file_blocks s i nb -> 0 <= i_size (ino s i) <= nb * BSIZE ->
  0 <= off < 2 ^ 32 -> 0 <= n < 2 ^ 32 -> 0 <= dst -> dst + n < 2 ^ 64 -> clear_of_buffers dst n ->
  let size := i_size (ino s i) in
  if (size <? off) || (2 ^ 32 <=? off + n) then readi fuel i false dst off n s = Ret 0 s
  else let r := Z.min n (size - off) in
    exists s', readi fuel i false dst off n s = Ret r s' /\ txn s' p start bs [] /\ disk s' = disk s /\
      (forall x, lc s' x = lc s x) /\ (forall j, ino s' j = ino s j) /\
      forall a, off_buffers a -> ld8 (k_mem s') a = if decide (dst <= a < dst + r) then fbyte s i (off + (a - dst)) else ld8 (k_mem s) a.
Proof.
  intros Ht Hlen Hfb Hsz Hoff Hn Hdst Hdn Hclear size.
  pose proof (readi_spec fuel s p start bs i nb dst off n Ht Hlen Hfb Hsz Hoff Hn Hdst Hdn Hclear) as Hs. cbv zeta in Hs |- *. fold size in Hs.
  destruct (_ || _); [done|]. destruct Hs as (s' & E & [T Hfs Hd Hsb Hm]). exists s'. split_and!; try done; [apply Hfs|].
  intros j. by apply ino_same.
Qed.

End FileClaims.

(** Locals on the kernel stack are clear of the buffers. *)
Lemma clear_kstk `{KernelImage} k n : clear_of_buffers (kstk k) n.
Proof. intros i Hi. right. pose proof (kbuf_range i Hi). pose proof kend_range. pose proof (kstk_range k). unfold BSIZE. lia. Qed.
Definition ex_file : kstate := ex_ino <| k_mem := st8 (k_mem ex_ino) (@kstk example_image 0) 65 |>.
Lemma ex_file_txn : @txn example_image ex_file 0 2 [] [].
Proof.
  apply txn_mem; [apply ex_fs_txn; constructor|]. intros a Ha. apply ld8_st8_ne. intros <-. apply Ha.
  apply (@clear_off example_image (@kstk example_image 0) 1); [apply clear_kstk|lia].
Qed.
Lemma ex_file_blocks : @file_blocks example_image ex_file 0 3.
Proof.
  split; [done|vm_compute; discriminate| |vm_compute; discriminate]. intros bn Hbn.
  assert (bn = 0 \/ bn = 1 \/ bn = 2) as [->|[->| ->]] by lia; vm_compute; split; congruence.
Qed.
Lemma readi_reads_witness : exists s', @readi example_image 0 0 false (@kstk example_image 0) 2000 5000 ex_file = Ret 1000 s'.
Proof.
  pose proof (@readi_reads example_image 0 ex_file 0 2 [] 0 3 (@kstk example_image 0) 2000 5000 ex_file_txn ltac:(cbn; lia) ex_file_blocks
    ltac:(vm_compute; split; congruence) ltac:(lia) ltac:(lia) ltac:(vm_compute; congruence) ltac:(vm_compute; congruence) (clear_kstk _ _)) as Hr.
  cbv zeta in Hr. change (i_size (ino ex_file 0)) with 3000 in Hr. destruct Hr as (s' & E & _). exists s'. exact E.
Defined.
Lemma ex_file_writable : @writable example_image ex_file 0 3.
Proof.
  split.
  - exact ex_file_blocks.
  - split.
    + intros bn bn' Hbn Hbn' E. assert (bn = 0 \/ bn = 1 \/ bn = 2) as [->|[->| ->]] by lia;
        assert (bn' = 0 \/ bn' = 1 \/ bn' = 2) as [->|[->| ->]] by lia; vm_compute in E; congruence.
    + intros bn Hbn. assert (bn = 0 \/ bn = 1 \/ bn = 2) as [->|[->| ->]] by lia; vm_compute; congruence.
  - apply Nat.ltb_lt. vm_compute. reflexivity.
  - exact ex_inode_wf.
  - split_and!; vm_compute; (discriminate || reflexivity).
  - intros bn Hbn. assert (bn = 0 \/ bn = 1 \/ bn = 2) as [->|[->| ->]] by lia; vm_compute; congruence.
  - vm_compute. congruence.
Qed.
