(* ===== verification/Directory.v ===== *)
(** * Directories: dirlookup, and the inode table: iget

    A directory is a file of 16-byte entries; [dent s dp k] is the [k]th: its
    inode number and its name, up to 14 bytes without the NUL that ends a
    shorter one. *)

From S2P Require Import Prelude Memory FsState State Sched SchedSpec Printf Sleeplock Bio BioSpec Log LogSpec Kalloc VM Disk Memsys VMFault Fs FsSpec Dinode Inode.
Import Mem KString.

(** ** Names *)

(** The C string of at most [n] bytes that [f] reads from index [k] on. *)
Fixpoint cstr (n : nat) (f : Z -> Z) (k : Z) : list Z :=
  match n with
  | O => []
  | S n' => if f k =? 0 then [] else f k :: cstr n' f (k + 1)
  end.
Lemma cstr_ext n : forall f g k k', (forall o, 0 <= o < Z.of_nat n -> f (k + o) = g (k' + o)) -> cstr n f k = cstr n g k'.
Proof.
  induction n as [|n IH]; intros f g k k' E; cbn [cstr]; [done|].
  assert (E0 : f k = g k') by (specialize (E 0 ltac:(lia)); by rewrite !Z.add_0_r in E). rewrite E0.
  rewrite (IH f g (k + 1) (k' + 1)); [done|]. intros o Ho. rewrite <- !Z.add_assoc. apply E. lia.
Qed.
Lemma strncmp_eq m n : forall p q, strncmp_loop m p q n = 0 <-> cstr n (ld8 m) p = cstr n (ld8 m) q.
Proof.
  induction n as [|n IH]; intros p q; cbn [strncmp_loop cstr]; [done|].
  pose proof (ld8_range m p). pose proof (ld8_range m q). destruct (Z.eqb_spec (ld8 m p) 0) as [E1|E1]; cbn [negb andb].
  - rewrite E1. destruct (Z.eqb_spec (ld8 m q) 0); [split; [done|lia]|split; [lia|done]].
  - destruct (Z.eqb_spec (ld8 m p) (ld8 m q)) as [E3|E3].
    + rewrite IH, <- E3. rewrite (proj2 (Z.eqb_neq _ _) E1). split; [by intros ->|by intros [= ->]].
    + destruct (Z.eqb_spec (ld8 m q) 0); split; try lia; [done|by intros [= ? ?]].
Qed.

Section Directory.
Context `{KernelImage}.

(** ** Entries *)
Definition dent (s : kstate) (dp : nat) (k : Z) : Z * list Z :=
  (fbyte s dp (DIRENT_SIZE * k) + 256 * fbyte s dp (DIRENT_SIZE * k + 1), cstr (Z.to_nat DIRSIZ) (fbyte s dp) (DIRENT_SIZE * k + 2)).
(** The first entry in use with the name, and its offset. *)
Fixpoint dir_find (ents : list (Z * list Z)) (nm : list Z) (off : Z) : option (Z * Z) :=
  match ents with
  | [] => None
  | (inum, n) :: r => if (inum =? 0) || negb (bool_decide (nm = n)) then dir_find r nm (off + DIRENT_SIZE) else Some (inum, off)
  end.

Section Lookup.
Context (p : nat) (start : Z) (bs : list Z) (s0 : kstate) (dp : nat) (ne name : Z) (fuel : nat).
Let nm : list Z := cstr (Z.to_nat DIRSIZ) (ld8 (k_mem s0)) name.
Context (Hlen : (length bs < 30)%nat) (Hsize : i_size (ino s0 dp) = DIRENT_SIZE * ne)
  (Hfb : file_blocks s0 dp (DIRENT_SIZE * ne / BSIZE + 1)) (Hde : de_lookup + DIRENT_SIZE < 2 ^ 64)
  (Hname : clear_of_buffers name DIRSIZ) (Hsep : name + DIRSIZ <= de_lookup \/ de_lookup + DIRENT_SIZE <= name).

(** The state during the search: only the entry on the stack has changed. *)
Record searching (s : kstate) : Prop := {
  sg_txn : txn s p start bs [];
  sg_files : same_files s0 s;
  sg_disk : disk s = disk s0;
  sg_sb : sb s = sb s0;
  sg_mem : forall a, off_buffers a -> a < de_lookup \/ de_lookup + DIRENT_SIZE <= a -> ld8 (k_mem s) a = ld8 (k_mem s0) a
}.
Lemma clear_de : clear_of_buffers de_lookup DIRENT_SIZE.
Proof. intros i Hi. right. unfold de_lookup. pose proof (kbuf_range i Hi). pose proof kend_range. pose proof (kstk_range 0). unfold BSIZE. lia. Qed.
Lemma clear_de_off o : 0 <= o < DIRENT_SIZE -> off_buffers (de_lookup + o).
Proof. intros Ho. apply (clear_off de_lookup DIRENT_SIZE); [apply clear_de|lia]. Qed.

Lemma read_dirent s j : searching s -> 0 <= j < ne ->
  exists s', readi fuel dp false de_lookup (DIRENT_SIZE * j) DIRENT_SIZE s = Ret DIRENT_SIZE s' /\ searching s' /\
    ld16 (k_mem s') de_lookup = fst (dent s0 dp j) /\ cstr (Z.to_nat DIRSIZ) (ld8 (k_mem s')) (de_lookup + 2) = snd (dent s0 dp j).
Proof.
  intros [Ht Hfs Hd Hsb Hm] Hj. pose proof (fb_max _ _ _ Hfb) as Hmax. change MAXFILE with 268 in Hmax.
  assert (Hne2 : ne < 2 ^ 20) by (unfold DIRENT_SIZE, BSIZE in *; div_lia).
  assert (Hdl : 0 <= de_lookup) by (pose proof (kstk_range 0); unfold de_lookup; assert (0 <= PHYSTOP) by (vm_compute; discriminate); lia).
  pose proof (readi_spec fuel s p start bs dp _ de_lookup (DIRENT_SIZE * j) DIRENT_SIZE Ht Hlen (file_blocks_same s0 s Hfs _ _ Hfb)) as Hr.
  rewrite (ino_same s0 s Hfs), Hsize in Hr. cbv zeta in Hr.
  rewrite (proj2 (orb_false_iff _ _)) in Hr by (split; [apply Z.ltb_ge|apply Z.leb_gt]; unfold DIRENT_SIZE in *; lia).
  rewrite Z.min_l in Hr by (unfold DIRENT_SIZE; lia).
  destruct Hr as (s' & E & [T Hfs' Hd' Hsb' Hm']); [unfold DIRENT_SIZE, BSIZE in *; div_lia|unfold DIRENT_SIZE in *; lia|done|done|done|apply clear_de|].
  assert (Hb : forall o, 0 <= o < DIRENT_SIZE -> ld8 (k_mem s') (de_lookup + o) = fbyte s0 dp (DIRENT_SIZE * j + o)).
  { intros o Ho. rewrite Hm', decide_True by (lia || by apply clear_de_off). rewrite (fbyte_same s0 s Hfs). f_equal. lia. }
  exists s'. split_and!; [done| | |].
  - split; [done| |by rewrite Hd'|by rewrite Hsb'|].
    + destruct Hfs as [F1 F2], Hfs' as [G1 G2]. split; [congruence|intros x; by rewrite G2].
    + intros a Ha Hout. rewrite Hm', decide_False by (done || lia). by apply Hm.
  - unfold ld16. cbn [ld]. pose proof (Hb 0 ltac:(done)) as H0. rewrite !Z.add_0_r in H0. rewrite H0, Hb by done.
    unfold dent. cbn [fst]. lia.
  - unfold dent. cbn [snd]. apply cstr_ext. intros o Ho. rewrite <- !Z.add_assoc. apply Hb. change (Z.of_nat (Z.to_nat DIRSIZ)) with 14 in Ho. unfold DIRENT_SIZE. lia.
Qed.
Lemma name_kept s : searching s -> cstr (Z.to_nat DIRSIZ) (ld8 (k_mem s)) name = nm.
Proof.
  intros Hs. apply cstr_ext. intros o Ho. change (Z.of_nat (Z.to_nat DIRSIZ)) with 14 in Ho. unfold DIRSIZ in *.
  apply (sg_mem _ Hs); [|lia]. apply (clear_off name 14); [done|lia].
Qed.
Definition found (r : option (Z * Z)) : K (option (nat * Z)) :=
  match r with
  | Some (inum, off) => i ← iget ROOTDEV inum; mret (Some (i, off))
  | None => mret None
  end.
Lemma dirlookup_loop_spec k : forall s j, searching s -> 0 <= j <= ne -> ne - j < Z.of_nat k ->
  exists s', searching s' /\ dirlookup_loop k fuel dp name (DIRENT_SIZE * j) s =
    found (dir_find (dent s0 dp <$> seqZ j (ne - j)) nm (DIRENT_SIZE * j)) s'.
Proof.
  induction k as [|k IH]; intros s j Hs Hj Hk; [lia|]. cbn [dirlookup_loop]. rewrite bind_gets, (ino_same s0 s (sg_files _ Hs)), Hsize.
  destruct (Z.ltb_spec (DIRENT_SIZE * j) (DIRENT_SIZE * ne)) as [Hlt|Hge].
  2:{ assert (j = ne) as -> by (unfold DIRENT_SIZE in *; lia). exists s. rewrite Z.sub_diag. done. }
  assert (Hjn : 0 <= j < ne) by (unfold DIRENT_SIZE in *; lia). destruct (read_dirent s j Hs Hjn) as (s1 & E1 & Hs1 & Hi1 & Hn1).
  rewrite (bind_ret _ _ _ _ _ E1), Z.eqb_refl. cbn [negb]. unfold mget. rewrite !bind_gets, Hi1.
  rewrite seqZ_cons by lia. rewrite fmap_cons. destruct (dent s0 dp j) as [inum dn] eqn:Ed. cbn [fst snd dir_find] in *.
  assert (Hcmp : (namecmp (k_mem s1) name (de_lookup + 2) =? 0) = bool_decide (nm = dn)).
  { apply eq_true_iff_eq. rewrite Z.eqb_eq, bool_decide_eq_true. unfold namecmp, strncmp. rewrite strncmp_eq, name_kept, Hn1 by done. done. }
  rewrite Hcmp. destruct ((inum =? 0) || negb (bool_decide (nm = dn))).
  - pose proof (fb_max _ _ _ Hfb) as Hmax. change MAXFILE with 268 in Hmax.
    replace (u32 (DIRENT_SIZE * j + DIRENT_SIZE)) with (DIRENT_SIZE * (j + 1)) by (rewrite u32_small; unfold DIRENT_SIZE, BSIZE in *; div_lia).
    replace (DIRENT_SIZE * j + DIRENT_SIZE) with (DIRENT_SIZE * (j + 1)) by (unfold DIRENT_SIZE; lia).
    replace (Z.pred (ne - j)) with (ne - (j + 1)) by lia. rewrite <- Z.add_1_r. apply IH; [done|lia|lia].
  - exists s1. split; [done|]. cbn [found]. by rewrite bind_gets, (ino_same s0 s1 (sg_files _ Hs1)), (fb_dev _ _ _ Hfb).
Qed.
End Lookup.
End Directory.

(** ** The inode table *)
Record itable_inv (s : kstate) : Prop := {
  it_len : length (fs_inode (k_fs s)) = Z.to_nat NINODE;
  it_ref : forall i, 0 <= i_ref (ino s i) < 2 ^ 31 - 1;
  it_uniq : forall i j, 0 < i_ref (ino s i) -> 0 < i_ref (ino s j) -> i_dev (ino s i) = i_dev (ino s j) ->
    i_inum (ino s i) = i_inum (ino s j) -> i = j
}.
Lemma in_table_spec s dev inum i : in_table s dev inum i = true <-> 0 < i_ref (ino s i) /\ i_dev (ino s i) = dev /\ i_inum (ino s i) = inum.
Proof. unfold in_table. rewrite !andb_true_iff, Z.ltb_lt, !Z.eqb_eq. tauto. Qed.
Lemma ino_default s i : length (fs_inode (k_fs s)) = Z.to_nat NINODE -> (Z.to_nat NINODE <= i)%nat -> ino s i = inode0.
Proof. intros Hl Hi. unfold ino. by rewrite lookup_ge_None_2 by lia. Qed.
Lemma find_table f i n : (forall j, f j = true -> (j < n)%nat) -> f i = true -> exists j, find f (seq 0 n) = Some j /\ f j = true /\ (j < n)%nat.
Proof.
  intros Hn Hi. destruct (find f (seq 0 n)) as [j|] eqn:E; [apply find_some in E as [Hj%in_seq Hf]; exists j; split_and!; [done|done|lia]|].
  eapply find_none in E; [|apply in_seq; pose proof (Hn i Hi); split; [lia|done]]. congruence.
Qed.
(** The entry iget gives. *)
Definition iget_entry (s : kstate) (dev inum : Z) (i : nat) : inode :=
  if in_table s dev inum i then (ino s i) <| i_ref := i_ref (ino s i) + 1 |>
  else (ino s i) <| i_dev := dev |> <| i_inum := inum |> <| i_ref := 1 |> <| i_valid := false |>.
Lemma iget_hit s dev inum i : itable_inv s -> in_table s dev inum i = true -> i_ref (ino s i) < 2 ^ 31 - 2 ->
  iget dev inum s = Ret i (upd_ino s i (fun p => p <| i_ref := i32 (i_ref p + 1) |>)) /\ (i < Z.to_nat NINODE)%nat.
Proof.
  intros Hit Hin Href. assert (Hlt : forall j, in_table s dev inum j = true -> (j < Z.to_nat NINODE)%nat).
  { intros j (Hr & _)%in_table_spec. destruct (decide (j < Z.to_nat NINODE)%nat); [done|]. rewrite ino_default in Hr by (apply Hit || lia). cbn in Hr. lia. }
  split; [|by apply Hlt]. unfold iget. rewrite bind_gets. destruct (find_table _ i _ Hlt Hin) as (j & Ej & Hj & _). rewrite Ej.
  assert (j = i) as -> by (apply in_table_spec in Hj as (? & ? & ?), Hin as (? & ? & ?); apply (it_uniq _ Hit); congruence || lia).
  done.
Qed.

Lemma itable_upd s i f :
  itable_inv s -> (i < Z.to_nat NINODE)%nat -> 0 <= i_ref (f (ino s i)) < 2 ^ 31 - 1 ->
  (forall j, j <> i -> 0 < i_ref (ino s j) -> i_dev (ino s j) = i_dev (f (ino s i)) -> i_inum (ino s j) = i_inum (f (ino s i)) -> False) ->
  itable_inv (upd_ino s i f) /\ forall j, ino (upd_ino s i f) j = if decide (j = i) then f (ino s i) else ino s j.
Proof.
  intros [Hl Hr Hu] Hi Href Hne.
  assert (Hino : forall j, ino (upd_ino s i f) j = if decide (j = i) then f (ino s i) else ino s j).
  { intros j. rewrite ino_upd by lia. by destruct (decide (j = i)) as [->|]. }
  split; [|done]. split; [cbn; by rewrite length_alter|intros j; rewrite Hino; by destruct (decide (j = i))|].
  intros a b. rewrite !Hino. destruct (decide (a = i)) as [->|Ha], (decide (b = i)) as [->|Hb]; try done.
  - intros _ Hrb E1 E2. exfalso. by apply (Hne b).
  - intros Hra _ E1 E2. exfalso. by apply (Hne a).
  - apply Hu.
Qed.
Lemma iget_again s dev inum i f :
  itable_inv (upd_ino s i f) -> (forall j, ino (upd_ino s i f) j = if decide (j = i) then f (ino s i) else ino s j) ->
  i_dev (f (ino s i)) = dev -> i_inum (f (ino s i)) = inum -> 0 < i_ref (f (ino s i)) < 2 ^ 31 - 2 ->
  exists s'', iget dev inum (upd_ino s i f) = Ret i s''.
Proof.
  intros Hit Hino Hd Hn Hr. assert (Hi : ino (upd_ino s i f) i = f (ino s i)) by (by rewrite Hino, decide_True).
  eexists. apply (iget_hit _ dev inum i Hit); [|rewrite Hi; lia]. apply in_table_spec. rewrite Hi. split_and!; [lia|done|done].
Qed.

(** C22. The inode table holds an inode at most once: iget returns the entry of
    the inode when there is one, with one more reference, and otherwise a
    free entry, set up for it and not yet read; the other entries keep
    what they hold and the table stays without duplicates, so that the next
    iget of the inode returns the same entry.  It panics exactly when the
    inode is not in the table and every entry is in use. *)
Theorem iget_unique s dev inum :
  itable_inv s -> (forall i, i_ref (ino s i) < 2 ^ 31 - 3) ->
  (exists i s', iget dev inum s = Ret i s' /\ itable_inv s' /\ (i < Z.to_nat NINODE)%nat /\
     (in_table s dev inum i = true \/ i_ref (ino s i) = 0 /\ forall j, in_table s dev inum j = false) /\
     (forall j, ino s' j = if decide (j = i) then iget_entry s dev inum i else ino s j) /\
     exists s'', iget dev inum s' = Ret i s'') \/
  (iget dev inum s = Panic "iget: no inodes" s /\ (forall j, in_table s dev inum j = false) /\
   forall j, (j < Z.to_nat NINODE)%nat -> i_ref (ino s j) <> 0).
Proof.
  intros Hit Hbound. destruct (find (in_table s dev inum) (seq 0 (Z.to_nat NINODE))) as [i|] eqn:E.
  - left. apply find_some in E as [_ Hin]. pose proof (Hbound i). destruct (iget_hit s dev inum i Hit Hin ltac:(lia)) as [Eg Hi].
    pose proof (proj1 (in_table_spec _ _ _ _) Hin) as (Hr & Hd & Hn). set (f := fun p : inode => p <| i_ref := i32 (i_ref p + 1) |>) in *.
    assert (Hf : i_ref (f (ino s i)) = i_ref (ino s i) + 1) by (apply i32_small; lia).
    destruct (itable_upd s i f Hit Hi) as [Hit' Hino].
    { lia. }
    { intros j Hj Hrj E1 E2. apply Hj. by apply (it_uniq _ Hit). }
    exists i, (upd_ino s i f). split_and!; [done|done|done|by left| |apply (iget_again s dev inum i f Hit' Hino Hd Hn); lia].
    intros j. rewrite Hino. case_decide; [|done]. unfold iget_entry. rewrite Hin, <- Hf. by destruct (ino s i).
  - assert (Hno : forall j, in_table s dev inum j = false).
    { intros j. destruct (in_table s dev inum j) eqn:Ej; [|done]. destruct (decide (j < Z.to_nat NINODE)%nat).
      - eapply find_none in E; [|apply in_seq; split; [apply le_0_n|done]]. congruence.
      - apply in_table_spec in Ej as [Hr _]. rewrite ino_default in Hr by (apply Hit || lia). cbn in Hr. lia. }
    destruct (find (fun i => i_ref (ino s i) =? 0) (seq 0 (Z.to_nat NINODE))) as [i|] eqn:E2.
    + left. pose proof (find_some _ _ E2) as [Hi%in_seq Hr%Z.eqb_eq].
      set (f := fun p : inode => p <| i_dev := dev |> <| i_inum := inum |> <| i_ref := 1 |> <| i_valid := false |>).
      destruct (itable_upd s i f Hit) as [Hit' Hino]; [lia|cbn; lia| |].
      { intros j Hj Hrj E3 E4. specialize (Hno j). rewrite (proj2 (in_table_spec s dev inum j)) in Hno; done. }
      exists i, (upd_ino s i f). split_and!; [|done|lia|right; split; done| |apply (iget_again s dev inum i f Hit' Hino); [done|done|cbn; lia]].
      * unfold iget. rewrite bind_gets, E, bind_gets, E2. done.
      * intros j. rewrite Hino. case_decide; [|done]. unfold iget_entry. by rewrite Hno.
    + right. split_and!; [unfold iget; by rewrite bind_gets, E, bind_gets, E2|done|]. intros j Hj Hz.
      eapply find_none in E2; [|apply in_seq; split; [apply le_0_n|exact Hj]]. rewrite Hz in E2. done.
Qed.
Section DirectoryClaims.
Context `{KernelImage}.

End DirectoryClaims.

(** A directory with the entries [.] (1) and [a] (7). *)
Definition ex_dirblock : list Z := [1; 0; 46] ++ replicate 13 0 ++ [7; 0; 97] ++ replicate 1005 0.
Definition ex_dirnode : inode := mkinode ROOTDEV 1 1 sleeplock0 true T_DIR 0 0 1 32 (60 :: replicate 12 0).
Definition ex_dir : kstate :=
  let s := ex_fs [(60, ex_dirblock)] (mksb FSMAGIC 100 54 200 31 2 32 45) ex_dirnode in
  s <| k_mem := st8 (k_mem s) (@kstk example_image 2) 97 |>.
Lemma ex_dir_txn : @txn example_image ex_dir 0 2 [] [].
Proof.
  apply txn_mem.
  - apply ex_fs_txn. apply Forall_singleton. split; [done|]. apply (bool_decide_unpack _). vm_compute. exact I.
  - intros a Ha. apply ld8_st8_ne. intros <-. apply Ha. apply (@clear_off example_image (@kstk example_image 2) 1); [apply clear_kstk|lia].
Qed.
Lemma iget_unique_witness : exists s', iget ROOTDEV 9 ex_dir = Ret 1%nat s' /\ itable_inv s'.
Proof.
  assert (Hr : forall i, i_ref (ino ex_dir i) = 0 \/ i = 0%nat /\ i_ref (ino ex_dir i) = 1).
  { intros [|i]; [right; split; reflexivity|left]. unfold ino. cbn [k_fs ex_dir]. change (fs_inode (k_fs ex_dir)) with (ex_dirnode :: replicate 49 inode0).
    cbn [lookup list_lookup]. destruct (replicate 49 inode0 !! i) as [x|] eqn:E; [|reflexivity]. apply lookup_replicate in E as [-> _]. reflexivity. }
  destruct (iget_unique ex_dir ROOTDEV 9) as [(i & s' & E & Hi & _)|(E & _ & _)].
  - split; [vm_compute; reflexivity|intros i; destruct (Hr i) as [->|[_ ->]]; lia|].
    intros i j Hi Hj _ _. destruct (Hr i) as [Hz|[-> _]], (Hr j) as [Hz2|[-> _]]; try lia; reflexivity.
  - intros i. destruct (Hr i) as [->|[_ ->]]; lia.
  - exists s'. split; [|exact Hi]. rewrite E. f_equal. assert (Ei : exists s2, iget ROOTDEV 9 ex_dir = Ret 1%nat s2) by (eexists; vm_compute; reflexivity).
    destruct Ei as [s2 Ei]. congruence.
  - exfalso. assert (Ei : exists s2, iget ROOTDEV 9 ex_dir = Ret 1%nat s2) by (eexists; vm_compute; reflexivity).
    destruct Ei as [s2 Ei]. congruence.
Defined.
