(* ===== verification/Path.v ===== *)
(** * Path names: skipelem

    A path is a C string; its components are what stands between the slashes.
    The calls of skipelem that namex makes deliver them in order. *)

From S2P Require Import Prelude Memory FsState State Sched SchedSpec Printf Sleeplock Bio BioSpec Log LogSpec Kalloc VM Disk Memsys VMFault Fs FsSpec Dinode Inode Directory.
Import Mem KString.

(** ** Paths as byte lists *)
Fixpoint lstrip (cs : list Z) : list Z :=
  match cs with [] => [] | c :: r => if c =? slash then lstrip r else cs end.
Fixpoint elem (cs : list Z) : list Z :=
  match cs with [] => [] | c :: r => if c =? slash then [] else c :: elem r end.
Fixpoint after (cs : list Z) : list Z :=
  match cs with [] => [] | c :: r => if c =? slash then cs else after r end.

(** The string [cs] at address [a]. *)
Definition string_at (m : mem) (a : Z) (cs : list Z) : Prop :=
  (forall k c, cs !! k = Some c -> ld8 m (a + Z.of_nat k) = c /\ c <> 0) /\ ld8 m (a + Z.of_nat (length cs)) = 0.
Lemma string_at_cons m a c cs : string_at m a (c :: cs) <-> ld8 m a = c /\ c <> 0 /\ string_at m (a + 1) cs.
Proof.
  unfold string_at. split.
  - intros [H1 H2]. destruct (H1 0%nat c eq_refl) as [E N]. rewrite Z.add_0_r in E. split_and!; [done|done| |].
    + intros k x Hk. destruct (H1 (S k) x Hk) as [E' N']. split; [|done]. rewrite <- E'. f_equal. lia.
    + rewrite <- H2. cbn [length]. f_equal. lia.
  - intros (E & N & H1 & H2). split.
    + intros [|k] x Hk; cbn in Hk; [injection Hk as <-; by rewrite Z.add_0_r|]. destruct (H1 k x Hk) as [E' N']. split; [|done]. rewrite <- E'. f_equal. lia.
    + cbn [length]. rewrite <- H2. f_equal. lia.
Qed.
Lemma string_at_nil m a : string_at m a [] <-> ld8 m a = 0.
Proof. unfold string_at. cbn. rewrite Z.add_0_r. split; [by intros [_ ?]|intros E; split; [by intros k c|done]]. Qed.
Lemma string_at_ext m m' a cs : (forall b, a <= b <= a + Z.of_nat (length cs) -> ld8 m' b = ld8 m b) -> string_at m a cs -> string_at m' a cs.
Proof.
  intros E [H1 H2]. split; [|by rewrite E by lia]. intros k c Hk. pose proof (lookup_lt_Some _ _ _ Hk). rewrite E by lia. by apply H1.
Qed.

Lemma length_lstrip cs : (length (lstrip cs) <= length cs)%nat.
Proof. induction cs as [|c cs IH]; cbn; [done|]. destruct (c =? slash); cbn; lia. Qed.
Lemma length_after cs : (length (elem cs) + length (after cs) = length cs)%nat.
Proof. induction cs as [|c cs IH]; cbn; [done|]. destruct (c =? slash); cbn; lia. Qed.
Lemma lstrip_head cs c r : lstrip cs = c :: r -> c <> slash.
Proof. induction cs as [|x cs IH]; cbn; [done|]. destruct (Z.eqb_spec x slash); [done|]. by intros [= -> ->]. Qed.

(** ** The scans *)
Lemma skip_slashes_spec m cs : forall k a, string_at m a cs -> (length cs < k)%nat ->
  skip_slashes k m a = Some (a + Z.of_nat (length cs - length (lstrip cs))) /\
  string_at m (a + Z.of_nat (length cs - length (lstrip cs))) (lstrip cs).
Proof.
  induction cs as [|c cs IH]; intros [|k] a Hs Hk; [cbn in Hk; lia| |cbn in Hk; lia|]; cbn [skip_slashes lstrip length].
  - pose proof (proj1 (string_at_nil _ _) Hs) as E. rewrite E. rewrite Z.add_0_r. done.
  - pose proof (proj1 (string_at_cons _ _ _ _) Hs) as (E & Hc & Hs'). rewrite E. destruct (c =? slash).
    + destruct (IH k (a + 1) Hs') as [E1 E2]; [cbn in Hk; lia|]. pose proof (length_lstrip cs).
      replace (a + Z.of_nat (S (length cs) - length (lstrip cs))) with (a + 1 + Z.of_nat (length cs - length (lstrip cs))) by lia. done.
    + rewrite Nat.sub_diag, Z.add_0_r. done.
Qed.
Lemma skip_element_spec m cs : forall k a, string_at m a cs -> (length cs < k)%nat ->
  skip_element k m a = Some (a + Z.of_nat (length (elem cs))) /\ string_at m (a + Z.of_nat (length (elem cs))) (after cs) /\
  forall j c, elem cs !! j = Some c -> ld8 m (a + Z.of_nat j) = c /\ c <> 0.
Proof.
  induction cs as [|c cs IH]; intros [|k] a Hs Hk; [cbn in Hk; lia| |cbn in Hk; lia|]; cbn [skip_element elem after length].
  - pose proof (proj1 (string_at_nil _ _) Hs) as E. rewrite E. rewrite Z.add_0_r. split_and!; done.
  - pose proof (proj1 (string_at_cons _ _ _ _) Hs) as (E & Hc & Hs'). rewrite E. destruct (Z.eqb_spec c 0); [done|]. rewrite andb_true_r.
    destruct (c =? slash); cbn [negb].
    + cbn [length]. rewrite Z.add_0_r. split_and!; done.
    + destruct (IH k (a + 1) Hs') as (E1 & E2 & E3); [cbn in Hk; lia|]. cbn [length].
      replace (a + Z.of_nat (S (length (elem cs)))) with (a + 1 + Z.of_nat (length (elem cs))) by lia. split_and!; [done|done|].
      intros [|j] x Hj; cbn in Hj; [injection Hj as <-; by rewrite Z.add_0_r|]. rewrite <- (proj1 (E3 j x Hj)). split; [f_equal; lia|]. rewrite (proj1 (E3 j x Hj)). by apply (E3 j).
Qed.

Section Skipelem.
Context `{KernelImage}.

(** The name that skipelem leaves. *)
Lemma cstr_at m a e n : (forall j c, e !! j = Some c -> ld8 m (a + Z.of_nat j) = c /\ c <> 0) -> (length e = n \/ (length e < n)%nat /\ ld8 m (a + Z.of_nat (length e)) = 0) ->
  cstr n (ld8 m) a = e.
Proof.
  revert a n. induction e as [|c e IH]; intros a n He Hn; cbn [length] in Hn.
  - destruct n as [|n]; [done|]. destruct Hn as [?|[_ Hz]]; [done|]. cbn [cstr]. rewrite Z.add_0_r in Hz. by rewrite Hz.
  - destruct n as [|n]; [lia|]. cbn [cstr]. destruct (He 0%nat c eq_refl) as [E Hc]. rewrite Z.add_0_r in E. rewrite E. destruct (Z.eqb_spec c 0); [done|]. f_equal.
    apply IH.
    + intros j x Hj. rewrite <- (proj1 (He (S j) x Hj)). split; [f_equal; lia|]. rewrite (proj1 (He (S j) x Hj)). by apply (He (S j)).
    + destruct Hn as [Hn|[Hn Hz]]; [left; lia|right; split; [lia|]]. rewrite <- Hz. f_equal. lia.
Qed.

Lemma skipelem_spec s path name cs :
  string_at (k_mem s) path cs -> (length cs < path_fuel)%nat -> name + DIRSIZ <= path \/ path + Z.of_nat (length cs) < name ->
  match lstrip cs with
  | [] => skipelem path name s = Ret None s
  | cs' => let r := lstrip (after cs') in
      exists m, let a := path + Z.of_nat (length cs - length r) in skipelem path name s = Ret (Some a) (s <| k_mem := m |>) /\ string_at m a r /\
        cstr (Z.to_nat DIRSIZ) (ld8 m) name = take (Z.to_nat DIRSIZ) (elem cs') /\
        forall x, x < name \/ name + DIRSIZ <= x -> ld8 m x = ld8 (k_mem s) x
  end.
Proof.
  intros Hs Hlen Hsep. destruct (skip_slashes_spec _ _ _ _ Hs Hlen) as [E1 Hs1]. pose proof (length_lstrip cs) as Hl1.
  unfold skipelem. rewrite bind_gets, E1.
  remember (path + Z.of_nat (length cs - length (lstrip cs))) as a1 eqn:Ha1.
  destruct (lstrip cs) as [|c1 r1] eqn:El.
  { apply string_at_nil in Hs1. by rewrite Hs1. }
  destruct (proj1 (string_at_cons _ _ _ _) Hs1) as (Ec & Hc & _). rewrite Ec. destruct (Z.eqb_spec c1 0); [done|].
  rewrite <- El in *. set (cs1 := lstrip cs) in *. destruct (skip_element_spec (k_mem s) cs1 path_fuel a1 Hs1 ltac:(lia)) as (E2 & Hs2 & He). rewrite E2.
  pose proof (length_after cs1) as Hla. pose proof (length_lstrip (after cs1)) as Hlr. set (e := elem cs1) in *. cbv zeta.
  replace (a1 + Z.of_nat (length e) - a1) with (Z.of_nat (length e)) by lia. change path_fuel with 4096%nat in Hlen. rewrite i32_small by lia.
  assert (Hne : (if DIRSIZ <=? Z.of_nat (length e) then kmemmove name a1 DIRSIZ else kmemmove name a1 (Z.of_nat (length e));; mset (fun m => st8 m (name + Z.of_nat (length e)) 0)) s =
    Ret tt (s <| k_mem := if DIRSIZ <=? Z.of_nat (length e) then memmove (k_mem s) name a1 DIRSIZ else st8 (memmove (k_mem s) name a1 (Z.of_nat (length e))) (name + Z.of_nat (length e)) 0 |>)).
  { by destruct (DIRSIZ <=? Z.of_nat (length e)). }
  rewrite (bind_ret _ _ _ _ _ Hne), bind_gets. set (m := if DIRSIZ <=? _ then _ else _). change (k_mem (s <| k_mem := m |>)) with m.
  assert (Hm : forall x, x < name \/ name + DIRSIZ <= x -> ld8 m x = ld8 (k_mem s) x).
  { intros x Hx. unfold m, DIRSIZ in *. destruct (Z.leb_spec 14 (Z.of_nat (length e))); [|rewrite ld8_st8_ne by lia]; rewrite ld8_memmove, decide_False by lia; done. }
  assert (Hs2' : string_at m (a1 + Z.of_nat (length e)) (after cs1)).
  { apply (string_at_ext (k_mem s)); [|done]. intros b Hb. apply Hm. unfold DIRSIZ in *. lia. }
  destruct (skip_slashes_spec _ _ path_fuel _ Hs2') as [E3 Hs3]; [change path_fuel with 4096%nat; lia|]. rewrite E3.
  exists m. replace (path + Z.of_nat (length cs - length (lstrip (after cs1)))) with (a1 + Z.of_nat (length e) + Z.of_nat (length (after cs1) - length (lstrip (after cs1)))) by lia.
  split_and!; [done|done| |done]. apply cstr_at.
  - intros j c Hj. rewrite lookup_take_Some in Hj. destruct Hj as [Hj Hj14]. change (Z.to_nat DIRSIZ) with 14%nat in Hj14. destruct (He j c Hj) as [<- Hc']. split; [|done].
    pose proof (lookup_lt_Some _ _ _ Hj). unfold m, DIRSIZ. destruct (Z.leb_spec 14 (Z.of_nat (length e))); [|rewrite ld8_st8_ne by lia];
      rewrite ld8_memmove, decide_True by lia; f_equal; lia.
  - rewrite length_take. change (Z.to_nat DIRSIZ) with 14%nat. unfold m, DIRSIZ. destruct (Z.leb_spec 14 (Z.of_nat (length e))); [left; lia|right]. split; [lia|].
    rewrite Nat.min_r by lia. by rewrite ld8_st8_eq.
Qed.

(** ** The components *)
Fixpoint split (cs : list Z) : list (list Z) :=
  match cs with
  | [] => [[]]
  | c :: r => if c =? slash then [] :: split r else match split r with w :: ws => (c :: w) :: ws | [] => [[c]] end
  end.
Definition nonempty (w : list Z) : bool := negb (bool_decide (w = [])).
Lemma split_elem cs : split cs = elem cs :: match after cs with [] => [] | _ :: r => split r end.
Proof. induction cs as [|c cs IH]; [done|]. cbn [split elem after]. destruct (c =? slash); [done|]. by rewrite IH. Qed.
Lemma split_lstrip cs : List.filter nonempty (split (lstrip cs)) = List.filter nonempty (split cs).
Proof. induction cs as [|c cs IH]; [done|]. cbn [lstrip]. destruct (c =? slash) eqn:E; [|done]. cbn [split]. rewrite E. exact IH. Qed.
Lemma lstrip_nil cs : lstrip cs = [] -> List.filter nonempty (split cs) = [].
Proof. intros E. by rewrite <- split_lstrip, E. Qed.
Lemma elem_head c r : c <> slash -> nonempty (elem (c :: r)) = true.
Proof. intros Hc. cbn [elem]. by rewrite (proj2 (Z.eqb_neq _ _) Hc). Qed.
Lemma after_cons cs c r : after cs = c :: r -> c = slash.
Proof. induction cs as [|x cs IH]; [done|]. cbn [after]. destruct (Z.eqb_spec x slash) as [->|]; [by intros [= -> _]|done]. Qed.
(** A path is its first component and the path after it. *)
Lemma split_first cs : lstrip cs <> [] ->
  List.filter nonempty (split cs) = elem (lstrip cs) :: List.filter nonempty (split (lstrip (after (lstrip cs)))).
Proof.
  intros Hn. rewrite <- split_lstrip. destruct (lstrip cs) as [|c r] eqn:E; [done|]. pose proof (lstrip_head _ _ _ E) as Hc.
  rewrite split_elem at 1. cbn [List.filter]. rewrite elem_head by done. f_equal. rewrite split_lstrip.
  destruct (after (c :: r)) as [|x r'] eqn:Ea; [done|]. rewrite (after_cons _ _ _ Ea). cbn [split]. rewrite Z.eqb_refl. done.
Qed.

(** The names that the calls of skipelem in namex's loop leave. *)
Fixpoint elements (k : nat) (path name : Z) : K (list (list Z)) :=
  match k with
  | O => no_fuel
  | S k' =>
      r ← skipelem path name;
      match r with
      | None => mret []
      | Some path =>
          nm ← gets (fun s => cstr (Z.to_nat DIRSIZ) (ld8 (k_mem s)) name);
          rest ← elements k' path name;
          mret (nm :: rest)
      end
  end.

(** C31. skipelem takes a path apart: the calls that namex makes deliver exactly
    the parts of the path between slashes that are not empty, in order, each cut
    to 14 bytes, whether slashes lead, end or are doubled; each call writes
    nothing but the name, and the search ends. *)
Theorem skipelem_components k cs : forall s path name,
  string_at (k_mem s) path cs -> (length cs < path_fuel)%nat -> name + DIRSIZ <= path \/ path + Z.of_nat (length cs) < name ->
  (length cs < k)%nat ->
  exists m, elements k path name s = Ret (take (Z.to_nat DIRSIZ) <$> List.filter nonempty (split cs)) (s <| k_mem := m |>) /\
    forall x, x < name \/ name + DIRSIZ <= x -> ld8 m x = ld8 (k_mem s) x.
Proof.
  revert cs. induction k as [|k IH]; intros cs s path name Hs Hlen Hsep Hk; [lia|]. cbn [elements].
  pose proof (skipelem_spec s path name cs Hs Hlen Hsep) as Hsk. destruct (lstrip cs) as [|c1 r1] eqn:El.
  { rewrite (bind_ret _ _ _ _ _ Hsk), lstrip_nil by done. exists (k_mem s). split; [|done]. by destruct s. }
  pose proof (length_lstrip cs) as Hl1. rewrite El in Hl1.
  destruct Hsk as (m & E & Hr & Hnm & Hm). rewrite (bind_ret _ _ _ _ _ E), bind_gets. change (k_mem (s <| k_mem := m |>)) with m. rewrite Hnm.
  set (r := lstrip (after (c1 :: r1))) in *. pose proof (length_lstrip (after (c1 :: r1))) as Hl2. fold r in Hl2.
  pose proof (length_after (c1 :: r1)) as Hla. pose proof (lstrip_head _ _ _ El) as Hc1. cbn [elem] in Hla. rewrite (proj2 (Z.eqb_neq _ _) Hc1) in Hla. cbn [length] in *.
  destruct (IH r (s <| k_mem := m |>) (path + Z.of_nat (length cs - length r)) name) as (m2 & E2 & Hm2).
  - exact Hr.
  - lia.
  - lia.
  - lia.
  - rewrite (bind_ret _ _ _ _ _ E2). exists m2. rewrite (split_first cs) by (by rewrite El). rewrite El. fold r. split; [done|].
    intros x Hx. rewrite Hm2 by done. by apply Hm.
Qed.
End Skipelem.

(** The path [/a//bb/]. *)
Lemma skipelem_components_witness :
  exists m s, @elements 8 0x2000 0x1000 s = Ret [[97]; [98; 98]] (s <| k_mem := m |>).
Proof.
  set (s := kstate0 <| k_mem := store_bytes ∅ 0x2000 [47; 97; 47; 47; 98; 98; 47; 0] |>).
  destruct (skipelem_components 8 [47; 97; 47; 47; 98; 98; 47] s 0x2000 0x1000) as (m & E & _).
  - split; [|vm_compute; reflexivity]. intros k c Hk.
    do 7 (destruct k as [|k]; [injection Hk as <-; split; [vm_compute; reflexivity|discriminate]|]). discriminate Hk.
  - apply Nat.ltb_lt. vm_compute. reflexivity.
  - left. vm_compute. discriminate.
  - cbn. lia.
  - exists m, s. exact E.
Defined.
