(* ===== verification/Pipe.v ===== *)
(** * kernel/pipe.c: pipes

    A pipe lives in the page [pi] that kalloc gave: the lock takes the first
    24 bytes, then data@24, nread@536, nwrite@540, readopen@544, writeopen@548.
    A process that has to wait ends in [Asleep]; it continues with the loop
    from the index it had reached.  pipealloc is with the file table. *)

From S2P Require Import Prelude Memory FsState State Sched Kalloc VM Disk Memsys VMFault Fs.
Import Mem KString.

Definition PIPESIZE : Z := 512.
Definition pipe_data (pi : Z) : Z := pi + 24.
Definition pipe_nread (pi : Z) : Z := pi + 536.
Definition pipe_nwrite (pi : Z) : Z := pi + 540.
Definition pipe_readopen (pi : Z) : Z := pi + 544.
Definition pipe_writeopen (pi : Z) : Z := pi + 548.

Section Pipe.
Context `{KernelImage}.

(** pipeclose *)
Definition pipeclose (pi : Z) (writable : bool) : K unit :=
  (if writable then mset (fun m => st32 m (pipe_writeopen pi) 0);; wakeup (ChPipeRead pi)
   else mset (fun m => st32 m (pipe_readopen pi) 0);; wakeup (ChPipeWrite pi));;
  r ← mget (fun m => i32 (ld32 m (pipe_readopen pi)));
  w ← mget (fun m => i32 (ld32 m (pipe_writeopen pi)));
  if (r =? 0) && (w =? 0) then kfree pi else mret tt.

(** pipewrite, from index [i] on; its local [ch] *)
Definition ch_write : Z := kstk 3.
Fixpoint pipewrite_loop (k fuel : nat) (p : nat) (pi addr i n : Z) : K Z :=
  match k with
  | O => no_fuel
  | S k' =>
      if i <? n then
        ro ← mget (fun m => i32 (ld32 m (pipe_readopen pi)));
        kl ← killed p;
        if (ro =? 0) || negb (kl =? 0) then mret (-1)
        else
          nw ← mget (fun m => ld32 m (pipe_nwrite pi));
          nr ← mget (fun m => ld32 m (pipe_nread pi));
          if nw =? u32 (nr + PIPESIZE) then
            wakeup (ChPipeRead pi);;
            sleep_on (ChPipeWrite pi)
          else
            root ← gets (fun s => p_pagetable (pr s p));
            r ← copyin fuel root ch_write (u64 (addr + i)) 1;
            if r =? -1 then wakeup (ChPipeRead pi);; mret i
            else
              mset (fun m =>
                let nw := ld32 m (pipe_nwrite pi) in
                st8 (st32 m (pipe_nwrite pi) (u32 (nw + 1))) (pipe_data pi + nw `mod` PIPESIZE) (ld8 m ch_write));;
              pipewrite_loop k' fuel p pi addr (i + 1) n
      else wakeup (ChPipeRead pi);; mret i
  end.
Definition pipewrite (fuel : nat) (pi addr n : Z) : K Z :=
  p ← myproc;
  pipewrite_loop (S (Z.to_nat n)) fuel p pi addr 0 n.

(** piperead; its local [ch] *)
Definition ch_read : Z := kstk 4.
Fixpoint piperead_loop (k fuel : nat) (p : nat) (pi addr i n : Z) : K Z :=
  match k with
  | O => no_fuel
  | S k' =>
      if i <? n then
        nr ← mget (fun m => ld32 m (pipe_nread pi));
        nw ← mget (fun m => ld32 m (pipe_nwrite pi));
        if nr =? nw then mret i
        else
          mset (fun m => st8 m ch_read (ld8 m (pipe_data pi + nr `mod` PIPESIZE)));;
          root ← gets (fun s => p_pagetable (pr s p));
          r ← copyout fuel root (u64 (addr + i)) ch_read 1;
          if r =? -1 then mret (if i =? 0 then -1 else i)
          else
            mset (fun m => st32 m (pipe_nread pi) (u32 (ld32 m (pipe_nread pi) + 1)));;
            piperead_loop k' fuel p pi addr (i + 1) n
      else mret i
  end.
Definition piperead (fuel : nat) (pi addr n : Z) : K Z :=
  p ← myproc;
  nr ← mget (fun m => ld32 m (pipe_nread pi));
  nw ← mget (fun m => ld32 m (pipe_nwrite pi));
  wo ← mget (fun m => i32 (ld32 m (pipe_writeopen pi)));
  if (nr =? nw) && negb (wo =? 0) then
    kl ← killed p;
    if negb (kl =? 0) then mret (-1)
    else sleep_on (ChPipeRead pi)
  else
    i ← piperead_loop (S (Z.to_nat n)) fuel p pi addr 0 n;
    wakeup (ChPipeWrite pi);;
    mret i.

End Pipe.
