(* ===== verification/PipeProps.v ===== *)
(** * Pipes: the ring buffer is a queue of at most 512 bytes *)

From S2P Require Import Prelude Memory FsState State Sched SchedSpec Bio BioSpec LogSpec Kalloc VM PageTable VMSpec UserSpace VMProps Disk Memsys VMFault CopySpec VMFaultProps Fs Pipe.
Import Mem KString.

(** The bytes in the pipe: from [nread] to [nwrite], modulo 2^32. *)
Definition pipe_count (m : mem) (pi : Z) : Z := u32 (ld32 m (pipe_nwrite pi) - ld32 m (pipe_nread pi)).
Definition pipe_queue (m : mem) (pi : Z) : list Z :=
  (fun k => ld8 m (pipe_data pi + (ld32 m (pipe_nread pi) + k) `mod` PIPESIZE)) <$> seqZ 0 (pipe_count m pi).
Definition pipe_ok (m : mem) (pi : Z) : Prop := pipe_count m pi <= PIPESIZE.

Lemma ld32_range m a : 0 <= ld32 m a < 2 ^ 32.
Proof. apply (ld_range 4). Qed.
Lemma u32_sub_pos x y : 0 <= x < 2 ^ 32 -> 0 <= y < 2 ^ 32 -> u32 (x - y) = if x <? y then x - y + 2 ^ 32 else x - y.
Proof.
  intros Hx Hy. unfold u32. destruct (Z.ltb_spec x y); [|apply Z.mod_small; lia].
  symmetry. apply (Z.mod_unique _ _ (-1)); lia.
Qed.
Lemma u32_succ x : 0 <= x < 2 ^ 32 -> u32 (x + 1) = if x =? 2 ^ 32 - 1 then 0 else x + 1.
Proof.
  intros Hx. unfold u32. destruct (Z.eqb_spec x (2 ^ 32 - 1)) as [->|]; [done|]. apply Z.mod_small. lia.
Qed.
Lemma queue_length m pi : Z.of_nat (length (pipe_queue m pi)) = pipe_count m pi.
Proof. unfold pipe_queue. rewrite length_fmap, length_seqZ. pose proof (u32_range (ld32 m (pipe_nwrite pi) - ld32 m (pipe_nread pi))). unfold pipe_count. lia. Qed.
Lemma pipe_full m pi : pipe_ok m pi ->
  (ld32 m (pipe_nwrite pi) =? u32 (ld32 m (pipe_nread pi) + PIPESIZE)) = (pipe_count m pi =? PIPESIZE).
Proof.
  unfold pipe_ok, pipe_count, PIPESIZE. pose proof (ld32_range m (pipe_nwrite pi)). pose proof (ld32_range m (pipe_nread pi)).
  rewrite u32_sub_pos by done. intros Hok. unfold u32.
  destruct (Z.ltb_spec (ld32 m (pipe_nwrite pi)) (ld32 m (pipe_nread pi))); apply eq_true_iff_eq; rewrite !Z.eqb_eq; div_lia.
Qed.
Lemma pipe_empty m pi : (ld32 m (pipe_nread pi) =? ld32 m (pipe_nwrite pi)) = (pipe_count m pi =? 0).
Proof.
  unfold pipe_count. pose proof (ld32_range m (pipe_nwrite pi)). pose proof (ld32_range m (pipe_nread pi)).
  rewrite u32_sub_pos by done. apply eq_true_iff_eq. rewrite !Z.eqb_eq. destruct (Z.ltb_spec (ld32 m (pipe_nwrite pi)) (ld32 m (pipe_nread pi))); lia.
Qed.

(** The queue depends on the bytes of the page only. *)
Lemma queue_ext m m' pi : (forall b, pi <= b < pi + 4096 -> ld8 m' b = ld8 m b) ->
  pipe_queue m' pi = pipe_queue m pi /\ pipe_count m' pi = pipe_count m pi /\
  ld32 m' (pipe_readopen pi) = ld32 m (pipe_readopen pi) /\ ld32 m' (pipe_writeopen pi) = ld32 m (pipe_writeopen pi).
Proof.
  intros E. assert (E4 : forall k, 0 <= k <= 4092 -> ld32 m' (pi + k) = ld32 m (pi + k)) by (intros k Hk; apply ld32_ext; intros b Hb; apply E; lia).
  assert (Ec : pipe_count m' pi = pipe_count m pi) by (unfold pipe_count, pipe_nwrite, pipe_nread; by rewrite !E4 by lia).
  split_and!; [|done|apply E4; lia|apply E4; lia]. unfold pipe_queue. rewrite Ec. apply list_fmap_ext. intros i k _.
  unfold pipe_nread. rewrite E4 by lia. apply E. unfold pipe_data, PIPESIZE. div_lia.
Qed.

(** One byte in. *)
Definition put (m : mem) (pi c : Z) : mem :=
  let nw := ld32 m (pipe_nwrite pi) in
  st8 (st32 m (pipe_nwrite pi) (u32 (nw + 1))) (pipe_data pi + nw `mod` PIPESIZE) c.
Lemma ld32_st8_out m a v b : ~ (b <= a < b + 4) -> ld32 (st8 m a v) b = ld32 m b.
Proof. intros Hn. apply ld32_ext. intros x Hx. apply ld8_st8_ne. lia. Qed.
Lemma ld32_st32_ne m a v b : b + 4 <= a \/ a + 4 <= b -> ld32 (st32 m a v) b = ld32 m b.
Proof. intros Hn. apply (ld_st_ne 4 4). lia. Qed.
Lemma put_frame m pi c b : ~ (pi <= b < pi + 4096) -> ld8 (put m pi c) b = ld8 m b.
Proof.
  intros Hb. unfold put. rewrite ld8_st8_ne by (unfold pipe_data, PIPESIZE; div_lia). apply (ld8_st_out 4). unfold pipe_nwrite. lia.
Qed.
Lemma put_queue m pi c : 0 <= c < 256 -> pipe_count m pi < PIPESIZE ->
  pipe_queue (put m pi c) pi = pipe_queue m pi ++ [c] /\ pipe_count (put m pi c) pi = pipe_count m pi + 1 /\
  ld32 (put m pi c) (pipe_readopen pi) = ld32 m (pipe_readopen pi) /\ ld32 (put m pi c) (pipe_writeopen pi) = ld32 m (pipe_writeopen pi).
Proof.
  intros Hc Hlt. set (nr := ld32 m (pipe_nread pi)). set (nw := ld32 m (pipe_nwrite pi)).
  pose proof (ld32_range m (pipe_nread pi)) as Hr. pose proof (ld32_range m (pipe_nwrite pi)) as Hw. fold nr in Hr. fold nw in Hw.
  assert (Hdat : 0 <= nw `mod` PIPESIZE < PIPESIZE) by (apply Z.mod_pos_bound; done).
  assert (Eo : forall a, (a = 536 \/ a = 544 \/ a = 548) -> ld32 (put m pi c) (pi + a) = ld32 m (pi + a)).
  { intros a Ha. unfold put. rewrite ld32_st8_out by (unfold pipe_data, PIPESIZE in *; fold nw; lia). apply ld32_st32_ne. unfold pipe_nwrite. lia. }
  assert (Enr : ld32 (put m pi c) (pipe_nread pi) = nr) by (apply Eo; lia).
  assert (Enw : ld32 (put m pi c) (pipe_nwrite pi) = u32 (nw + 1)).
  { unfold put. rewrite ld32_st8_out by (unfold pipe_data, pipe_nwrite, PIPESIZE in *; fold nw; lia). rewrite ld32_st32_eq.
    fold nw. unfold u32. by rewrite Z.mod_mod. }
  assert (Ec : pipe_count (put m pi c) pi = pipe_count m pi + 1).
  { unfold pipe_count in *. rewrite Enr, Enw. fold nr nw. fold nr nw in Hlt. unfold PIPESIZE in Hlt. rewrite u32_sub_pos in Hlt |- * by (done || apply u32_range).
    rewrite u32_succ by done. rewrite (u32_sub_pos nw) by done.
    destruct (Z.eqb_spec nw (2 ^ 32 - 1)), (Z.ltb_spec nw nr), (Z.ltb_spec 0 nr), (Z.ltb_spec (nw + 1) nr); lia. }
  split_and!; [|done|apply Eo; lia|apply Eo; lia].
  unfold pipe_queue. rewrite Ec, Enr. fold nr. pose proof (u32_range (nw - nr)) as Hcr. change (u32 (nw - nr)) with (pipe_count m pi) in Hcr.
  rewrite seqZ_app by lia. rewrite fmap_app. f_equal.
  - apply list_fmap_ext. intros i k Hk. apply lookup_seqZ in Hk as [-> Hk]. unfold put. fold nw.
    assert (Hne : (nr + (0 + Z.of_nat i)) `mod` PIPESIZE <> nw `mod` PIPESIZE).
    { unfold pipe_count in *. fold nr nw in Hlt, Hk. rewrite u32_sub_pos in Hlt, Hk by done. unfold PIPESIZE in *. destruct (Z.ltb_spec nw nr); div_lia. }
    rewrite ld8_st8_ne by (unfold pipe_data; lia). apply (ld8_st_out 4). unfold pipe_nwrite, pipe_data, PIPESIZE in *. div_lia.
  - change (seqZ (0 + pipe_count m pi) 1) with [0 + pipe_count m pi]. cbn [fmap list_fmap]. f_equal. unfold put. fold nw.
    assert (E : (nr + pipe_count m pi) `mod` PIPESIZE = nw `mod` PIPESIZE).
    { unfold pipe_count. fold nr nw. rewrite u32_sub_pos by done. unfold PIPESIZE. destruct (Z.ltb_spec nw nr); div_lia. }
    replace (nr + (0 + pipe_count m pi)) with (nr + pipe_count m pi) by lia. rewrite E, ld8_st8_eq. apply u8_small. lia.
Qed.

(** One byte out. *)
Definition got (m : mem) (pi : Z) : mem := st32 m (pipe_nread pi) (u32 (ld32 m (pipe_nread pi) + 1)).
Lemma got_frame m pi b : ~ (pi <= b < pi + 4096) -> ld8 (got m pi) b = ld8 m b.
Proof. intros Hb. apply (ld8_st_out 4). unfold pipe_nread. lia. Qed.
Lemma got_queue m pi : 0 < pipe_count m pi ->
  pipe_queue m pi = ld8 m (pipe_data pi + ld32 m (pipe_nread pi) `mod` PIPESIZE) :: pipe_queue (got m pi) pi /\
  pipe_count (got m pi) pi = pipe_count m pi - 1 /\ ld32 (got m pi) (pipe_writeopen pi) = ld32 m (pipe_writeopen pi).
Proof.
  intros Hpos. set (nr := ld32 m (pipe_nread pi)). set (nw := ld32 m (pipe_nwrite pi)).
  pose proof (ld32_range m (pipe_nread pi)) as Hr. pose proof (ld32_range m (pipe_nwrite pi)) as Hw. fold nr in Hr. fold nw in Hw.
  assert (Enr : ld32 (got m pi) (pipe_nread pi) = u32 (nr + 1)) by (unfold got; rewrite ld32_st32_eq; fold nr; unfold u32; by rewrite Z.mod_mod).
  assert (Enw : ld32 (got m pi) (pipe_nwrite pi) = nw) by (apply ld32_st32_ne; unfold pipe_nread, pipe_nwrite; lia).
  assert (Ec : pipe_count (got m pi) pi = pipe_count m pi - 1).
  { unfold pipe_count in *. rewrite Enr, Enw. fold nr nw. fold nr nw in Hpos. rewrite u32_sub_pos in Hpos by done.
    rewrite (u32_sub_pos nw (u32 _)) by (done || apply u32_range). rewrite (u32_sub_pos nw nr) by done. rewrite u32_succ by done.
    destruct (Z.eqb_spec nr (2 ^ 32 - 1)), (Z.ltb_spec nw nr), (Z.ltb_spec nw 0), (Z.ltb_spec nw (nr + 1)); lia. }
  split_and!; [|done|apply ld32_st32_ne; unfold pipe_nread, pipe_writeopen; lia].
  unfold pipe_queue. rewrite Ec. fold nr. rewrite Enr. replace (pipe_count m pi) with (1 + (pipe_count m pi - 1)) at 1 by lia.
  rewrite seqZ_app, fmap_app by lia. change (seqZ 0 1) with [0]. cbn [fmap list_fmap app]. rewrite Z.add_0_r. f_equal.
  replace (seqZ (0 + 1) (pipe_count m pi - 1)) with (Z.add 1 <$> seqZ 0 (pipe_count m pi - 1)) by (by rewrite fmap_add_seqZ).
  rewrite <- list_fmap_compose.
  apply list_fmap_ext. intros i k Hk. apply lookup_seqZ in Hk as [-> Hk]. cbn.
  assert (E : (u32 (nr + 1) + (0 + Z.of_nat i)) `mod` PIPESIZE = (nr + (1 + (0 + Z.of_nat i))) `mod` PIPESIZE).
  { rewrite u32_succ by done. unfold PIPESIZE. destruct (Z.eqb_spec nr (2 ^ 32 - 1)); div_lia. }
  rewrite E. symmetry. apply (ld8_st_out 4). unfold pipe_nread, pipe_data, PIPESIZE. div_lia.
Qed.

(** ** The process at the pipe

    [p] runs with page table [root]; the pipe's page is neither free, nor a
    page table, nor mapped for the user. *)
Section Fifo.
Context `{KernelImage} (fuel p : nat) (root : Z) (T : gmap (list Z) Z) (U : gmap Z Z) (fl : list Z) (pi : Z).
Record at_pipe (s : kstate) : Prop := {
  ap_cur : k_cur s = Some p;
  ap_len : length (k_proc s) = Z.to_nat NPROC;
  ap_lt : (p < Z.to_nat NPROC)%nat;
  ap_root : p_pagetable (pr s p) = root;
  ap_killed : p_killed (pr s p) = 0;
  ap_user : uspace s root T U fl;
  ap_page : spare T U fl pi;
  ap_ok : pipe_ok (k_mem s) pi
}.
Definition ubyte (m : mem) (x : Z) : Z := ld8 m (uaddr U x).
Definition ubytes (m : mem) (x len : Z) : list Z := (fun j => ubyte m (x + j)) <$> seqZ 0 len.
Definition mapped (m : mem) (need x len : Z) : Prop := umapped (kstate0 <| k_mem := m |>) T U need x len.

Lemma page_below q : page_ok q -> q + 4096 <= PHYSTOP.
Proof. unfold page_ok, PHYSTOP, KERNBASE, PGSIZE. intros [Hm Hr]. div_lia. Qed.
Lemma tree_page s q : uspace s root T U fl -> tree_has T q \/ q ∈ fl -> page_ok q.
Proof.
  intros Hu [(π & Hq)|Hq].
  - destruct (us_ok _ _ _ _ _ Hu) as (_ & Hwf & _). by destruct (pt_page _ _ _ Hwf _ _ Hq).
  - destruct (us_ok _ _ _ _ _ Hu) as ([Hch _] & _ & _). apply chain_ok in Hch. rewrite Forall_forall in Hch. by apply Hch.
Qed.
Lemma stk_off s j len : uspace s root T U fl -> off_user U (kstk j) len /\ off_tables T fl (kstk j) len.
Proof.
  intros Hu. pose proof (kstk_range j). split.
  - intros b v pa Hb HU Hin. destruct (us_page _ _ _ _ _ Hu _ _ HU) as (Hpg & _). apply page_below in Hpg. unfold in_page, PGSIZE in Hin. lia.
  - intros b q Hb Hq Hin. apply (tree_page s) in Hq as Hpg%page_below; [|done]. unfold in_page, PGSIZE in Hin. lia.
Qed.
Lemma pipe_off s : uspace s root T U fl -> spare T U fl pi -> off_user U pi 4096 /\ off_tables T fl pi 4096 /\ pi + 4096 <= PHYSTOP.
Proof.
  intros Hu ([Hpi Hpr] & Hfl & Ht & HU). split_and!; [| |by apply page_below].
  - intros b v pa Hb HUv Hin. destruct (us_page _ _ _ _ _ Hu _ _ HUv) as ([Hm _] & _).
    assert (pi = pa) as ->; [|by eapply HU]. eapply in_page_inj; [done|done| |exact Hin]. unfold in_page, PGSIZE. lia.
  - intros b q Hb Hq Hin. destruct (tree_page s q Hu Hq) as [Hm _].
    assert (pi = q) as ->; [|by destruct Hq]. eapply in_page_inj; [done|done| |exact Hin]. unfold in_page, PGSIZE. lia.
Qed.

(** A write to the pipe's page or to a local changes nothing else. *)
Lemma at_pipe_write s m a len :
  at_pipe s -> off_user U a len -> off_tables T fl a len -> (forall b, ~ (a <= b < a + len) -> ld8 m b = ld8 (k_mem s) b) -> pipe_ok m pi ->
  at_pipe (s <| k_mem := m |>) /\
  (forall x, is_Some (U !! (x / PGSIZE)) -> ubyte m x = ubyte (k_mem s) x) /\
  (forall need x l, mapped (k_mem s) need x l -> mapped m need x l).
Proof.
  intros [H1 H2 H3 H4 H5 H6 H7 H8] Hou Hot Hout Hok.
  destruct (uspace_buf_write s (s <| k_mem := m |>) root T U fl a len H6 Hot) as [Hu Hpte]; [done|exact Hout|].
  split_and!; [by split|..].
  - intros x [pa HU]. unfold ubyte. apply Hout. intros Hr. destruct (uaddr_page _ _ _ _ _ _ _ H6 HU) as [_ Hin]. by eapply Hou.
  - intros need x l Hm y Hy. destruct (Hm y Hy) as (Hs & A & B). split; [done|]. cbn in A, B |- *. cbn in Hpte. by rewrite !Hpte.
Qed.

(** copyin of the byte that pipewrite takes next. *)
Lemma copyin_byte s x :
  at_pipe s -> mapped (k_mem s) PTE_U x 1 -> 0 <= x < 2 ^ 64 ->
  exists m, copyin fuel root ch_write (u64 x) 1 s = Ret 0 (s <| k_mem := m |>) /\
    ld8 m ch_write = ubyte (k_mem s) x /\ (forall b, b <> ch_write -> ld8 m b = ld8 (k_mem s) b).
Proof.
  intros Hp Hm Hx. rewrite u64_small by done. destruct (stk_off s 3 1 (ap_user _ Hp)) as [Hou Hot].
  destruct (copyin_loop_spec (Z.to_nat (1 / PGSIZE) + 3) fuel s root T U fl x ch_write 1 (ap_user _ Hp))
    as (s' & E & [Hb Hf (m & ->)] & _); [exact Hm|done|done|lia|lia|apply pages_of_le; lia|].
  exists m. split; [exact E|]. split; [specialize (Hb 0); rewrite !Z.add_0_r in Hb; apply Hb; lia|]. intros b Hn. apply Hf. lia.
Qed.

(** The byte goes into the pipe. *)
Lemma at_pipe_put s m c :
  at_pipe s -> pipe_count (k_mem s) pi < PIPESIZE -> (forall b, b <> ch_write -> ld8 m b = ld8 (k_mem s) b) -> 0 <= c < 256 ->
  let m' := put m pi c in
  at_pipe (s <| k_mem := m' |>) /\
  pipe_queue m' pi = pipe_queue (k_mem s) pi ++ [c] /\ pipe_count m' pi = pipe_count (k_mem s) pi + 1 /\
  ld32 m' (pipe_readopen pi) = ld32 (k_mem s) (pipe_readopen pi) /\
  (forall x, is_Some (U !! (x / PGSIZE)) -> ubyte m' x = ubyte (k_mem s) x) /\
  (forall need x l, mapped (k_mem s) need x l -> mapped m' need x l) /\
  (forall b, ~ (pi <= b < pi + 4096) -> b <> ch_write -> ld8 m' b = ld8 (k_mem s) b).
Proof.
  intros Hp Hlt Hout Hc m'. destruct (pipe_off s (ap_user _ Hp) (ap_page _ Hp)) as (Hou & Hot & Hpi).
  destruct (stk_off s 3 1 (ap_user _ Hp)) as [Hou1 Hot1]. pose proof (kstk_range 3) as Hk. fold ch_write in Hk, Hou1, Hot1.
  destruct (queue_ext (k_mem s) m pi) as (Eq & Ec & Er & _); [intros b Hb; apply Hout; lia|].
  destruct (put_queue m pi c Hc) as (Eq' & Ec' & Er' & _); [lia|].
  destruct (at_pipe_write s m ch_write 1 Hp Hou1 Hot1) as (Hp1 & Hu1 & Hm1); [intros b Hb; apply Hout; lia|unfold pipe_ok; rewrite Ec; apply (ap_ok _ Hp)|].
  destruct (at_pipe_write (s <| k_mem := m |>) m' pi 4096 Hp1 Hou Hot) as (Hp2 & Hu2 & Hm2); [intros b Hb; by apply put_frame|unfold pipe_ok, m'; lia|].
  split_and!.
  - exact Hp2.
  - unfold m'. by rewrite Eq', Eq.
  - unfold m'. by rewrite Ec', Ec.
  - unfold m'. by rewrite Er', Er.
  - intros x Hx. rewrite Hu2 by done. by apply Hu1.
  - intros need x l Hx. by apply Hm2, Hm1.
  - intros b Hb Hne. unfold m'. rewrite put_frame by done. by apply Hout.
Qed.

Definition asleep_on (ch : chan) (s : kstate) : kstate :=
  s <| k_proc := alter (fun q => q <| p_chan := ch |> <| p_state := SLEEPING |>) p (k_proc s) |>.
Lemma sleep_on_eq {A} s ch : k_cur s = Some p -> (p < length (k_proc s))%nat -> @sleep_on A ch s = Asleep (asleep_on ch s).
Proof.
  intros Hcur Hp. unfold sleep_on, sleep. rewrite bind_assoc, (bind_ret myproc _ s p s) by (unfold myproc; run; by rewrite Hcur).
  rewrite bind_assoc, (bind_ret (set_pr p _) _ s tt _ eq_refl). fold (asleep_on ch s).
  assert (E : sched (asleep_on ch s) = Asleep (asleep_on ch s)).
  { apply (sched_asleep _ p); [done|]. unfold asleep_on. by rewrite pr_alter, decide_True. }
  unfold mbind, M_bind. by rewrite E.
Qed.
Lemma mem_same (s : kstate) : s <| k_mem := k_mem s |> = s.
Proof. by destruct s. Qed.
Lemma ubytes_S m x r : 0 <= r -> ubytes m x (1 + r) = ubyte m x :: ubytes m (x + 1) r.
Proof.
  intros Hr. unfold ubytes. rewrite seqZ_app by lia. change (seqZ 0 1) with [0]. cbn [fmap list_fmap app]. rewrite Z.add_0_r. f_equal.
  replace (seqZ (0 + 1) r) with (Z.add 1 <$> seqZ 0 r) by (by rewrite fmap_add_seqZ). rewrite <- list_fmap_compose.
  apply list_fmap_ext. intros i k _. cbn. f_equal. lia.
Qed.
Lemma ubytes_same m m' need x l r : r <= l ->
  (forall y, is_Some (U !! (y / PGSIZE)) -> ubyte m' y = ubyte m y) -> mapped m need x l -> ubytes m' x r = ubytes m x r.
Proof.
  intros Hr Hu Hm. apply list_fmap_ext. intros i k Hk. apply lookup_seqZ in Hk as [-> Hk]. apply Hu. apply (Hm (x + (0 + Z.of_nat i))). lia.
Qed.
Lemma mapped_sub m need x l k l' : 0 <= k -> k + l' <= l -> mapped m need x l -> mapped m need (x + k) l'.
Proof. intros Hk Hl Hm y Hy. apply Hm. lia. Qed.

Lemma write_loop k addr n : forall s i,
  at_pipe s -> i32 (ld32 (k_mem s) (pipe_readopen pi)) <> 0 -> mapped (k_mem s) PTE_U (addr + i) (Z.of_nat k) ->
  n = i + Z.of_nat k -> 0 <= addr + i -> addr + n <= 2 ^ 64 ->
  let room := PIPESIZE - pipe_count (k_mem s) pi in
  exists m, pipewrite_loop (S k) fuel p pi addr i n s =
      (let s' := woken_all (ChPipeRead pi) (s <| k_mem := m |>) in if Z.of_nat k <=? room then Ret n s' else Asleep (asleep_on (ChPipeWrite pi) s')) /\
    at_pipe (s <| k_mem := m |>) /\ pipe_queue m pi = pipe_queue (k_mem s) pi ++ ubytes (k_mem s) (addr + i) (Z.min (Z.of_nat k) room) /\
    (forall b, ~ (pi <= b < pi + 4096) -> b <> ch_write -> ld8 m b = ld8 (k_mem s) b).
Proof.
  induction k as [|k IH]; intros s i Hp Hro Hmap Hn Ha Han room; pose proof (ap_ok _ Hp) as Hok; unfold pipe_ok in Hok.
  { exists (k_mem s). cbn [pipewrite_loop]. destruct (Z.ltb_spec i n); [lia|]. rewrite !mem_same.
    destruct (Z.leb_spec (Z.of_nat 0) room); [|unfold room in *; lia]. rewrite (bind_ret _ _ _ _ _ (wakeup_eq s _ (ap_len _ Hp))).
    split_and!; [f_equal; lia|done| |done]. rewrite Z.min_l by lia. by rewrite app_nil_r. }
  rewrite Nat2Z.inj_succ in *. cbn [pipewrite_loop]. destruct (Z.ltb_spec i n); [|lia]. unfold mget, killed. rewrite !bind_gets.
  rewrite (ap_killed _ Hp). destruct (Z.eqb_spec (i32 (ld32 (k_mem s) (pipe_readopen pi))) 0); [done|]. cbn [negb orb Z.eqb].
  rewrite !bind_gets, pipe_full by (apply (ap_ok _ Hp)). destruct (Z.eqb_spec (pipe_count (k_mem s) pi) PIPESIZE) as [Efull|Hnf].
  { exists (k_mem s). rewrite !mem_same, (bind_ret _ _ _ _ _ (wakeup_eq s _ (ap_len _ Hp))). fold (woken_all (ChPipeRead pi) s).
    destruct (Z.leb_spec (Z.succ (Z.of_nat k)) room); [unfold room in *; lia|]. cbv zeta. split_and!; [|done| |done].
    - apply sleep_on_eq; [apply (ap_cur _ Hp)|]. cbn. rewrite length_imap, (ap_len _ Hp). apply (ap_lt _ Hp).
    - replace (Z.min (Z.succ (Z.of_nat k)) room) with 0 by (unfold room; lia). by rewrite app_nil_r. }
  rewrite bind_gets, (ap_root _ Hp). destruct (copyin_byte s (addr + i) Hp) as (m1 & E1 & Hc1 & Hf1); [by apply (mapped_sub _ _ (addr + i) _ 0 1) in Hmap; [rewrite Z.add_0_r in Hmap|lia|lia]|lia|].
  rewrite (bind_ret _ _ _ _ _ E1). change (0 =? -1) with false. cbv beta iota. unfold mset. rewrite bind_modify.
  assert (Hc : 0 <= ubyte (k_mem s) (addr + i) < 256) by apply ld8_range.
  destruct (at_pipe_put s m1 (ubyte (k_mem s) (addr + i)) Hp) as (Hp2 & Hq2 & Hc2 & Hr2 & Hu2 & Hm2 & Hf2); [lia|done|done|].
  change (k_mem (s <| k_mem := m1 |>)) with m1. rewrite Hc1. set (m2 := put m1 pi (ubyte (k_mem s) (addr + i))) in *.
  change (s <| k_mem := m1 |> <| k_mem := m2 |>) with (s <| k_mem := m2 |>).
  assert (Hmap1 : mapped (k_mem s) PTE_U (addr + i + 1) (Z.of_nat k)) by (eapply mapped_sub; [..|exact Hmap]; lia).
  destruct (IH (s <| k_mem := m2 |>) (i + 1)) as (m & E & Hpm & Hqm & Hfm); [done|cbn; by rewrite Hr2|rewrite Z.add_assoc; by apply Hm2|lia|lia|lia|].
  cbn [k_mem upd] in Hqm, Hfm. exists m. split_and!; [| |rewrite Hqm, Hq2|intros b Hb Hne; rewrite Hfm by done; by apply Hf2].
  - change (k_mem (s <| k_mem := m2 |>)) with m2 in E. rewrite Hc2 in E. etransitivity; [exact E|]. change (s <| k_mem := m2 |> <| k_mem := m |>) with (s <| k_mem := m |>).
    unfold room. replace (Z.of_nat k <=? PIPESIZE - (pipe_count (k_mem s) pi + 1)) with (Z.succ (Z.of_nat k) <=? PIPESIZE - pipe_count (k_mem s) pi); [done|].
    apply eq_true_iff_eq. rewrite !Z.leb_le. lia.
  - exact Hpm.
  - rewrite <- app_assoc. f_equal. rewrite Hc2. replace (Z.min (Z.succ (Z.of_nat k)) room) with (1 + Z.min (Z.of_nat k) (PIPESIZE - (pipe_count (k_mem s) pi + 1))) by (unfold room; lia).
    rewrite ubytes_S by (unfold PIPESIZE in *; lia). cbn [app]. f_equal. rewrite <- Z.add_assoc.
    eapply (ubytes_same _ _ PTE_U _ (Z.of_nat k)); [lia|exact Hu2|]. by rewrite Z.add_assoc.
Qed.

(** piperead takes a byte to its local and copies it out. *)
Lemma copyout_byte s x :
  at_pipe s -> mapped (k_mem s) PTE_W x 1 -> 0 <= x < 2 ^ 64 ->
  exists m, copyout fuel root (u64 x) ch_read 1 s = Ret 0 (s <| k_mem := m |>) /\
    ubyte m x = ld8 (k_mem s) ch_read /\ (forall b, b <> uaddr U x -> ld8 m b = ld8 (k_mem s) b) /\
    at_pipe (s <| k_mem := m |>) /\ (forall need y l, mapped (k_mem s) need y l -> mapped m need y l) /\
    ~ (pi <= uaddr U x < pi + 4096) /\ uaddr U x <> ch_read.
Proof.
  intros Hp Hm Hx. rewrite u64_small by done. destruct (stk_off s 4 1 (ap_user _ Hp)) as [Hou Hot].
  destruct (pipe_off s (ap_user _ Hp) (ap_page _ Hp)) as (Hpu & _ & _).
  destruct (Hm x) as ([pa HU] & _); [lia|]. destruct (uaddr_page _ _ _ _ _ _ _ (ap_user _ Hp) HU) as [_ Hin].
  assert (Hnp : ~ (pi <= uaddr U x < pi + 4096)) by (intros Hr; by eapply Hpu).
  assert (Hnc : uaddr U x <> ch_read) by (intros E; eapply (Hou ch_read); [unfold ch_read; lia|exact HU|by rewrite <- E]).
  destruct (copyout_loop_spec (Z.to_nat (1 / PGSIZE) + 3) fuel s root T U fl x ch_read 1 (ap_user _ Hp))
    as (s' & E & [Hb Hf (m & ->)] & Hu & Hpte); [exact Hm|done|lia|lia|apply pages_of_le; lia|].
  assert (Hfr : forall b, b <> uaddr U x -> ld8 m b = ld8 (k_mem s) b).
  { intros b Hn. apply Hf. intros i Hi. by replace (x + i) with x by lia. }
  destruct (queue_ext (k_mem s) m pi) as (Eq & Ec & _); [intros b Hb'; apply Hfr; intros ->; by apply Hnp|].
  exists m. split_and!; try done.
  - specialize (Hb 0). rewrite !Z.add_0_r in Hb. apply Hb. lia.
  - destruct Hp as [H1 H2 H3 H4 H5 H6 H7 H8]. split; try done. unfold pipe_ok. cbn. by rewrite Ec.
  - intros need y l Hy z Hz. destruct (Hy z Hz) as (Hs & A & B). split; [done|]. cbn in A, B, Hpte |- *. by rewrite !Hpte.
Qed.

(** The whole step for one byte: local, user memory, and nread. *)
Lemma read_byte s x :
  at_pipe s -> mapped (k_mem s) PTE_W x 1 -> 0 <= x < 2 ^ 64 -> 0 < pipe_count (k_mem s) pi ->
  let c := ld8 (k_mem s) (pipe_data pi + ld32 (k_mem s) (pipe_nread pi) `mod` PIPESIZE) in
  exists m, copyout fuel root (u64 x) ch_read 1 (s <| k_mem := st8 (k_mem s) ch_read c |>) = Ret 0 (s <| k_mem := m |>) /\
    let m' := got m pi in
    at_pipe (s <| k_mem := m' |>) /\ pipe_queue (k_mem s) pi = c :: pipe_queue m' pi /\ pipe_count m' pi = pipe_count (k_mem s) pi - 1 /\
    ubyte m' x = c /\ (forall b, ~ (pi <= b < pi + 4096) -> b <> ch_read -> b <> uaddr U x -> ld8 m' b = ld8 (k_mem s) b) /\
    (forall need y l, mapped (k_mem s) need y l -> mapped m' need y l).
Proof.
  intros Hp Hm Hx Hpos c. set (m0 := st8 (k_mem s) ch_read c). assert (Hc : 0 <= c < 256) by apply ld8_range.
  destruct (pipe_off s (ap_user _ Hp) (ap_page _ Hp)) as (Hou & Hot & Hpi).
  destruct (stk_off s 4 1 (ap_user _ Hp)) as [Hou1 Hot1]. pose proof (kstk_range 4) as Hk. fold ch_read in Hk, Hou1, Hot1.
  assert (Hf0 : forall b, b <> ch_read -> ld8 m0 b = ld8 (k_mem s) b) by (intros b Hb; by apply ld8_st8_ne).
  destruct (queue_ext (k_mem s) m0 pi) as (Eq0 & Ec0 & _); [intros b Hb; apply Hf0; lia|].
  destruct (at_pipe_write s m0 ch_read 1 Hp Hou1 Hot1) as (Hp0 & _ & Hm0); [intros b Hb; apply Hf0; lia|unfold pipe_ok; rewrite Ec0; apply (ap_ok _ Hp)|].
  destruct (copyout_byte (s <| k_mem := m0 |>) x Hp0) as (m & E & Hux & Hf & Hp1 & Hm1 & Hnp & Hnc); [by apply Hm0|done|].
  cbn [k_mem upd] in Hux, Hf, Hm1. change (s <| k_mem := m0 |> <| k_mem := m |>) with (s <| k_mem := m |>) in *.
  destruct (queue_ext (k_mem s) m pi) as (Eq & Ec & _); [intros b Hb; rewrite Hf by (intros ->; by apply Hnp); apply Hf0; lia|].
  destruct (got_queue m pi) as (Eg & Ecg & _); [lia|].
  destruct (at_pipe_write (s <| k_mem := m |>) (got m pi) pi 4096 Hp1 Hou Hot) as (Hp2 & Hu2 & Hm2); [intros b Hb; by apply got_frame|unfold pipe_ok; pose proof (ap_ok _ Hp) as Ho; unfold pipe_ok in Ho; lia|].
  assert (Hpage : forall b, pi <= b < pi + 4096 -> ld8 m b = ld8 (k_mem s) b) by (intros b Hb; rewrite Hf by (intros ->; by apply Hnp); apply Hf0; lia).
  exists m. split; [exact E|]. split_and!.
  - exact Hp2.
  - rewrite <- Eq, Eg. f_equal. unfold c. rewrite Hpage by (unfold pipe_data, PIPESIZE; div_lia). do 3 f_equal.
    apply ld32_ext. intros b Hb. apply Hpage. unfold pipe_nread in Hb. lia.
  - lia.
  - transitivity (ubyte m x); [apply Hu2, (Hm x); lia|]. rewrite Hux. unfold m0. rewrite ld8_st8_eq. by apply u8_small.
  - intros b Hb Hn1 Hn2. rewrite got_frame, Hf by done. by apply Hf0.
  - intros need y l Hy. by apply Hm2, Hm1, Hm0.
Qed.

Lemma read_loop_pipe k addr n : forall s i,
  at_pipe s -> mapped (k_mem s) PTE_W (addr + i) (Z.of_nat k) -> n = i + Z.of_nat k -> 0 <= i -> 0 <= addr -> addr + n <= 2 ^ 64 ->
  let r := Z.min (Z.of_nat k) (pipe_count (k_mem s) pi) in
  exists m, piperead_loop (S k) fuel p pi addr i n s = Ret (i + r) (s <| k_mem := m |>) /\
    at_pipe (s <| k_mem := m |>) /\
    pipe_queue (k_mem s) pi = ubytes m (addr + i) r ++ pipe_queue m pi /\
    (forall b, ~ (pi <= b < pi + 4096) -> b <> ch_read -> (forall j, 0 <= j < r -> b <> uaddr U (addr + i + j)) -> ld8 m b = ld8 (k_mem s) b).
Proof.
  induction k as [|k IH]; intros s i Hp Hmap Hn Hi Ha Han r; pose proof (u32_range (ld32 (k_mem s) (pipe_nwrite pi) - ld32 (k_mem s) (pipe_nread pi))) as Hcr;
    fold (pipe_count (k_mem s) pi) in Hcr.
  { exists (k_mem s). cbn [piperead_loop]. destruct (Z.ltb_spec i n); [lia|]. rewrite mem_same. unfold r. rewrite Z.min_l by lia.
    rewrite Z.add_0_r. done. }
  rewrite Nat2Z.inj_succ in *. cbn [piperead_loop]. destruct (Z.ltb_spec i n); [|lia]. unfold mget. rewrite !bind_gets, pipe_empty.
  destruct (Z.eqb_spec (pipe_count (k_mem s) pi) 0) as [E0|Hne].
  { exists (k_mem s). rewrite mem_same. unfold r. rewrite E0, Z.min_r by lia. rewrite Z.add_0_r. done. }
  assert (Hmap0 : mapped (k_mem s) PTE_W (addr + i) 1) by (apply (mapped_sub _ _ (addr + i) _ 0 1) in Hmap; [by rewrite Z.add_0_r in Hmap|lia|lia]).
  assert (Hmap1 : mapped (k_mem s) PTE_W (addr + i + 1) (Z.of_nat k)) by (eapply mapped_sub; [..|exact Hmap]; lia).
  destruct (read_byte s (addr + i) Hp Hmap0) as (m1 & E1 & Hp1 & Hq1 & Hc1 & Hu1 & Hf1 & Hm1); [lia|lia|]. set (m2 := got m1 pi) in *.
  unfold mset. rewrite bind_modify, bind_gets.
  set (s0 := s <| k_mem := st8 (k_mem s) ch_read _ |>) in *. change (pr s0 p) with (pr s p). rewrite (ap_root _ Hp), (bind_ret _ _ _ _ _ E1).
  change (0 =? -1) with false. cbv beta iota. rewrite bind_modify.
  change (k_mem (s <| k_mem := m1 |>)) with m1. change (s <| k_mem := m1 |> <| k_mem := ?x |>) with (s <| k_mem := x |>). fold (got m1 pi). fold m2.
  destruct (IH (s <| k_mem := m2 |>) (i + 1)) as (m & E & Hpm & Hqm & Hfm); [done|rewrite Z.add_assoc; by apply Hm1|lia|lia|lia|lia|].
  cbn [k_mem upd] in E, Hqm, Hfm. set (r1 := Z.min (Z.of_nat k) (pipe_count m2 pi)) in *. assert (Er : r = 1 + r1) by (unfold r, r1; lia).
  assert (Hr1 : 0 <= r1) by (unfold r1; lia).
  exists m. split_and!; [| exact Hpm | |].
  - etransitivity; [exact E|]. f_equal. lia.
  - rewrite Hq1, Hqm, Er, ubytes_S by done. cbn [app]. rewrite Z.add_assoc. f_equal. rewrite <- Hu1. symmetry. apply Hfm.
    + destruct (pipe_off s (ap_user _ Hp) (ap_page _ Hp)) as (Hou & _ & _). destruct (Hmap0 (addr + i)) as ([pa HU] & _); [lia|].
      destruct (uaddr_page _ _ _ _ _ _ _ (ap_user _ Hp) HU) as [_ Hin]. intros Hr. by eapply Hou.
    + destruct (stk_off s 4 1 (ap_user _ Hp)) as [Hou _]. destruct (Hmap0 (addr + i)) as ([pa HU] & _); [lia|].
      destruct (uaddr_page _ _ _ _ _ _ _ (ap_user _ Hp) HU) as [_ Hin]. intros Er'. eapply (Hou ch_read); [unfold ch_read; lia|exact HU|by rewrite <- Er'].
    + intros j Hj Eu. destruct (Hmap0 (addr + i)) as (HU & _); [lia|]. destruct (Hmap1 (addr + i + 1 + j)) as (HU1 & _); [unfold r1 in Hj; lia|].
      rewrite Z.add_assoc in Eu. apply (uaddr_inj _ _ _ _ _ _ _ (ap_user _ Hp) HU HU1) in Eu. lia.
  - intros b Hb Hn1 Hn2. rewrite Hfm; [apply Hf1; [done|done|]|done|done|].
    + specialize (Hn2 0). rewrite Z.add_0_r in Hn2. apply Hn2. lia.
    + intros j Hj. specialize (Hn2 (1 + j)). replace (addr + (i + 1) + j) with (addr + i + (1 + j)) by lia. apply Hn2. lia.
Qed.

(** C8. A pipe is a queue of at most 512 bytes.  pipewrite, started or resumed at
    index [i], appends the user's bytes in order: all that are left, returning
    the count, if there is room; as many as there is room for otherwise, and
    then it sleeps; either way it wakes the readers.  piperead takes bytes from
    the front to the user's buffer, as many as there are up to [n], returns
    their number and wakes the writers; on an empty pipe with an open write
    end it sleeps.  The counters may wrap around 2^32. *)
Theorem pipe_fifo (s : kstate) (addr n : Z) (Hp : at_pipe s) (Ha : 0 <= addr) (Han : addr + n <= 2 ^ 64) (Hn : 0 <= n) :
  let q := pipe_queue (k_mem s) pi in
  let room := PIPESIZE - Z.of_nat (length q) in
  pipewrite fuel pi addr n s = pipewrite_loop (S (Z.to_nat n)) fuel p pi addr 0 n s /\
  (forall i, 0 <= i <= n -> i32 (ld32 (k_mem s) (pipe_readopen pi)) <> 0 -> mapped (k_mem s) PTE_U (addr + i) (n - i) ->
     exists m, pipewrite_loop (S (Z.to_nat (n - i))) fuel p pi addr i n s =
         (let s' := woken_all (ChPipeRead pi) (s <| k_mem := m |>) in
          if n - i <=? room then Ret n s' else Asleep (asleep_on (ChPipeWrite pi) s')) /\
       at_pipe (s <| k_mem := m |>) /\ pipe_queue m pi = q ++ ubytes (k_mem s) (addr + i) (Z.min (n - i) room)) /\
  (q <> [] \/ i32 (ld32 (k_mem s) (pipe_writeopen pi)) = 0 -> mapped (k_mem s) PTE_W addr n ->
     exists m, let r := Z.min n (Z.of_nat (length q)) in
       piperead fuel pi addr n s = Ret r (woken_all (ChPipeWrite pi) (s <| k_mem := m |>)) /\
       at_pipe (s <| k_mem := m |>) /\ q = ubytes m addr r ++ pipe_queue m pi) /\
  (q = [] -> i32 (ld32 (k_mem s) (pipe_writeopen pi)) <> 0 ->
     piperead fuel pi addr n s = Asleep (asleep_on (ChPipeRead pi) s)).
Proof.
  intros q room. unfold room, q. rewrite queue_length.
  assert (Emy : forall B (f : nat -> K B), (myproc ≫= f) s = f p s) by (intros B f; apply bind_ret; unfold myproc; run; by rewrite (ap_cur _ Hp)).
  assert (Hq0 : pipe_queue (k_mem s) pi = [] <-> pipe_count (k_mem s) pi = 0).
  { rewrite <- queue_length. destruct (pipe_queue (k_mem s) pi); cbn; [done|]. split; [done|lia]. }
  split_and!.
  - apply Emy.
  - intros i Hi Hro Hm. replace (n - i) with (Z.of_nat (Z.to_nat (n - i))) in Hm by lia.
    destruct (write_loop (Z.to_nat (n - i)) addr n s i Hp Hro Hm) as (m & E & Hpm & Hqm & _); [lia|lia|lia|]. rewrite Z2Nat.id in E, Hqm by lia.
    by exists m.
  - intros Hne Hm. replace n with (Z.of_nat (Z.to_nat n)) in Hm by lia. rewrite <- (Z.add_0_r addr) in Hm.
    destruct (read_loop_pipe (Z.to_nat n) addr n s 0 Hp Hm) as (m & E & Hpm & Hqm & _); [lia|lia|lia|lia|]. rewrite Z2Nat.id, Z.add_0_r in Hqm by lia.
    rewrite Z2Nat.id, Z.add_0_l in E by lia. exists m. split_and!; [|done|done].
    unfold piperead. rewrite Emy. unfold mget. rewrite !bind_gets, pipe_empty.
    replace ((pipe_count (k_mem s) pi =? 0) && negb (i32 (ld32 (k_mem s) (pipe_writeopen pi)) =? 0)) with false.
    + rewrite (bind_ret _ _ _ _ _ E). rewrite (bind_ret _ _ _ _ _ (wakeup_eq (s <| k_mem := m |>) _ (ap_len _ Hpm))). done.
    + symmetry. apply andb_false_iff. destruct Hne as [Hne| ->]; [left|by right]. apply Z.eqb_neq. by rewrite <- Hq0.
  - intros He Hwo. unfold piperead. rewrite Emy. unfold mget, killed. rewrite !bind_gets, pipe_empty, (proj1 Hq0 He).
    destruct (Z.eqb_spec (i32 (ld32 (k_mem s) (pipe_writeopen pi))) 0); [done|]. cbn [andb negb Z.eqb]. rewrite bind_gets, (ap_killed _ Hp). cbn [Z.eqb negb].
    apply sleep_on_eq; [apply (ap_cur _ Hp)|]. rewrite (ap_len _ Hp). apply (ap_lt _ Hp).
Qed.
End Fifo.

(** ** Example: an empty pipe at [0x80100000] *)
Section Example.
#[local] Existing Instance example_image.
Definition ex_pi : Z := 0x80100000.
Definition ex_pipe : kstate :=
  ex_state <| k_mem := st32 (st32 ex_mem (pipe_readopen ex_pi) 1) (pipe_writeopen ex_pi) 1 |>
    <| k_proc := (proc0 <| p_sz := 4096 |> <| p_pagetable := ex_root |> <| p_state := RUNNING |>) :: replicate 63 proc0 |>.
Lemma ex_pipe_page : off_tables ex_tree ex_free ex_pi 4096.
Proof.
  intros b q Hb [(π & HT)|Hq] Hp; unfold in_page, PGSIZE, ex_pi in *.
  - apply ex_tree_lookup in HT. unfold ex_root, ex_l1, ex_l0 in HT. lia.
  - unfold ex_free in Hq. rewrite !elem_of_cons, elem_of_nil in Hq. lia.
Qed.
Lemma ex_at_pipe : at_pipe 0 ex_root ex_tree ex_umap ex_free ex_pi ex_pipe.
Proof.
  destruct (uspace_buf_write ex_state ex_pipe ex_root ex_tree ex_umap ex_free ex_pi 4096 ex_uspace ex_pipe_page) as [Hu _]; [done| |].
  { intros b Hb. unfold ex_pipe, ex_pi in *. cbn [k_mem upd]. unfold st32. rewrite !ld8_st_out by (unfold pipe_readopen, pipe_writeopen; lia). done. }
  split; [done|done|vm_compute; lia|done|done|exact Hu| |vm_compute; discriminate].
  split; [split; [done|vm_compute; split; congruence]|]. split; [unfold ex_free, ex_pi; rewrite !elem_of_cons, elem_of_nil; lia|]. split.
  - intros (π & HT). apply ex_tree_lookup in HT. unfold ex_pi, ex_root, ex_l1, ex_l0 in HT. lia.
  - intros v. unfold ex_umap. rewrite lookup_insert_Some, lookup_empty. unfold ex_page, ex_pi. intros [[_ ?]|[_ ?]]; [lia|done].
Qed.
Lemma pipe_fifo_witness : exists m,
  pipewrite 0 ex_pi 8 3 ex_pipe = Ret 3 (woken_all (ChPipeRead ex_pi) (ex_pipe <| k_mem := m |>)) /\
  pipe_queue m ex_pi = ubytes ex_umap (k_mem ex_pipe) 8 3.
Proof.
  destruct (pipe_fifo 0 0 ex_root ex_tree ex_umap ex_free ex_pi ex_pipe 8 3 ex_at_pipe) as (Ew & Hw & _); [lia|lia|lia|].
  destruct (Hw 0) as (m & E & _ & Hq); [lia|vm_compute; discriminate| |].
  - intros y Hy. assert (y / PGSIZE = 0) as -> by (unfold PGSIZE; div_lia). split; [by exists ex_page|]. split; by vm_compute.
  - exists m. split; [rewrite Ew; exact E|exact Hq].
Defined.
End Example.
