(* ===== verification/Console.v ===== *)
(** * kernel/console.c and kernel/uart.c: the console

    [fs_cons] holds the input ring of console.c and tx_busy of uart.c; the
    bytes written to the transmit register are appended to [fs_out].  What the
    UART's status and receive registers say is an argument. *)

From S2P Require Import Prelude Memory FsState State Sched Printf Bio Kalloc VM Disk Memsys VMFault Fs.
Import Mem KString.
From Stdlib Require Import Ascii.

Definition cons (s : kstate) : consst := fs_cons (k_fs s).
Definition set_cons (f : consst -> consst) : K unit := modify_fs (fun t => t <| fs_cons := f (fs_cons t) |>).

(** C(x): control-x *)
Definition ctrl (x : ascii) : Z := chr x - chr "@".
Definition newline : Z := 10.

(** procdump (proc.c) *)
Definition states (st : procstate) : string :=
  match st with
  | UNUSED => "unused" | USED => "used" | SLEEPING => "sleep " | RUNNABLE => "runble" | RUNNING => "run   "
  | ZOMBIE => "zombie"
  end.
(** The bytes of a string in an array, up to its NUL. *)
Fixpoint cstr (l : list Z) : list Z :=
  match l with [] => [] | c :: l' => if c =? 0 then [] else c :: cstr l' end.
Definition procdump : K unit :=
  printf "
" [];;
  each_proc (fun i =>
    q ← gets (fun s => pr s i);
    if bool_decide (p_state q = UNUSED) then mret tt
    else
      printf "%d %s %s" [VInt (p_pid q); VStr (Some (bytes_of (states (p_state q)))); VStr (Some (cstr (p_name q)))];;
      printf "
" []).

(** consoleintr *)
Definition cons_at (c : consst) (k : Z) : Z := default 0 (c_buf c !! Z.to_nat (k `mod` INPUT_BUF_SIZE)).
Definition cons_erase : K unit :=
  set_cons (fun c => c <| c_e := u32 (c_e c - 1) |>);; consputc BACKSPACE.
Fixpoint kill_line (n : nat) : K unit :=
  match n with
  | O => no_fuel
  | S n' =>
      c ← gets cons;
      if negb (c_e c =? c_w c) && negb (cons_at c (u32 (c_e c - 1)) =? newline)
      then cons_erase;; kill_line n' else mret tt
  end.
Definition consoleintr (c : Z) : K unit :=
  if c =? ctrl "P" then procdump
  else if c =? ctrl "U" then
    n ← gets (fun s => u32 (c_e (cons s) - c_w (cons s)));
    kill_line (S (Z.to_nat n))
  else if (c =? ctrl "H") || (c =? 0x7f) then
    k ← gets cons;
    if negb (c_e k =? c_w k) then cons_erase else mret tt
  else
    k ← gets cons;
    if negb (c =? 0) && (u32 (c_e k - c_r k) <? INPUT_BUF_SIZE) then
      let c := if c =? 13 then newline else c in
      consputc c;;
      set_cons (fun k => k <| c_buf := <[Z.to_nat (c_e k `mod` INPUT_BUF_SIZE) := u8 c]> (c_buf k) |>
                           <| c_e := u32 (c_e k + 1) |>);;
      k ← gets cons;
      if (c =? newline) || (c =? ctrl "D") || (u32 (c_e k - c_r k) =? INPUT_BUF_SIZE) then
        set_cons (fun k => k <| c_w := c_e k |>);; wakeup ChCons
      else mret tt
    else mret tt.

(** uartwrite, from index [i] on *)
Fixpoint uartwrite_loop (k : nat) (buf i n : Z) : K unit :=
  match k with
  | O => no_fuel
  | S k' =>
      if i <? n then
        busy ← gets (fun s => c_tx_busy (cons s));
        if (busy : bool) then sleep_on ChTx
        else
          c ← mget (fun m => ld8 m (buf + i));
          modify_fs (fun t => t <| fs_out := fs_out t ++ [c] |>);;
          set_cons (fun k => k <| c_tx_busy := true |>);;
          uartwrite_loop k' buf (i + 1) n
      else mret tt
  end.
Definition uartwrite (buf n : Z) : K unit := uartwrite_loop (S (Z.to_nat n)) buf 0 n.

(** uartintr: [idle] is LSR_TX_IDLE, [input] the characters uartgetc finds *)
Fixpoint uart_input (input : list Z) : K unit :=
  match input with [] => mret tt | c :: l => consoleintr c;; uart_input l end.
Definition uartintr (idle : bool) (input : list Z) : K unit :=
  (if idle then set_cons (fun k => k <| c_tx_busy := false |>);; wakeup ChTx else mret tt);;
  uart_input input.

Section Console.
Context `{KernelImage}.

(** consolewrite, from index [i] on; its local [buf] has 32 bytes *)
Definition cons_buf : Z := kstk 5.
Fixpoint consolewrite_loop (k fuel : nat) (user_src : bool) (src i n : Z) : K Z :=
  match k with
  | O => no_fuel
  | S k' =>
      if i <? n then
        let nn := if n - i <? 32 then n - i else 32 in
        r ← either_copyin fuel cons_buf user_src (u64 (src + i)) nn;
        if r =? -1 then mret i
        else uartwrite cons_buf nn;; consolewrite_loop k' fuel user_src src (i + nn) n
      else mret i
  end.
Definition consolewrite (fuel : nat) (user_src : bool) (src n : Z) : K Z :=
  consolewrite_loop (S (Z.to_nat n)) fuel user_src src 0 n.

(** consoleread, with [n] of [target] bytes still to come; its local [cbuf] *)
Definition cbuf : Z := kstk 6.
Fixpoint consoleread_loop (k fuel : nat) (user_dst : bool) (dst n target : Z) : K Z :=
  match k with
  | O => no_fuel
  | S k' =>
      if 0 <? n then
        q ← gets cons;
        if c_r q =? c_w q then
          p ← myproc;
          kl ← killed p;
          if negb (kl =? 0) then mret (-1) else sleep_on ChCons
        else
          let c := cons_at q (c_r q) in
          set_cons (fun q => q <| c_r := u32 (c_r q + 1) |>);;
          if c =? ctrl "D" then
            (if u32 n <? target then set_cons (fun q => q <| c_r := u32 (c_r q - 1) |>) else mret tt);;
            mret (i32 (target - n))
          else
            mset (fun m => st8 m cbuf c);;
            r ← either_copyout fuel user_dst dst cbuf 1;
            if r =? -1 then mret (i32 (target - n))
            else if c =? newline then mret (i32 (target - (n - 1)))
            else consoleread_loop k' fuel user_dst (u64 (dst + 1)) (n - 1) target
      else mret (i32 (target - n))
  end.
Definition consoleread (fuel : nat) (user_dst : bool) (dst n : Z) : K Z :=
  consoleread_loop (S (Z.to_nat n)) fuel user_dst dst n (u32 n).

(** consoleinit; uartinit, which only programs the device, is in Boot *)
Definition consoleinit : K unit := modify_fs (fun t => t <| fs_devsw := true |>).

End Console.
