(* ===== verification/ConsoleProps.v ===== *)
(** * The console's line editor

    The input ring of console.c as two lists: [done], the input that readers may
    take, and [edit], the line that is being typed. *)

From S2P Require Import Prelude Memory FsState State Sched SchedSpec Printf Bio Kalloc VM Disk Memsys VMFault Fs Console.
Import Mem KString.
From Stdlib Require Import Ascii.

(** ** The abstract editor *)
Definition key (c : Z) (st : list Z * list Z) : list Z * list Z :=
  let '(done, edit) := st in
  if c =? ctrl "P" then st
  else if c =? ctrl "U" then (done, [])
  else if (c =? ctrl "H") || (c =? 0x7f) then (done, removelast edit)
  else if negb (c =? 0) && (Z.of_nat (length (done ++ edit)) <? INPUT_BUF_SIZE) then
    let c := if c =? 13 then newline else c in
    let edit := edit ++ [c] in
    if (c =? newline) || (c =? ctrl "D") || (Z.of_nat (length (done ++ edit)) =? INPUT_BUF_SIZE) then (done ++ edit, [])
    else (done, edit)
  else st.

(** ** The ring *)
Record ring (q : consst) (done edit : list Z) : Prop := {
  rg_len : length (c_buf q) = Z.to_nat INPUT_BUF_SIZE;
  rg_r : 0 <= c_r q < 2 ^ 32;
  rg_w : c_w q = u32 (c_r q + Z.of_nat (length done));
  rg_e : c_e q = u32 (c_r q + Z.of_nat (length (done ++ edit)));
  rg_room : Z.of_nat (length (done ++ edit)) <= INPUT_BUF_SIZE;
  rg_byte : forall k c, (done ++ edit) !! k = Some c -> cons_at q (c_r q + Z.of_nat k) = c;
  rg_line : newline ∉ edit
}.
Lemma u32_mod128 x : u32 x `mod` INPUT_BUF_SIZE = x `mod` INPUT_BUF_SIZE.
Proof. unfold u32, INPUT_BUF_SIZE. div_lia. Qed.
Lemma cons_at_u32 q k : cons_at q (u32 k) = cons_at q k.
Proof. unfold cons_at. by rewrite u32_mod128. Qed.
Lemma u32_diff r n : 0 <= n <= INPUT_BUF_SIZE -> u32 (u32 (r + n) - r) = n.
Proof. unfold u32, INPUT_BUF_SIZE. intros Hn. rewrite Zminus_mod_idemp_l. replace (r + n - r) with n by lia. apply Z.mod_small. lia. Qed.
Lemma ring_empty q done edit : ring q done edit -> (c_e q =? c_w q) = bool_decide (edit = []).
Proof.
  intros [_ Hr -> -> Hroom _ _]. rewrite length_app in *. apply eq_true_iff_eq. rewrite Z.eqb_eq, bool_decide_eq_true. unfold u32, INPUT_BUF_SIZE in *. split.
  - intros E. apply length_zero_iff_nil. rewrite Nat2Z.inj_add in *. div_lia.
  - intros ->. cbn. by rewrite Nat.add_0_r.
Qed.
(** Taking back the last character. *)
Lemma ring_erase q done edit c : ring q done (edit ++ [c]) -> ring (q <| c_e := u32 (c_e q - 1) |>) done edit /\ cons_at q (u32 (c_e q - 1)) = c.
Proof.
  intros [H1 H2 H3 H4 H5 H6 H7].
  assert (E : u32 (c_e q - 1) = u32 (c_r q + Z.of_nat (length (done ++ edit)))).
  { rewrite H4, app_assoc, length_app. cbn [length]. unfold u32. rewrite Zminus_mod_idemp_l. f_equal. lia. }
  split.
  - split; cbn; try done.
    + rewrite app_assoc, length_app in H5. cbn in H5. lia.
    + intros k x Hk. apply H6. rewrite app_assoc. by apply lookup_app_l_Some.
    + intros Hin. apply H7, elem_of_app. by left.
  - rewrite E, cons_at_u32. apply H6. rewrite app_assoc. apply list_lookup_middle. done.
Qed.
(** Adding a character. *)
Lemma ring_add q done edit c :
  ring q done edit -> Z.of_nat (length (done ++ edit)) < INPUT_BUF_SIZE ->
  let q' := q <| c_buf := <[Z.to_nat (c_e q `mod` INPUT_BUF_SIZE) := c]> (c_buf q) |> <| c_e := u32 (c_e q + 1) |> in
  (c <> newline -> ring q' done (edit ++ [c])) /\ ring (q' <| c_w := c_e q' |>) (done ++ edit ++ [c]) [].
Proof.
  intros [H1 H2 H3 H4 H5 H6 H7] Hroom q'. set (l := done ++ edit) in *.
  assert (Ee : c_e q' = u32 (c_r q + Z.of_nat (length (l ++ [c])))).
  { unfold q'. cbn. rewrite H4, length_app. cbn [length]. unfold u32. rewrite Zplus_mod_idemp_l. f_equal. lia. }
  assert (Hl : Z.of_nat (length (l ++ [c])) <= INPUT_BUF_SIZE) by (rewrite length_app; cbn; lia).
  assert (Hbytes : forall k x, (l ++ [c]) !! k = Some x -> cons_at q' (c_r q + Z.of_nat k) = x).
  { intros k x Hk. unfold cons_at, q'. cbn [c_buf upd]. rewrite H4, u32_mod128.
    pose proof (lookup_lt_Some _ _ _ Hk) as Hkl. rewrite length_app in Hkl. cbn in Hkl. destruct (decide (k = length l)) as [->|Hne].
    - rewrite list_lookup_middle in Hk by done. injection Hk as ->. rewrite list_lookup_insert_eq; [done|]. rewrite H1. unfold INPUT_BUF_SIZE. div_lia.
    - rewrite list_lookup_insert_ne by (unfold INPUT_BUF_SIZE in *; div_lia). rewrite lookup_app_l in Hk by lia. by apply H6. }
  assert (Hlen' : length (c_buf q') = Z.to_nat INPUT_BUF_SIZE) by (unfold q'; cbn [c_buf upd]; by rewrite length_insert).
  split.
  - intros Hc. split; try done; rewrite ?app_assoc; fold l; try done. rewrite elem_of_app, list_elem_of_singleton. naive_solver.
  - rewrite app_assoc. fold l. split; cbn [c_buf c_r c_w c_e upd]; rewrite ?app_nil_r; try done. apply not_elem_of_nil.
Qed.

(** ** consoleintr *)
Lemma outputs_gets {A} (g : kstate -> A) (f : A -> K unit) : (forall x, outputs (f x)) -> outputs (gets g ≫= f).
Proof. intros Hf s. rewrite bind_gets. apply Hf. Qed.
Lemma outputs_procdump : outputs procdump.
Proof.
  unfold procdump, each_proc. apply outputs_bind; [apply outputs_printf|]. generalize 0%nat. induction (Z.to_nat NPROC) as [|n IH]; intros i; [apply outputs_ret|].
  cbn [for_procs]. apply outputs_bind; [|apply IH]. apply outputs_gets. intros q. case_bool_decide; [apply outputs_ret|]. apply outputs_bind; apply outputs_printf.
Qed.
(** Output and the ring may have changed, and the states of processes. *)
Record typed (s s' : kstate) (q : consst) : Prop := {
  ty_cons : cons s' = q;
  ty_procs : length (k_proc s') = length (k_proc s);
  ty_mem : k_mem s' = k_mem s;
  ty_cur : k_cur s' = k_cur s
}.
Lemma erase_eq s : exists s', cons_erase s = Ret tt s' /\ typed s s' ((cons s) <| c_e := u32 (c_e (cons s) - 1) |>).
Proof.
  unfold cons_erase, set_cons, modify_fs. rewrite bind_modify. set (s1 := s <| k_fs := _ |>). destruct (outputs_consputc BACKSPACE s1) as [o E].
  exists (with_out s1 o). split; [exact E|]. by split.
Qed.
Lemma kill_line_spec n : forall s done edit, ring (cons s) done edit -> (length edit < n)%nat ->
  exists s' q, kill_line n s = Ret tt s' /\ typed s s' q /\ ring q done [].
Proof.
  induction n as [|n IH]; intros s done edit Hr Hn; [lia|]. cbn [kill_line]. rewrite bind_gets, (ring_empty _ _ _ Hr).
  destruct edit as [|c edit _] using rev_ind.
  - rewrite bool_decide_true by done. by exists s, (cons s).
  - rewrite bool_decide_false by (by destruct edit). destruct (ring_erase _ _ _ _ Hr) as [Hr' ->].
    assert (Hc : c <> newline) by (intros ->; apply (rg_line _ _ _ Hr), elem_of_app; right; apply list_elem_of_singleton; done).
    rewrite (proj2 (Z.eqb_neq _ _) Hc). cbn [negb andb]. destruct (erase_eq s) as (s1 & E1 & [T1 T2 T3 T4]). rewrite (bind_ret _ _ _ _ _ E1). rewrite <- T1 in Hr'.
    rewrite length_app in Hn. cbn in Hn. destruct (IH s1 done edit Hr' ltac:(lia)) as (s2 & q & E2 & [U1 U2 U3 U4] & Hq).
    exists s2, q. split_and!; [done| |done]. split; congruence.
Qed.
Lemma consoleintr_spec s done edit c :
  ring (cons s) done edit -> length (k_proc s) = Z.to_nat NPROC -> 0 <= c < 256 ->
  exists s' q, consoleintr c s = Ret tt s' /\ typed s s' q /\ ring q (key c (done, edit)).1 (key c (done, edit)).2.
Proof.
  intros Hr Hp Hc. unfold consoleintr, key. destruct (c =? ctrl "P").
  { destruct (outputs_procdump s) as [o E]. exists (with_out s o), (cons s). split_and!; [done|by split|done]. }
  destruct (c =? ctrl "U").
  { rewrite bind_gets. apply (kill_line_spec _ _ _ edit Hr). pose proof (rg_room _ _ _ Hr) as Hroom. rewrite length_app in Hroom.
    rewrite (rg_e _ _ _ Hr), (rg_w _ _ _ Hr), length_app. unfold u32, INPUT_BUF_SIZE in *. rewrite <- Zminus_mod.
    replace (_ - _) with (Z.of_nat (length edit)) by lia. rewrite Z.mod_small by lia. lia. }
  destruct ((c =? ctrl "H") || (c =? 127)).
  { rewrite bind_gets, (ring_empty _ _ _ Hr). destruct edit as [|x edit _] using rev_ind; [rewrite bool_decide_true by done; by exists s, (cons s)|].
    rewrite bool_decide_false by (by destruct edit). cbn [negb fst snd]. rewrite removelast_last. destruct (ring_erase _ _ _ _ Hr) as [Hr' _].
    destruct (erase_eq s) as (s1 & E1 & HT). by exists s1, ((cons s) <| c_e := u32 (c_e (cons s) - 1) |>). }
  pose proof (rg_room _ _ _ Hr) as Hroom. rewrite bind_gets, (rg_e _ _ _ Hr), u32_diff by lia.
  destruct (Z.ltb_spec (Z.of_nat (length (done ++ edit))) INPUT_BUF_SIZE) as [Hlt|]; [|rewrite andb_false_r; by exists s, (cons s)].
  destruct (negb (c =? 0)); [|by exists s, (cons s)]. cbn [andb]. set (c' := if c =? 13 then newline else c).
  assert (Hc' : u8 c' = c') by (apply u8_small; unfold c', newline; destruct (c =? 13); lia). cbv zeta.
  destruct (outputs_consputc c' s) as [o Eo]. rewrite (bind_ret _ _ _ _ _ Eo). unfold set_cons, modify_fs. rewrite bind_modify. cbv beta. rewrite Hc'.
  destruct (ring_add (cons s) done edit c' Hr Hlt) as [Hadd Hdone]. set (q' := _ <| c_e := _ |>) in *. set (s1 := _ <| k_fs := _ |>).
  assert (Eq : cons s1 = q') by done. assert (Er : u32 (c_e q' - c_r q') = Z.of_nat (length (done ++ edit ++ [c']))).
  { change (c_r q') with (c_r (cons s)). change (c_e q') with (u32 (c_e (cons s) + 1)). rewrite (rg_e _ _ _ Hr), app_assoc, (length_app (done ++ edit)). cbn [length].
    set (n := length (done ++ edit)) in *. replace (u32 (u32 (c_r (cons s) + Z.of_nat n) + 1)) with (u32 (c_r (cons s) + (Z.of_nat n + 1))).
    - rewrite u32_diff by lia. lia.
    - unfold u32. rewrite Zplus_mod_idemp_l. f_equal. lia. }
  rewrite bind_gets, Eq, Er. destruct ((c' =? newline) || _ || _) eqn:Ec.
  - rewrite bind_modify. set (s2 := _ <| k_fs := _ |>). assert (Hp2 : length (k_proc s2) = Z.to_nat NPROC) by done.
    rewrite (wakeup_eq s2 ChCons Hp2). eexists _, _. split; [done|]. split; [split; [reflexivity|cbn; by rewrite length_imap|done|done]|]. exact Hdone.
  - apply orb_false_iff in Ec as [[Ec%Z.eqb_neq _]%orb_false_iff _]. exists s1, q'. split_and!; [done|by split|]. by apply Hadd.
Qed.

(** ** consoleread to kernel memory *)
Fixpoint take_input (n : nat) (first : bool) (done : list Z) : option (list Z * list Z) :=
  match n, done with
  | O, _ => Some ([], done)
  | S _, [] => None
  | S n', c :: r =>
      if c =? ctrl "D" then Some ([], if first then r else done)
      else if c =? newline then Some ([c], r)
      else match take_input n' false r with Some (g, d) => Some (c :: g, d) | None => None end
  end.
Lemma ring_waiting q done edit : ring q done edit -> (c_r q =? c_w q) = bool_decide (done = []).
Proof.
  intros [_ Hr -> _ Hroom _ _]. rewrite length_app in *. apply eq_true_iff_eq. rewrite Z.eqb_eq, bool_decide_eq_true. unfold u32, INPUT_BUF_SIZE in *. split.
  - intros E. apply length_zero_iff_nil. rewrite Nat2Z.inj_add in *. div_lia.
  - intros ->. cbn. rewrite Z.add_0_r, Z.mod_small; lia.
Qed.
Lemma ring_take q c done edit : ring q (c :: done) edit -> ring (q <| c_r := u32 (c_r q + 1) |>) done edit /\ cons_at q (c_r q) = c.
Proof.
  intros [H1 H2 H3 H4 H5 H6 H7]. cbn [app length] in *. split.
  - assert (Hs : forall n, u32 (c_r q + Z.of_nat (S n)) = u32 (u32 (c_r q + 1) + Z.of_nat n)) by (intros n; unfold u32; rewrite Zplus_mod_idemp_l; f_equal; lia).
    split; cbn [c_buf c_r c_w c_e upd]; [done|apply u32_range|by rewrite <- Hs|by rewrite <- Hs|lia| |done].
    intros k x Hk. specialize (H6 (S k) x Hk). rewrite <- H6. unfold cons_at. cbn [c_buf upd]. f_equal. f_equal. f_equal.
    rewrite Zplus_mod, u32_mod128, <- Zplus_mod. f_equal. lia.
  - specialize (H6 0%nat c eq_refl). by rewrite Z.add_0_r in H6.
Qed.
Lemma ring_untake q c done edit r : ring q (c :: done) edit -> r = u32 (u32 (c_r q + 1) - 1) -> ring (q <| c_r := r |>) (c :: done) edit.
Proof.
  intros Hr ->. replace (u32 (u32 (c_r q + 1) - 1)) with (c_r q); [by destruct q|]. pose proof (rg_r _ _ _ Hr). unfold u32.
  rewrite Zminus_mod_idemp_l. replace (c_r q + 1 - 1) with (c_r q) by lia. by rewrite Z.mod_small.
Qed.

Section Read.
Context `{KernelImage}.
(** One character on its way to the reader. *)
Lemma console_put fuel dst c s : 0 <= c < 256 ->
  exists s1 s2, mset (fun m => st8 m cbuf c) s = Ret tt s1 /\ either_copyout fuel false dst cbuf 1 s1 = Ret 0 s2 /\ cons s2 = cons s /\
    forall a, a <> cbuf -> ld8 (k_mem s2) a = if decide (a = dst) then c else ld8 (k_mem s) a.
Proof.
  intros Hc. eexists _, _. split; [reflexivity|]. split; [reflexivity|]. split; [done|]. intros a Ha.
  change (ld8 (memmove (st8 (k_mem s) cbuf c) dst cbuf 1) a = if decide (a = dst) then c else ld8 (k_mem s) a). rewrite ld8_memmove by lia.
  destruct (decide (a = dst)) as [->|].
  - rewrite decide_True by lia. rewrite Z.sub_diag, Z.add_0_r, ld8_st8_eq. by apply u8_small.
  - rewrite decide_False, ld8_st8_ne by lia. done.
Qed.
Lemma consoleread_loop_spec fuel edit target k : forall s done dst n got done',
  ring (cons s) done edit -> 0 <= n <= target -> target < 2 ^ 31 -> (Z.to_nat n < k)%nat -> 0 <= dst -> dst + n < 2 ^ 64 ->
  dst + n <= cbuf \/ cbuf < dst -> take_input (Z.to_nat n) (n =? target) done = Some (got, done') -> Forall (fun c => 0 <= c < 256) done ->
  exists s', consoleread_loop k fuel false dst n target s = Ret (target - n + Z.of_nat (length got)) s' /\ ring (cons s') done' edit /\
    (forall j c, got !! j = Some c -> ld8 (k_mem s') (dst + Z.of_nat j) = c) /\
    forall a, (a < dst \/ dst + n <= a) -> a <> cbuf -> ld8 (k_mem s') a = ld8 (k_mem s) a.
Proof.
  induction k as [|k IH]; intros s done dst n got done' Hr Hn Ht Hk Hdst Hdn Hsep Htake Hby; [lia|]. cbn [consoleread_loop].
  destruct (Z.ltb_spec 0 n) as [Hpos|].
  2:{ assert (n = 0) as -> by lia. cbn in Htake. injection Htake as <- <-. exists s. rewrite i32_small by lia. rewrite Z.sub_0_r, Z.add_0_r. by split_and!. }
  destruct (Z.to_nat n) as [|n'] eqn:En; [lia|]. rewrite bind_gets, (ring_waiting _ _ _ Hr). destruct done as [|c done]; [done|]. rewrite bool_decide_false by done.
  destruct (ring_take _ _ _ _ Hr) as [Hr1 ->]. unfold set_cons, modify_fs. rewrite bind_modify. set (s1 := s <| k_fs := _ |>). cbn [take_input] in Htake.
  apply Forall_cons in Hby as [Hc Hby]. destruct (Z.eqb_spec c (ctrl "D")) as [->|HcD].
  { injection Htake as <- <-. rewrite u32_small by lia. cbn [length]. rewrite Z.add_0_r. destruct (Z.eqb_spec n target) as [->|Hnt].
    - rewrite Z.ltb_irrefl. exists s1. split_and!; try done. cbn. by rewrite i32_small by lia.
    - destruct (Z.ltb_spec n target); [|lia]. rewrite bind_modify. eexists. split; [cbn; by rewrite i32_small by lia|]. split_and!; try done.
      apply (ring_untake (cons s) (ctrl "D") done edit); done. }
  destruct (console_put fuel dst c s1 Hc) as (sa & s2 & Ea & E2 & Ec2 & Hm2). rewrite (bind_ret _ _ _ _ _ Ea), (bind_ret _ _ _ _ _ E2).
  change (0 =? -1) with false. cbv beta iota. change (k_mem s1) with (k_mem s) in Hm2.
  change (ring (cons s1) done edit) in Hr1. rewrite <- Ec2 in Hr1.
  destruct (Z.eqb_spec c newline) as [->|HcN].
  { injection Htake as <- <-. exists s2. split_and!; try done.
    - cbn. rewrite i32_small by lia. f_equal. lia.
    - intros [|j] x [= <-]. rewrite Z.add_0_r, Hm2, decide_True by lia. done.
    - intros a Ha Hac. rewrite Hm2, decide_False by lia. done. }
  destruct (take_input n' false done) as [[g d]|] eqn:Et; [|done]. injection Htake as <- <-.
  destruct (IH s2 done (dst + 1) (n - 1) g d Hr1) as (s3 & E3 & Hr3 & Hb3 & Hm3); try lia; [|done|].
  { rewrite (proj2 (Z.eqb_neq (n - 1) target)) by lia. by replace (Z.to_nat (n - 1)) with n' by lia. }
  rewrite u64_small by lia. exists s3. split_and!; try done.
  - rewrite E3. f_equal. cbn [length]. lia.
  - intros [|j] x Hj; cbn in Hj; [injection Hj as <-; rewrite Z.add_0_r, Hm3, Hm2, decide_True by lia; done|].
    rewrite <- (Hb3 j x Hj). f_equal. lia.
  - intros a Ha Hac. rewrite Hm3, Hm2, decide_False by lia. done.
Qed.
End Read.

(** ** The claims *)

(** C32. The console's line editor: whatever is typed, the input ring stays well
    formed (the read, write and edit indices in order, at most 128 bytes, the
    line being edited without a newline) and holds what the abstract editor
    holds: control-H and DEL take back the last character of the line, control-U
    all of it, a carriage return becomes a newline, and a newline, control-D or
    a full ring hands the line to the readers.  The indices may wrap around. *)
Theorem console_editing cs : forall s done edit,
  ring (cons s) done edit -> length (k_proc s) = Z.to_nat NPROC -> Forall (fun c => 0 <= c < 256) cs ->
  let st := foldl (fun st c => key c st) (done, edit) cs in
  exists s', uart_input cs s = Ret tt s' /\ ring (cons s') st.1 st.2 /\ k_mem s' = k_mem s /\ k_cur s' = k_cur s.
Proof.
  induction cs as [|c cs IH]; intros s done edit Hr Hp Hcs; [by exists s|]. apply Forall_cons in Hcs as [Hc Hcs].
  destruct (consoleintr_spec s done edit c Hr Hp Hc) as (s1 & q & E1 & [<- T2 T3 T4] & Hr1). cbn [uart_input foldl].
  destruct (key c (done, edit)) as [done1 edit1]. destruct (IH s1 done1 edit1 Hr1 ltac:(congruence) Hcs) as (s2 & E2 & Hr2 & Hm & Hcur).
  exists s2. rewrite (bind_ret _ _ _ _ _ E1). split_and!; [done|done|congruence..].
Qed.


(** Typing [a], [b], DEL, [c], return. *)
Definition ex_console : kstate :=
  kstate0 <| k_proc := replicate 64 proc0 |>
    <| k_fs := fsst0 <| fs_cons := (fs_cons fsst0) <| c_buf := replicate 128 0 |> <| c_r := 2 ^ 32 - 1 |> <| c_w := 2 ^ 32 - 1 |> <| c_e := 2 ^ 32 - 1 |> |> |>.
Lemma ex_ring : ring (cons ex_console) [] [].
Proof. split; [done|vm_compute; split; congruence|done|done|done|done|apply not_elem_of_nil]. Qed.
Lemma console_editing_witness : exists s', uart_input [97; 98; 127; 99; 13] ex_console = Ret tt s' /\ ring (cons s') [97; 99; 10] [].
Proof.
  destruct (console_editing [97; 98; 127; 99; 13] ex_console [] [] ex_ring eq_refl) as (s' & E & Hr & _).
  - repeat (apply Forall_cons; split; [lia|]). apply Forall_nil. exact I.
  - exists s'. split; [exact E|exact Hr].
Defined.
Definition ex_line : kstate :=
  kstate0 <| k_fs := fsst0 <| fs_cons := (fs_cons fsst0) <| c_buf := [97; 99; 10] ++ replicate 125 0 |> <| c_w := 3 |> <| c_e := 3 |> |> |>.
Lemma ex_line_ring : ring (cons ex_line) [97; 99; 10] [].
Proof.
  split; [done|vm_compute; split; congruence|done|done|vm_compute; congruence| |apply not_elem_of_nil].
  intros k c Hk. do 3 (destruct k as [|k]; [injection Hk as <-; vm_compute; reflexivity|]). discriminate Hk.
Qed.
