(* ===== verification/File.v ===== *)
(** * kernel/file.c: the table of open files, and pipealloc of pipe.c

    [fs_file] is ftable.file, a [struct file *] an index into it.  The only
    device is the console. *)

From S2P Require Import Prelude Memory FsState State Sched Bio Log Kalloc VM Disk Memsys VMFault Fs Pipe Console.
Import Mem KString.

Definition fl (s : kstate) (f : nat) : file := default file0 (fs_file (k_fs s) !! f).
Definition set_file (f : nat) (g : file -> file) : K unit :=
  modify_fs (fun t => t <| fs_file := alter g f (fs_file t) |>).

Section File.
Context `{KernelImage}.

(** filealloc *)
Definition filealloc : K (option nat) :=
  r ← gets (fun s => find (fun f => f_ref (fl s f) =? 0) (seq 0 (Z.to_nat NFILE)));
  match r with
  | Some f => set_file f (fun x => x <| f_ref := 1 |>);; mret (Some f)
  | None => mret None
  end.

(** filedup *)
Definition filedup (f : nat) : K nat :=
  r ← gets (fun s => f_ref (fl s f));
  if r <? 1 then panic "filedup"
  else set_file f (fun x => x <| f_ref := i32 (f_ref x + 1) |>);; mret f.

(** fileclose *)
Definition fileclose (f : nat) : K unit :=
  ff ← gets (fun s => fl s f);
  if f_ref ff <? 1 then panic "fileclose"
  else
    set_file f (fun x => x <| f_ref := f_ref x - 1 |>);;
    if 0 <? f_ref ff - 1 then mret tt
    else
      set_file f (fun x => x <| f_ref := 0 |> <| f_type := FD_NONE |>);;
      match f_type ff with
      | FD_PIPE => pipeclose (f_pipe ff) (f_writable ff)
      | FD_INODE | FD_DEVICE =>
          begin_op;;
          match f_ip ff with Some i => iput i | None => fault "iput" end;;
          end_op
      | FD_NONE => mret tt
      end.

(** filestat; its local [st], 24 bytes *)
Definition st_filestat : Z := kstk 7.
Definition filestat (fuel : nat) (f : nat) (addr : Z) : K Z :=
  p ← myproc;
  ff ← gets (fun s => fl s f);
  match f_type ff with
  | FD_INODE | FD_DEVICE =>
      ilock (f_ip ff);;
      match f_ip ff with Some i => stati i st_filestat | None => fault "stati" end;;
      iunlock (f_ip ff);;
      root ← gets (fun s => p_pagetable (pr s p));
      r ← copyout fuel root addr st_filestat 24;
      if r <? 0 then mret (-1) else mret 0
  | _ => mret (-1)
  end.

(** devsw[major].read and .write are set *)
Definition connected (s : kstate) (major : Z) : bool :=
  (0 <=? major) && (major <? NDEV) && (fs_devsw (k_fs s) && (major =? CONSOLE)).

(** fileread *)
Definition fileread (fuel : nat) (f : nat) (addr n : Z) : K Z :=
  ff ← gets (fun s => fl s f);
  if negb (f_readable ff) then mret (-1)
  else
    match f_type ff with
    | FD_PIPE => piperead fuel (f_pipe ff) addr n
    | FD_DEVICE =>
        c ← gets (fun s => connected s (f_major ff));
        if (c : bool) then consoleread fuel true addr n else mret (-1)
    | FD_INODE =>
        ilock (f_ip ff);;
        r ← match f_ip ff with
            | Some i => readi fuel i true addr (f_off ff) (u32 n)
            | None => fault "readi"
            end;
        (if 0 <? r then set_file f (fun x => x <| f_off := u32 (f_off x + r) |>) else mret tt);;
        iunlock (f_ip ff);;
        mret r
    | FD_NONE => panic "fileread"
    end.

(** filewrite: the transactions of an inode write, from index [i] on *)
Definition filewrite_max : Z := (MAXOPBLOCKS - 1 - 1 - 2) / 2 * BSIZE.
Fixpoint filewrite_loop (k fuel : nat) (f : nat) (addr i n : Z) : K Z :=
  match k with
  | O => no_fuel
  | S k' =>
      if i <? n then
        let n1 := if filewrite_max <? n - i then filewrite_max else n - i in
        begin_op;;
        ff ← gets (fun s => fl s f);
        ilock (f_ip ff);;
        off ← gets (fun s => f_off (fl s f));
        r ← match f_ip ff with
            | Some ip => writei fuel ip true (u64 (addr + i)) off (u32 n1)
            | None => fault "writei"
            end;
        (if 0 <? r then set_file f (fun x => x <| f_off := u32 (f_off x + r) |>) else mret tt);;
        iunlock (f_ip ff);;
        end_op;;
        if negb (r =? n1) then mret i else filewrite_loop k' fuel f addr (i + r) n
      else mret i
  end.
Definition filewrite (fuel : nat) (f : nat) (addr n : Z) : K Z :=
  ff ← gets (fun s => fl s f);
  if negb (f_writable ff) then mret (-1)
  else
    match f_type ff with
    | FD_PIPE => pipewrite fuel (f_pipe ff) addr n
    | FD_DEVICE =>
        c ← gets (fun s => connected s (f_major ff));
        if (c : bool) then consolewrite fuel true addr n else mret (-1)
    | FD_INODE =>
        i ← filewrite_loop (Z.to_nat (n / filewrite_max) + 2) fuel f addr 0 n;
        mret (if i =? n then n else -1)
    | FD_NONE => panic "filewrite"
    end.

(** pipealloc (pipe.c): the two files, or none *)
Definition pipe_bad (f0 f1 : option nat) : K (option (nat * nat)) :=
  match f0 with Some f => fileclose f | None => mret tt end;;
  match f1 with Some f => fileclose f | None => mret tt end;;
  mret None.
Definition pipealloc : K (option (nat * nat)) :=
  f0 ← filealloc;
  match f0 with
  | None => pipe_bad None None
  | Some a =>
      f1 ← filealloc;
      match f1 with
      | None => pipe_bad (Some a) None
      | Some b =>
          pi ← kalloc;
          if pi =? 0 then pipe_bad (Some a) (Some b)
          else
            mset (fun m => st32 (st32 (st32 (st32 m (pipe_readopen pi) 1) (pipe_writeopen pi) 1) (pipe_nwrite pi) 0) (pipe_nread pi) 0);;
            set_file a (fun x => x <| f_type := FD_PIPE |> <| f_readable := true |> <| f_writable := false |> <| f_pipe := pi |>);;
            set_file b (fun x => x <| f_type := FD_PIPE |> <| f_readable := false |> <| f_writable := true |> <| f_pipe := pi |>);;
            mret (Some (a, b))
      end
  end.

End File.
