(* ===== verification/Proc.v ===== *)
(** * kernel/proc.c: the life of a process

    Creation, memory, fork, exit and wait.  The trap frame of a process is in
    its page, at the offsets of struct trapframe (proc.h).  A process that
    exits, or waits for a child, ends in [Asleep]. *)

From S2P Require Import Prelude Memory FsState State Sched Log Kalloc VM Disk Memsys VMFault Fs File.
Import Mem KString.

(** struct trapframe: the fields that C code uses *)
Definition tf_kernel_satp (tf : Z) : Z := tf.
Definition tf_kernel_sp (tf : Z) : Z := tf + 8.
Definition tf_kernel_trap (tf : Z) : Z := tf + 16.
Definition tf_epc (tf : Z) : Z := tf + 24.
Definition tf_kernel_hartid (tf : Z) : Z := tf + 32.
Definition tf_sp (tf : Z) : Z := tf + 48.
Definition tf_a (n tf : Z) : Z := tf + 112 + 8 * n.
Definition TRAPFRAME_SIZE : Z := 288.

(** safestrcpy on the [name] array of a process *)
Fixpoint name_copy (n : nat) (dst src : list Z) : list Z :=
  match n with
  | O => 0 :: tail dst
  | S n' =>
      let c := default 0 (head src) in
      if c =? 0 then 0 :: 0 :: tail (tail dst) else c :: name_copy n' (tail dst) (tail src)
  end.

Section Proc.
Context `{KernelImage}.

(** proc_freepagetable *)
Definition proc_freepagetable (pagetable sz : Z) : K unit :=
  uvmunmap pagetable TRAMPOLINE 1 false;;
  uvmunmap pagetable TRAPFRAME 1 false;;
  uvmfree pagetable sz.

(** proc_pagetable *)
Definition proc_pagetable (p : nat) : K Z :=
  pagetable ← uvmcreate;
  if pagetable =? 0 then mret 0
  else
    r ← mappages pagetable TRAMPOLINE PGSIZE ktrampoline (Z.lor PTE_R PTE_X);
    if r <? 0 then uvmfree pagetable 0;; mret 0
    else
      tf ← gets (fun s => p_trapframe (pr s p));
      r ← mappages pagetable TRAPFRAME PGSIZE tf (Z.lor PTE_R PTE_W);
      if r <? 0 then
        uvmunmap pagetable TRAMPOLINE 1 false;;
        uvmfree pagetable 0;;
        mret 0
      else mret pagetable.

(** freeproc *)
Definition freeproc (p : nat) : K unit :=
  q ← gets (fun s => pr s p);
  (if negb (p_trapframe q =? 0) then kfree (p_trapframe q) else mret tt);;
  set_pr p (fun q => q <| p_trapframe := 0 |>);;
  (if negb (p_pagetable q =? 0) then proc_freepagetable (p_pagetable q) (p_sz q) else mret tt);;
  set_pr p (fun q =>
    q <| p_pagetable := 0 |> <| p_sz := 0 |> <| p_pid := 0 |> <| p_parent := None |>
      <| p_name := <[0%nat := 0]> (p_name q) |> <| p_chan := NoChan |> <| p_killed := 0 |>
      <| p_xstate := 0 |> <| p_state := UNUSED |>).

(** allocproc *)
Definition allocproc : K (option nat) :=
  r ← gets (fun s => find (fun i => bool_decide (p_state (pr s i) = UNUSED)) (seq 0 (Z.to_nat NPROC)));
  match r with
  | None => mret None
  | Some p =>
      pid ← allocpid;
      set_pr p (fun q => q <| p_pid := pid |> <| p_state := USED |>);;
      init_mlfq_state p;;
      set_pr p (fun q =>
        q <| p_page_faults := 0 |> <| p_pages_evicted := 0 |> <| p_pages_swapped_in := 0 |>
          <| p_pages_swapped_out := 0 |> <| p_resident_pages := 0 |>);;
      tf ← kalloc;
      set_pr p (fun q => q <| p_trapframe := tf |>);;
      if tf =? 0 then freeproc p;; mret None
      else
        pagetable ← proc_pagetable p;
        set_pr p (fun q => q <| p_pagetable := pagetable |>);;
        if pagetable =? 0 then freeproc p;; mret None
        else
          set_pr p (fun q => q <| p_context_ra := kforkret |> <| p_context_sp := u64 (p_kstack q + PGSIZE) |>);;
          mret (Some p)
  end.

(** userinit; the literal path is in the kernel's memory *)
Definition path_root : Z := kstk 8.
Definition userinit (fuel : nat) : K unit :=
  r ← allocproc;
  modify (fun s => s <| k_initproc := r |>);;
  match r with
  | None => fault "userinit"
  | Some p =>
      mset (fun m => st8 (st8 m path_root slash) (path_root + 1) 0);;
      cwd ← namei fuel path_root;
      set_pr p (fun q => q <| p_cwd := cwd |> <| p_state := RUNNABLE |>)
  end.

(** growproc *)
Definition growproc (n : Z) : K Z :=
  p ← myproc;
  q ← gets (fun s => pr s p);
  let sz := p_sz q in
  if 0 <? n then
    if TRAPFRAME <? u64 (sz + n) then mret (-1)
    else
      sz ← uvmalloc (p_pagetable q) sz (u64 (sz + n)) PTE_W;
      if sz =? 0 then mret (-1) else set_pr p (fun q => q <| p_sz := sz |>);; mret 0
  else if n <? 0 then
    sz ← uvmdealloc (p_pagetable q) sz (u64 (sz + n));
    set_pr p (fun q => q <| p_sz := sz |>);; mret 0
  else set_pr p (fun q => q <| p_sz := sz |>);; mret 0.

(** kfork *)
Definition kfork : K Z :=
  p ← myproc;
  r ← allocproc;
  match r with
  | None => mret (-1)
  | Some np =>
      q ← gets (fun s => pr s p);
      npt ← gets (fun s => p_pagetable (pr s np));
      r ← uvmcopy (p_pagetable q) npt (p_sz q);
      if r <? 0 then freeproc np;; mret (-1)
      else
        set_pr np (fun x => x <| p_sz := p_sz q |>);;
        tf ← gets (fun s => p_trapframe (pr s np));
        kmemmove tf (p_trapframe q) TRAPFRAME_SIZE;;
        mset (fun m => st64 m (tf_a 0 tf) 0);;
        for_loop (Z.to_nat NOFILE) 0 (fun i =>
          f ← gets (fun s => default None (p_ofile (pr s p) !! Z.to_nat i));
          match f with
          | Some f =>
              f ← filedup f;
              set_pr np (fun x => x <| p_ofile := <[Z.to_nat i := Some f]> (p_ofile x) |>)
          | None => mret tt
          end);;
        cwd ← match p_cwd q with Some i => idup i | None => fault "idup" end;
        set_pr np (fun x => x <| p_cwd := Some cwd |>);;
        set_pr np (fun x => x <| p_name := name_copy 15 (p_name x) (p_name q) |>);;
        pid ← gets (fun s => p_pid (pr s np));
        set_pr np (fun x => x <| p_parent := Some p |>);;
        set_pr np (fun x => x <| p_state := RUNNABLE |>);;
        mret pid
  end.

(** reparent *)
Definition reparent (p : nat) : K unit :=
  each_proc (fun i =>
    par ← gets (fun s => p_parent (pr s i));
    if bool_decide (par = Some p) then
      init ← gets k_initproc;
      set_pr i (fun q => q <| p_parent := init |>);;
      wakeup (chan_of init)
    else mret tt).

(** kexit *)
Definition kexit (status : Z) : K unit :=
  p ← myproc;
  init ← gets k_initproc;
  if bool_decide (init = Some p) then panic "init exiting"
  else
    for_loop (Z.to_nat NOFILE) 0 (fun fd =>
      f ← gets (fun s => default None (p_ofile (pr s p) !! Z.to_nat fd));
      match f with
      | Some f => fileclose f;; set_pr p (fun q => q <| p_ofile := <[Z.to_nat fd := None]> (p_ofile q) |>)
      | None => mret tt
      end);;
    begin_op;;
    cwd ← gets (fun s => p_cwd (pr s p));
    match cwd with Some i => iput i | None => fault "iput" end;;
    end_op;;
    set_pr p (fun q => q <| p_cwd := None |>);;
    reparent p;;
    par ← gets (fun s => p_parent (pr s p));
    wakeup (chan_of par);;
    set_pr p (fun q => q <| p_xstate := status |> <| p_state := ZOMBIE |>);;
    sched;;
    panic "zombie exit".

(** kwait: one scan of the table, then sleep.  The exit status is copied from
    [xstate_copy]. *)
Definition xstate_copy : Z := kstk 9.
Inductive scan_result := Reaped (pid : Z) | NoZombie (havekids : bool).
Fixpoint kwait_scan (n : nat) (fuel : nat) (p pp : nat) (addr : Z) (havekids : bool) : K scan_result :=
  match n with
  | O => mret (NoZombie havekids)
  | S n' =>
      c ← gets (fun s => pr s pp);
      if bool_decide (p_parent c = Some p) then
        if bool_decide (p_state c = ZOMBIE) then
          root ← gets (fun s => p_pagetable (pr s p));
          r ← (if negb (addr =? 0) then
                 mset (fun m => st32 m xstate_copy (p_xstate c));;
                 copyout fuel root addr xstate_copy 4
               else mret 0);
          if r <? 0 then mret (Reaped (-1))
          else freeproc pp;; mret (Reaped (p_pid c))
        else kwait_scan n' fuel p (S pp) addr true
      else kwait_scan n' fuel p (S pp) addr havekids
  end.
Definition kwait (fuel : nat) (addr : Z) : K Z :=
  p ← myproc;
  r ← kwait_scan (Z.to_nat NPROC) fuel p 0 addr false;
  match r with
  | Reaped pid => mret pid
  | NoZombie havekids =>
      k ← killed p;
      if negb havekids || negb (k =? 0) then mret (-1) else sleep_on (ChProc p)
  end.

End Proc.
