(* ===== verification/ProcSpace.v ===== *)
(** * kernel/proc.c: the address space of a process, from its making to its end

    proc_pagetable makes a page table with the trampoline and the trap frame at
    the top; proc_freepagetable takes an address space down.  No page is lost
    or freed twice on the way, whether memory runs out or not. *)

From S2P Require Import Prelude Memory FsState State Sched Kalloc VM PageTable VMSpec UserSpace FreeWalk VMFault Fs File Proc.
Import Mem KString.

Section ProcSpace.
Context `{KernelImage}.
Abbreviation tree := (gmap (list Z) Z).
Abbreviation umap := (gmap Z Z).

(** ** Clearing one entry *)
Definition unmapped_one (s s' : kstate) (root : Z) (T : tree) (fl : list Z) (va : Z) : Prop :=
  vm_ok s' root T fl /\ vm_grow s s' T T fl fl /\ has (pte_of T (k_mem s') va) PTE_V = false /\
  (forall va', 0 <= va' < MAXVA -> va' / PGSIZE <> va / PGSIZE -> pte_of T (k_mem s') va' = pte_of T (k_mem s) va').
Lemma unmap_page_one s root T fl va :
  vm_ok s root T fl -> 0 <= va < MAXVA ->
  exists s', uvmunmap_page root va false s = Ret tt s' /\ unmapped_one s s' root T fl va.
Proof.
  intros Hok Hva. pose proof Hok as (_ & Hwf & _). unfold uvmunmap_page.
  rewrite (bind_ret _ _ _ _ _ (walk_find s root T va Hwf (proj2 Hva))).
  assert (Hsame : has (pte_of T (k_mem s) va) PTE_V = false -> unmapped_one s s root T fl va)
    by (intros; split_and!; try done; apply vm_grow_refl).
  destruct (leaf_page T va) as [p|] eqn:Hp.
  - destruct (leaf_addr_some _ _ _ _ _ Hwf Hp) as (Haddr & Hnz & Hld).
    destruct (Z.eqb_spec (leaf_addr T va) 0); [done|]. unfold pte_get. rewrite bind_gets, Hld.
    destruct (has (pte_of T (k_mem s) va) PTE_V) eqn:Hv; [|exists s; split; [done|by apply Hsame]].
    destruct (vm_store s root T fl va p 0 Hok Hva Hp) as (Hok' & Hpte & Hg). rewrite Haddr.
    exists (pte_stored s (p + 8 * PX 0 va) 0). split; [done|]. split_and!; try done.
    + rewrite Hpte by done. by rewrite decide_True.
    + intros va' Hva' Hne. rewrite Hpte by done. by rewrite decide_False.
  - unfold leaf_addr. rewrite Hp. exists s. split; [done|]. apply Hsame. unfold pte_of. by rewrite Hp.
Qed.
Lemma uvmunmap_one s root T fl va :
  vm_ok s root T fl -> 0 <= va < MAXVA -> va `mod` PGSIZE = 0 ->
  exists s', uvmunmap root va 1 false s = Ret tt s' /\ unmapped_one s s' root T fl va.
Proof.
  intros Hok Hva Hm. destruct (unmap_page_one s root T fl va Hok Hva) as (s' & E & Hs).
  unfold uvmunmap. rewrite Hm. change (negb (0 =? 0)) with false.
  change MAXVA with 274877906944 in Hva. rewrite (u64_small (va + 1 * PGSIZE)) by page_lia.
  change (Z.to_nat 1) with 1%nat. cbn [uvmunmap_loop].
  rewrite (proj2 (Z.ltb_lt va (va + 1 * PGSIZE))), (bind_ret _ _ _ _ _ E), u64_small by page_lia.
  rewrite (proj2 (Z.ltb_ge _ _)) by lia. by exists s'.
Qed.
(** The pages above the user's are not the address space's. *)
Lemma uspace_unmap_top s s' root T U fl va :
  uspace s root T U fl -> TRAPFRAME <= va < MAXVA -> unmapped_one s s' root T fl va -> uspace s' root T U fl.
Proof.
  intros Hu Hva (Hok & Hg & _ & Hpte). apply (uspace_grow s s' root T T U fl fl Hu Hok Hg).
  intros v Hv. apply Hpte; [by apply user_va|]. rewrite Z.div_mul by done.
  change ULIM with 67108862 in Hv. change TRAPFRAME with 274877898752 in Hva. unfold PGSIZE. div_lia.
Qed.

(** ** uvmfree and proc_freepagetable *)
(** Every page of the list [fl'] comes from [fl] or satisfies [P]. *)
Record given_back (s s' : kstate) (P : Z -> Prop) (fl fl' : list Z) : Prop := {
  gb_inv : kmem_inv s' fl';
  gb_pages : forall q, q ∈ fl' <-> q ∈ fl \/ P q;
  gb_frame : forall b, (forall q, P q -> ~ in_page q b) -> ld8 (k_mem s') b = ld8 (k_mem s) b;
  gb_only : mem_only s s'
}.
Definition space_page (T : tree) (U : umap) (q : Z) : Prop := tree_has T q \/ exists v, U !! v = Some q.

(** An address below MAXVA is the user's, the trap frame's or the trampoline's. *)
Lemma va_cases va :
  0 <= va < MAXVA -> va `mod` PGSIZE = 0 ->
  (exists v, 0 <= v < ULIM /\ va = v * PGSIZE) \/ va = TRAPFRAME \/ va = TRAMPOLINE.
Proof.
  change MAXVA with 274877906944. change TRAPFRAME with 274877898752. change TRAMPOLINE with 274877902848.
  change ULIM with 67108862. unfold PGSIZE. intros Hva Hm.
  destruct (decide (va < 274877898752)); [left; exists (va / 4096); div_lia|right; div_lia].
Qed.
Lemma uvmfree_unmaps s root T U fl sz :
  uspace s root T U fl -> 0 <= sz <= TRAPFRAME ->
  exists s' fl', (if 0 <? sz then uvmunmap root 0 (PGROUNDUP sz / PGSIZE) true else mret tt) s = Ret tt s' /\
    uspace s' root T (uout 0 (pgs sz) U) fl' /\ unmapped s s' T U fl fl' 0 (pgs sz).
Proof.
  intros Hu Hsz. destruct (pgroundup_pgs sz Hsz) as (_ & Hp & Hp').
  destruct (Z.ltb_spec 0 sz).
  - apply (uvmunmap_spec (pgs sz) s root T U fl 0); [done|lia..].
  - assert (pgs sz <= 0) by page_lia. exists s, fl. split; [done|].
    rewrite uout_empty by lia. split; [done|]. apply unmapped_refl. lia.
Qed.
Lemma uvmfree_spec s root T U fl sz :
  uspace s root T U fl -> 0 <= sz <= TRAPFRAME -> (forall v pa, U !! v = Some pa -> v < pgs sz) ->
  has (pte_of T (k_mem s) TRAMPOLINE) PTE_V = false -> has (pte_of T (k_mem s) TRAPFRAME) PTE_V = false ->
  exists s' fl', uvmfree root sz s = Ret tt s' /\ given_back s s' (space_page T U) fl fl'.
Proof.
  intros Hu Hsz Hdom Htr Htf. destruct (uvmfree_unmaps s root T U fl sz Hu Hsz) as (s1 & fl1 & E1 & Hu1 & [Hf1 Hfr1 Hp1 Ho1]).
  assert (HU1 : forall v, uout 0 (pgs sz) U !! v = None).
  { intros v. rewrite lookup_uout. case_decide; [done|]. destruct (U !! v) as [pa|] eqn:E; [|done].
    pose proof (us_dom _ _ _ _ _ Hu v pa E). specialize (Hdom v pa E). lia. }
  destruct (pgroundup_pgs sz Hsz) as (_ & Hpg & _). change ULIM with 67108862 in Hpg.
  destruct (freewalk_spec s1 root T fl1 (us_ok _ _ _ _ _ Hu1)) as (s2 & used & E2 & [F1 F2 F3 F4]).
  { intros va Hva Hm. destruct (va_cases va Hva Hm) as [(v & Hv & ->)|[->| ->]].
    - by apply (us_none _ _ _ _ _ Hu1 v Hv).
    - rewrite Hp1; [done|done|]. change (TRAPFRAME / PGSIZE) with 67108862. lia.
    - rewrite Hp1; [done|done|]. change (TRAMPOLINE / PGSIZE) with 67108863. lia. }
  exists s2, (used ++ fl1). split; [unfold uvmfree; by rewrite (bind_ret _ _ _ _ _ E1)|].
  destruct Hf1 as (freed1 & -> & Hf1).
  assert (Hall : forall q, (exists v, 0 <= v < pgs sz /\ U !! v = Some q) <-> exists v, U !! v = Some q).
  { intros q. split; [intros (v & _ & E); by exists v|]. intros (v & E). exists v. split; [|done].
    pose proof (us_dom _ _ _ _ _ Hu v q E). specialize (Hdom v q E). lia. }
  split; [done| | |by eapply mem_only_trans].
  - intros q. rewrite !elem_of_app, F2, Hf1, Hall. unfold space_page. tauto.
  - intros b Hb. rewrite F3, Hfr1; [done| |]; intros q Hq; apply Hb; unfold space_page; [rewrite <- Hall; tauto|by left].
Qed.

(** proc_freepagetable gives back the pages of the table and of the user. *)
Lemma proc_freepagetable_spec s root T U fl sz :
  uspace s root T U fl -> 0 <= sz <= TRAPFRAME -> (forall v pa, U !! v = Some pa -> v < pgs sz) ->
  exists s' fl', proc_freepagetable root sz s = Ret tt s' /\ given_back s s' (space_page T U) fl fl'.
Proof.
  intros Hu Hsz Hdom. unfold proc_freepagetable.
  destruct (uvmunmap_one s root T fl TRAMPOLINE (us_ok _ _ _ _ _ Hu)) as (s1 & E1 & H1); [by vm_compute..|].
  pose proof (uspace_unmap_top s s1 root T U fl TRAMPOLINE Hu ltac:(by vm_compute) H1) as Hu1.
  destruct (uvmunmap_one s1 root T fl TRAPFRAME (us_ok _ _ _ _ _ Hu1)) as (s2 & E2 & H2); [by vm_compute..|].
  pose proof (uspace_unmap_top s1 s2 root T U fl TRAPFRAME Hu1 ltac:(by vm_compute) H2) as Hu2.
  destruct H1 as (_ & Hg1 & Hv1 & _), H2 as (_ & Hg2 & Hv2 & Hp2).
  destruct (uvmfree_spec s2 root T U fl sz Hu2 Hsz Hdom) as (s3 & fl' & E3 & [G1 G2 G3 G4]); [|done|].
  { rewrite Hp2; [done|by vm_compute..]. }
  exists s3, fl'. split; [by rewrite (bind_ret _ _ _ _ _ E1), (bind_ret _ _ _ _ _ E2)|]. split; [done|done|..].
  - intros b Hb. rewrite G3 by done.
    assert (Ht : forall q, tree_has T q -> ~ in_page q b) by (intros q Hq; apply Hb; by left).
    by rewrite (vg_frame _ _ _ _ _ _ Hg2), (vg_frame _ _ _ _ _ _ Hg1).
  - eapply mem_only_trans; [apply (vg_only _ _ _ _ _ _ Hg1)|]. eapply mem_only_trans; [apply (vg_only _ _ _ _ _ _ Hg2)|done].
Qed.

(** ** uvmcreate *)
Definition bare_tree (root : Z) : tree := {[ [] := root ]}.
Lemma bare_lookup root π q : bare_tree root !! π = Some q <-> π = [] /\ q = root.
Proof. unfold bare_tree. rewrite lookup_singleton_Some. naive_solver. Qed.
Lemma bare_has root q : tree_has (bare_tree root) q <-> q = root.
Proof.
  split; [by intros [π [_ ->]%bare_lookup]|]. intros ->. exists []. by apply bare_lookup.
Qed.
Lemma bare_pte root m va : pte_of (bare_tree root) m va = 0.
Proof. unfold pte_of, leaf_page, bare_tree. by rewrite lookup_singleton_ne. Qed.
Definition created (s : kstate) (root : Z) : kstate :=
  (kalloc_state s root) <| k_mem := memset (k_mem (kalloc_state s root)) root 0 PGSIZE |>.
Lemma created_mem s root b : ld8 (k_mem (created s root)) b = if decide (in_page root b) then 0 else ld8 (k_mem s) b.
Proof.
  cbn. rewrite ld8_memset by (unfold PGSIZE; lia). unfold in_page. case_decide; [done|].
  rewrite ld8_memset by (unfold PGSIZE; lia). by rewrite decide_False.
Qed.
Lemma created_space s root fl :
  kmem_inv s (root :: fl) -> uspace (created s root) root (bare_tree root) ∅ fl.
Proof.
  intros Hk. pose proof Hk as [(_ & Hok & _) Hnd]. apply NoDup_cons in Hnd as [Hni Hnd].
  split; [split_and!|..].
  - apply (kmem_inv_write (kalloc_state s root) _ fl root); [by apply kalloc_inv|kproj|done|apply Hok|].
    intros b Hb. cbn. rewrite ld8_memset by (unfold PGSIZE; lia). by rewrite decide_False.
  - split.
    + by apply bare_lookup.
    + intros π q [-> ->]%bare_lookup. split; [done|cbn; lia].
    + by intros π π' q [-> _]%bare_lookup [-> _]%bare_lookup.
    + intros π i c [E _]%bare_lookup. by destruct π.
    + intros π i c [E _]%bare_lookup. by destruct π.
    + intros π i q [-> ->]%bare_lookup _ Hi. unfold bare_tree. rewrite lookup_singleton_ne by done.
      rewrite ld64_zero; [done|]. intros b Hb. rewrite created_mem, decide_True; [done|]. unfold in_page, PGSIZE. lia.
  - intros q ->%bare_has. done.
  - intros v pa E. by rewrite lookup_empty in E.
  - intros v pa E. by rewrite lookup_empty in E.
  - intros v pa E. by rewrite lookup_empty in E.
  - intros v v' pa E. by rewrite lookup_empty in E.
  - intros v _ _. by rewrite bare_pte.
Qed.
Lemma uvmcreate_spec s fl :
  kmem_inv s fl ->
  match fl with
  | [] => uvmcreate s = Ret 0 s
  | root :: _ => uvmcreate s = Ret root (created s root) /\ 0 < root
  end.
Proof.
  intros Hk. unfold uvmcreate. destruct fl as [|root fl].
  - by rewrite (bind_ret _ _ _ _ _ (kalloc_eq_empty s Hk)).
  - rewrite (bind_ret _ _ _ _ _ (kalloc_eq s root fl Hk)). pose proof Hk as [(_ & Hok & _) _].
    pose proof (page_ok_pos root Hok). destruct (Z.eqb_spec root 0); [lia|]. split; [done|lia].
Qed.

(** ** Mapping a page above the user's *)
Lemma grow_pages s s' T T' fl fl' q :
  vm_grow s s' T T' fl fl' -> (q ∈ fl \/ tree_has T q) <-> (q ∈ fl' \/ tree_has T' q).
Proof.
  intros Hg. destruct (vg_free _ _ _ _ _ _ Hg) as (used & -> & Hused). rewrite elem_of_app. split.
  - intros [[Hq|Hq]|Hq]; [right; by apply Hused|by left|right]. eapply tree_has_mono; [apply (vg_tree _ _ _ _ _ _ Hg)|done].
  - intros [Hq|Hq]; [left; by right|]. apply (vg_new _ _ _ _ _ _ Hg) in Hq. rewrite elem_of_app in Hq. tauto.
Qed.
Definition top_page (va : Z) : Prop := va = TRAPFRAME \/ va = TRAMPOLINE.
Lemma map_top s root T U fl va pa perm :
  uspace s root T U fl -> top_page va -> has (pte_of T (k_mem s) va) PTE_V = false ->
  pa `mod` PGSIZE = 0 -> 0 <= pa < 2 ^ 53 -> 0 <= perm < 1024 ->
  exists s' T' fl' r, mappages root va PGSIZE pa perm s = Ret r s' /\ vm_grow s s' T T' fl fl' /\
    uspace s' root T' U fl' /\ (length fl <= length fl' + 2)%nat /\
    (forall va', 0 <= va' < MAXVA -> va' / PGSIZE <> va / PGSIZE -> pte_of T' (k_mem s') va' = pte_of T (k_mem s) va') /\
    (r = 0 /\ pte_of T' (k_mem s') va = leaf_entry pa perm \/
     r = -1 /\ fl' = [] /\ (length fl < 2)%nat /\ has (pte_of T' (k_mem s') va) PTE_V = false).
Proof.
  intros Hu Hva Hnv Hpam Hpa Hperm.
  assert (Hv : va `mod` PGSIZE = 0 /\ 0 <= va /\ va + PGSIZE <= MAXVA /\ TRAPFRAME <= va)
    by (destruct Hva as [->| ->]; by vm_compute).
  destruct Hv as (Hvm & Hv0 & Hv1 & Hv2).
  destruct (mappages_spec 1 s root T fl va PGSIZE pa perm) as (s' & T' & fl' & k & E & Hok & Hg & Hk & Hcn & Hend & Hpte);
    [apply (us_ok _ _ _ _ _ Hu)|done|done|done|lia|lia|done|lia|page_lia|done| |].
  { intros a Ha. rewrite <- Hnv. f_equal. unfold pte_of, leaf_page.
    destruct (px_same a va) as (-> & -> & ->); [lia..| |done]. unfold PGSIZE in *. div_lia. }
  assert (Hsame : forall va', 0 <= va' < MAXVA -> va' / PGSIZE <> va / PGSIZE ->
            pte_of T' (k_mem s') va' = pte_of T (k_mem s) va').
  { intros va' Hva' Hne. rewrite Hpte by done. unfold mapped. rewrite decide_False; [done|].
    intros Hin. apply Hne. unfold PGSIZE in *. div_lia. }
  exists s', T', fl', (if decide (k = 1) then 0 else -1). split; [done|]. split; [done|].
  split; [|split; [clear - Hcn Hk; case_decide; lia|split; [done|]]].
  - apply (uspace_grow s s' root T T' U fl fl' Hu Hok Hg). intros v Hv. apply Hsame; [by apply user_va|].
    rewrite Z.div_mul by done. change ULIM with 67108862 in Hv. change TRAPFRAME with 274877898752 in Hv2.
    unfold PGSIZE. div_lia.
  - rewrite Hpte by page_lia. unfold mapped. destruct (decide (k = 1)) as [->|Hk1]; [left|right].
    + rewrite decide_True by page_lia. split; [done|]. f_equal. unfold PGSIZE in *. div_lia.
    + rewrite decide_False by page_lia. split_and!; [done|by apply Hend; lia| |done].
      destruct (Hend ltac:(lia)) as [-> _]. cbn [length] in Hcn. clear - Hcn Hk Hk1. lia.
Qed.

(** ** proc_pagetable *)
(** The trap frame at [TRAPFRAME], for the kernel only, in a page apart from
    those of the table. *)
Record frame_mapped (m : mem) (root tf : Z) (T : tree) : Prop := {
  fm_wf : pt_wf m root T;
  fm_page : page_ok tf;
  fm_apart : ~ tree_has T tf;
  fm_pte : pte_of T m TRAPFRAME = leaf_entry tf (Z.lor PTE_R PTE_W)
}.
(** A new page table for a process: no user page, the two top pages, and its
    own pages; [P] are the pages that were free or the table's before. *)
Record new_space (s' : kstate) (root tf : Z) (T : tree) (P : Z -> Prop) (fl' : list Z) : Prop := {
  ns_space : uspace s' root T ∅ fl';
  ns_frame : frame_mapped (k_mem s') root tf T;
  ns_tramp : pte_of T (k_mem s') TRAMPOLINE = leaf_entry ktrampoline (Z.lor PTE_R PTE_X);
  ns_pages : forall q, P q <-> q ∈ fl' \/ tree_has T q
}.
(** Exactly the pages of [P] are free. *)
Definition all_free (s' : kstate) (P : Z -> Prop) : Prop := exists fl', kmem_inv s' fl' /\ forall q, q ∈ fl' <-> P q.
(** What making a page table comes to: nothing was written outside [P], and
    either it is there, or the result is 0 and all the pages are free again.
    With [a] pages free it takes at most [c], and fails only for want of them. *)
Definition made (s s' : kstate) (r tf : Z) (P : Z -> Prop) (a c : nat) : Prop :=
  mem_only s s' /\ (forall b, (forall q, P q -> ~ in_page q b) -> ld8 (k_mem s') b = ld8 (k_mem s) b) /\
  (r = 0 /\ (a < c)%nat /\ all_free s' P \/
   r <> 0 /\ exists T fl', (a <= length fl' + c)%nat /\ new_space s' r tf T P fl').

Lemma made_mono s0 s s' r tf (P P' : Z -> Prop) a c a' c' :
  mem_only s0 s -> (forall b, (forall q, P' q -> ~ in_page q b) -> ld8 (k_mem s) b = ld8 (k_mem s0) b) ->
  (forall q, P' q <-> P q) -> (a' + c <= a + c')%nat -> made s s' r tf P a c -> made s0 s' r tf P' a' c'.
Proof.
  intros Ho Hf HP Hac (M1 & M2 & M3). split; [by eapply mem_only_trans|]. split.
  - intros b Hb. rewrite M2, Hf; [done|done|]. intros q Hq. by apply Hb, HP.
  - destruct M3 as [(-> & Hl & fl' & Hk & Hq)|(Hr & T & fl' & Hl & [N1 N2 N3 N4])]; [left|right].
    + split; [done|]. split; [lia|]. exists fl'. split; [done|]. intros q. by rewrite Hq, HP.
    + split; [done|]. exists T, fl'. split; [lia|]. split; [done..|]. intros q. by rewrite HP, N4.
Qed.
Lemma made_back s root T fl tf P a c :
  uspace s root T ∅ fl -> (a < c)%nat ->
  has (pte_of T (k_mem s) TRAMPOLINE) PTE_V = false -> has (pte_of T (k_mem s) TRAPFRAME) PTE_V = false ->
  (forall q, P q <-> q ∈ fl \/ tree_has T q) ->
  exists s', (uvmfree root 0;; mret 0) s = Ret 0 s' /\ made s s' 0 tf P a c.
Proof.
  intros Hu Hac Htr Htf HP. destruct (uvmfree_spec s root T ∅ fl 0 Hu) as (s1 & fl' & E & [G1 G2 G3 G4]); try done.
  assert (Hsp : forall q, space_page T ∅ q <-> tree_has T q).
  { intros q. unfold space_page. split; [|by left]. intros [?|(v & E')]; [done|]. by rewrite lookup_empty in E'. }
  exists s1. split; [by rewrite (bind_ret _ _ _ _ _ E)|]. split; [done|]. split.
  - intros b Hb. apply G3. intros q Hq. apply Hb, HP. right. by apply Hsp.
  - left. split; [done|]. split; [done|]. exists fl'. split; [done|]. intros q. by rewrite G2, Hsp, HP.
Qed.

Context (tramp_ok : ktrampoline `mod` PGSIZE = 0 /\ 0 <= ktrampoline < 2 ^ 53).

(** The second half: the trap frame, when the trampoline is mapped. *)
Lemma map_frame s root T fl tf :
  uspace s root T ∅ fl -> root <> 0 -> page_ok tf -> tf ∉ fl -> ~ tree_has T tf ->
  pte_of T (k_mem s) TRAMPOLINE = leaf_entry ktrampoline (Z.lor PTE_R PTE_X) ->
  has (pte_of T (k_mem s) TRAPFRAME) PTE_V = false ->
  exists r s',
    (r ← mappages root TRAPFRAME PGSIZE tf (Z.lor PTE_R PTE_W);
     if r <? 0 then uvmunmap root TRAMPOLINE 1 false;; uvmfree root 0;; mret 0 else mret root) s = Ret r s' /\
    made s s' r tf (fun q => q ∈ fl \/ tree_has T q) (length fl) 2.
Proof.
  intros Hu Hr Htf Htfl HtfT Htr Hnv. destruct (page_ok_54 tf Htf) as [_ Htm].
  assert (Htr53 : 0 <= tf < 2 ^ 53) by (destruct Htf; pose proof kend_range; unfold PHYSTOP, KERNBASE in *; lia).
  destruct (map_top s root T ∅ fl TRAPFRAME tf (Z.lor PTE_R PTE_W) Hu)
    as (s1 & T1 & fl1 & r1 & E1 & Hg1 & Hu1 & Hn1 & Hp1 & Hcase); [by left|done|done|done|by vm_compute|].
  rewrite (bind_ret _ _ _ _ _ E1).
  assert (Hfr : forall b, (forall q, q ∈ fl \/ tree_has T q -> ~ in_page q b) -> ld8 (k_mem s1) b = ld8 (k_mem s) b).
  { intros b Hb. apply (vg_frame _ _ _ _ _ _ Hg1). intros q Hq. apply Hb. apply (vg_new _ _ _ _ _ _ Hg1) in Hq. tauto. }
  assert (Htr1 : pte_of T1 (k_mem s1) TRAMPOLINE = leaf_entry ktrampoline (Z.lor PTE_R PTE_X))
    by (rewrite Hp1; [done|by vm_compute..]).
  pose proof (vg_only _ _ _ _ _ _ Hg1) as Ho1. pose proof (fun q => grow_pages _ _ _ _ _ _ q Hg1) as Hpg.
  destruct Hcase as [[-> Hpf]|(-> & -> & Hlt & Hpf)].
  - change (0 <? 0) with false. exists root, s1. split; [done|]. apply (made_mono s s1 s1 _ _ _ _ (length fl1) 0 _ _ Ho1 Hfr Hpg); [lia|].
    split; [apply mem_only_refl|]. split; [done|]. right. split; [done|]. exists T1, fl1. split; [lia|]. split; try done.
    split; [apply (us_ok _ _ _ _ _ Hu1)|done| |done].
    intros Hh. apply (vg_new _ _ _ _ _ _ Hg1) in Hh. tauto.
  - change (-1 <? 0) with true.
    destruct (uvmunmap_one s1 root T1 [] TRAMPOLINE (us_ok _ _ _ _ _ Hu1)) as (s2 & E2 & H2); [by vm_compute..|].
    assert (Hu2 : uspace s2 root T1 ∅ []) by (apply (uspace_unmap_top s1 s2 root T1 ∅ [] TRAMPOLINE Hu1); [by vm_compute|exact H2]). destruct H2 as (_ & Hg2 & Hv2 & Hp2).
    destruct (made_back s2 root T1 [] tf (fun q => q ∈ [] \/ tree_has T1 q) (length fl) 2 Hu2 Hlt) as (s3 & E3 & Hm3); [done| |done|].
    { rewrite Hp2; [done|by vm_compute..]. }
    exists 0, s3. split; [by rewrite (bind_ret _ _ _ _ _ E2)|].
    apply (made_mono s s1 s3 _ _ _ _ (length fl) 2 _ _ Ho1 Hfr Hpg); [lia|].
    apply (made_mono s1 s2 s3 _ _ _ _ (length fl) 2 _ _ (vg_only _ _ _ _ _ _ Hg2)) with (4 := Hm3); [|done|lia].
    intros b Hb. apply (vg_frame _ _ _ _ _ _ Hg2). intros q Hq. apply Hb. by right.
Qed.

Lemma proc_pagetable_spec s p fl tf :
  kmem_inv s fl -> p_trapframe (pr s p) = tf -> page_ok tf -> tf ∉ fl ->
  exists r s', proc_pagetable p s = Ret r s' /\ made s s' r tf (fun q => q ∈ fl) (length fl) 5.
Proof.
  intros Hk Etf Htf Htfl. unfold proc_pagetable. pose proof (uvmcreate_spec s fl Hk) as Hc. destruct fl as [|root fl].
  { exists 0, s. rewrite (bind_ret _ _ _ _ _ Hc). split; [done|]. split; [apply mem_only_refl|]. split; [done|].
    left. split; [done|]. split; [cbn; lia|]. by exists []. }
  destruct Hc as [Ec Hr0]. rewrite (bind_ret _ _ _ _ _ Ec). destruct (Z.eqb_spec root 0); [lia|].
  pose proof (created_space s root fl Hk) as Hu0. destruct tramp_ok as [Htm Htr].
  destruct (map_top (created s root) root (bare_tree root) ∅ fl TRAMPOLINE ktrampoline (Z.lor PTE_R PTE_X) Hu0)
    as (s1 & T1 & fl1 & r1 & E1 & Hg1 & Hu1 & Hn1 & Hp1 & Hcase1); [by right|by rewrite bare_pte|done|done|by vm_compute|].
  rewrite (bind_ret _ _ _ _ _ E1). clear E1 Ec.
  assert (Hof : mem_only s s1 /\ forall b, (forall q, q ∈ root :: fl -> ~ in_page q b) -> ld8 (k_mem s1) b = ld8 (k_mem s) b).
  { split; [eapply mem_only_trans; [|apply (vg_only _ _ _ _ _ _ Hg1)]; by eexists _, _|]. intros b Hb.
    rewrite (vg_frame _ _ _ _ _ _ Hg1); [rewrite created_mem, decide_False; [done|apply Hb; by left]|].
    intros q Hq. apply Hb. apply (vg_new _ _ _ _ _ _ Hg1) in Hq. rewrite bare_has in Hq. rewrite elem_of_cons. tauto. }
  assert (Hpg : forall q, q ∈ root :: fl <-> q ∈ fl1 \/ tree_has T1 q).
  { intros q. rewrite <- (grow_pages _ _ _ _ _ _ q Hg1), bare_has, elem_of_cons. tauto. }
  assert (Hnf : has (pte_of T1 (k_mem s1) TRAPFRAME) PTE_V = false) by (rewrite Hp1, bare_pte; [reflexivity|vm_compute; split; [discriminate|reflexivity]|vm_compute; discriminate]).
  destruct Hof as [Ho Hf], Hcase1 as [[-> Hpt]|(-> & -> & Hlt & Hpt)].
  - change (0 <? 0) with false. cbv iota.
    destruct (map_frame s1 root T1 fl1 tf) as (r & s2 & E2 & Hm); [exact Hu1|exact n|exact Htf|..|exact Hpt|exact Hnf|].
    1,2: intros Hh; apply Htfl, Hpg; tauto.
    exists r, s2. split; [|apply (made_mono _ _ _ _ _ _ _ _ _ _ _ Ho Hf Hpg) with (2 := Hm); cbn [length]; lia]. rewrite bind_gets, <- E2.
    replace (p_trapframe (pr s1 p)) with tf; [done|]. rewrite <- Etf. by destruct Ho as (m & f & ->).
  - change (-1 <? 0) with true.
    destruct (made_back s1 root T1 [] tf (fun q => q ∈ [] \/ tree_has T1 q) (length fl) 2 Hu1 Hlt Hpt Hnf) as (s2 & E2 & Hm); [done|].
    exists 0, s2. split; [exact E2|]. apply (made_mono _ _ _ _ _ _ _ _ _ _ _ Ho Hf Hpg) with (2 := Hm). cbn [length]. lia.
Qed.
End ProcSpace.
