(* ===== verification/ForkSpace.v ===== *)
(** * uvmcopy (vm.c): the memory of a forked process

    Two address spaces that share no page: uvmcopy fills the second with
    copies of the pages of the first, or leaves it without a page. *)

From S2P Require Import Prelude Memory FsState State Kalloc VM PageTable VMSpec UserSpace FreeWalk VMProps Log Disk Memsys VMFault Fs File Proc ProcSpace.
Import Mem KString.

Section ForkSpace.
Context `{KernelImage}.
Abbreviation tree := (gmap (list Z) Z).
Abbreviation umap := (gmap Z Z).

(** ** Two address spaces *)
(** [old] and [new] with one free list and no common page. *)
Record twin (s : kstate) (old : Z) (T : tree) (U : umap) (new : Z) (T' : tree) (U' : umap) (fl : list Z) : Prop := {
  tw_old : uspace s old T U fl;
  tw_new : uspace s new T' U' fl;
  tw_apart : forall q, space_page T U q -> ~ space_page T' U' q
}.
(** The pages that the second space may use. *)
Definition supply (T' : tree) (U' : umap) (fl : list Z) (q : Z) : Prop := q ∈ fl \/ space_page T' U' q.

Lemma space_page_ok s root T U fl q : uspace s root T U fl -> space_page T U q -> page_ok q /\ q ∉ fl.
Proof.
  intros Hu [Hq|(v & E)].
  - destruct (us_ok _ _ _ _ _ Hu) as (_ & Hwf & Hd). split; [|by apply Hd]. destruct Hq as (π & E). by apply (pt_page _ _ _ Hwf π).
  - by destruct (us_page _ _ _ _ _ Hu v q E) as (? & ? & _).
Qed.
Lemma free_page_ok s root T U fl q : uspace s root T U fl -> q ∈ fl -> page_ok q.
Proof.
  intros Hu Hq. destruct (us_ok _ _ _ _ _ Hu) as ([Hch _] & _). apply chain_ok in Hch.
  rewrite Forall_forall in Hch. by apply Hch.
Qed.
Lemma page_apart p q b : page_ok p -> page_ok q -> p <> q -> in_page p b -> ~ in_page q b.
Proof. intros [Hp _] [Hq _] Hne Hb Hb'. by destruct (in_page_inj p q b Hp Hq Hb Hb'). Qed.

(** A change within the supply of the second space keeps the first. *)
Lemma twin_keep s s' old T U new T1 U1 fl1 T2 U2 fl2 :
  twin s old T U new T1 U1 fl1 -> uspace s' new T2 U2 fl2 ->
  (forall q, supply T2 U2 fl2 q -> supply T1 U1 fl1 q) ->
  (forall b, (forall q, supply T1 U1 fl1 q -> ~ in_page q b) -> ld8 (k_mem s') b = ld8 (k_mem s) b) ->
  twin s' old T U new T2 U2 fl2 /\ forall q b, space_page T U q -> in_page q b -> ld8 (k_mem s') b = ld8 (k_mem s) b.
Proof.
  intros [To Tn Ta] Hn Hs Hf.
  assert (Hout : forall q x, space_page T U q -> supply T1 U1 fl1 x -> page_ok q /\ page_ok x /\ q <> x).
  { intros q x Hq Hx. destruct (space_page_ok _ _ _ _ _ _ To Hq) as [Hok Hfl]. split; [done|].
    destruct Hx as [Hx|Hx]; split; [exact (free_page_ok _ _ _ _ _ _ Tn Hx)|by intros ->| |intros ->; by apply (Ta x)].
    by destruct (space_page_ok _ _ _ _ _ _ Tn Hx). }
  assert (Hmem : forall q b, space_page T U q -> in_page q b -> ld8 (k_mem s') b = ld8 (k_mem s) b).
  { intros q b Hq Hb. apply Hf. intros x Hx. destruct (Hout q x Hq Hx) as (H1 & H2 & H3). by apply (page_apart q x b). }
  split; [|done]. split; [|done|].
  - apply (uspace_ext s s' old T U fl1 fl2 To); [intros p b Hp; apply Hmem; by left|apply Hn|..].
    + intros p Hp Hin. destruct (Hout p p) as (_ & _ & ?); [by left|apply Hs; by left|done].
    + intros v pa E Hin. destruct (Hout pa pa) as (_ & _ & ?); [right; by exists v|apply Hs; by left|done].
  - intros q Hq Hq'. destruct (Hout q q) as (_ & _ & ?); [done|apply Hs; by right|done].
Qed.

(** ** One page *)
(** The copy of the page [pa] of the first space, in the second. *)
Definition copy_of (s s' : kstate) (T T' : tree) (U U' : umap) (x : Z) : Prop :=
  match U !! x with
  | None => U' !! x = None
  | Some pa => exists c, U' !! x = Some c /\
      pte_of T' (k_mem s') (x * PGSIZE) = leaf_entry c (PTE_FLAGS (pte_of T (k_mem s) (x * PGSIZE))) /\
      forall i, 0 <= i < PGSIZE -> ld8 (k_mem s') (c + i) = ld8 (k_mem s) (pa + i)
  end.

(** What uvmcopy has done on the pages from [v] on. *)
Record copying (s s' : kstate) (T T1 T2 : tree) (U U1 U2 : umap) (fl1 fl2 : list Z) (v e : Z) : Prop := {
  cp_copy : forall x, v <= x < e -> copy_of s s' T T2 U U2 x;
  cp_keep : forall x, ~ (v <= x < e) -> U2 !! x = U1 !! x;
  cp_pte : forall va, 0 <= va < MAXVA -> ~ (v <= va / PGSIZE < e) -> pte_of T2 (k_mem s') va = pte_of T1 (k_mem s) va;
  cp_supply : forall q, supply T2 U2 fl2 q <-> supply T1 U1 fl1 q;
  cp_count : Z.of_nat (length fl1) <= Z.of_nat (length fl2) + 3 * (e - v);
  cp_grow : forall q, q ∈ fl2 \/ tree_has T2 q -> q ∈ fl1 \/ tree_has T1 q;
  cp_frame : forall b, (forall q, q ∈ fl1 \/ tree_has T1 q -> ~ in_page q b) -> ld8 (k_mem s') b = ld8 (k_mem s) b;
  cp_only : mem_only s s'
}.

Lemma grow_supply s s' T1 T2 U fl fl' q : vm_grow s s' T1 T2 fl fl' -> supply T2 U fl' q <-> supply T1 U fl q.
Proof. intros Hg. pose proof (grow_pages _ _ _ _ _ _ q Hg). unfold supply, space_page. tauto. Qed.
Lemma insert_supply T U fl v c q : U !! v = None -> supply T (<[v := c]> U) fl q <-> q = c \/ supply T U fl q.
Proof.
  intros HU. unfold supply, space_page.
  assert (Hin : (exists x, <[v := c]> U !! x = Some q) <-> q = c \/ exists x, U !! x = Some q).
  { split.
    - intros (x & E). apply lookup_insert_Some in E as [[_ ->]|[_ E]]; [by left|right; by exists x].
    - intros [->|(x & E)]; [exists v; apply lookup_insert_eq|exists x]. rewrite lookup_insert_ne; [done|congruence]. }
  rewrite Hin. tauto.
Qed.
Lemma cons_supply T U fl c q : supply T U (c :: fl) q <-> q = c \/ supply T U fl q.
Proof. unfold supply. rewrite elem_of_cons. tauto. Qed.

(** kalloc and memmove: the new page with the bytes of the old one. *)
Definition duplicated (s : kstate) (c pa : Z) : kstate :=
  (kalloc_state s c) <| k_mem := memmove (k_mem (kalloc_state s c)) c pa PGSIZE |>.
Lemma duplicated_mem s c pa b :
  page_ok c -> page_ok pa -> c <> pa ->
  ld8 (k_mem (duplicated s c pa)) b = if decide (in_page c b) then ld8 (k_mem s) (pa + (b - c)) else ld8 (k_mem s) b.
Proof.
  intros Hc Hpa Hne. unfold duplicated. cbn [k_mem upd]. rewrite ld8_memmove by (unfold PGSIZE; lia). unfold in_page.
  case_decide as Hd; [|by apply kalloc_state_out].
  apply kalloc_state_out. apply (page_apart pa c); [done..|congruence|]. unfold in_page. lia.
Qed.

Lemma copy_page s old T U new T1 U1 fl v c pa :
  let perm := PTE_FLAGS (pte_of T (k_mem s) (v * PGSIZE)) in
  twin s old T U new T1 U1 (c :: fl) -> U !! v = Some pa -> U1 !! v = None -> 0 <= v < ULIM ->
  exists s' T2 fl' r,
    (kmemmove c pa PGSIZE;; mappages new (v * PGSIZE) PGSIZE c perm) (kalloc_state s c) = Ret r s' /\
    mem_only s s' /\ (forall b, (forall q, q ∈ c :: fl \/ tree_has T1 q -> ~ in_page q b) -> ld8 (k_mem s') b = ld8 (k_mem s) b) /\
    (forall va, 0 <= va < MAXVA -> va / PGSIZE <> v -> pte_of T2 (k_mem s') va = pte_of T1 (k_mem s) va) /\
    (length fl <= length fl' + 2)%nat /\
    (r = 0 /\ uspace s' new T2 (<[v := c]> U1) fl' /\ copying s s' T T1 T2 U U1 (<[v := c]> U1) (c :: fl) fl' v (v + 1) \/
     r = -1 /\ fl' = [] /\ (length fl < 2)%nat /\ uspace s' new T2 U1 [] /\ spare T2 U1 [] c /\
     forall q, q = c \/ supply T2 U1 [] q <-> supply T1 U1 (c :: fl) q).
Proof.
  intros perm [To Tn Ta] HU HU1 Hv. destruct (uspace_kalloc s new T1 U1 fl c Tn) as [Hn1 Hsp].
  destruct (us_page _ _ _ _ _ To v pa HU) as (Hpa & Hpfl & _). pose proof Hsp as (Hc & Hcfl & HcT & _).
  assert (Hne : c <> pa) by (intros ->; apply Hpfl; left).
  pose proof (fun b => duplicated_mem s c pa b Hc Hpa Hne) as Hmem. set (s1 := duplicated s c pa) in *.
  assert (Hn2 : uspace s1 new T1 U1 fl).
  { apply (uspace_write (kalloc_state s c) _ _ _ _ _ c Hn1 Hsp); [kproj|]. intros b Hb.
    rewrite Hmem, decide_False by done. symmetry. by apply kalloc_state_out. }
  assert (Hperm : 0 <= perm < 1024).
  { unfold perm, PTE_FLAGS. change 0x3FF with (Z.ones 10). rewrite Z.land_ones by lia. apply Z.mod_pos_bound. lia. }
  destruct (uspace_map s1 new T1 U1 fl v c perm Hn2 Hsp HU1 Hv Hperm) as (s' & T2 & fl' & r & E & Hg & Hcn & Hpte & Hcase).
  exists s', T2, fl', r. split; [exact E|]. clear E.
  assert (Hframe : forall b, (forall q, q ∈ c :: fl \/ tree_has T1 q -> ~ in_page q b) -> ld8 (k_mem s') b = ld8 (k_mem s) b).
  { intros b Hb. rewrite (vg_frame _ _ _ _ _ _ Hg).
    - rewrite Hmem, decide_False; [done|]. apply Hb. left. left.
    - intros q [?|?]%(vg_new _ _ _ _ _ _ Hg); apply Hb; [by right|left; by right]. }
  assert (Honly : mem_only s s').
  { eapply mem_only_trans; [|apply (vg_only _ _ _ _ _ _ Hg)]. eexists _, _. reflexivity. }
  assert (Hptes : forall va, 0 <= va < MAXVA -> va / PGSIZE <> v -> pte_of T2 (k_mem s') va = pte_of T1 (k_mem s) va).
  { intros va Hva Hn. rewrite Hpte by lia. apply (pt_ext _ _ new); [|apply (us_ok _ _ _ _ _ Tn)].
    intros p b Hp Hb. rewrite Hmem, decide_False; [done|]. by apply (tree_page_out _ _ _ p b c (proj1 (proj2 (us_ok _ _ _ _ _ Tn)))). }
  split; [exact Honly|]. split; [exact Hframe|]. split; [exact Hptes|]. split; [exact Hcn|].
  destruct Hcase as [(-> & Hu' & Hpv)|(-> & -> & Hlt & Hu' & Hsp')]; [left|right].
  2:{ split_and!; [done|done|done|done|done|]. intros q. by rewrite cons_supply, (grow_supply _ _ _ _ U1 _ _ q Hg). }
  split; [done|]. split; [done|]. split; [|..|done|done].
  - intros x Hx. replace x with v by lia. unfold copy_of. rewrite HU. exists c. split; [apply lookup_insert_eq|]. split; [done|].
    intros i Hi. rewrite (vg_frame _ _ _ _ _ _ Hg).
    { rewrite Hmem, decide_True by (unfold in_page; lia). f_equal. lia. }
    intros q Hq Hqb. apply (spare_grow _ _ _ _ _ _ _ _ Hg) in Hsp as (_ & _ & HcT2 & _).
    destruct (space_page_ok s' new T2 _ fl' q Hu' (or_introl Hq)) as [Hqok _].
    apply (page_apart q c (c + i)); [done|done|by intros ->|done|unfold in_page; lia].
  - intros x Hx. apply lookup_insert_ne. lia.
  - intros va Hva Hn. apply Hptes; [done|lia].
  - intros q. rewrite insert_supply, cons_supply by done. by rewrite (grow_supply _ _ _ _ U1 _ _ q Hg).
  - cbn [length]. lia.
  - intros q Hq. apply (grow_pages _ _ _ _ _ _ q Hg) in Hq as [Hq|Hq]; [left; by right|by right].
Qed.

(** ** The loop *)
Lemma copying_none s T T1 U U1 fl v :
  U !! v = None -> U1 !! v = None -> copying s s T T1 T1 U U1 U1 fl fl v (v + 1).
Proof.
  intros HU HU1. split; [|done|done|done|lia|done|done|apply mem_only_refl]. intros x Hx. replace x with v by lia. unfold copy_of. by rewrite HU.
Qed.

Lemma copying_trans s s1 s2 old new T T1 T2 T3 U U1 U2 U3 f1 f2 f3 v e :
  v + 1 <= e <= ULIM -> 0 <= v -> uspace s old T U f1 -> twin s1 old T U new T2 U2 f2 ->
  (forall q b, space_page T U q -> in_page q b -> ld8 (k_mem s1) b = ld8 (k_mem s) b) ->
  copying s s1 T T1 T2 U U1 U2 f1 f2 v (v + 1) -> copying s1 s2 T T2 T3 U U2 U3 f2 f3 (v + 1) e ->
  copying s s2 T T1 T3 U U1 U3 f1 f3 v e.
Proof.
  intros Hve Hv Hold [_ Tn _] Hsame [C1 K1 P1 S1 N1 G1 F1 O1] [C2 K2 P2 S2 N2 G2 F2 O2].
  assert (Hpt : forall va, pte_of T (k_mem s1) va = pte_of T (k_mem s) va).
  { apply (pt_ext _ _ old); [|apply (us_ok _ _ _ _ _ Hold)]. intros p b Hp. apply Hsame. by left. }
  split.
  - intros x Hx. destruct (decide (x = v)) as [->|Hne].
    + specialize (C1 v ltac:(lia)). unfold copy_of in *. rewrite K2 by lia. destruct (U !! v) as [pa|]; [|done].
      destruct C1 as (c & HU2 & Hpte & Hby). exists c. split; [done|].
      pose proof (us_dom _ _ _ _ _ Tn v c HU2) as Hd. destruct (user_va v Hd) as [Hva _]. split.
      { rewrite P2; [done|done|]. rewrite Z.div_mul by done. lia. }
      intros i Hi. rewrite F2; [by apply Hby|]. intros q Hq Hqb.
      destruct (us_page _ _ _ _ _ Tn v c HU2) as (Hcok & Hcf & HcT).
      assert (Hqok : page_ok q).
      { destruct Hq as [Hq|Hq]; [by apply (free_page_ok _ _ _ _ _ _ Tn)|]. by apply (space_page_ok _ _ _ _ _ _ Tn (or_introl Hq)). }
      apply (page_apart q c (c + i)); [done|done| |done|unfold in_page; lia]. intros ->. tauto.
    + specialize (C2 x ltac:(lia)). unfold copy_of in *. destruct (U !! x) as [pa|] eqn:HU; [|done].
      destruct C2 as (c & HU2 & Hpte & Hby). exists c. split; [done|]. split; [by rewrite <- Hpt|].
      intros i Hi. rewrite Hby by done. apply (Hsame pa); [right; by exists x|unfold in_page; lia].
  - intros x Hx. rewrite K2, K1 by lia. done.
  - intros va Hva Hn. rewrite P2, P1 by lia. done.
  - intros q. by rewrite S2.
  - lia.
  - intros q Hq. by apply G1, G2.
  - intros b Hb. rewrite F2, F1; [done|done|]. intros q Hq. by apply Hb, G1.
  - by eapply mem_only_trans.
Qed.

(** The way back: the second space loses its pages. *)
Definition copy_failed (s s' : kstate) (T1 T2 : tree) (U1 : umap) (fl1 fl2 : list Z) : Prop :=
  (forall q, supply T2 ∅ fl2 q <-> supply T1 U1 fl1 q) /\
  (forall b, (forall q, supply T1 U1 fl1 q -> ~ in_page q b) -> ld8 (k_mem s') b = ld8 (k_mem s) b) /\
  (forall va, 0 <= va < MAXVA -> ULIM <= va / PGSIZE -> pte_of T2 (k_mem s') va = pte_of T1 (k_mem s) va) /\
  mem_only s s'.

Lemma copy_undo s new T1 U1 fl v :
  uspace s new T1 U1 fl -> 0 <= v <= ULIM -> (forall x pa, U1 !! x = Some pa -> x < v) ->
  exists s' fl', (uvmunmap new 0 (v * PGSIZE / PGSIZE) true;; mret (-1)) s = Ret (-1) s' /\
    uspace s' new T1 ∅ fl' /\ copy_failed s s' T1 T1 U1 fl fl'.
Proof.
  intros Hn Hv Hdom. rewrite Z.div_mul by done.
  destruct (uvmunmap_spec v s new T1 U1 fl 0 Hn) as (s' & fl' & E & Hu' & [(freed & -> & Hf) Hb Hp Ho]); [lia..|].
  replace (uout 0 (0 + v) U1) with (∅ : umap) in Hu'.
  2:{ apply map_eq. intros x. rewrite lookup_empty, lookup_uout. case_decide as Hx; [done|].
      destruct (U1 !! x) as [pa|] eqn:EU; [|done]. pose proof (us_dom _ _ _ _ _ Hn x pa EU). specialize (Hdom x pa EU). lia. }
  assert (Hall : forall q, (exists x, 0 <= x < 0 + v /\ U1 !! x = Some q) <-> exists x, U1 !! x = Some q).
  { intros q. split; [intros (x & _ & EU); by exists x|]. intros (x & EU). exists x. split; [|done].
    pose proof (us_dom _ _ _ _ _ Hn x q EU). specialize (Hdom x q EU). lia. }
  exists s', (freed ++ fl). split; [change 0 with (0 * PGSIZE) at 1; by rewrite (bind_ret _ _ _ _ _ E)|]. split; [done|].
  split_and!; [|..|done].
  - intros q. unfold supply, space_page. rewrite elem_of_app, Hf, Hall. setoid_rewrite lookup_empty. naive_solver.
  - intros b Hout. apply Hb. intros q Hq. apply Hout. right. unfold space_page. by rewrite <- Hall.
  - intros va Hva Hge. apply Hp; lia.
Qed.

(** One round of the loop, with what follows it. *)
Definition copy_round (old new i : Z) (next err : K Z) : K Z :=
  pte ← walk old i false;
  if pte =? 0 then next
  else
    v ← pte_get pte;
    if negb (has v PTE_V) then next
    else
      mem ← kalloc;
      if mem =? 0 then err
      else
        kmemmove mem (PTE2PA v) PGSIZE;;
        r ← mappages new i PGSIZE mem (PTE_FLAGS v);
        if negb (r =? 0) then kfree mem;; err else next.

(** The pages taken, before they are given back. *)
Definition ran_out (s s' : kstate) (new : Z) (T1 T2 : tree) (U1 : umap) (fl1 fl2 : list Z) : Prop :=
  uspace s' new T2 U1 fl2 /\ (forall q, supply T2 U1 fl2 q <-> supply T1 U1 fl1 q) /\
  (forall b, (forall q, supply T1 U1 fl1 q -> ~ in_page q b) -> ld8 (k_mem s') b = ld8 (k_mem s) b) /\
  (forall va, 0 <= va < MAXVA -> ULIM <= va / PGSIZE -> pte_of T2 (k_mem s') va = pte_of T1 (k_mem s) va) /\
  mem_only s s' /\ (length fl1 < 3)%nat.

Lemma copy_mapped s old T U new T1 U1 fl v pa (next err : K Z) :
  twin s old T U new T1 U1 fl -> U !! v = Some pa -> U1 !! v = None -> 0 <= v < ULIM ->
  let m := mem ← kalloc;
    if mem =? 0 then err
    else
      kmemmove mem pa PGSIZE;;
      r ← mappages new (v * PGSIZE) PGSIZE mem (PTE_FLAGS (pte_of T (k_mem s) (v * PGSIZE)));
      if negb (r =? 0) then kfree mem;; err else next in
  (exists s1 T2 U2 f2, m s = next s1 /\ uspace s1 new T2 U2 f2 /\ copying s s1 T T1 T2 U U1 U2 fl f2 v (v + 1)) \/
  (exists s1 T2 f2, m s = err s1 /\ ran_out s s1 new T1 T2 U1 fl f2).
Proof.
  intros Htw HU HU1 Hv m. pose proof Htw as [To Tn Ta]. pose proof (us_ok _ _ _ _ _ Tn) as (Hk & _ & _). unfold m. clear m.
  destruct fl as [|c fl].
  { right. exists s, T1, []. rewrite (bind_ret _ _ _ _ _ (kalloc_eq_empty s Hk)). split; [done|].
    split_and!; [done..|apply mem_only_refl|cbn; lia]. }
  rewrite (bind_ret _ _ _ _ _ (kalloc_eq s c fl Hk)). pose proof (free_page_ok _ _ _ _ _ c Tn ltac:(left)) as Hc.
  pose proof (page_ok_pos c Hc). destruct (Z.eqb_spec c 0) as [|_]; [lia|].
  destruct (copy_page s old T U new T1 U1 fl v c pa Htw HU HU1 Hv) as (s1 & T2 & f2 & r & E & Ho & Hf & Hpt & _ & Hcase).
  rewrite <- bind_assoc, (bind_ret _ _ _ _ _ E). clear E.
  destruct Hcase as [(-> & Hu' & Hcp)|(-> & -> & Hlt & Hu' & Hsp & Hs)].
  { left. exists s1, T2, (<[v := c]> U1), f2. done. }
  right. change (negb (-1 =? 0)) with true. cbv iota. rewrite (bind_ret _ _ _ _ _ (kfree_eq s1 c Hc)).
  exists (kfree_state s1 c), T2, [c]. split; [done|]. split; [by apply uspace_kfree|]. split.
  { intros q. by rewrite cons_supply. }
  assert (Hin : forall q, q ∈ c :: fl \/ tree_has T1 q -> supply T1 U1 (c :: fl) q) by (intros q [?|?]; [by left|right; by left]).
  split_and!.
  - intros b Hb. rewrite kfree_state_out; [|apply Hb, Hin; left; left]. apply Hf. intros q Hq. by apply Hb, Hin.
  - intros va Hva Hge. rewrite <- Hpt by lia. destruct Hsp as (_ & Hcf & HcT & _).
    apply (vm_kfree s1 new T2 [] c); [apply (us_ok _ _ _ _ _ Hu')|done..].
  - eapply mem_only_trans; [exact Ho|]. eexists _, _. reflexivity.
  - cbn [length]. lia.
Qed.

Lemma copy_round_spec s old T U new T1 U1 fl v (next err : K Z) :
  twin s old T U new T1 U1 fl -> U1 !! v = None -> 0 <= v < ULIM ->
  (exists s1 T2 U2 f2, copy_round old new (v * PGSIZE) next err s = next s1 /\ uspace s1 new T2 U2 f2 /\
     copying s s1 T T1 T2 U U1 U2 fl f2 v (v + 1)) \/
  (exists s1 T2 f2, copy_round old new (v * PGSIZE) next err s = err s1 /\ ran_out s s1 new T1 T2 U1 fl f2).
Proof.
  intros Htw HU1 Hv. pose proof Htw as [To Tn Ta]. destruct (user_va v Hv) as [Hva _].
  pose proof (us_ok _ _ _ _ _ To) as (Hk & Hwf & Hd). unfold copy_round.
  rewrite (bind_ret _ _ _ _ _ (walk_find s old T _ Hwf (proj2 Hva))).
  assert (Hskip : has (pte_of T (k_mem s) (v * PGSIZE)) PTE_V = false -> copying s s T T1 T1 U U1 U1 fl fl v (v + 1)).
  { intros Hn. apply copying_none; [|done]. apply eq_None_not_Some. intros Hs.
    apply (uspace_valid _ _ _ _ _ _ To Hv) in Hs. congruence. }
  destruct (leaf_page T (v * PGSIZE)) as [p|] eqn:Hp.
  - destruct (leaf_addr_some _ _ _ _ _ Hwf Hp) as (Haddr & Hnz & Hld).
    destruct (Z.eqb_spec (leaf_addr T (v * PGSIZE)) 0); [done|]. unfold pte_get. rewrite bind_gets, Hld.
    destruct (has (pte_of T (k_mem s) (v * PGSIZE)) PTE_V) eqn:Hval; cbn [negb].
    + destruct (proj1 (uspace_valid _ _ _ _ _ _ To Hv) Hval) as [pa HU].
      destruct (us_pte _ _ _ _ _ To v pa HU) as [_ ->]. by apply (copy_mapped s old T U new T1 U1 fl v pa).
    + left. exists s, T1, U1, fl. auto.
  - unfold leaf_addr. rewrite Hp. left. exists s, T1, U1, fl. split; [done|]. split; [done|]. apply Hskip.
    unfold pte_of. by rewrite Hp.
Qed.

(** The outcome of uvmcopy.  Each page costs at most itself and two tables. *)
Definition uvmcopied (s s' : kstate) (r : Z) (T T1 T2 : tree) (U U1 U2 : umap) (fl1 fl2 : list Z) (v e : Z) : Prop :=
  r = 0 /\ copying s s' T T1 T2 U U1 U2 fl1 fl2 v e \/ r = -1 /\ U2 = ∅ /\ copy_failed s s' T1 T2 U1 fl1 fl2 /\
  Z.of_nat (length fl1) < 3 * (e - v).

Lemma copying_frame s s1 T T1 T2 U U1 U2 f1 f2 v e :
  copying s s1 T T1 T2 U U1 U2 f1 f2 v e ->
  forall b, (forall q, supply T1 U1 f1 q -> ~ in_page q b) -> ld8 (k_mem s1) b = ld8 (k_mem s) b.
Proof.
  intros Hc b Hb. apply (cp_frame _ _ _ _ _ _ _ _ _ _ _ _ Hc). intros q [Hq|Hq]; apply Hb; [by left|right; by left].
Qed.

Lemma uvmcopied_trans s s1 s2 r old new T T1 T2 T3 U U1 U2 U3 f1 f2 f3 v e :
  v + 1 <= e <= ULIM -> 0 <= v -> twin s old T U new T1 U1 f1 -> twin s1 old T U new T2 U2 f2 ->
  (forall q b, space_page T U q -> in_page q b -> ld8 (k_mem s1) b = ld8 (k_mem s) b) ->
  copying s s1 T T1 T2 U U1 U2 f1 f2 v (v + 1) -> uvmcopied s1 s2 r T T2 T3 U U2 U3 f2 f3 (v + 1) e ->
  uvmcopied s s2 r T T1 T3 U U1 U3 f1 f3 v e.
Proof.
  intros Hve Hv Ht Ht1 Hsame Hc [[-> Hc2]|(-> & -> & (S2 & F2 & P2 & O2) & N2)]; [left|right].
  - split; [done|]. by apply (copying_trans s s1 s2 old new T T1 T2 T3 U U1 U2 U3 f1 f2 f3 v e Hve Hv (tw_old _ _ _ _ _ _ _ _ Ht) Ht1).
  - pose proof (copying_frame _ _ _ _ _ _ _ _ _ _ _ _ Hc) as Hf. destruct Hc as [_ _ P1 S1 N1 _ _ O1].
    split; [done|]. split; [done|]. split; [|lia]. split_and!.
    + intros q. by rewrite S2.
    + intros b Hb. rewrite F2, Hf; [done|done|]. intros q Hq. by apply Hb, S1.
    + intros va Hva Hge. rewrite P2, P1 by lia. done.
    + by eapply mem_only_trans.
Qed.

Lemma ran_out_undo s s1 s2 new T1 T2 U1 f1 f2 f3 :
  ran_out s s1 new T1 T2 U1 f1 f2 -> copy_failed s1 s2 T2 T2 U1 f2 f3 -> copy_failed s s2 T1 T2 U1 f1 f3.
Proof.
  intros (_ & S1 & F1 & P1 & O1 & _) (S2 & F2 & P2 & O2). split_and!.
  - intros q. by rewrite S2.
  - intros b Hb. rewrite F2, F1; [done|done|]. intros q Hq. by apply Hb, S1.
  - intros va Hva Hge. by rewrite P2, P1.
  - by eapply mem_only_trans.
Qed.

Lemma uvmcopy_loop_spec n fuel s old T U new T1 U1 fl v sz :
  twin s old T U new T1 U1 fl -> 0 <= v -> 0 <= sz <= TRAPFRAME -> v + Z.of_nat n = pgs sz -> (n < fuel)%nat ->
  (forall x pa, U1 !! x = Some pa -> x < v) ->
  exists r s' T2 U2 fl', uvmcopy_loop fuel old new (v * PGSIZE) sz s = Ret r s' /\
    twin s' old T U new T2 U2 fl' /\ uvmcopied s s' r T T1 T2 U U1 U2 fl fl' v (pgs sz).
Proof.
  revert fuel s T1 U1 fl v. induction n as [|n IH]; intros fuel s T1 U1 fl v Htw Hv Hsz Hn Hf Hdom;
    (destruct fuel as [|fuel]; [lia|]); cbn [uvmcopy_loop]; destruct (pgroundup_pgs sz Hsz) as (_ & Hp & Hp').
  { destruct (Z.ltb_spec (v * PGSIZE) sz); [page_lia|]. exists 0, s, T1, U1, fl. split; [done|]. split; [done|].
    left. split; [done|]. split; try done; [|lia|apply mem_only_refl]. intros x Hx. lia. }
  destruct (Z.ltb_spec (v * PGSIZE) sz); [|page_lia].
  assert (HU1 : U1 !! v = None).
  { destruct (U1 !! v) as [pa|] eqn:E; [|done]. specialize (Hdom v pa E). lia. }
  replace (u64 (v * PGSIZE + PGSIZE)) with ((v + 1) * PGSIZE).
  2:{ change ULIM with 67108862 in Hp. rewrite u64_small; page_lia. }
  fold (copy_round old new (v * PGSIZE) (uvmcopy_loop fuel old new ((v + 1) * PGSIZE) sz)
         (uvmunmap new 0 (v * PGSIZE / PGSIZE) true;; mret (-1))).
  destruct (copy_round_spec s old T U new T1 U1 fl v (uvmcopy_loop fuel old new ((v + 1) * PGSIZE) sz)
      (uvmunmap new 0 (v * PGSIZE / PGSIZE) true;; mret (-1)) Htw HU1 ltac:(lia))
    as [(s1 & T2 & U2 & f2 & -> & Hu1 & Hc)|(s1 & T2 & f2 & -> & Hr)].
  - destruct (twin_keep s s1 old T U new T1 U1 fl T2 U2 f2 Htw Hu1) as [Htw1 Hsame].
    { intros q. apply (cp_supply _ _ _ _ _ _ _ _ _ _ _ _ Hc). }
    { by apply (copying_frame _ _ _ _ _ _ _ _ _ _ _ _ Hc). }
    destruct (IH fuel s1 T2 U2 f2 (v + 1) Htw1) as (r & s' & T3 & U3 & f3 & E & Htw3 & Hres); [lia|done|lia|lia|..].
    { intros x pa E. destruct (decide (x = v)) as [->|]; [lia|]. rewrite (cp_keep _ _ _ _ _ _ _ _ _ _ _ _ Hc) in E by lia.
      specialize (Hdom x pa E). lia. }
    exists r, s', T3, U3, f3. split; [done|]. split; [done|].
    apply (uvmcopied_trans s s1 s' r old new T T1 T2 T3 U U1 U2 U3 fl f2 f3); done || lia.
  - destruct (copy_undo s1 new T2 U1 f2 v (proj1 Hr)) as (s2 & f3 & E & Hu2 & Hcf); [lia|done|].
    pose proof (ran_out_undo _ _ _ _ _ _ _ _ _ _ Hr Hcf) as Hfail. exists (-1), s2, T2, ∅, f3. split; [done|].
    split; [|right; split_and!; [done|done|apply Hfail..|destruct Hr as (_ & _ & _ & _ & _ & Hlt); lia]].
    apply (twin_keep s s2 old T U new T1 U1 fl T2 ∅ f3 Htw Hu2); [|apply Hfail]. intros q. apply Hfail.
Qed.

Lemma uvmcopy_spec s old T U new T1 fl sz :
  twin s old T U new T1 ∅ fl -> 0 <= sz <= TRAPFRAME ->
  exists r s' T2 U2 fl', uvmcopy old new sz s = Ret r s' /\
    twin s' old T U new T2 U2 fl' /\ uvmcopied s s' r T T1 T2 U ∅ U2 fl fl' 0 (pgs sz).
Proof.
  intros Htw Hsz. destruct (pgroundup_pgs sz Hsz) as (_ & Hp & Hp'). unfold uvmcopy.
  apply (uvmcopy_loop_spec (Z.to_nat (pgs sz)) _ s old T U new T1 ∅ fl 0 sz); [done|lia|done|lia| |done].
  apply Nat.lt_succ_r, Z2Nat.inj_le; [lia|..]; unfold PGSIZE in *; div_lia.
Qed.
End ForkSpace.
