(* ===== verification/ProcLife.v ===== *)
(** * The life of a process: the pages that proc.c takes and gives back

    freeproc gives back the trap frame, the page table and the user memory of
    a process; allocproc takes them, or gives back what it took when memory
    runs out. *)

From S2P Require Import Prelude Memory FsState State Sched SchedSpec Log Kalloc KallocProps VM PageTable VMSpec UserSpace FreeWalk VMProps Disk Memsys VMFault Fs File Proc ProcSpace.
Import Mem.

Section ProcLife.
Context `{KernelImage}.
Abbreviation tree := (gmap (list Z) Z).
Abbreviation umap := (gmap Z Z).

(** The pages of a process: none, a trap frame, or a trap frame and an address
    space. *)
Inductive owns (s : kstate) (q : proc) (fl : list Z) : (Z -> Prop) -> Prop :=
| owns_none :
    p_trapframe q = 0 -> p_pagetable q = 0 -> owns s q fl (fun _ => False)
| owns_frame :
    page_ok (p_trapframe q) -> p_trapframe q ∉ fl -> p_pagetable q = 0 -> owns s q fl (eq (p_trapframe q))
| owns_space (T : tree) (U : umap) :
    uspace s (p_pagetable q) T U fl -> spare T U fl (p_trapframe q) -> 0 <= p_sz q <= TRAPFRAME ->
    (forall v pa, U !! v = Some pa -> v < pgs (p_sz q)) ->
    owns s q fl (fun x => x = p_trapframe q \/ space_page T U x).

(** The process table entry after freeproc. *)
Definition freed_entry (q : proc) : proc :=
  q <| p_trapframe := 0 |> <| p_pagetable := 0 |> <| p_sz := 0 |> <| p_pid := 0 |> <| p_parent := None |>
    <| p_name := <[0%nat := 0]> (p_name q) |> <| p_chan := NoChan |> <| p_killed := 0 |>
    <| p_xstate := 0 |> <| p_state := UNUSED |>.

Lemma list_alter_twice {A} (f g : A -> A) (l : list A) i : alter g i (alter f i l) = alter (fun x => g (f x)) i l.
Proof. revert i. induction l as [|a l IH]; intros [|i]; [done..|]. cbn. f_equal. apply IH. Qed.

Lemma kfree_given s p fl :
  kmem_inv s fl -> page_ok p -> p ∉ fl -> given_back s (kfree_state s p) (eq p) fl (p :: fl).
Proof.
  intros Hk Hp Hfl. split; [by apply kfree_inv| | |by eexists _, _].
  - intros q. rewrite elem_of_cons. naive_solver.
  - intros b Hb. apply kfree_state_out. by apply Hb.
Qed.

Lemma given_none s fl : kmem_inv s fl -> given_back s s (fun _ => False) fl fl.
Proof. intros Hk. split; [done|naive_solver|done|apply mem_only_refl]. Qed.

Lemma given_trans s s1 s2 (P1 P2 P : Z -> Prop) fl fl1 fl2 l :
  given_back s s1 P1 fl fl1 -> given_back (s1 <| k_proc := l |>) s2 P2 fl1 fl2 -> (forall x, P x <-> P1 x \/ P2 x) ->
  given_back s (s2 <| k_proc := k_proc s |>) P fl fl2.
Proof.
  intros [A1 A2 A3 (m1 & f1 & ->)] [B1 B2 B3 (m2 & f2 & ->)] HP. split; [exact B1|..|by eexists _, _].
  - intros x. rewrite B2, A2, HP. tauto.
  - intros b Hb. etransitivity; [apply B3|apply A3]; intros x Hx; apply Hb, HP; tauto.
Qed.

Lemma freeproc_parts s sa sb p (P1 P2 P : Z -> Prop) fl fl1 fl2 :
  (if negb (p_trapframe (pr s p) =? 0) then kfree (p_trapframe (pr s p)) else mret tt) s = Ret tt sa ->
  given_back s sa P1 fl fl1 ->
  let sc := sa <| k_proc := alter (fun q => q <| p_trapframe := 0 |>) p (k_proc sa) |> in
  (if negb (p_pagetable (pr s p) =? 0) then proc_freepagetable (p_pagetable (pr s p)) (p_sz (pr s p)) else mret tt) sc = Ret tt sb ->
  given_back sc sb P2 fl1 fl2 -> (forall x, P x <-> P1 x \/ P2 x) ->
  exists s1 s' fl', freeproc p s = Ret tt s' /\ given_back s s1 P fl fl' /\
    s' = s1 <| k_proc := alter freed_entry p (k_proc s) |>.
Proof.
  intros E1 G1 sc E2 G2 HP. exists (sb <| k_proc := k_proc s |>), (sb <| k_proc := alter freed_entry p (k_proc s) |>), fl2.
  split_and!; [|by eapply given_trans|done].
  unfold freeproc. rewrite bind_gets, (bind_ret _ _ _ _ _ E1). 
  rewrite (bind_ret _ _ _ _ _ (set_pr_alter sa p _)), (bind_ret _ _ _ _ _ E2), set_pr_alter.
  replace (k_proc sb) with (alter (fun q => q <| p_trapframe := 0 |>) p (k_proc s)); [by rewrite list_alter_twice|].
  by destruct G1 as [_ _ _ (m1 & f1 & ->)], G2 as [_ _ _ (m2 & f2 & ->)].
Qed.

Lemma space_root s root T U fl : uspace s root T U fl -> 0 < root.
Proof.
  intros Hu. destruct (us_ok _ _ _ _ _ Hu) as (_ & Hwf & _).
  apply page_ok_pos. apply (pt_page _ _ _ Hwf [] root), (pt_root _ _ _ Hwf).
Qed.

(** freeproc gives back all the pages of the process. *)
Lemma freeproc_spec s p fl P :
  kmem_inv s fl -> owns s (pr s p) fl P ->
  exists s1 s' fl', freeproc p s = Ret tt s' /\ given_back s s1 P fl fl' /\
    s' = s1 <| k_proc := alter freed_entry p (k_proc s) |>.
Proof.
  intros Hk Ho. remember (pr s p) as q eqn:Eq.
  destruct Ho as [Ht Hp|Ht Hfl Hp|T U Hu Hsp Hsz Hdom]; subst q.
  - eapply (freeproc_parts s s _ p _ _ _ fl fl fl); rewrite ?Ht, ?Hp; [done|by apply given_none|done|by apply given_none|tauto].
  - eapply (freeproc_parts s _ _ p (eq (p_trapframe (pr s p))) _ _ fl _ _); rewrite ?Hp.
    + destruct (Z.eqb_spec (p_trapframe (pr s p)) 0) as [E|_]; [pose proof (page_ok_pos _ Ht); lia|by apply kfree_eq].
    + by apply kfree_given.
    + done.
    + apply given_none. by apply kfree_inv.
    + tauto.
  - destruct (proc_freepagetable_spec
      ((kfree_state s (p_trapframe (pr s p))) <| k_proc := alter (fun q => q <| p_trapframe := 0 |>) p (k_proc s) |>)
      (p_pagetable (pr s p)) T U (p_trapframe (pr s p) :: fl) (p_sz (pr s p)))
      as (sb & fl2 & E2 & G2); [|done|done|].
    { eapply (uspace_same (kfree_state s (p_trapframe (pr s p)))); [done|done|by apply uspace_kfree]. }
    destruct Hsp as (Hpg & Hfl & _).
    eapply (freeproc_parts s _ sb p (eq (p_trapframe (pr s p))) (space_page T U) _ fl _ _).
    + destruct (Z.eqb_spec (p_trapframe (pr s p)) 0) as [E|_]; [pose proof (page_ok_pos _ Hpg); lia|by apply kfree_eq].
    + by apply kfree_given.
    + destruct (Z.eqb_spec (p_pagetable (pr s p)) 0) as [E|_]; [|exact E2].
      pose proof (space_root _ _ _ _ _ Hu). lia.
    + exact G2.
    + intros x. intuition congruence.
Qed.
(** ** allocproc *)
(** No page belongs to an entry of the table that is not in use. *)
Definition unused_clean (s : kstate) : Prop :=
  forall i, p_state (pr s i) = UNUSED -> p_trapframe (pr s i) = 0 /\ p_pagetable (pr s i) = 0 /\ p_sz (pr s i) = 0.

(** The entry when allocproc has found it. *)
Definition claimed (pid : Z) (q : proc) : proc :=
  q <| p_pid := pid |> <| p_state := USED |> <| p_level := 0 |> <| p_current_ticks := 0 |> <| p_times_scheduled := 0 |>
    <| p_slice_start_syscalls := 0 |> <| p_time_slice_expired := 0 |>
    <| p_syscall_count := 0 |> <| p_ticks := replicate (Z.to_nat MLFQ_LEVELS) 0 |>
    <| p_page_faults := 0 |> <| p_pages_evicted := 0 |> <| p_pages_swapped_in := 0 |>
    <| p_pages_swapped_out := 0 |> <| p_resident_pages := 0 |>.
(** The entry when allocproc returns it. *)
Definition born (pid tf root : Z) (q : proc) : proc :=
  (claimed pid q) <| p_trapframe := tf |> <| p_pagetable := root |> <| p_context_ra := kforkret |>
    <| p_context_sp := u64 (p_kstack q + PGSIZE) |>.

Definition claimed_state (s : kstate) (p : nat) : kstate :=
  s <| k_nextpid := i32 (k_nextpid s + 1) |> <| k_proc := alter (claimed (k_nextpid s)) p (k_proc s) |>.

Definition first_unused (s : kstate) : option nat :=
  find (fun i => bool_decide (p_state (pr s i) = UNUSED)) (seq 0 (Z.to_nat NPROC)).

Lemma allocproc_claims s p :
  first_unused s = Some p ->
  allocproc s =
  (tf ← kalloc;
   set_pr p (fun q => q <| p_trapframe := tf |>);;
   if tf =? 0 then freeproc p;; mret None
   else
     pagetable ← proc_pagetable p;
     set_pr p (fun q => q <| p_pagetable := pagetable |>);;
     if pagetable =? 0 then freeproc p;; mret None
     else
       set_pr p (fun q => q <| p_context_ra := kforkret |> <| p_context_sp := u64 (p_kstack q + PGSIZE) |>);;
       mret (Some p)) (claimed_state s p).
Proof.
  intros Hf. unfold allocproc. rewrite bind_gets. unfold first_unused in Hf. rewrite Hf.
  rewrite (bind_ret allocpid _ s (k_nextpid s) (s <| k_nextpid := i32 (k_nextpid s + 1) |>)) by done.
  unfold init_mlfq_state. rewrite !(bind_ret (set_pr _ _) _ _ _ _ (set_pr_alter _ _ _)).
  cbn [k_proc upd]. by rewrite !list_alter_twice.
Qed.

(** The state after allocproc chose entry [p]: the entry became [g] of it, the
    next pid moved on, and only pages that were free were written. *)
Definition took (s s' : kstate) (p : nat) (g : proc -> proc) (fl : list Z) : Prop :=
  (exists m l, s' = s <| k_mem := m |> <| k_freelist := l |> <| k_nextpid := i32 (k_nextpid s + 1) |>
                     <| k_proc := alter g p (k_proc s) |>) /\
  (forall b, (forall q, q ∈ fl -> ~ in_page q b) -> ld8 (k_mem s') b = ld8 (k_mem s) b).

(** The two ends of allocproc.  It needs a page for the trap frame and at most
    five for the page table. *)
Definition alloc_fails (s s' : kstate) (p : nat) (fl : list Z) : Prop :=
  allocproc s = Ret None s' /\ took s s' p (fun q => freed_entry (claimed (k_nextpid s) q)) fl /\ all_free s' (fun q => q ∈ fl) /\
  (length fl < 6)%nat.
Definition alloc_works (s s' : kstate) (p : nat) (fl : list Z) : Prop :=
  exists tf root T fl', allocproc s = Ret (Some p) s' /\
    took s s' p (born (k_nextpid s) tf root) fl /\ tf ∈ fl /\ (length fl <= length fl' + 6)%nat /\
    new_space s' root tf T (fun q => q ∈ fl /\ q <> tf) fl'.

Lemma pr_claimed s p : (p < length (k_proc s))%nat -> pr (claimed_state s p) p = claimed (k_nextpid s) (pr s p).
Proof. exact (pr_alter_eq s p (claimed (k_nextpid s))). Qed.

Lemma freed_frame tf q : freed_entry (q <| p_trapframe := tf |>) = freed_entry q.
Proof. by destruct q. Qed.
Lemma freed_table root q : freed_entry (q <| p_pagetable := root |>) = freed_entry q.
Proof. by destruct q. Qed.

(** The way back out of allocproc. *)
Lemma alloc_back s s1 p g P fl fl1 :
  took s s1 p g fl -> kmem_inv s1 fl1 -> owns s1 (pr s1 p) fl1 P -> (forall q, q ∈ fl <-> q ∈ fl1 \/ P q) ->
  (forall q, freed_entry (g q) = freed_entry (claimed (k_nextpid s) q)) ->
  exists s', (freeproc p;; mret None) s1 = Ret (None : option nat) s' /\
    took s s' p (fun q => freed_entry (claimed (k_nextpid s) q)) fl /\ all_free s' (fun q => q ∈ fl).
Proof.
  intros [(m & l & Es1) Hfr] Hk Ho HP Hg.
  destruct (freeproc_spec s1 p fl1 P Hk Ho) as (s2 & s3 & fl' & E2 & [G1 G2 G3 (m' & l' & ->)] & ->).
  eexists. split; [rewrite (bind_ret _ _ _ _ _ E2); reflexivity|]. split; [split|].
  - exists m', l'. rewrite Es1. cbn [k_proc upd]. rewrite list_alter_twice.
    rewrite (list_alter_ext _ (fun q => freed_entry (claimed (k_nextpid s) q)) (k_proc s) (k_proc s) p); [done| |done].
    intros q _. apply Hg.
  - intros b Hb. etransitivity; [apply G3|by apply Hfr]. intros q Hq. apply Hb, HP. by right.
  - exists fl'. split; [exact G1|]. intros q. by rewrite G2, HP.
Qed.

Lemma allocproc_no_page s p :
  first_unused s = Some p -> kmem_inv s [] -> (p < length (k_proc s))%nat ->
  p_trapframe (pr s p) = 0 -> p_pagetable (pr s p) = 0 -> exists s', alloc_fails s s' p [].
Proof.
  intros Hf Hk Hp Ht Hg. pose proof (allocproc_claims s p Hf) as E.
  rewrite (bind_ret kalloc _ _ 0 (claimed_state s p)), (bind_ret _ _ _ _ _ (set_pr_alter _ _ _)) in E
    by (by apply kalloc_eq_empty).
  set (s1 := _ <| k_proc := _ |>) in E. change (0 =? 0) with true in E. cbv iota in E.
  assert (E1 : pr s1 p = (claimed (k_nextpid s) (pr s p)) <| p_trapframe := 0 |>).
  { unfold s1. rewrite pr_alter_eq by (cbn; by rewrite length_alter). by rewrite pr_claimed. }
  destruct (alloc_back s s1 p (fun q => (claimed (k_nextpid s) q) <| p_trapframe := 0 |>) (fun _ => False) [] [])
    as (s2 & E2 & T2 & A2).
  { split; [|done]. exists (k_mem s), (k_freelist s). unfold s1, claimed_state. cbn [k_proc upd].
    rewrite list_alter_twice. by destruct s. }
  { exact (kmem_inv_same s s1 [] eq_refl eq_refl Hk). }
  { apply owns_none; by rewrite E1. }
  { tauto. }
  { intros q. apply freed_frame. }
  exists s2. split; [by rewrite E|]. split_and!; [done|done|cbn; lia].
Qed.

Definition framed_state (s : kstate) (p : nat) (tf : Z) : kstate :=
  (kalloc_state (claimed_state s p) tf)
    <| k_proc := alter (fun q => q <| p_trapframe := tf |>) p (k_proc (kalloc_state (claimed_state s p) tf)) |>.
Lemma pr_framed s p tf :
  (p < length (k_proc s))%nat -> pr (framed_state s p tf) p = (claimed (k_nextpid s) (pr s p)) <| p_trapframe := tf |>.
Proof.
  intros Hp. unfold framed_state. rewrite pr_alter_eq by (cbn; by rewrite length_alter).
  change (pr (kalloc_state (claimed_state s p) tf) p) with (pr (claimed_state s p) p). by rewrite pr_claimed.
Qed.
Lemma framed_mem s p tf :
  k_mem (framed_state s p tf) = k_mem (kalloc_state s tf) /\ k_freelist (framed_state s p tf) = k_freelist (kalloc_state s tf).
Proof. unfold framed_state, claimed_state, kalloc_state. cbn [k_mem k_freelist upd]. done. Qed.
Lemma took_ext s s' p g g' fl : (forall q, g q = g' q) -> took s s' p g fl -> took s s' p g' fl.
Proof.
  intros Hg [(m & l & ->) Hf]. split; [|exact Hf]. exists m, l. f_equal.
  rewrite (list_alter_ext g g' (k_proc s) (k_proc s) p); [done| |done]. intros q _. apply Hg.
Qed.
Lemma new_space_same s s' root tf T (P P' : Z -> Prop) fl :
  k_mem s' = k_mem s -> k_freelist s' = k_freelist s -> (forall q, P' q <-> P q) ->
  new_space s root tf T P fl -> new_space s' root tf T P' fl.
Proof.
  intros Em Ef HP [N1 N2 N3 N4]. split; rewrite ?Em; [by apply (uspace_same s)|done|done|].
  intros q. by rewrite HP.
Qed.
Lemma framed_took s s2 p tf fl g :
  mem_only (framed_state s p tf) s2 ->
  (forall b, (forall q, q ∈ fl -> ~ in_page q b) -> ld8 (k_mem s2) b = ld8 (k_mem (framed_state s p tf)) b) ->
  took s (s2 <| k_proc := alter g p (k_proc s2) |>) p
    (fun q => g ((claimed (k_nextpid s) q) <| p_trapframe := tf |>)) (tf :: fl).
Proof.
  intros Ho F2. split.
  - destruct Ho as (m2 & l2 & ->). exists m2, l2. unfold framed_state, claimed_state. cbn [k_proc upd kalloc_state]. by rewrite !list_alter_twice.
  - intros b Hb. cbn [k_mem upd]. rewrite (F2 b).
    + rewrite (proj1 (framed_mem s p tf)). apply (kalloc_state_out s tf b), Hb, list_elem_of_here.
    + intros q Hq. apply Hb. by apply list_elem_of_further.
Qed.

(** The linker puts the trampoline on a page of its own. *)
Context (tramp_ok : ktrampoline `mod` PGSIZE = 0 /\ 0 <= ktrampoline < 2 ^ 53).

Lemma allocproc_page s p tf fl :
  first_unused s = Some p -> kmem_inv s (tf :: fl) -> (p < length (k_proc s))%nat ->
  exists s', alloc_fails s s' p (tf :: fl) \/ alloc_works s s' p (tf :: fl).
Proof.
  intros Hf Hk Hp. pose proof (allocproc_claims s p Hf) as E.
  assert (Hkc : kmem_inv (claimed_state s p) (tf :: fl)) by (by apply (kmem_inv_same s)).
  pose proof Hkc as [(_ & Htf & _) [Hnfl _]%NoDup_cons]. pose proof (page_ok_pos tf Htf) as Hpos.
  rewrite (bind_ret _ _ _ _ _ (kalloc_eq _ tf fl Hkc)), (bind_ret _ _ _ _ _ (set_pr_alter _ _ _)) in E.
  destruct (Z.eqb_spec tf 0) as [|_]; [lia|]. fold (framed_state s p tf) in E. set (s1 := framed_state s p tf) in *.
  pose proof (pr_framed s p tf Hp) as E1.
  destruct (proc_pagetable_spec tramp_ok s1 p fl tf) as (r & s2 & E2 & Ho & F2 & Hcase).
  { destruct (framed_mem s p tf) as [Em El]. apply (kmem_inv_same _ _ _ Em El). by apply kalloc_inv. }
  { unfold s1. rewrite E1. reflexivity. }
  { exact Htf. }
  { exact Hnfl. }
  rewrite (bind_ret _ _ _ _ _ E2), (bind_ret _ _ _ _ _ (set_pr_alter _ _ _)) in E. clear E2.
  pose proof (framed_took s s2 p tf fl (fun q => q <| p_pagetable := r |>) Ho F2) as Ht3.
  set (s3 := s2 <| k_proc := _ |>) in *. 
  assert (E3 : pr s3 p = (claimed (k_nextpid s) (pr s p)) <| p_trapframe := tf |> <| p_pagetable := r |>).
  { unfold s3. destruct Ho as (m2 & l2 & ->). rewrite pr_alter_eq by (cbn; by rewrite !length_alter).
    f_equal. exact E1. }
  destruct Hcase as [(-> & Hlt & fl1 & Hk2 & Hfl1)|(Hr & T & fl' & Hle & Hnew)].
  - cbn [Z.eqb] in E. destruct (alloc_back s s3 p _ (eq tf) (tf :: fl) fl1 Ht3) as (s4 & E4 & T4 & A4).
    + by apply (kmem_inv_same s2).
    + replace tf with (p_trapframe (pr s3 p)) by (by rewrite E3). apply owns_frame; rewrite E3; [exact Htf| |reflexivity].
      cbn. by rewrite Hfl1.
    + intros q. rewrite elem_of_cons, Hfl1. naive_solver.
    + intros q. by rewrite freed_table, freed_frame.
    + exists s4. left. split; [by rewrite E|]. split_and!; [done|done|cbn; lia].
  - destruct (Z.eqb_spec r 0); [done|]. rewrite (bind_ret _ _ _ _ _ (set_pr_alter _ _ _)) in E.
    unfold s3 in E. cbn [k_proc upd] in E. rewrite list_alter_twice in E.
    eexists. right. exists tf, r, T, fl'. split; [exact E|]. split; [|split; [apply list_elem_of_here|split; [cbn; lia|]]].
    + eapply took_ext; [|exact (framed_took s s2 p tf fl _ Ho F2)]. intros q. by destruct q.
    + eapply (new_space_same s2); [reflexivity|reflexivity| |exact Hnew].
      intros q. rewrite elem_of_cons. split; [tauto|]. intros Hq. split; [by right|]. by intros ->.
Qed.

End ProcLife.
