(* ===== verification/Fork.v ===== *)
(** * kfork (proc.c): the child process

    kfork composed of allocproc, uvmcopy and the copies of the trap frame, the
    open files, the directory and the name. *)

From S2P Require Import Prelude Memory FsState State Sched SchedSpec Log Kalloc KallocProps VM PageTable VMSpec UserSpace FreeWalk VMProps Disk Memsys VMFault Fs File Proc ProcSpace ForkSpace ProcLife.
Import Mem KString.

(** ** The open files *)
Definition dup_file (F : list file) (o : option nat) : list file :=
  match o with Some f => alter (fun x => x <| f_ref := i32 (f_ref x + 1) |>) f F | None => F end.
(** One more reference for each descriptor in the list. *)
Definition dup_files (l : list (option nat)) (F : list file) : list file := foldl dup_file F l.

(** Every open descriptor refers to a file in use. *)
Definition open_files (l : list (option nat)) (F : list file) : Prop :=
  forall f, Some f ∈ l -> exists x, F !! f = Some x /\ 1 <= f_ref x /\ f_ref x + Z.of_nat (length l) < 2 ^ 31.

Lemma open_files_step o l F : open_files (o :: l) F -> open_files l (dup_file F o).
Proof.
  intros Ho f Hf. destruct (Ho f) as (x & Hx & Hr & Hb); [by right|]. cbn [length] in Hb.
  destruct o as [g|]; [|exists x; split; [done|lia]]. cbn. destruct (decide (f = g)) as [->|Hne].
  - rewrite list_lookup_alter_eq, Hx. eexists. split; [reflexivity|]. cbn. rewrite i32_small by lia. lia.
  - rewrite list_lookup_alter_ne by done. exists x. split; [done|lia].
Qed.

Section Fork.
Context `{KernelImage}.
Abbreviation tree := (gmap (list Z) Z).
Abbreviation umap := (gmap Z Z).

Definition fork_fd (p np : nat) (i : Z) : K unit :=
  f ← gets (fun s => default None (p_ofile (pr s p) !! Z.to_nat i));
  match f with
  | Some f =>
      f ← filedup f;
      set_pr np (fun x => x <| p_ofile := <[Z.to_nat i := Some f]> (p_ofile x) |>)
  | None => mret tt
  end.
Definition take_fd (i : nat) (o : option nat) (O : list (option nat)) : list (option nat) :=
  match o with Some f => <[i := Some f]> O | None => O end.

Lemma fork_fd_spec s p np i o l :
  p <> np -> p_ofile (pr s p) !! i = Some o -> open_files (o :: l) (fs_file (k_fs s)) ->
  fork_fd p np (Z.of_nat i) s = Ret tt
    (s <| k_fs := (k_fs s) <| fs_file := dup_file (fs_file (k_fs s)) o |> |>
       <| k_proc := alter (fun x => x <| p_ofile := take_fd i o (p_ofile x) |>) np (k_proc s) |>).
Proof.
  intros Hne Hi Ho. unfold fork_fd. rewrite bind_gets, Nat2Z.id, Hi. cbn [default]. destruct o as [f|]; cbn [dup_file take_fd].
  - destruct (Ho f) as (x & Hx & Hr & _); [left|]. cbn [id].
    rewrite (bind_ret (filedup f) _ s f (s <| k_fs := (k_fs s) <| fs_file := dup_file (fs_file (k_fs s)) (Some f) |> |>)).
    + by rewrite set_pr_alter.
    + unfold filedup. rewrite bind_gets. unfold fl. rewrite Hx. cbn [default id]. by destruct (Z.ltb_spec (f_ref x) 1); [lia|].
  - rewrite alter_same; [by destruct s as [? ? ? ? ? ? ? ? ? ? ? ? ? ? ? ? ? ? ? ? ? ? ? ? []]|by intros []].
Qed.

(** The descriptors of the child. *)
Fixpoint take_fds (i : nat) (l O : list (option nat)) : list (option nat) :=
  match l with [] => O | o :: l' => take_fds (S i) l' (take_fd i o O) end.

Lemma fork_fds_spec l s p np i :
  p <> np -> drop i (p_ofile (pr s p)) = l -> open_files l (fs_file (k_fs s)) ->
  for_loop (length l) (Z.of_nat i) (fork_fd p np) s = Ret tt
    (s <| k_fs := (k_fs s) <| fs_file := dup_files l (fs_file (k_fs s)) |> |>
       <| k_proc := alter (fun x => x <| p_ofile := take_fds i l (p_ofile x) |>) np (k_proc s) |>).
Proof.
  revert s i. induction l as [|o l IH]; intros s i Hne Hd Ho; cbn [for_loop length dup_files foldl take_fds].
  { rewrite alter_same; [by destruct s as [? ? ? ? ? ? ? ? ? ? ? ? ? ? ? ? ? ? ? ? ? ? ? ? []]|by intros []]. }
  assert (Hi : p_ofile (pr s p) !! i = Some o).
  { rewrite <- (Nat.add_0_r i), <- lookup_drop, Hd. done. }
  rewrite (bind_ret _ _ _ _ _ (fork_fd_spec s p np i o l Hne Hi Ho)). replace (Z.of_nat i + 1) with (Z.of_nat (S i)) by lia.
  rewrite IH; [|done|..].
  - cbn [k_fs k_proc upd fs_file]. rewrite list_alter_twice. reflexivity.
  - change (pr _ p) with (pr (s <| k_proc := alter (fun x => x <| p_ofile := take_fd i o (p_ofile x) |>) np (k_proc s) |>) p).
    rewrite pr_alter, decide_False by naive_solver. by rewrite <- Nat.add_1_r, <- drop_drop, Hd.
  - by apply open_files_step.
Qed.

Lemma take_fds_lookup l i O j :
  (i + length l <= length O)%nat ->
  take_fds i l O !! j = if decide (i <= j < i + length l)%nat then
    match l !! (j - i)%nat with Some (Some f) => Some (Some f) | _ => O !! j end else O !! j.
Proof.
  revert i O. induction l as [|o l IH]; intros i O Hl; cbn [take_fds length] in *.
  { by rewrite decide_False by lia. }
  assert (Ht : length (take_fd i o O) = length O) by (destruct o; [apply length_insert|done]).
  rewrite IH by (rewrite Ht; lia). destruct (decide (j = i)) as [->|Hne].
  - rewrite decide_False, decide_True, Nat.sub_diag by lia. destruct o; [|done]. apply list_lookup_insert_eq. lia.
  - assert (Hk : take_fd i o O !! j = O !! j) by (destruct o; [by apply list_lookup_insert_ne|done]). rewrite Hk.
    destruct (decide (S i <= j < S i + length l)%nat); [|rewrite decide_False by lia; done]. rewrite decide_True by lia.
    by replace (j - i)%nat with (S (j - S i)) by lia.
Qed.
(** An entry without descriptors gets those of the parent. *)
Lemma take_fds_all l : take_fds 0 l (replicate (length l) None) = l.
Proof.
  apply list_eq. intros j. rewrite take_fds_lookup by (by rewrite length_replicate). rewrite Nat.sub_0_r.
  case_decide as Hj.
  - destruct (lookup_lt_is_Some_2 l j) as [[f|] ->]; [lia|done|]. apply lookup_replicate_2. lia.
  - rewrite (proj2 (lookup_ge_None _ _)) by (rewrite length_replicate; lia). symmetry. apply lookup_ge_None. lia.
Qed.

(** ** After the memory is copied *)
(** The entry of the child, when kfork returns. *)
Definition child_of (q : proc) (p d : nat) (x : proc) : proc :=
  x <| p_sz := p_sz q |> <| p_ofile := take_fds 0 (p_ofile q) (p_ofile x) |> <| p_cwd := Some d |>
    <| p_name := name_copy 15 (p_name x) (p_name q) |> <| p_parent := Some p |> <| p_state := RUNNABLE |>.
(** The trap frame of the child: that of the parent, with 0 in a0. *)
Definition frame_copied (m : mem) (tf ptf : Z) : mem := st64 (memmove m tf ptf TRAPFRAME_SIZE) (tf_a 0 tf) 0.

Definition forked_state (s : kstate) (p np d : nat) (tf : Z) (q : proc) : kstate :=
  s <| k_mem := frame_copied (k_mem s) tf (p_trapframe q) |>
    <| k_fs := (k_fs s) <| fs_file := dup_files (p_ofile q) (fs_file (k_fs s)) |>
                        <| fs_inode := alter (fun i => i <| i_ref := i32 (i_ref i + 1) |>) d (fs_inode (k_fs s)) |> |>
    <| k_proc := alter (child_of q p d) np (k_proc s) |>.

Definition fork_rest (p np : nat) (q : proc) : K Z :=
  set_pr np (fun x => x <| p_sz := p_sz q |>);;
  tf ← gets (fun s => p_trapframe (pr s np));
  kmemmove tf (p_trapframe q) TRAPFRAME_SIZE;;
  mset (fun m => st64 m (tf_a 0 tf) 0);;
  for_loop (Z.to_nat NOFILE) 0 (fork_fd p np);;
  cwd ← match p_cwd q with Some i => idup i | None => fault "idup" end;
  set_pr np (fun x => x <| p_cwd := Some cwd |>);;
  set_pr np (fun x => x <| p_name := name_copy 15 (p_name x) (p_name q) |>);;
  pid ← gets (fun s => p_pid (pr s np));
  set_pr np (fun x => x <| p_parent := Some p |>);;
  set_pr np (fun x => x <| p_state := RUNNABLE |>);;
  mret pid.

Lemma fork_rest_spec s p np d :
  let q := pr s p in
  p <> np -> (np < length (k_proc s))%nat -> length (p_ofile q) = Z.to_nat NOFILE -> open_files (p_ofile q) (fs_file (k_fs s)) ->
  p_cwd q = Some d ->
  fork_rest p np q s = Ret (p_pid (pr s np)) (forked_state s p np d (p_trapframe (pr s np)) q).
Proof.
  intros q Hne Hnp Hlen Hop Hd. unfold fork_rest. rewrite (bind_ret _ _ _ _ _ (set_pr_alter _ _ _)), bind_gets.
  rewrite pr_alter_eq by done. cbn [p_trapframe upd]. unfold kmemmove, mset. rewrite !bind_modify.
  set (s1 := _ <| k_mem := st64 _ _ 0 |>).
  assert (Hq1 : pr s1 p = q).
  { change (pr s1 p) with (pr (s <| k_proc := alter (fun x => x <| p_sz := p_sz q |>) np (k_proc s) |>) p).
    rewrite pr_alter, decide_False by naive_solver. done. }
  rewrite (bind_ret (for_loop _ _ _) _ _ _ _ (eq_ind _ (fun n => for_loop n 0 (fork_fd p np) s1 = _)
    (fork_fds_spec (p_ofile q) s1 p np 0 Hne ltac:(by rewrite Hq1) Hop) _ Hlen)).
  rewrite Hd, (bind_ret (idup d) _ _ d _ eq_refl), !(bind_ret (set_pr _ _) _ _ _ _ (set_pr_alter _ _ _)), bind_gets.
  rewrite !(bind_ret (set_pr _ _) _ _ _ _ (set_pr_alter _ _ _)). unfold s1. cbn [k_fs k_proc k_mem upd fs_file fs_inode].
  rewrite !list_alter_twice. cbn [p_sz upd].
  apply (f_equal2 Ret).
  - etransitivity; [exact (f_equal p_pid (pr_alter_eq s np _ Hnp))|reflexivity].
  - reflexivity.
Qed.


(** ** The whole of kfork *)
(** The process table when no entry is half made. *)
Record table_ok (s : kstate) : Prop := {
  to_len : length (k_proc s) = Z.to_nat NPROC;
  to_clean : unused_clean s;
  to_files : forall i, p_state (pr s i) = UNUSED -> p_ofile (pr s i) = replicate (Z.to_nat NOFILE) None
}.
(** The process that calls fork: its address space, trap frame, files and
    directory. *)
Record caller (s : kstate) (p d : nat) (T : tree) (U : umap) (fl : list Z) : Prop := {
  ca_cur : k_cur s = Some p;
  ca_used : p_state (pr s p) <> UNUSED;
  ca_space : uspace s (p_pagetable (pr s p)) T U fl;
  ca_frame : spare T U fl (p_trapframe (pr s p));
  ca_sz : 0 <= p_sz (pr s p) <= TRAPFRAME;
  ca_fds : length (p_ofile (pr s p)) = Z.to_nat NOFILE;
  ca_open : open_files (p_ofile (pr s p)) (fs_file (k_fs s));
  ca_cwd : p_cwd (pr s p) = Some d
}.

Lemma took_pr s s' np g fl :
  took s s' np g fl -> (np < length (k_proc s))%nat -> pr s' np = g (pr s np) /\ forall j, j <> np -> pr s' j = pr s j.
Proof.
  intros [(m & l & ->) _] Hnp. split.
  - exact (pr_alter_eq s np g Hnp).
  - intros j Hj. transitivity (pr (s <| k_proc := alter g np (k_proc s) |>) j); [done|].
    by rewrite pr_alter, decide_False by naive_solver.
Qed.
Lemma first_unused_spec s np :
  first_unused s = Some np -> p_state (pr s np) = UNUSED /\ (np < Z.to_nat NPROC)%nat.
Proof.
  intros [Hin Hb]%find_some. apply bool_decide_eq_true in Hb. apply in_seq in Hin. split; [done|lia].
Qed.

(** What allocproc made beside the caller's memory. *)
Lemma alloc_twin s s1 p d T U fl np g root tf Tn fl1 :
  caller s p d T U fl -> took s s1 np g fl -> tf ∈ fl -> new_space s1 root tf Tn (fun q => q ∈ fl /\ q <> tf) fl1 ->
  twin s1 (p_pagetable (pr s p)) T U root Tn ∅ fl1 /\
  (forall q, supply Tn ∅ fl1 q <-> q ∈ fl /\ q <> tf) /\
  (forall q b, q ∉ fl -> page_ok q -> in_page q b -> ld8 (k_mem s1) b = ld8 (k_mem s) b).
Proof.
  intros Hc [_ Hf] Htf [N1 _ _ N4].
  assert (Hs : forall q, supply Tn ∅ fl1 q <-> q ∈ fl /\ q <> tf).
  { intros q. rewrite N4. unfold supply, space_page. setoid_rewrite lookup_empty. naive_solver. }
  assert (Hmem : forall q b, q ∉ fl -> page_ok q -> in_page q b -> ld8 (k_mem s1) b = ld8 (k_mem s) b).
  { intros q b Hq Hok Hb. apply Hf. intros x Hx. apply (page_apart q x b); [done| |by intros ->|done].
    by apply (free_page_ok _ _ _ _ _ x (ca_space _ _ _ _ _ _ Hc)). }
  assert (Hpg : forall q, space_page T U q -> q ∉ fl /\ page_ok q).
  { intros q Hq. by destruct (space_page_ok _ _ _ _ _ q (ca_space _ _ _ _ _ _ Hc) Hq). }
  split; [|done]. split; [|done|].
  - apply (uspace_ext s s1 _ T U fl fl1 (ca_space _ _ _ _ _ _ Hc)).
    + intros q b Hq. destruct (Hpg q (or_introl Hq)). by apply Hmem.
    + apply N1.
    + intros q Hq Hin. destruct (Hpg q (or_introl Hq)) as [Hnf _]. apply Hnf. apply (Hs q). by left.
    + intros v pa HU Hin. destruct (Hpg pa) as [Hnf _]; [right; by exists v|]. apply Hnf. apply (Hs pa). by left.
  - intros q Hq Hq'. destruct (Hpg q Hq) as [Hnf _]. apply Hnf, Hs. by right.
Qed.

(** kfork did not make a process: every page it took is free again, and no
    process, file or byte in use changed. *)
Record fork_failed (s s' : kstate) (fl : list Z) : Prop := {
  ff_free : all_free s' (fun q => q ∈ fl);
  ff_procs : forall j, p_state (pr s j) <> UNUSED -> pr s' j = pr s j;
  ff_unused : forall j, p_state (pr s j) = UNUSED -> p_state (pr s' j) = UNUSED;
  ff_fs : k_fs s' = k_fs s;
  ff_frame : forall b, (forall q, q ∈ fl -> ~ in_page q b) -> ld8 (k_mem s') b = ld8 (k_mem s) b
}.
(** The memory of the child: copies of the pages of the caller, which keeps its
    own, and a trap frame with the caller's registers but 0 in a0. *)
Record child_memory (s s' : kstate) (p : nat) (T : tree) (U : umap) (fl : list Z)
    (tf root : Z) (T2 : tree) (U2 : umap) (fl2 : list Z) : Prop := {
  cm_spaces : twin s' (p_pagetable (pr s p)) T U root T2 U2 fl2;
  cm_copy : forall x, 0 <= x < pgs (p_sz (pr s p)) -> copy_of s s' T T2 U U2 x;
  cm_only : forall x, ~ (0 <= x < pgs (p_sz (pr s p))) -> U2 !! x = None;
  cm_frame : frame_mapped (k_mem s') root tf T2;
  cm_regs : forall i, 0 <= i < TRAPFRAME_SIZE -> ~ (112 <= i < 120) ->
    ld8 (k_mem s') (tf + i) = ld8 (k_mem s) (p_trapframe (pr s p) + i);
  cm_a0 : ld64 (k_mem s') (tf_a 0 tf) = 0;
  cm_pages : forall q, q ∈ fl <-> q = tf \/ supply T2 U2 fl2 q;
  cm_rest : forall b, (forall q, q ∈ fl -> ~ in_page q b) -> ld8 (k_mem s') b = ld8 (k_mem s) b
}.
(** The entry of the child and its files; no other entry changes. *)
Record child_entry (s s' : kstate) (p d np : nat) (tf root : Z) : Prop := {
  ce_entry : pr s' np = child_of (pr s p) p d (born (k_nextpid s) tf root (pr s np));
  ce_fds : p_ofile (pr s' np) = p_ofile (pr s p);
  ce_others : forall j, j <> np -> pr s' j = pr s j;
  ce_files : fs_file (k_fs s') = dup_files (p_ofile (pr s p)) (fs_file (k_fs s))
}.

Lemma took_failed s s' np g fl :
  took s s' np g fl -> (np < length (k_proc s))%nat -> p_state (pr s np) = UNUSED -> (forall x, p_state (g x) = UNUSED) ->
  all_free s' (fun q => q ∈ fl) -> fork_failed s s' fl.
Proof.
  intros Ht Hnp Hst Hg Hall. destruct (took_pr _ _ _ _ _ Ht Hnp) as [En Eo]. destruct Ht as [(m & l & ->) Hf].
  split; [done|..|done|done].
  - intros j Hj. apply Eo. congruence.
  - intros j Hj. destruct (decide (j = np)) as [->|Hne]; [by rewrite En|by rewrite Eo].
Qed.

(** uvmcopy ran out of memory: freeproc takes the child apart. *)
Lemma fork_undo s s1 s2 p d np T U fl tf root Tn T2 fl1 fl2 :
  table_ok s -> caller s p d T U fl -> first_unused s = Some np ->
  took s s1 np (born (k_nextpid s) tf root) fl -> tf ∈ fl -> page_ok tf ->
  (forall q, supply Tn ∅ fl1 q <-> q ∈ fl /\ q <> tf) ->
  uspace s2 root T2 ∅ fl2 -> copy_failed s1 s2 Tn T2 ∅ fl1 fl2 ->
  exists s', (freeproc np;; mret (-1)) s2 = Ret (-1) s' /\ fork_failed s s' fl.
Proof.
  intros Htab Hc Hfirst Htook Htf Hok Hs Hu2 (S2 & F2 & _ & (m2 & l2 & Es2)).
  destruct (first_unused_spec s np Hfirst) as [Hst Hnp]. rewrite <- (to_len _ Htab) in Hnp.
  destruct (took_pr _ _ _ _ _ Htook Hnp) as [En _].
  assert (E2 : pr s2 np = born (k_nextpid s) tf root (pr s np)) by (rewrite <- En; by rewrite Es2).
  assert (Hntf : ~ supply T2 ∅ fl2 tf) by (rewrite S2, Hs; naive_solver).
  destruct (to_clean _ Htab np Hst) as (_ & _ & Hsz0).
  destruct (freeproc_spec s2 np fl2 (fun x => x = tf \/ space_page T2 ∅ x)) as (s3 & s4 & fl' & E & [G1 G2 G3 (m3 & l3 & E3)] & E4).
  { apply (us_ok _ _ _ _ _ Hu2). }
  { replace tf with (p_trapframe (pr s2 np)) by (by rewrite E2). apply owns_space; rewrite E2; cbn.
    - done.
    - split_and!; [done|intros ?; apply Hntf; by left|intros ?; apply Hntf; right; by left|done].
    - rewrite Hsz0. by vm_compute.
    - done. }
  exists s4. split; [by rewrite (bind_ret _ _ _ _ _ E)|]. clear E.
  apply (took_failed s s4 np (fun x => freed_entry (born (k_nextpid s) tf root x)) fl); [|done|done|done|].
  - destruct Htook as [(m & l & E1) Hf]. split.
    + exists m3, l3. rewrite E4, E3, Es2, E1. cbn [k_proc upd]. rewrite list_alter_twice. reflexivity.
    + intros b Hb. rewrite E4. cbn [k_mem upd]. rewrite G3, F2, Hf; [done|done|..].
      * intros q [Hq _]%Hs. by apply Hb.
      * intros q Hq. apply Hb. destruct Hq as [->|Hq]; [done|]. apply (Hs q), S2. by right.
  - exists fl'. split; [rewrite E4; exact G1|]. intros q. rewrite G2. unfold supply in *. 
    specialize (S2 q). specialize (Hs q). destruct (decide (q = tf)) as [->|]; tauto.
Qed.

Lemma frame_copied_mem m tf ptf b :
  ~ (112 <= b - tf < 120) ->
  ld8 (frame_copied m tf ptf) b = if decide (0 <= b - tf < TRAPFRAME_SIZE) then ld8 m (ptf + (b - tf)) else ld8 m b.
Proof.
  unfold frame_copied, tf_a. intros Ha. rewrite ld8_st64_ne by lia.
  rewrite ld8_memmove by (unfold TRAPFRAME_SIZE; lia). repeat case_decide; done || lia.
Qed.
Lemma frame_copied_out m tf ptf b : ~ in_page tf b -> ld8 (frame_copied m tf ptf) b = ld8 m b.
Proof.
  unfold in_page, PGSIZE. intros Hb. rewrite frame_copied_mem by lia. unfold TRAPFRAME_SIZE. by rewrite decide_False by lia.
Qed.

(** Writing a spare page of both spaces. *)
Lemma twin_write s s' old T U new T' U' fl c :
  twin s old T U new T' U' fl -> spare T U fl c -> spare T' U' fl c -> k_freelist s' = k_freelist s ->
  (forall b, ~ in_page c b -> ld8 (k_mem s') b = ld8 (k_mem s) b) -> twin s' old T U new T' U' fl.
Proof.
  intros [To Tn Ta] H1 H2 Hf Hm. split; [| |done].
  - by apply (uspace_write s s' old T U fl c To H1).
  - by apply (uspace_write s s' new T' U' fl c Tn H2).
Qed.

(** The copies, seen from the states around uvmcopy. *)
Lemma copy_of_around s0 s1 s2 s3 T T2 U U2 x fl c root :
  copy_of s1 s2 T T2 U U2 x -> uspace s2 root T2 U2 fl -> spare T2 U2 fl c -> 0 <= x < ULIM ->
  (forall q b, space_page T U q -> in_page q b -> ld8 (k_mem s1) b = ld8 (k_mem s0) b) ->
  (forall va, pte_of T (k_mem s1) va = pte_of T (k_mem s0) va) ->
  (forall va, pte_of T2 (k_mem s3) va = pte_of T2 (k_mem s2) va) ->
  (forall b, ~ in_page c b -> ld8 (k_mem s3) b = ld8 (k_mem s2) b) -> copy_of s0 s3 T T2 U U2 x.
Proof.
  unfold copy_of. intros Hc Hu (Hok & _ & _ & HcU) Hx Hsame Hpt Hpt2 Hout. destruct (U !! x) as [pa|] eqn:HU; [|done].
  destruct Hc as (y & HU2 & Hpte & Hby). exists y. split; [done|]. rewrite Hpt2, <- Hpt. split; [done|].
  intros i Hi. destruct (us_page _ _ _ _ _ Hu x y HU2) as (Hy & _). rewrite Hout, Hby; [|done|].
  - apply (Hsame pa); [right; by exists x|unfold in_page; lia].
  - apply (page_apart y c); [done|done|by intros ->; apply (HcU x)|unfold in_page; lia].
Qed.

(** ** kfork succeeds *)
Section Success.
Context (s s1 s2 : kstate) (p d np : nat) (T : tree) (U : umap) (fl : list Z) (tf root : Z)
  (Tn T2 : tree) (U2 : umap) (fl1 fl2 : list Z).
Context (Htab : table_ok s) (Hc : caller s p d T U fl) (Hfirst : first_unused s = Some np).
Context (Htook : took s s1 np (born (k_nextpid s) tf root) fl) (Htf : tf ∈ fl).
Context (Hnew : new_space s1 root tf Tn (fun q => q ∈ fl /\ q <> tf) fl1).
Context (Htw : twin s2 (p_pagetable (pr s p)) T U root T2 U2 fl2).
Context (Hcp : copying s1 s2 T Tn T2 U ∅ U2 fl1 fl2 0 (pgs (p_sz (pr s p)))).
Abbreviation s3 := (forked_state s2 p np d tf (pr s p)).

Lemma child_supply q : q ∈ fl <-> q = tf \/ supply T2 U2 fl2 q.
Proof using Htab Hc Hfirst Htook Htf Hnew Htw Hcp.
  destruct (alloc_twin s s1 p d T U fl np _ root tf Tn fl1 Hc Htook Htf Hnew) as (_ & Hs & _).
  rewrite (cp_supply _ _ _ _ _ _ _ _ _ _ _ _ Hcp q), Hs. destruct (decide (q = tf)) as [->|]; tauto.
Qed.
Lemma child_frame_spare : spare T2 U2 fl2 tf /\ spare T U fl2 tf.
Proof using Htab Hc Hfirst Htook Htf Hnew Htw Hcp.
  destruct (alloc_twin s s1 p d T U fl np _ root tf Tn fl1 Hc Htook Htf Hnew) as (_ & Hs & _).
  pose proof (free_page_ok _ _ _ _ _ tf (ca_space _ _ _ _ _ _ Hc) Htf) as Hok.
  assert (Hntf : ~ supply T2 U2 fl2 tf) by (rewrite (cp_supply _ _ _ _ _ _ _ _ _ _ _ _ Hcp tf), Hs; naive_solver).
  assert (Hold : ~ space_page T U tf).
  { intros Hq. by destruct (space_page_ok _ _ _ _ _ tf (ca_space _ _ _ _ _ _ Hc) Hq). }
  unfold supply, space_page in *. split; split_and!; try tauto; intros v E; [apply Hntf|apply Hold]; eauto.
Qed.

(** What was not free keeps its bytes. *)
Lemma copy_keeps b : (forall q, q ∈ fl -> ~ in_page q b) -> ld8 (k_mem s2) b = ld8 (k_mem s) b.
Proof using Htab Hc Hfirst Htook Htf Hnew Htw Hcp.
  intros Hb. destruct (alloc_twin s s1 p d T U fl np _ root tf Tn fl1 Hc Htook Htf Hnew) as (_ & Hs & _).
  rewrite (copying_frame _ _ _ _ _ _ _ _ _ _ _ _ Hcp b); [by apply Htook|]. intros q [Hq _]%Hs. by apply Hb.
Qed.
Lemma copy_keeps_page q b : q ∉ fl -> page_ok q -> in_page q b -> ld8 (k_mem s2) b = ld8 (k_mem s) b.
Proof using Htab Hc Hfirst Htook Htf Hnew Htw Hcp.
  intros Hq Hok Hb. apply copy_keeps. intros x Hx. apply (page_apart q x b); [done| |by intros ->|done].
  by apply (free_page_ok _ _ _ _ _ x (ca_space _ _ _ _ _ _ Hc)).
Qed.

Lemma child_memory_ok : child_memory s s3 p T U fl tf root T2 U2 fl2.
Proof using Htab Hc Hfirst Htook Htf Hnew Htw Hcp.
  destruct child_frame_spare as [Hsp2 Hsp1].
  destruct (alloc_twin s s1 p d T U fl np _ root tf Tn fl1 Hc Htook Htf Hnew) as (Htw1 & Hs & Hmem).
  assert (Hm3 : forall b, ~ in_page tf b -> ld8 (k_mem s3) b = ld8 (k_mem s2) b) by (intros b; apply frame_copied_out).
  pose proof (tw_new _ _ _ _ _ _ _ _ Htw) as Hn2. pose proof (us_ok _ _ _ _ _ Hn2) as (_ & Hwf2 & _).
  destruct (pt_ext (k_mem s2) (k_mem s3) root T2) as [Hwf3 Hpt3]; [|done|].
  { intros q b Hq Hb. apply Hm3. apply (tree_page_out _ _ _ q b tf Hwf2 Hq Hb); apply Hsp2. }
  assert (Hpt1 : forall va, pte_of T (k_mem s1) va = pte_of T (k_mem s) va).
  { apply (pt_ext _ _ (p_pagetable (pr s p))); [|apply (us_ok _ _ _ _ _ (ca_space _ _ _ _ _ _ Hc))].
    intros q b Hq. destruct (space_page_ok _ _ _ _ _ q (ca_space _ _ _ _ _ _ Hc) (or_introl Hq)). by apply Hmem. }
  destruct (pgroundup_pgs _ (ca_sz _ _ _ _ _ _ Hc)) as (_ & Hpg & _). split.
  - by apply (twin_write s2 s3 _ _ _ _ _ _ _ tf).
  - intros x Hx. apply (copy_of_around s s1 s2 s3 T T2 U U2 x fl2 tf root); try done.
    + by apply (cp_copy _ _ _ _ _ _ _ _ _ _ _ _ Hcp).
    + lia.
    + intros q b Hq. destruct (space_page_ok _ _ _ _ _ q (ca_space _ _ _ _ _ _ Hc) Hq). by apply Hmem.
  - intros x Hx. by rewrite (cp_keep _ _ _ _ _ _ _ _ _ _ _ _ Hcp x Hx).
  - split; [done|apply Hsp2|apply Hsp2|]. rewrite Hpt3, (cp_pte _ _ _ _ _ _ _ _ _ _ _ _ Hcp).
    + apply (fm_pte _ _ _ _ (ns_frame _ _ _ _ _ _ Hnew)).
    + by vm_compute.
    + change (TRAPFRAME / PGSIZE) with ULIM. lia.
  - intros i Hi Hn. etransitivity; [apply frame_copied_mem; lia|]. rewrite decide_True by lia.
    destruct (ca_frame _ _ _ _ _ _ Hc) as (Hpok & Hpf & _). replace (tf + i - tf) with i by lia.
    apply (copy_keeps_page (p_trapframe (pr s p))); [done|done|]. unfold in_page, PGSIZE, TRAPFRAME_SIZE in *. lia.
  - apply ld64_st64_eq.
  - apply child_supply.
  - intros b Hb. etransitivity; [apply frame_copied_out, Hb, Htf|]. by apply copy_keeps.
Qed.

Lemma child_entry_ok : child_entry s s3 p d np tf root.
Proof using Htab Hc Hfirst Htook Htf Hnew Htw Hcp.
  destruct (first_unused_spec s np Hfirst) as [Hst Hnp]. rewrite <- (to_len _ Htab) in Hnp.
  destruct (took_pr _ _ _ _ _ Htook Hnp) as [En Eo]. pose proof (to_files _ Htab np Hst) as Hfd.
  destruct (cp_only _ _ _ _ _ _ _ _ _ _ _ _ Hcp) as (m2 & l2 & E2).
  assert (Hp2 : forall j, pr s2 j = pr s1 j) by (intros j; by rewrite E2).
  assert (Hl2 : (np < length (k_proc s2))%nat).
  { rewrite E2. destruct Htook as [(m & l & ->) _]. cbn. by rewrite length_alter. }
  assert (E3 : pr s3 np = child_of (pr s p) p d (born (k_nextpid s) tf root (pr s np))).
  { etransitivity; [exact (pr_alter_eq s2 np (child_of (pr s p) p d) Hl2)|]. rewrite (Hp2 np), En. reflexivity. }
  split; [done|..].
  - rewrite E3. cbn. rewrite Hfd, <- (ca_fds _ _ _ _ _ _ Hc). apply take_fds_all.
  - intros j Hj. transitivity (pr (s2 <| k_proc := alter (child_of (pr s p) p d) np (k_proc s2) |>) j); [reflexivity|].
    rewrite pr_alter, decide_False by tauto. rewrite Hp2. by apply Eo.
  - cbn. rewrite E2. by destruct Htook as [(m & l & ->) _].
Qed.
End Success.

(** The outcome of kfork. *)
Definition fork_made (s s' : kstate) (p d np : nat) (T : tree) (U : umap) (fl : list Z) : Prop :=
  first_unused s = Some np /\ exists tf root T2 U2 fl2,
    child_memory s s' p T U fl tf root T2 U2 fl2 /\ child_entry s s' p d np tf root.

(** kfork, once allocproc has returned an entry. *)
Definition fork_from (p np : nat) : K Z :=
  q ← gets (fun s => pr s p);
  npt ← gets (fun s => p_pagetable (pr s np));
  r ← uvmcopy (p_pagetable q) npt (p_sz q);
  if r <? 0 then freeproc np;; mret (-1) else fork_rest p np q.
Lemma kfork_eq : kfork =
  (p ← myproc; r ← allocproc; match r with None => mret (-1) | Some np => fork_from p np end).
Proof. reflexivity. Qed.

Lemma fork_from_spec s s1 p d np T U fl tf root Tn fl1 :
  table_ok s -> caller s p d T U fl -> first_unused s = Some np ->
  took s s1 np (born (k_nextpid s) tf root) fl -> tf ∈ fl ->
  new_space s1 root tf Tn (fun q => q ∈ fl /\ q <> tf) fl1 ->
  exists s', fork_from p np s1 = Ret (-1) s' /\ fork_failed s s' fl /\
      Z.of_nat (length fl1) < 3 * pgs (p_sz (pr s p)) \/
    fork_from p np s1 = Ret (k_nextpid s) s' /\ fork_made s s' p d np T U fl.
Proof.
  intros Htab Hc Hfirst Htook Htf Hnew. destruct (first_unused_spec s np Hfirst) as [Hst Hnp].
  rewrite <- (to_len _ Htab) in Hnp. destruct (took_pr _ _ _ _ _ Htook Hnp) as [En Eo].
  assert (Hpn : p <> np) by (intros ->; by apply (ca_used _ _ _ _ _ _ Hc)).
  destruct (alloc_twin s s1 p d T U fl np _ root tf Tn fl1 Hc Htook Htf Hnew) as (Htw1 & Hs & _).
  unfold fork_from. rewrite !bind_gets, En, (Eo p Hpn).
  change (p_pagetable (born (k_nextpid s) tf root (pr s np))) with root.
  destruct (uvmcopy_spec s1 _ T U root Tn fl1 _ Htw1 (ca_sz _ _ _ _ _ _ Hc)) as (r & s2 & T2 & U2 & fl2 & E & Htw2 & Hres).
  rewrite (bind_ret _ _ _ _ _ E). clear E. destruct Hres as [[-> Hcp]|(-> & -> & Hcf & Hlt)].
  - change (0 <? 0) with false. cbv iota.
    destruct (cp_only _ _ _ _ _ _ _ _ _ _ _ _ Hcp) as (m2 & l2 & E2).
    assert (Hp2 : forall j, pr s2 j = pr s1 j) by (intros j; by rewrite E2).
    exists (forked_state s2 p np d tf (pr s p)). right. split.
    + pose proof (fork_rest_spec s2 p np d Hpn) as Hrest. rewrite !Hp2, En, (Eo p Hpn) in Hrest. apply Hrest.
      * rewrite E2. destruct Htook as [(m & l & ->) _]. cbn. by rewrite length_alter.
      * apply (ca_fds _ _ _ _ _ _ Hc).
      * rewrite E2. destruct Htook as [(m & l & ->) _]. apply (ca_open _ _ _ _ _ _ Hc).
      * apply (ca_cwd _ _ _ _ _ _ Hc).
    + split; [done|]. exists tf, root, T2, U2, fl2. split.
      * by apply (child_memory_ok s s1 s2 p d np T U fl tf root Tn T2 U2 fl1 fl2).
      * by apply (child_entry_ok s s1 s2 p d np T U fl tf root Tn T2 U2 fl1 fl2).
  - change (-1 <? 0) with true. cbv iota.
    destruct (fork_undo s s1 s2 p d np T U fl tf root Tn T2 fl1 fl2) as (s' & E & Hf); try done.
    { by apply (free_page_ok _ _ _ _ _ tf (ca_space _ _ _ _ _ _ Hc)). }
    { apply (tw_new _ _ _ _ _ _ _ _ Htw2). }
    exists s'. left. split_and!; [done|done|lia].
Qed.

Context (tramp_ok : ktrampoline `mod` PGSIZE = 0 /\ 0 <= ktrampoline < 2 ^ 53).

Lemma kfork_spec s p d T U fl :
  table_ok s -> caller s p d T U fl ->
  exists s', kfork s = Ret (-1) s' /\ fork_failed s s' fl /\
      (first_unused s = None \/ Z.of_nat (length fl) < 6 + 3 * pgs (p_sz (pr s p))) \/
    exists np, kfork s = Ret (k_nextpid s) s' /\ fork_made s s' p d np T U fl.
Proof.
  intros Htab Hc. pose proof (proj1 (us_ok _ _ _ _ _ (ca_space _ _ _ _ _ _ Hc))) as Hk.
  rewrite kfork_eq, (bind_ret myproc _ s p s) by (unfold myproc; by rewrite bind_gets, (ca_cur _ _ _ _ _ _ Hc)).
  destruct (first_unused s) as [np|] eqn:Hfirst.
  2:{ exists s. left. rewrite (bind_ret allocproc _ s None s); [split; [done|split; [|by left]]|].
      - split; [by exists fl|done..].
      - unfold allocproc. rewrite bind_gets. unfold first_unused in Hfirst. by rewrite Hfirst. }
  destruct (first_unused_spec s np Hfirst) as [Hst Hnp]. rewrite <- (to_len _ Htab) in Hnp.
  destruct (to_clean _ Htab np Hst) as (Ht0 & Hp0 & _).
  assert (Ha : exists s1, alloc_fails s s1 np fl \/ alloc_works s s1 np fl).
  { destruct fl as [|tf fl]; [|by apply (allocproc_page tramp_ok)].
    destruct (allocproc_no_page s np) as (s1 & Hf); try done. exists s1. by left. }
  destruct Ha as (s1 & [(E & Htook & Hall & Hlt)|(tf & root & Tn & fl1 & E & Htook & Htf & Hle & Hnew)]); rewrite (bind_ret _ _ _ _ _ E).
  - exists s1. left. split; [done|]. split; [by apply (took_failed s s1 np _ fl Htook)|]. right.
    destruct (pgroundup_pgs _ (ca_sz _ _ _ _ _ _ Hc)) as (_ & ? & _). lia.
  - destruct (fork_from_spec s s1 p d np T U fl tf root Tn fl1) as (s' & [(E' & Hf & Hlt)|[E' Hmade]]); try done; exists s'.
    + left. split_and!; [done|done|right; lia].
    + right. by exists np.
Qed.
End Fork.

(** ** The claims *)
(** C6. kfork makes a copy of the calling process, or changes nothing that is
    in use.  It returns the new pid, and the first unused entry of the process
    table is then a RUNNABLE child of the caller with its size, open files
    (each with one more reference), directory and name; the child has an
    address space of its own in which every page of the caller below its size
    is copied byte by byte with the same permissions, and a trap frame, mapped
    where userret expects it, with the caller's registers but 0 in a0; the
    caller's memory is as before, and every page that was free is the child's
    or still free.  Or it returns -1, and then there is no unused entry or
    fewer than 6 pages and 3 for each page of the caller were free; all of
    these are free again, and no process, file or byte in use has changed. *)
Theorem kfork_forks `{KernelImage} (s : kstate) (p d : nat) (T : gmap (list Z) Z) (U : gmap Z Z) (fl : list Z)
  (Htramp : ktrampoline `mod` PGSIZE = 0 /\ 0 <= ktrampoline < 2 ^ 53)
  (Htab : table_ok s) (Hc : caller s p d T U fl) :
  exists s',
    kfork s = Ret (-1) s' /\ fork_failed s s' fl /\
      (first_unused s = None \/ Z.of_nat (length fl) < 6 + 3 * pgs (p_sz (pr s p))) \/
    exists np tf root T2 U2 fl2, kfork s = Ret (k_nextpid s) s' /\ first_unused s = Some np /\
      child_memory s s' p T U fl tf root T2 U2 fl2 /\ child_entry s s' p d np tf root.
Proof.
  destruct (kfork_spec Htramp s p d T U fl Htab Hc) as (s' & [Hf|(np & E & Hn & tf & root & T2 & U2 & fl2 & Hm)]); exists s'.
  - by left.
  - right. by exists np, tf, root, T2, U2, fl2.
Qed.

(** A caller with one page, and eleven free pages. *)
Definition ex_frame : Z := 0x80207000.
Definition ex_more : list Z := (fun i => 0x80208000 + 4096 * i) <$> seqZ 0 8.
Definition ex_give (l : list Z) (s : kstate) : kstate := foldl (@kfree_state) s l.
Definition ex_caller : proc :=
  proc0 <| p_state := RUNNING |> <| p_sz := 4096 |> <| p_pagetable := ex_root |> <| p_trapframe := ex_frame |>
    <| p_ofile := Some 0%nat :: replicate 15 None |> <| p_cwd := Some 0%nat |>.
Definition ex_run (s : kstate) : kstate :=
  s <| k_nextpid := 1 |> <| k_proc := ex_caller :: replicate 63 proc0 |> <| k_cur := Some 0%nat |>
    <| k_fs := fsst0 <| fs_file := (file0 <| f_ref := 1 |>) :: replicate 99 file0 |> |>.
Definition ex_fork : kstate := ex_run (ex_give ex_more ex_state).
Definition ex_all : list Z := rev ex_more ++ ex_free.

Section ForkExample.
#[local] Existing Instance example_image.

Lemma give_space l s root T U fl :
  uspace s root T U fl -> NoDup l -> (forall c, c ∈ l -> spare T U fl c) -> uspace (ex_give l s) root T U (rev l ++ fl).
Proof.
  revert s fl. induction l as [|c l IH]; intros s fl Hu Hnd Hl; [done|]. apply NoDup_cons in Hnd as [Hc Hnd].
  cbn [rev]. rewrite <- app_assoc. apply (IH (kfree_state s c) (c :: fl)); [apply uspace_kfree; [done|apply Hl; left]|done|].
  intros x Hx. destruct (Hl x) as (H1 & H2 & H3 & H4); [by right|]. split_and!; [done| |done|done].
  intros [->|?]%elem_of_cons; done.
Qed.
Lemma ex_spare c : c = ex_frame \/ c ∈ ex_more -> spare ex_tree ex_umap ex_free c.
Proof.
  intros Hc. assert (Hr : 0x80207000 <= c < 0x80210000 /\ c `mod` PGSIZE = 0).
  { destruct Hc as [->|Hc]; [by vm_compute|]. apply list_elem_of_fmap in Hc as (i & -> & Hi%elem_of_seqZ). unfold PGSIZE. div_lia. }
  split_and!.
  - split; [apply Hr|]. cbn [kend example_image]. page_lia.
  - intros [<-|[<-|[<-|[]]]]%list_elem_of_In; lia.
  - intros (π & [[_ E]|[[_ E]|[_ E]]]%ex_tree_lookup); unfold ex_root, ex_l1, ex_l0 in E; lia.
  - intros v. unfold ex_umap. rewrite lookup_insert_Some, lookup_empty. unfold ex_page. intros [[_ E]|[_ ?]]; [lia|done].
Qed.
Lemma ex_more_nodup : NoDup ex_more.
Proof. by apply (bool_decide_unpack _); vm_compute. Qed.

Lemma ex_table_ok s : table_ok (ex_run s).
Proof.
  assert (Hpr : forall i, pr (ex_run s) i = ex_caller \/ pr (ex_run s) i = proc0).
  { intros [|i]; [by left|right]. unfold pr, procs_at, ex_run. cbn [k_proc upd lookup list_lookup].
    destruct (replicate 63 proc0 !! i) eqn:E; [|done]. by apply lookup_replicate in E as [-> _]. }
  split; [done|..].
  - intros i Hs. destruct (Hpr i) as [E|E]; rewrite E in *; done.
  - intros i Hs. destruct (Hpr i) as [E|E]; rewrite E in *; done.
Qed.
Lemma ex_run_caller s :
  uspace s ex_root ex_tree ex_umap ex_all -> caller (ex_run s) 0 0 ex_tree ex_umap ex_all.
Proof.
  intros Hu. split; [done|done|by apply (uspace_same s)| |by vm_compute|done| |done].
  - destruct (ex_spare ex_frame) as (H1 & H2 & H3 & H4); [by left|]. split_and!; [done| |done|done].
    by apply (bool_decide_unpack _); vm_compute.
  - intros f Hf. apply elem_of_cons in Hf as [[= ->]|Hf].
    + eexists. split; [reflexivity|]. cbn. lia.
    + by apply elem_of_replicate in Hf as [? _].
Qed.
Lemma ex_space : uspace (ex_give ex_more ex_state) ex_root ex_tree ex_umap ex_all.
Proof.
  apply give_space; [exact ex_uspace|apply ex_more_nodup|]. intros c Hc. apply ex_spare. by right.
Qed.
Lemma ex_first s : first_unused (ex_run s) = Some 1%nat.
Proof. reflexivity. Qed.
Lemma ex_next s : k_nextpid (ex_run s) = 1 /\ p_sz (pr (ex_run s) 0) = 4096.
Proof. done. Qed.

Lemma ex_tramp_ok : ktrampoline `mod` PGSIZE = 0 /\ 0 <= ktrampoline < 2 ^ 53.
Proof. by vm_compute. Qed.

Lemma kfork_forks_witness :
  exists s' tf root T2 U2 fl2, kfork ex_fork = Ret 1 s' /\
    child_memory ex_fork s' 0 ex_tree ex_umap ex_all tf root T2 U2 fl2 /\ child_entry ex_fork s' 0 0 1 tf root.
Proof.
  unfold ex_fork. pose proof ex_space as Hs. revert Hs. generalize (ex_give ex_more ex_state). intros s Hs.
  destruct (kfork_forks (ex_run s) 0 0 ex_tree ex_umap ex_all ex_tramp_ok (ex_table_ok s) (ex_run_caller s Hs))
    as (s' & [(_ & _ & [Hn|Hlt])|(np & tf & root & T2 & U2 & fl2 & E & Hn & Hm & He)]); destruct (ex_next s) as [E1 E2].
  - rewrite ex_first in Hn. discriminate Hn.
  - rewrite E2 in Hlt. discriminate Hlt.
  - rewrite ex_first in Hn. injection Hn as <-. rewrite E1 in E. exists s', tf, root, T2, U2, fl2.
    split; [exact E|]. split; [exact Hm|exact He].
Defined.
End ForkExample.
