(* ===== verification/ProcWait.v ===== *)
(** * kwait (proc.c): reaping a child

    kwait frees the first zombie child of the caller and hands over its exit
    status; without one it returns -1 or goes to sleep. *)

From S2P Require Import Prelude Memory FsState State Sched SchedSpec Log Kalloc KallocProps VM PageTable VMSpec UserSpace FreeWalk VMProps Disk Memsys VMFault CopySpec Fs File Proc ProcSpace ForkSpace ProcLife Fork.
Import Mem KString.

Section Wait.
Context `{KernelImage}.
Abbreviation tree := (gmap (list Z) Z).
Abbreviation umap := (gmap Z Z).

(** ** The scan of the process table *)
Definition child_at (s : kstate) (p i : nat) : bool := bool_decide (p_parent (pr s i) = Some p).
Definition zombie_at (s : kstate) (p i : nat) : bool := child_at s p i && bool_decide (p_state (pr s i) = ZOMBIE).
Definition first_zombie (s : kstate) (p : nat) : option nat := find (zombie_at s p) (seq 0 (Z.to_nat NPROC)).
Definition has_child (s : kstate) (p : nat) : bool := existsb (child_at s p) (seq 0 (Z.to_nat NPROC)).

(** What is done with a zombie. *)
Definition reap (fuel p pp : nat) (addr : Z) : K scan_result :=
  c ← gets (fun s => pr s pp);
  root ← gets (fun s => p_pagetable (pr s p));
  r ← (if negb (addr =? 0) then
         mset (fun m => st32 m xstate_copy (p_xstate c));;
         copyout fuel root addr xstate_copy 4
       else mret 0);
  if r <? 0 then mret (Reaped (-1)) else freeproc pp;; mret (Reaped (p_pid c)).

Lemma kwait_scan_eq n fuel s p i addr hk :
  kwait_scan n fuel p i addr hk s =
  match find (zombie_at s p) (seq i n) with
  | Some c => reap fuel p c addr s
  | None => Ret (NoZombie (hk || existsb (child_at s p) (seq i n))) s
  end.
Proof.
  revert i hk. induction n as [|n IH]; intros i hk; cbn [kwait_scan seq find existsb].
  { by rewrite orb_false_r. }
  rewrite bind_gets. change (bool_decide (p_parent (pr s i) = Some p)) with (child_at s p i).
  replace (zombie_at s p i) with (child_at s p i && bool_decide (p_state (pr s i) = ZOMBIE)) by done.
  destruct (child_at s p i) eqn:Ec; cbn [andb orb]; [|apply IH].
  destruct (bool_decide (p_state (pr s i) = ZOMBIE)); [done|]. rewrite IH. by rewrite orb_true_r.
Qed.

Lemma reap_reaped fuel p c addr s hk s' : reap fuel p c addr s <> Ret (NoZombie hk) s'.
Proof.
  unfold reap. rewrite !bind_gets. intros E. apply bind_inv in E as (r & s1 & _ & E).
  destruct (r <? 0); [done|]. by apply bind_inv in E as ([] & s2 & _ & E).
Qed.
Lemma kwait_eq fuel s p addr :
  k_cur s = Some p ->
  kwait fuel addr s =
  match first_zombie s p with
  | Some c => (r ← reap fuel p c addr; match r with Reaped pid => mret pid | NoZombie _ => mret (-1) end) s
  | None => if negb (has_child s p) || negb (p_killed (pr s p) =? 0) then Ret (-1) s else sleep_on (ChProc p) s
  end.
Proof.
  intros Hc. unfold kwait. rewrite (bind_ret myproc _ s p s) by (unfold myproc; by rewrite bind_gets, Hc).
  pose proof (kwait_scan_eq (Z.to_nat NPROC) fuel s p 0 addr false) as E. unfold first_zombie, has_child.
  destruct (find _ _) as [c|].
  - unfold mbind, M_bind. rewrite E. destruct (reap fuel p c addr s) as [[pid|hk] s'| | | |] eqn:Er; try done.
    exfalso. revert Er. apply reap_reaped.
  - rewrite (bind_ret _ _ _ _ _ E). cbn [orb]. unfold killed. rewrite bind_gets. destruct (negb _ || negb _); reflexivity.
Qed.

(** ** Reaping *)
(** The caller [p], the zombie [c] and their memory. *)
Record reapable (s : kstate) (p c : nat) (addr : Z) (T Tc : tree) (U Uc : umap) (fl : list Z) : Prop := {
  re_cur : k_cur s = Some p;
  re_first : first_zombie s p = Some c;
  re_len : length (k_proc s) = Z.to_nat NPROC;
  re_spaces : twin s (p_pagetable (pr s p)) T U (p_pagetable (pr s c)) Tc Uc fl;
  re_frame : spare Tc Uc fl (p_trapframe (pr s c));
  re_apart : ~ space_page T U (p_trapframe (pr s c));
  re_sz : 0 <= p_sz (pr s c) <= TRAPFRAME;
  re_dom : forall v pa, Uc !! v = Some pa -> v < pgs (p_sz (pr s c));
  re_addr : addr = 0 \/ 0 < addr /\ umapped s T U PTE_W addr 4
}.
Definition child_page (s : kstate) (c : nat) (Tc : tree) (Uc : umap) (q : Z) : Prop :=
  q = p_trapframe (pr s c) \/ space_page Tc Uc q.

(** The [i]th byte of a word in memory. *)
Definition byte_of (x i : Z) : Z := (x / 256 ^ i) `mod` 256.
Lemma ld8_st_in k m a v i : 0 <= i < Z.of_nat k -> ld8 (st k m a v) (a + i) = byte_of v i.
Proof.
  revert m a v i. induction k as [|k IH]; intros m a v i Hi; [lia|]. cbn [st]. unfold byte_of in *.
  destruct (decide (i = 0)) as [->|Hne].
  - rewrite Z.add_0_r, ld8_st_out, ld8_st8_eq by lia. by rewrite Z.div_1_r.
  - replace (a + i) with (a + 1 + (i - 1)) by lia. rewrite IH by lia. rewrite Z.div_div by lia.
    f_equal. f_equal. rewrite <- Z.pow_succ_r by lia. f_equal. lia.
Qed.

Lemma page_end q b : page_ok q -> in_page q b -> b < PHYSTOP.
Proof. intros [Hm Hr] Hb. unfold in_page in Hb. change PHYSTOP with 0x88000000 in *. unfold PGSIZE in *. div_lia. Qed.

(** The exit status reaches the caller's memory. *)
Lemma status_out fuel s p c addr T Tc U Uc fl :
  reapable s p c addr T Tc U Uc fl ->
  exists s1, (if negb (addr =? 0) then
      mset (fun m => st32 m xstate_copy (p_xstate (pr s c)));; copyout fuel (p_pagetable (pr s p)) addr xstate_copy 4
    else mret 0) s = Ret 0 s1 /\ (exists m, s1 = s <| k_mem := m |>) /\
    (addr <> 0 -> forall i, 0 <= i < 4 -> ld8 (k_mem s1) (uaddr U (addr + i)) = byte_of (p_xstate (pr s c)) i) /\
    (forall q b, page_ok q -> (forall v, U !! v <> Some q) -> in_page q b -> ld8 (k_mem s1) b = ld8 (k_mem s) b).
Proof.
  intros Hr. destruct (Z.eqb_spec addr 0) as [->|Ha]; cbn [negb].
  { exists s. split; [done|]. split; [exists (k_mem s); by destruct s|]. done. }
  destruct (re_addr _ _ _ _ _ _ _ _ _ Hr) as [|[Hpos Hmap]]; [done|].
  set (s0 := s <| k_mem := st32 (k_mem s) xstate_copy (p_xstate (pr s c)) |>).
  assert (Hst : forall q b, page_ok q -> in_page q b -> ld8 (k_mem s0) b = ld8 (k_mem s) b).
  { intros q b Hq Hb. apply (ld8_st_out 4). pose proof (page_end q b Hq Hb). pose proof (kstk_range 9). unfold xstate_copy. lia. }
  pose proof (re_spaces _ _ _ _ _ _ _ _ _ Hr) as [Hold _ _].
  assert (Hu0 : uspace s0 (p_pagetable (pr s p)) T U fl).
  { apply (uspace_ext s s0 _ T U fl fl Hold).
    - intros q b Hq. apply Hst. apply (space_page_ok _ _ _ _ _ q Hold). by left.
    - apply (kmem_inv_ext s); [apply Hold|done|]. intros q b Hq. apply Hst. by apply (free_page_ok _ _ _ _ _ q Hold).
    - intros q Hq. apply (space_page_ok _ _ _ _ _ q Hold). by left.
    - intros v pa HU. apply (space_page_ok _ _ _ _ _ pa Hold). right. by exists v. }
  assert (Hpt0 : forall va, pte_of T (k_mem s0) va = pte_of T (k_mem s) va).
  { apply (pt_ext _ _ (p_pagetable (pr s p))); [|apply Hold]. intros q b Hq. apply Hst. apply (space_page_ok _ _ _ _ _ q Hold). by left. }
  destruct (copyout_loop_spec (Z.to_nat (4 / PGSIZE) + 3) fuel s0 (p_pagetable (pr s p)) T U fl addr xstate_copy 4)
    as (s1 & E & [Hb Hf (m & ->)] & _); [done|..|lia|lia|apply pages_of_le; lia|].
  { intros y Hy. destruct (Hmap y Hy) as (H1 & H2 & H3). by rewrite !Hpt0. }
  { intros b v pa Hb HU Hin. destruct (us_page _ _ _ _ _ Hold v pa HU) as (Hok & _).
    pose proof (page_end pa b Hok Hin). pose proof (kstk_range 9). unfold xstate_copy in Hb. lia. }
  eexists. split; [unfold mset; rewrite bind_modify; exact E|]. clear E. split; [by exists m|]. split.
  - intros _ i Hi. rewrite Hb by lia. by apply (ld8_st_in 4).
  - intros q b Hq HqU Hin. rewrite Hf; [by apply (Hst q)|]. intros i Hi ->. destruct (Hmap (addr + i)) as ((pa & HU) & _); [lia|].
    destruct (us_page _ _ _ _ _ Hold _ pa HU) as (Hok & _). unfold uaddr in Hin. rewrite HU in Hin. cbn in Hin.
    apply (page_apart q pa (pa + (addr + i) `mod` PGSIZE)); [done|done|intros ->; by apply (HqU ((addr + i) / PGSIZE))|done|].
    unfold in_page. pose proof (Z.mod_pos_bound (addr + i) PGSIZE ltac:(done)). lia.
Qed.

(** The child is gone: its entry is unused, its pages are free, its status is
    in the caller's memory, and the caller's address space is as before.  The
    frame table still has the entries of the freed frames. *)
Record reaped (s s' : kstate) (p c : nat) (addr : Z) (T Tc : tree) (U Uc : umap) (fl fl' : list Z) : Prop := {
  rd_space : uspace s' (p_pagetable (pr s p)) T U fl';
  rd_pages : forall q, q ∈ fl' <-> q ∈ fl \/ child_page s c Tc Uc q;
  rd_entry : pr s' c = freed_entry (pr s c);
  rd_others : forall j, j <> c -> pr s' j = pr s j;
  rd_status : addr <> 0 -> forall i, 0 <= i < 4 -> ld8 (k_mem s') (uaddr U (addr + i)) = byte_of (p_xstate (pr s c)) i;
  rd_frames : k_frame_table s' = k_frame_table s;
  rd_frame : forall q b, page_ok q -> ~ child_page s c Tc Uc q -> (forall v, U !! v <> Some q) -> in_page q b ->
    ld8 (k_mem s') b = ld8 (k_mem s) b
}.

Lemma kmem_kept s s1 l root T U :
  uspace s root T U l -> k_freelist s1 = k_freelist s ->
  (forall q b, page_ok q -> (forall v, U !! v <> Some q) -> in_page q b -> ld8 (k_mem s1) b = ld8 (k_mem s) b) -> kmem_inv s1 l.
Proof.
  intros Hu Hf Hm. apply (kmem_inv_ext s); [apply Hu|done|]. intros q b Hq. apply Hm.
  - by apply (free_page_ok _ _ _ _ _ q Hu).
  - intros v HU. by destruct (us_page _ _ _ _ _ Hu v q HU) as (_ & ? & _).
Qed.

Lemma reap_spec fuel s p c addr T Tc U Uc fl :
  reapable s p c addr T Tc U Uc fl ->
  exists s' fl', reap fuel p c addr s = Ret (Reaped (p_pid (pr s c))) s' /\ reaped s s' p c addr T Tc U Uc fl fl'.
Proof.
  intros Hr. destruct (status_out fuel s p c addr T Tc U Uc fl Hr) as (s1 & E1 & (m & Es1) & Hstat & Hmem).
  unfold reap. rewrite !bind_gets, (bind_ret _ _ _ _ _ E1). clear E1. change (0 <? 0) with false. cbv iota.
  pose proof (re_spaces _ _ _ _ _ _ _ _ _ Hr) as [Hold Hnew Hap].
  assert (Hpr : forall j, pr s1 j = pr s j) by (intros j; by rewrite Es1).
  assert (Hk1 : kmem_inv s1 fl) by (apply (kmem_kept s s1 fl _ T U Hold); [by rewrite Es1|exact Hmem]).
  assert (Hout : forall q, space_page Tc Uc q -> forall v, U !! v <> Some q).
  { intros q Hq v HU. apply (Hap q); [right; by exists v|done]. }
  destruct (freeproc_spec s1 c fl (child_page s c Tc Uc) Hk1) as (s2 & s3 & fl' & E & [G1 G2 G3 (m2 & l2 & Es2)] & Es3).
  { rewrite Hpr. apply owns_space; [|apply Hr..]. apply (uspace_ext s s1 _ Tc Uc fl fl Hnew); [|done|..].
    - intros q b Hq. apply Hmem; [|apply Hout; by left]. apply (space_page_ok _ _ _ _ _ q Hnew). by left.
    - intros q Hq. apply (space_page_ok _ _ _ _ _ q Hnew). by left.
    - intros v pa HU. apply (space_page_ok _ _ _ _ _ pa Hnew). right. by exists v. }
  rewrite (bind_ret _ _ _ _ _ E). clear E. exists s3, fl'. split; [reflexivity|].
  assert (Hkeep : forall q b, page_ok q -> ~ child_page s c Tc Uc q -> in_page q b -> ld8 (k_mem s3) b = ld8 (k_mem s1) b).
  { intros q b Hq Hn Hb. rewrite Es3. apply G3. intros x Hx. apply (page_apart q x b); [done| |by intros ->|done].
    destruct Hx as [->|Hx]; [apply (re_frame _ _ _ _ _ _ _ _ _ Hr)|by apply (space_page_ok _ _ _ _ _ x Hnew)]. }
  assert (Hpar : forall q, space_page T U q -> page_ok q /\ q ∉ fl /\ ~ child_page s c Tc Uc q).
  { intros q Hq. destruct (space_page_ok _ _ _ _ _ q Hold Hq) as [H1 H2]. split_and!; [done|done|].
    intros [->|Hx]; [by apply (re_apart _ _ _ _ _ _ _ _ _ Hr)|by apply (Hap q)]. }
  assert (Hnf : forall q, space_page T U q -> q ∉ fl').
  { intros q Hq Hin. destruct (Hpar q Hq) as (_ & H1 & H2). apply G2 in Hin. tauto. }
  assert (Hc : (c < length (k_proc s))%nat).
  { pose proof (re_first _ _ _ _ _ _ _ _ _ Hr) as Hf. apply find_some in Hf as [Hin _]. apply in_seq in Hin.
    rewrite (re_len _ _ _ _ _ _ _ _ _ Hr). lia. }
  assert (Hps : forall j, pr s3 j = pr (s <| k_proc := alter freed_entry c (k_proc s) |>) j).
  { intros j. rewrite Es3, Es2, Es1. reflexivity. }
  split.
  - apply (uspace_ext s s3 _ T U fl fl' Hold); [|rewrite Es3; exact G1|intros q Hq; apply Hnf; by left|intros v pa HU; apply Hnf; right; by exists v].
    intros q b Hq Hb. destruct (Hpar q (or_introl Hq)) as (H1 & H2 & H3). rewrite (Hkeep q b), (Hmem q b); [done|done| |done..].
    intros v HU. by destruct (us_page _ _ _ _ _ Hold v q HU) as (_ & _ & ?).
  - exact G2.
  - by rewrite Hps, pr_alter_eq.
  - intros j Hj. by rewrite Hps, pr_alter, decide_False by tauto.
  - intros Ha i Hi. rewrite <- Hstat by done. destruct (re_addr _ _ _ _ _ _ _ _ _ Hr) as [|[Hpos Hmap]]; [done|].
    destruct (Hmap (addr + i)) as ((pa & HU) & _); [lia|]. destruct (Hpar pa) as (H1 & _ & H3); [right; eauto|].
    apply (Hkeep pa); [done|done|]. unfold uaddr. rewrite HU. cbn. unfold in_page.
    pose proof (Z.mod_pos_bound (addr + i) PGSIZE ltac:(done)). lia.
  - by rewrite Es3, Es2, Es1.
  - intros q b Hq Hn HU Hb. rewrite (Hkeep q b), (Hmem q b) by done. done.
Qed.
End Wait.


(** ** A caller and its zombie child *)
Section WaitExample.
#[local] Existing Instance example_image.
Definition ex_new : Z := 0x80204000.
Definition ex_left : list Z := [0x80205000; 0x80206000].
Definition ex_zombie : proc :=
  proc0 <| p_state := ZOMBIE |> <| p_pid := 7 |> <| p_xstate := 3 |> <| p_parent := Some 0%nat |>
    <| p_pagetable := ex_new |> <| p_trapframe := ex_frame |>.
Definition ex_wait (s : kstate) : kstate :=
  s <| k_mlfq_head := [0; 0; 0; 0] |> <| k_proc := ex_caller :: ex_zombie :: replicate 62 proc0 |> <| k_cur := Some 0%nat |>.

Lemma ex_wait_wf s : sched_wf (ex_wait s).
Proof.
  split; [done|split; [done|repeat constructor; done]| |].
  - by apply Forall_cons_2, Forall_cons_2, Forall_replicate.
  - intros [|[|i]]; [done..|]. assert (E : pr (ex_wait s) (S (S i)) = proc0).
    { unfold pr, procs_at. change (k_proc (ex_wait s) !! S (S i)) with (replicate 62 proc0 !! i).
      destruct (replicate 62 proc0 !! i) as [q|] eqn:E; [by apply lookup_replicate in E as [-> _]|done]. }
    by rewrite E.
Qed.
Lemma ex_twin : twin (created ex_state ex_new) ex_root ex_tree ex_umap ex_new (bare_tree ex_new) ∅ ex_left.
Proof.
  assert (Hk : kmem_inv ex_state (ex_new :: ex_left)) by apply ex_uspace.
  assert (Hp : forall q, space_page ex_tree ex_umap q -> page_ok q /\ q <> ex_new /\ q ∉ ex_left).
  { intros q Hq. destruct (space_page_ok _ _ _ _ _ q ex_uspace Hq) as [H1 H2]. change ex_free with (ex_new :: ex_left) in H2.
    rewrite elem_of_cons in H2. tauto. }
  split; [|by apply created_space|].
  - apply (uspace_ext ex_state _ ex_root ex_tree ex_umap ex_free ex_left ex_uspace).
    + intros q b Hq Hb. destruct (Hp q (or_introl Hq)) as (H1 & H2 & _). rewrite created_mem, decide_False; [done|].
      apply (page_apart q ex_new b); [done| |done|done]. by apply (free_page_ok _ _ _ _ _ ex_new ex_uspace); left.
    + apply created_space in Hk. apply Hk.
    + intros q Hq. apply (Hp q). by left.
    + intros v pa HU. apply (Hp pa). right. by exists v.
  - intros q Hq [Hh|(v & E)]; [|by rewrite lookup_empty in E]. apply bare_has in Hh as ->. by destruct (Hp ex_new Hq) as (_ & ? & _).
Qed.
Lemma twin_same s s' old T U new T' U' fl :
  k_mem s' = k_mem s -> k_freelist s' = k_freelist s -> twin s old T U new T' U' fl -> twin s' old T U new T' U' fl.
Proof. intros Em Ef [To Tn Ta]. split; [by apply (uspace_same s)|by apply (uspace_same s)|done]. Qed.
Lemma ex_wait_frame : spare (bare_tree ex_new) ∅ ex_left ex_frame /\ ~ space_page ex_tree ex_umap ex_frame.
Proof.
  destruct (ex_spare ex_frame) as (H1 & H2 & H3 & H4); [by left|]. split; [split_and!|].
  - done.
  - intros Hin. apply H2. change ex_free with (ex_new :: ex_left). by right.
  - by intros ?%bare_has.
  - intros v. by rewrite lookup_empty.
  - intros [Hh|(v & E)]; [done|by apply (H4 v)].
Qed.
Lemma ex_writable s :
  uspace s ex_root ex_tree ex_umap ex_left -> (forall va, pte_of ex_tree (k_mem s) va = pte_of ex_tree (k_mem ex_state) va) ->
  umapped s ex_tree ex_umap PTE_W 16 4.
Proof.
  intros Hu Hpt y Hy. replace (y / PGSIZE) with 0 by (unfold PGSIZE; div_lia). rewrite !Hpt.
  split; [by eexists|]. by vm_compute.
Qed.
Lemma created_pte va : pte_of ex_tree (k_mem (created ex_state ex_new)) va = pte_of ex_tree (k_mem ex_state) va.
Proof.
  apply (pt_ext _ _ ex_root); [|apply ex_uspace]. intros q b Hq Hb. rewrite created_mem, decide_False; [done|].
  destruct (space_page_ok _ _ _ _ _ q ex_uspace (or_introl Hq)) as [H1 H2].
  apply (page_apart q ex_new b); [done|by apply (free_page_ok _ _ _ _ _ ex_new ex_uspace); left| |done].
  intros ->. apply H2. left.
Qed.

Lemma ex_reapable s :
  twin s ex_root ex_tree ex_umap ex_new (bare_tree ex_new) ∅ ex_left -> umapped s ex_tree ex_umap PTE_W 16 4 ->
  reapable (ex_wait s) 0 1 16 ex_tree (bare_tree ex_new) ex_umap ∅ ex_left.
Proof.
  intros Htw Hm. destruct ex_wait_frame as [Hf Ha]. split.
  - done.
  - done.
  - done.
  - by apply (twin_same s).
  - exact Hf.
  - exact Ha.
  - by vm_compute.
  - intros v pa E. by rewrite lookup_empty in E.
  - right. split; [lia|exact Hm].
Qed.
End WaitExample.
