(* ===== verification/Args.v ===== *)
(** * kernel/syscall.c: the arguments of system calls *)

From S2P Require Import Prelude Memory FsState State Sched Kalloc VM Disk Memsys VMFault Fs Proc.
Import Mem KString.

Section Args.
Context `{KernelImage}.

(** fetchaddr: the word at [ip] *)
Definition fetchaddr (fuel : nat) (addr ip : Z) : K Z :=
  p ← myproc;
  q ← gets (fun s => pr s p);
  if (p_sz q <=? addr) || (p_sz q <? u64 (addr + 8)) then mret (-1)
  else
    r ← copyin fuel (p_pagetable q) ip addr 8;
    if negb (r =? 0) then mret (-1) else mret 0.

(** fetchstr; copyinstr leaves a NUL among the first [max] bytes *)
Definition fetchstr (addr buf max : Z) : K Z :=
  p ← myproc;
  root ← gets (fun s => p_pagetable (pr s p));
  r ← copyinstr root buf addr max;
  if r <? 0 then mret (-1)
  else
    m ← gets k_mem;
    match strlen (S (Z.to_nat max)) m buf with
    | Some n => mret n
    | None => no_fuel
    end.

(** argraw, argint, argaddr, argstr *)
Definition argraw (n : Z) : K Z :=
  p ← myproc;
  tf ← gets (fun s => p_trapframe (pr s p));
  if (0 <=? n) && (n <=? 5) then mget (fun m => ld64 m (tf_a n tf)) else panic "argraw".
Definition argint (n : Z) : K Z := a ← argraw n; mret (i32 a).
Definition argaddr (n : Z) : K Z := argraw n.
Definition argstr (n buf max : Z) : K Z := addr ← argaddr n; fetchstr addr buf max.

End Args.
