(* ===== verification/Exec.v ===== *)
(** * kernel/exec.c: loading a program

    The ELF headers are locals, read at their offsets in struct elfhdr (64
    bytes: magic@0, entry@24, phoff@32, phnum@56) and struct proghdr (56 bytes:
    type@0, flags@4, off@8, vaddr@16, filesz@32, memsz@40).  [argv] is the list
    of the addresses of the argument strings, up to the null pointer. *)

From S2P Require Import Prelude Memory FsState State Sched Log Kalloc VM Disk Memsys VMFault Fs File Proc.
Import Mem KString.

Definition ELF_MAGIC : Z := 0x464C457F.
Definition ELF_PROG_LOAD : Z := 1.
Definition ELFHDR_SIZE : Z := 64.
Definition PROGHDR_SIZE : Z := 56.

(** flags2perm *)
Definition flags2perm (flags : Z) : Z :=
  let perm := if negb (Z.land flags 0x1 =? 0) then PTE_X else 0 in
  if negb (Z.land flags 0x2 =? 0) then Z.lor perm PTE_W else perm.

Section Exec.
Context `{KernelImage}.

(** loadseg *)
Fixpoint loadseg_loop (k fuel : nat) (pagetable va : Z) (ip : nat) (offset sz i : Z) : K Z :=
  match k with
  | O => no_fuel
  | S k' =>
      if i <? sz then
        pa ← walkaddr pagetable (u64 (va + i));
        if pa =? 0 then panic "loadseg: address should exist"
        else
          let n := if sz - i <? PGSIZE then sz - i else PGSIZE in
          r ← readi fuel ip false pa (u32 (offset + i)) n;
          if negb (r =? n) then mret (-1)
          else loadseg_loop k' fuel pagetable va ip offset sz (u32 (i + PGSIZE))
      else mret 0
  end.
Definition loadseg (fuel : nat) (pagetable va : Z) (ip : nat) (offset sz : Z) : K Z :=
  loadseg_loop (Z.to_nat (sz / PGSIZE) + 2) fuel pagetable va ip offset sz 0.

(** kexec: the loop over the program headers.  It gives the new size, and
    whether it went through; [ph] is its local. *)
Definition ph : Z := kstk 10.
Fixpoint load_loop (n fuel : nat) (pagetable : Z) (ip : nat) (off sz : Z) : K (bool * Z) :=
  match n with
  | O => mret (true, sz)
  | S n' =>
      r ← readi fuel ip false ph (u32 off) PROGHDR_SIZE;
      if negb (r =? PROGHDR_SIZE) then mret (false, sz)
      else
        m ← gets k_mem;
        if negb (ld32 m ph =? ELF_PROG_LOAD) then load_loop n' fuel pagetable ip (i32 (off + PROGHDR_SIZE)) sz
        else
          let vaddr := ld64 m (ph + 16) in
          let filesz := ld64 m (ph + 32) in
          let memsz := ld64 m (ph + 40) in
          if memsz <? filesz then mret (false, sz)
          else if u64 (vaddr + memsz) <? vaddr then mret (false, sz)
          else if negb (vaddr `mod` PGSIZE =? 0) then mret (false, sz)
          else
            sz1 ← uvmalloc pagetable sz (u64 (vaddr + memsz)) (flags2perm (i32 (ld32 m (ph + 4))));
            if sz1 =? 0 then mret (false, sz)
            else
              r ← loadseg fuel pagetable vaddr ip (u32 (ld64 m (ph + 8))) (u32 filesz);
              if r <? 0 then mret (false, sz1)
              else load_loop n' fuel pagetable ip (i32 (off + PROGHDR_SIZE)) sz1
  end.

(** kexec: the argument strings go to the stack.  It gives the stack pointer
    and the addresses of the copies. *)
Fixpoint push_args (fuel : nat) (pagetable stackbase : Z) (argv : list Z) (argc sp : Z) (ustack : list Z) : K (option (Z * list Z)) :=
  match argv with
  | [] => mret (Some (sp, ustack))
  | a :: argv' =>
      if MAXARG <=? argc then mret None
      else
        m ← gets k_mem;
        match strlen (S (Z.to_nat PGSIZE)) m a with
        | None => no_fuel
        | Some n =>
            let sp := u64 (sp - (n + 1)) in
            let sp := sp - sp `mod` 16 in
            if sp <? stackbase then mret None
            else
              r ← copyout fuel pagetable sp a (n + 1);
              if r <? 0 then mret None
              else push_args fuel pagetable stackbase argv' (argc + 1) sp (ustack ++ [sp])
        end
  end.

(** The part of a path after its last slash. *)
Fixpoint last_element (k : nat) (m : mem) (s last : Z) : option Z :=
  match k with
  | O => None
  | S k' =>
      let c := ld8 m s in
      if c =? 0 then Some last else last_element k' m (s + 1) (if c =? slash then s + 1 else last)
  end.

(** kexec: what goes back when it fails *)
Definition exec_bad (pagetable sz : Z) (ip : option nat) : K Z :=
  (if negb (pagetable =? 0) then proc_freepagetable pagetable sz else mret tt);;
  match ip with Some i => iunlockput i;; end_op | None => mret tt end;;
  mret (-1).

(** kexec, after the program is loaded: the stack and the switch to the new
    image; the locals [elf] and [ustack] *)
Definition elf : Z := kstk 11.
Definition ustack_copy : Z := kstk 12.
Definition exec_image (fuel : nat) (p : nat) (path : Z) (argv : list Z) (pagetable sz : Z) : K Z :=
  oldsz ← gets (fun s => p_sz (pr s p));
  let sz := PGROUNDUP sz in
  sz1 ← uvmalloc pagetable sz (u64 (sz + (USERSTACK + 1) * PGSIZE)) PTE_W;
  if sz1 =? 0 then exec_bad pagetable sz None
  else
    let sz := sz1 in
    uvmclear pagetable (u64 (sz - (USERSTACK + 1) * PGSIZE));;
    let stackbase := u64 (sz - USERSTACK * PGSIZE) in
    r ← push_args fuel pagetable stackbase argv 0 sz [];
    match r with
    | None => exec_bad pagetable sz None
    | Some (sp, ustack) =>
        let argc := Z.of_nat (length ustack) in
        let sp := u64 (sp - (argc + 1) * 8) in
        let sp := sp - sp `mod` 16 in
        if sp <? stackbase then exec_bad pagetable sz None
        else
          for_loop (length ustack) 0 (fun i => mset (fun m => st64 m (ustack_copy + 8 * i) (default 0 (ustack !! Z.to_nat i))));;
          mset (fun m => st64 m (ustack_copy + 8 * argc) 0);;
          r ← copyout fuel pagetable sp ustack_copy ((argc + 1) * 8);
          if r <? 0 then exec_bad pagetable sz None
          else
            tf ← gets (fun s => p_trapframe (pr s p));
            mset (fun m => st64 m (tf_a 1 tf) sp);;
            m ← gets k_mem;
            match last_element path_fuel m path path with
            | None => no_fuel
            | Some last =>
                let name := (fun k => ld8 m (last + k)) <$> seqZ 0 16 in
                set_pr p (fun q => q <| p_name := name_copy 15 (p_name q) name |>);;
                oldpagetable ← gets (fun s => p_pagetable (pr s p));
                set_pr p (fun q => q <| p_pagetable := pagetable |> <| p_sz := sz |>);;
                mset (fun m => st64 m (tf_epc tf) (ld64 m (elf + 24)));;
                mset (fun m => st64 m (tf_sp tf) sp);;
                proc_freepagetable oldpagetable oldsz;;
                mret argc
            end
    end.

(** kexec *)
Definition kexec (fuel : nat) (path : Z) (argv : list Z) : K Z :=
  p ← myproc;
  begin_op;;
  r ← namei fuel path;
  match r with
  | None => end_op;; mret (-1)
  | Some ip =>
      ilock (Some ip);;
      r ← readi fuel ip false elf 0 ELFHDR_SIZE;
      if negb (r =? ELFHDR_SIZE) then exec_bad 0 0 (Some ip)
      else
        magic ← mget (fun m => ld32 m elf);
        if negb (magic =? ELF_MAGIC) then exec_bad 0 0 (Some ip)
        else
          pagetable ← proc_pagetable p;
          if pagetable =? 0 then exec_bad 0 0 (Some ip)
          else
            phoff ← mget (fun m => i32 (ld64 m (elf + 32)));
            phnum ← mget (fun m => ld16 m (elf + 56));
            '(ok, sz) ← load_loop (Z.to_nat phnum) fuel pagetable ip phoff 0;
            if negb ok then exec_bad pagetable sz (Some ip)
            else
              iunlockput ip;;
              end_op;;
              p ← myproc;
              exec_image fuel p path argv pagetable sz
  end.

End Exec.
