(* ===== verification/Sysproc.v ===== *)
(** * kernel/sysproc.c: system calls on processes

    A result is the 64-bit value that goes to a0; -1 is 2^64 - 1. *)

From S2P Require Import Prelude Memory FsState State Sched Printf Kalloc VM Disk Memsys VMFault Fs Proc Args.
Import Mem KString DiskQueue.

Definition SBRK_EAGER : Z := 1.

(** A C int as a register value. *)
Definition ret_int (m : K Z) : K Z := r ← m; mret (u64 r).

Section Sysproc.
Context `{KernelImage}.

Definition sys_exit : K Z :=
  n ← argint 0;
  kexit n;;
  mret 0.

Definition sys_getpid : K Z := ret_int (p ← myproc; gets (fun s => p_pid (pr s p))).

Definition sys_fork : K Z := ret_int kfork.

Definition sys_wait (fuel : nat) : K Z :=
  p ← argaddr 0;
  ret_int (kwait fuel p).

Definition sys_sbrk : K Z :=
  n ← argint 0;
  t ← argint 1;
  p ← myproc;
  addr ← gets (fun s => p_sz (pr s p));
  if (t =? SBRK_EAGER) || (n <? 0) then
    r ← growproc n;
    if r <? 0 then mret (u64 (-1)) else mret addr
  else if u64 (addr + n) <? addr then mret (u64 (-1))
  else if TRAPFRAME <? u64 (addr + n) then mret (u64 (-1))
  else
    set_pr p (fun q => q <| p_sz := u64 (p_sz q + n) |>);;
    mret addr.

(** sys_pause: the loop, with the tick count at the start of the pause *)
Definition pause_from (ticks0 n : Z) : K Z :=
  t ← gets k_ticks;
  if u32 (t - ticks0) <? n then
    p ← myproc;
    k ← killed p;
    if negb (k =? 0) then mret (u64 (-1)) else sleep_on ChTicks
  else mret 0.
Definition sys_pause : K Z :=
  n ← argint 0;
  let n := if n <? 0 then 0 else n in
  ticks0 ← gets k_ticks;
  pause_from ticks0 n.

Definition sys_kill : K Z :=
  pid ← argint 0;
  ret_int (kkill pid).

Definition sys_uptime : K Z := gets k_ticks.

Definition sys_hello : K Z :=
  printf "Hello from the kernel!
" [];;
  mret 0.

Definition sys_getpid2 : K Z := ret_int (p ← myproc; gets (fun s => p_pid (pr s p))).

(** A null parent is dereferenced. *)
Definition sys_getppid : K Z :=
  p ← myproc;
  parent ← gets (fun s => p_parent (pr s p));
  match parent with
  | Some i => ret_int (gets (fun s => p_pid (pr s i)))
  | None => fault "parent"
  end.

Definition sys_getnumchild : K Z :=
  p ← myproc;
  gets (fun s => Z.of_nat (length (List.filter
    (fun i => bool_decide (p_parent (pr s i) = Some p) && negb (bool_decide (p_state (pr s i) = ZOMBIE)))
    (seq 0 (Z.to_nat NPROC))))).

Definition sys_getsyscount : K Z := ret_int (p ← myproc; gets (fun s => p_syscall_count (pr s p))).

Definition sys_getchildsyscount : K Z :=
  p ← myproc;
  pid ← argint 0;
  r ← gets (fun s => find (fun i => (p_pid (pr s i) =? pid) && bool_decide (p_parent (pr s i) = Some p))
                       (seq 0 (Z.to_nat NPROC)));
  match r with
  | Some i => ret_int (gets (fun s => p_syscall_count (pr s i)))
  | None => mret (u64 (-1))
  end.

Definition sys_getlevel : K Z := ret_int (p ← myproc; gets (fun s => p_level (pr s p))).

(** The entry of a process by pid, UNUSED ones left out. *)
Definition find_pid (s : kstate) (pid : Z) : option nat :=
  find (fun i => (p_pid (pr s i) =? pid) && negb (bool_decide (p_state (pr s i) = UNUSED))) (seq 0 (Z.to_nat NPROC)).

(** sys_getmlfqinfo: struct mlfqinfo is level@0, ticks@4, times_scheduled@20,
    total_syscalls@24 *)
Definition info_mlfq : Z := kstk 13.
Definition st_mlfqinfo (m : mem) (a : Z) (q : proc) : mem :=
  st32 (st32 (st_addrs (st32 m a (p_level q)) (a + 4) (p_ticks q)) (a + 20) (p_times_scheduled q)) (a + 24) (p_syscall_count q).
Definition sys_getmlfqinfo (fuel : nat) : K Z :=
  pid ← argint 0;
  uaddr ← argaddr 1;
  r ← gets (fun s => find_pid s pid);
  match r with
  | None => mret (u64 (-1))
  | Some i =>
      q ← gets (fun s => pr s i);
      mset (fun m => st_mlfqinfo m info_mlfq q);;
      p ← myproc;
      root ← gets (fun s => p_pagetable (pr s p));
      r ← copyout fuel root uaddr info_mlfq 28;
      if r <? 0 then mret (u64 (-1)) else mret 0
  end.

Definition sys_setdisksched : K Z :=
  policy ← argint 0;
  ret_int (setdisksched policy).

(** sys_getvmstats: struct vmstats is page_faults@0, pages_evicted@8,
    pages_swapped_out@16, pages_swapped_in@24, resident_pages@32 *)
Definition info_vm : Z := kstk 14.
Definition st_vmstats (m : mem) (a : Z) (q : proc) : mem :=
  let m := st64 m a (p_page_faults q) in
  let m := st64 m (a + 8) (p_pages_evicted q) in
  let m := st64 m (a + 24) (p_pages_swapped_in q) in
  let m := st64 m (a + 16) (p_pages_swapped_out q) in
  st64 m (a + 32) (p_resident_pages q).
Definition sys_getvmstats (fuel : nat) : K Z :=
  pid ← argint 0;
  uaddr ← argaddr 1;
  r ← gets (fun s => find_pid s pid);
  match r with
  | None => mret (u64 (-1))
  | Some i =>
      q ← gets (fun s => pr s i);
      mset (fun m => st_vmstats m info_vm q);;
      p ← myproc;
      root ← gets (fun s => p_pagetable (pr s p));
      r ← copyout fuel root uaddr info_vm 40;
      if r <? 0 then mret (u64 (-1)) else mret 0
  end.

End Sysproc.
