(* ===== verification/Sysfile.v ===== *)
(** * kernel/sysfile.c: system calls on files

    The path and name arrays of a system call are locals.  A result is the
    64-bit value that goes to a0. *)

From S2P Require Import Prelude Memory FsState State Sched Log Kalloc VM Disk Memsys VMFault Fs Pipe File Proc Args Exec Sysproc.
Import Mem KString.

Section Sysfile.
Context `{KernelImage}.

Definition path_arg : Z := kstk 15.
Definition old_arg : Z := kstk 16.
Definition new_arg : Z := kstk 17.
Definition name_arg : Z := kstk 18.
Definition name_create : Z := kstk 19.
Definition dot_names : Z := kstk 20.
Definition minus1 : K Z := mret (u64 (-1)).

(** argfd: the descriptor and the file *)
Definition argfd (n : Z) : K (option (Z * nat)) :=
  fd ← argint n;
  if (fd <? 0) || (NOFILE <=? fd) then mret None
  else
    p ← myproc;
    f ← gets (fun s => default None (p_ofile (pr s p) !! Z.to_nat fd));
    match f with Some f => mret (Some (fd, f)) | None => mret None end.

(** fdalloc *)
Definition set_fd (p : nat) (fd : Z) (f : option nat) : K unit :=
  set_pr p (fun q => q <| p_ofile := <[Z.to_nat fd := f]> (p_ofile q) |>).
Definition fdalloc (f : nat) : K Z :=
  p ← myproc;
  r ← gets (fun s => find (fun i => bool_decide (default None (p_ofile (pr s p) !! i) = None)) (seq 0 (Z.to_nat NOFILE)));
  match r with
  | Some fd => set_fd p (Z.of_nat fd) (Some f);; mret (Z.of_nat fd)
  | None => mret (-1)
  end.

Definition sys_dup : K Z :=
  r ← argfd 0;
  match r with
  | None => minus1
  | Some (_, f) =>
      fd ← fdalloc f;
      if fd <? 0 then minus1 else filedup f;; mret fd
  end.

Definition sys_read (fuel : nat) : K Z :=
  p ← argaddr 1;
  n ← argint 2;
  r ← argfd 0;
  match r with
  | None => minus1
  | Some (_, f) => ret_int (fileread fuel f p n)
  end.

Definition sys_write (fuel : nat) : K Z :=
  p ← argaddr 1;
  n ← argint 2;
  r ← argfd 0;
  match r with
  | None => minus1
  | Some (_, f) => ret_int (filewrite fuel f p n)
  end.

Definition sys_close : K Z :=
  r ← argfd 0;
  match r with
  | None => minus1
  | Some (fd, f) =>
      p ← myproc;
      set_fd p fd None;;
      fileclose f;;
      mret 0
  end.

Definition sys_fstat (fuel : nat) : K Z :=
  st ← argaddr 1;
  r ← argfd 0;
  match r with
  | None => minus1
  | Some (_, f) => ret_int (filestat fuel f st)
  end.

(** sys_link *)
Definition link_bad (ip : nat) : K Z :=
  ilock (Some ip);;
  set_ino ip (fun x => x <| i_nlink := i16 (i_nlink x - 1) |>);;
  iupdate ip;;
  iunlockput ip;;
  end_op;;
  minus1.
Definition sys_link (fuel : nat) : K Z :=
  a ← argstr 0 old_arg MAXPATH;
  b ← (if a <? 0 then mret (-1) else argstr 1 new_arg MAXPATH);
  if b <? 0 then minus1
  else
    begin_op;;
    r ← namei fuel old_arg;
    match r with
    | None => end_op;; minus1
    | Some ip =>
        ilock (Some ip);;
        t ← gets (fun s => i_type (ino s ip));
        if t =? T_DIR then iunlockput ip;; end_op;; minus1
        else
          set_ino ip (fun x => x <| i_nlink := i16 (i_nlink x + 1) |>);;
          iupdate ip;;
          iunlock (Some ip);;
          r ← nameiparent fuel new_arg name_arg;
          match r with
          | None => link_bad ip
          | Some dp =>
              ilock (Some dp);;
              x ← gets (fun s => ino s ip);
              ddev ← gets (fun s => i_dev (ino s dp));
              r ← (if negb (ddev =? i_dev x) then mret (-1) else dirlink fuel dp name_arg (i_inum x));
              if r <? 0 then iunlockput dp;; link_bad ip
              else
                iunlockput dp;;
                iput ip;;
                end_op;;
                mret 0
          end
    end.

(** isdirempty; its local [de] *)
Definition de_empty : Z := kstk 21.
Fixpoint isdirempty_loop (k fuel : nat) (dp : nat) (off : Z) : K bool :=
  match k with
  | O => no_fuel
  | S k' =>
      size ← gets (fun s => i_size (ino s dp));
      if off <? size then
        r ← readi fuel dp false de_empty off DIRENT_SIZE;
        if negb (r =? DIRENT_SIZE) then panic "isdirempty: readi"
        else
          inum ← mget (fun m => ld16 m de_empty);
          if negb (inum =? 0) then mret false else isdirempty_loop k' fuel dp (off + DIRENT_SIZE)
      else mret true
  end.
Definition isdirempty (fuel : nat) (dp : nat) : K bool :=
  size ← gets (fun s => i_size (ino s dp));
  isdirempty_loop (Z.to_nat (size / DIRENT_SIZE) + 2) fuel dp (2 * DIRENT_SIZE).

(** The literals . and .. *)
Definition dot_literals : K unit :=
  mset (fun m =>
    let m := st8 (st8 m dot_names 46) (dot_names + 1) 0 in
    st8 (st8 (st8 m (dot_names + 2) 46) (dot_names + 3) 46) (dot_names + 4) 0).

(** sys_unlink; its local [de] *)
Definition de_unlink : Z := kstk 22.
Definition unlink_bad (dp : nat) : K Z := iunlockput dp;; end_op;; minus1.
Definition sys_unlink (fuel : nat) : K Z :=
  a ← argstr 0 path_arg MAXPATH;
  if a <? 0 then minus1
  else
    begin_op;;
    r ← nameiparent fuel path_arg name_arg;
    match r with
    | None => end_op;; minus1
    | Some dp =>
        ilock (Some dp);;
        dot_literals;;
        c1 ← mget (fun m => namecmp m name_arg dot_names);
        c2 ← mget (fun m => namecmp m name_arg (dot_names + 2));
        if (c1 =? 0) || (c2 =? 0) then unlink_bad dp
        else
          r ← dirlookup fuel dp name_arg;
          match r with
          | None => unlink_bad dp
          | Some (ip, off) =>
              ilock (Some ip);;
              x ← gets (fun s => ino s ip);
              if i_nlink x <? 1 then panic "unlink: nlink < 1"
              else
                e ← (if i_type x =? T_DIR then isdirempty fuel ip else mret true);
                if negb e then iunlockput ip;; unlink_bad dp
                else
                  kmemset de_unlink 0 DIRENT_SIZE;;
                  r ← writei fuel dp false de_unlink off DIRENT_SIZE;
                  if negb (r =? DIRENT_SIZE) then panic "unlink: writei"
                  else
                    (if i_type x =? T_DIR then
                       set_ino dp (fun x => x <| i_nlink := i16 (i_nlink x - 1) |>);;
                       iupdate dp
                     else mret tt);;
                    iunlockput dp;;
                    set_ino ip (fun x => x <| i_nlink := i16 (i_nlink x - 1) |>);;
                    iupdate ip;;
                    iunlockput ip;;
                    end_op;;
                    mret 0
          end
    end.

(** create *)
Definition create_fail (ip dp : nat) : K (option nat) :=
  set_ino ip (fun x => x <| i_nlink := 0 |>);;
  iupdate ip;;
  iunlockput ip;;
  iunlockput dp;;
  mret None.
Definition create (fuel : nat) (path type major minor : Z) : K (option nat) :=
  r ← nameiparent fuel path name_create;
  match r with
  | None => mret None
  | Some dp =>
      ilock (Some dp);;
      r ← dirlookup fuel dp name_create;
      match r with
      | Some (ip, _) =>
          iunlockput dp;;
          ilock (Some ip);;
          t ← gets (fun s => i_type (ino s ip));
          if (type =? T_FILE) && ((t =? T_FILE) || (t =? T_DEVICE)) then mret (Some ip)
          else iunlockput ip;; mret None
      | None =>
          dev ← gets (fun s => i_dev (ino s dp));
          r ← ialloc dev type;
          match r with
          | None => iunlockput dp;; mret None
          | Some ip =>
              ilock (Some ip);;
              set_ino ip (fun x => x <| i_major := i16 major |> <| i_minor := i16 minor |> <| i_nlink := 1 |>);;
              iupdate ip;;
              inum ← gets (fun s => i_inum (ino s ip));
              r ← (if type =? T_DIR then
                     dot_literals;;
                     r ← dirlink fuel ip dot_names inum;
                     if r <? 0 then mret (-1)
                     else pinum ← gets (fun s => i_inum (ino s dp)); dirlink fuel ip (dot_names + 2) pinum
                   else mret 0);
              if r <? 0 then create_fail ip dp
              else
                r ← dirlink fuel dp name_create inum;
                if r <? 0 then create_fail ip dp
                else
                  (if type =? T_DIR then
                     set_ino dp (fun x => x <| i_nlink := i16 (i_nlink x + 1) |>);;
                     iupdate dp
                   else mret tt);;
                  iunlockput dp;;
                  mret (Some ip)
          end
      end
  end.

(** sys_open: the file gets a descriptor *)
Definition open_bad (ip : nat) : K Z := iunlockput ip;; end_op;; minus1.
Definition open_file (ip : nat) (omode : Z) : K Z :=
  x ← gets (fun s => ino s ip);
  if (i_type x =? T_DEVICE) && ((i_major x <? 0) || (NDEV <=? i_major x)) then open_bad ip
  else
    f ← filealloc;
    match f with
    | None => open_bad ip
    | Some f =>
        fd ← fdalloc f;
        if fd <? 0 then fileclose f;; open_bad ip
        else
          (if i_type x =? T_DEVICE
           then set_file f (fun y => y <| f_type := FD_DEVICE |> <| f_major := i_major x |>)
           else set_file f (fun y => y <| f_type := FD_INODE |> <| f_off := 0 |>));;
          set_file f (fun y =>
            y <| f_ip := Some ip |> <| f_readable := Z.land omode O_WRONLY =? 0 |>
              <| f_writable := negb (Z.land omode O_WRONLY =? 0) || negb (Z.land omode O_RDWR =? 0) |>);;
          (if negb (Z.land omode O_TRUNC =? 0) && (i_type x =? T_FILE) then itrunc ip else mret tt);;
          iunlock (Some ip);;
          end_op;;
          mret fd
    end.
Definition sys_open (fuel : nat) : K Z :=
  omode ← argint 1;
  n ← argstr 0 path_arg MAXPATH;
  if n <? 0 then minus1
  else
    begin_op;;
    if negb (Z.land omode O_CREATE =? 0) then
      r ← create fuel path_arg T_FILE 0 0;
      match r with
      | None => end_op;; minus1
      | Some ip => open_file ip omode
      end
    else
      r ← namei fuel path_arg;
      match r with
      | None => end_op;; minus1
      | Some ip =>
          ilock (Some ip);;
          t ← gets (fun s => i_type (ino s ip));
          if (t =? T_DIR) && negb (omode =? O_RDONLY) then open_bad ip else open_file ip omode
      end.

Definition sys_mkdir (fuel : nat) : K Z :=
  begin_op;;
  n ← argstr 0 path_arg MAXPATH;
  r ← (if n <? 0 then mret None else create fuel path_arg T_DIR 0 0);
  match r with
  | None => end_op;; minus1
  | Some ip => iunlockput ip;; end_op;; mret 0
  end.

Definition sys_mknod (fuel : nat) : K Z :=
  begin_op;;
  major ← argint 1;
  minor ← argint 2;
  n ← argstr 0 path_arg MAXPATH;
  r ← (if n <? 0 then mret None else create fuel path_arg T_DEVICE (i16 major) (i16 minor));
  match r with
  | None => end_op;; minus1
  | Some ip => iunlockput ip;; end_op;; mret 0
  end.

Definition sys_chdir (fuel : nat) : K Z :=
  p ← myproc;
  begin_op;;
  n ← argstr 0 path_arg MAXPATH;
  r ← (if n <? 0 then mret None else namei fuel path_arg);
  match r with
  | None => end_op;; minus1
  | Some ip =>
      ilock (Some ip);;
      t ← gets (fun s => i_type (ino s ip));
      if negb (t =? T_DIR) then iunlockput ip;; end_op;; minus1
      else
        iunlock (Some ip);;
        cwd ← gets (fun s => p_cwd (pr s p));
        match cwd with Some c => iput c | None => fault "iput" end;;
        end_op;;
        set_pr p (fun q => q <| p_cwd := Some ip |>);;
        mret 0
  end.

(** sys_exec: fetching the arguments.  It gives the pages they are in, and
    whether it reached the null pointer; [uarg] is its local. *)
Definition uarg : Z := kstk 23.
Fixpoint fetch_args (k fuel : nat) (uargv i : Z) (argv : list Z) : K (bool * list Z) :=
  match k with
  | O => mret (false, argv)
  | S k' =>
      r ← fetchaddr fuel (u64 (uargv + 8 * i)) uarg;
      if r <? 0 then mret (false, argv)
      else
        a ← mget (fun m => ld64 m uarg);
        if a =? 0 then mret (true, argv)
        else
          page ← kalloc;
          if page =? 0 then mret (false, argv)
          else
            r ← fetchstr a page PGSIZE;
            if r <? 0 then mret (false, argv ++ [page])
            else fetch_args k' fuel uargv (i + 1) (argv ++ [page])
  end.
Fixpoint free_args (argv : list Z) : K unit :=
  match argv with [] => mret tt | a :: argv' => kfree a;; free_args argv' end.
Definition sys_exec (fuel : nat) : K Z :=
  uargv ← argaddr 1;
  n ← argstr 0 path_arg MAXPATH;
  if n <? 0 then minus1
  else
    '(ok, argv) ← fetch_args (Z.to_nat MAXARG) fuel uargv 0 [];
    if negb ok then free_args argv;; minus1
    else
      ret ← kexec fuel path_arg argv;
      free_args argv;;
      mret (u64 ret).

(** sys_pipe *)
Definition fd_copy : Z := kstk 24.
Definition copy_fd (fuel : nat) (p : nat) (addr fd : Z) : K Z :=
  mset (fun m => st32 m fd_copy fd);;
  root ← gets (fun s => p_pagetable (pr s p));
  copyout fuel root addr fd_copy 4.
Definition sys_pipe (fuel : nat) : K Z :=
  p ← myproc;
  fdarray ← argaddr 0;
  r ← pipealloc;
  match r with
  | None => minus1
  | Some (rf, wf) =>
      fd0 ← fdalloc rf;
      fd1 ← (if fd0 <? 0 then mret (-1) else fdalloc wf);
      if (fd0 <? 0) || (fd1 <? 0) then
        (if 0 <=? fd0 then set_fd p fd0 None else mret tt);;
        fileclose rf;;
        fileclose wf;;
        minus1
      else
        a ← copy_fd fuel p fdarray fd0;
        b ← (if a <? 0 then mret (-1) else copy_fd fuel p (u64 (fdarray + 4)) fd1);
        if (a <? 0) || (b <? 0) then
          set_fd p fd0 None;;
          set_fd p fd1 None;;
          fileclose rf;;
          fileclose wf;;
          minus1
        else mret 0
  end.

End Sysfile.
