(* ===== verification/Syscall.v ===== *)
(** * kernel/syscall.c: the system call table and its dispatch *)

From S2P Require Import Prelude Memory FsState State Sched Printf Kalloc VM Disk Memsys VMFault Fs Console Proc Args Exec Sysproc Sysfile.
Import Mem KString.

Section Syscall.
Context `{KernelImage}.

(** syscalls[], by the numbers of syscall.h *)
Definition syscalls (fuel : nat) (num : Z) : option (K Z) :=
  match num with
  | 1 => Some sys_fork
  | 2 => Some sys_exit
  | 3 => Some (sys_wait fuel)
  | 4 => Some (sys_pipe fuel)
  | 5 => Some (sys_read fuel)
  | 6 => Some sys_kill
  | 7 => Some (sys_exec fuel)
  | 8 => Some (sys_fstat fuel)
  | 9 => Some (sys_chdir fuel)
  | 10 => Some sys_dup
  | 11 => Some sys_getpid
  | 12 => Some sys_sbrk
  | 13 => Some sys_pause
  | 14 => Some sys_uptime
  | 15 => Some (sys_open fuel)
  | 16 => Some (sys_write fuel)
  | 17 => Some (sys_mknod fuel)
  | 18 => Some (sys_unlink fuel)
  | 19 => Some (sys_link fuel)
  | 20 => Some (sys_mkdir fuel)
  | 21 => Some sys_close
  | 22 => Some sys_hello
  | 23 => Some sys_getpid2
  | 24 => Some sys_getppid
  | 25 => Some sys_getnumchild
  | 26 => Some sys_getsyscount
  | 27 => Some sys_getchildsyscount
  | 28 => Some sys_getlevel
  | 29 => Some (sys_getmlfqinfo fuel)
  | 30 => Some (sys_getvmstats fuel)
  | 31 => Some sys_setdisksched
  | _ => None
  end.

(** syscall: the result goes to the a0 of the trap frame that p has then *)
Definition set_a0 (p : nat) (v : Z) : K unit :=
  modify (fun s => s <| k_mem := st64 (k_mem s) (tf_a 0 (p_trapframe (pr s p))) v |>).
Definition syscall (fuel : nat) : K unit :=
  p ← myproc;
  num ← gets (fun s => i32 (ld64 (k_mem s) (tf_a 7 (p_trapframe (pr s p)))));
  match (if 0 <? num then syscalls fuel num else None) with
  | Some f =>
      count_syscall;;
      r ← f;
      set_a0 p r
  | None =>
      q ← gets (fun s => pr s p);
      printf "%d %s: unknown sys call %d
" [VInt (p_pid q); VStr (Some (cstr (p_name q))); VInt num];;
      set_a0 p (u64 (-1))
  end.

End Syscall.
