(* ===== verification/Trap.v ===== *)
(** * kernel/trap.c: traps, and forkret of proc.c

    The supervisor registers that a trap leaves are the record [trap_regs];
    those that the return to user space sets are the result of
    [prepare_return].  The PLIC and the devices say what they interrupt for in
    an [external] argument. *)

From S2P Require Import Prelude Memory FsState State Sched Printf Kalloc VM Riscv Disk Memsys VMFault Fs Console Proc Args Exec Sysproc Sysfile Syscall.
Import Mem KString.

Record trap_regs := mktrap { sstatus : Z; sepc : Z; scause : Z; stval : Z }.
Record return_regs := mkreturn { r_stvec : Z; r_sstatus : Z; r_sepc : Z }.

Definition SCAUSE_EXTERNAL : Z := 0x8000000000000009.
Definition SCAUSE_TIMER : Z := 0x8000000000000005.

(** What plic_claim reports: nothing, the UART with its state, the disk, or
    some other source. *)
Inductive external :=
| NoIrq
| UartIrq (idle : bool) (input : list Z)
| VirtioIrq
| OtherIrq (irq : Z).

(** devintr; the transfers of the disk end with the request (virtio_disk_rw) *)
Definition devintr (cause : Z) (ext : external) : K Z :=
  if cause =? SCAUSE_EXTERNAL then
    match ext with
    | NoIrq | VirtioIrq => mret tt
    | UartIrq idle input => uartintr idle input
    | OtherIrq irq => printf "unexpected interrupt irq=%d
" [VInt irq]
    end;;
    mret 1
  else if cause =? SCAUSE_TIMER then clockintr;; mret 2
  else mret 0.

Section Trap.
Context `{KernelImage}.

(** prepare_return, with sstatus as it is and the kernel's satp *)
Definition prepare_return (status : Z) : K return_regs :=
  p ← myproc;
  q ← gets (fun s => pr s p);
  let tf := p_trapframe q in
  satp ← gets (fun s => MAKE_SATP (k_kernel_pagetable s));
  hart ← gets k_cpuid;
  mset (fun m =>
    let m := st64 m (tf_kernel_satp tf) satp in
    let m := st64 m (tf_kernel_sp tf) (u64 (p_kstack q + PGSIZE)) in
    let m := st64 m (tf_kernel_trap tf) kusertrap in
    st64 m (tf_kernel_hartid tf) hart);;
  epc ← mget (fun m => ld64 m (tf_epc tf));
  mret (mkreturn (TRAMPOLINE + (kuservec - ktrampoline)) (Z.lor (Z.land status (Z.lnot SSTATUS_SPP)) SSTATUS_SPIE) epc).

(** usertrap: the satp of the process, with the registers for the return *)
Definition usertrap (fuel : nat) (t : trap_regs) (ext : external) : K (Z * return_regs) :=
  if negb (Z.land (sstatus t) SSTATUS_SPP =? 0) then panic "usertrap: not from user mode"
  else
    p ← myproc;
    tf ← gets (fun s => p_trapframe (pr s p));
    mset (fun m => st64 m (tf_epc tf) (sepc t));;
    which_dev ←
      (if scause t =? 8 then
         k ← killed p;
         (if negb (k =? 0) then kexit (-1) else mret tt);;
         mset (fun m => st64 m (tf_epc tf) (u64 (ld64 m (tf_epc tf) + 4)));;
         syscall fuel;;
         mret 0
       else
         d ← devintr (scause t) ext;
         if negb (d =? 0) then mret d
         else
           pa ← (if (scause t =? 15) || (scause t =? 13) then
                   root ← gets (fun s => p_pagetable (pr s p));
                   vmfault fuel root (stval t)
                 else mret 0);
           (if negb (pa =? 0) then mret tt
            else
              pid ← gets (fun s => p_pid (pr s p));
              printf "usertrap(): unexpected scause 0x%lx pid=%d
" [VInt (scause t); VInt pid];;
              printf "            sepc=0x%lx stval=0x%lx
" [VInt (sepc t); VInt (stval t)];;
              setkilled p);;
           mret 0);
    k ← killed p;
    (if negb (k =? 0) then kexit (-1) else mret tt);;
    expired ← gets (fun s => p_time_slice_expired (pr s p));
    (if (which_dev =? 2) && negb (expired =? 0) then yield else mret tt);;
    r ← prepare_return (sstatus t);
    root ← gets (fun s => p_pagetable (pr s p));
    mret (MAKE_SATP root, r).

(** kerneltrap; it restores sepc and sstatus *)
Definition kerneltrap (t : trap_regs) (ext : external) : K (Z * Z) :=
  if Z.land (sstatus t) SSTATUS_SPP =? 0 then panic "kerneltrap: not from supervisor mode"
  else if negb (Z.land (sstatus t) SSTATUS_SIE =? 0) then panic "kerneltrap: interrupts enabled"
  else
    which_dev ← devintr (scause t) ext;
    if which_dev =? 0 then
      printf "scause=0x%lx sepc=0x%lx stval=0x%lx
" [VInt (scause t); VInt (sepc t); VInt (stval t)];;
      panic "kerneltrap"
    else
      cur ← gets k_cur;
      (if which_dev =? 2 then
         match cur with
         | Some p =>
             e ← gets (fun s => p_time_slice_expired (pr s p));
             if negb (e =? 0) then yield else mret tt
         | None => mret tt
         end
       else mret tt);;
      mret (sepc t, sstatus t).

(** forkret (proc.c): the first process starts the file system and runs /init *)
Definition init_path : Z := kstk 25.
Definition forkret (fuel : nat) (status : Z) : K (Z * return_regs) :=
  p ← myproc;
  first ← gets (fun s => fs_first (k_fs s));
  (if (first : bool) then
     fsinit ROOTDEV;;
     modify (fun s => s <| k_fs := (k_fs s) <| fs_first := false |> |>);;
     mset (fun m => st64 m init_path 0x0074696e692f);;
     r ← kexec fuel init_path [init_path];
     set_a0 p (u64 r);;
     if u64 r =? u64 (-1) then panic "exec" else mret tt
   else mret tt);;
  r ← prepare_return status;
  root ← gets (fun s => p_pagetable (pr s p));
  mret (MAKE_SATP root, r).

End Trap.
