(* ===== verification/TrapProps.v ===== *)
(** * To user space and back: trampoline.S with prepare_return

    uservec and userret move the user registers between the hart and the trap
    frame of the process; prepare_return (trap.c) leaves in the frame what
    uservec needs to enter the kernel again. *)

From S2P Require Import Prelude Memory FsState State Sched Kalloc VM Riscv Boot BootProps Asm PageTable VMSpec AsmSpec AsmProps UserSpace VMProps VMFault Fs Proc ProcSpace Trap.
Import Mem Hart.

Section Trampoline.
Context `{KernelImage}.

(** ** The trampoline *)
(** struct trapframe (proc.h): the user registers *)
Definition uframe : list (reg * Z) :=
  [(ra, 40); (sp, 48); (gp, 56); (tp, 64); (t0, 72); (t1, 80); (t2, 88); (s0, 96); (s1, 104);
   (a1, 120); (a2, 128); (a3, 136); (a4, 144); (a5, 152); (a6, 160); (a7, 168); (s2, 176); (s3, 184);
   (s4, 192); (s5, 200); (s6, 208); (s7, 216); (s8, 224); (s9, 232); (s10, 240); (s11, 248);
   (t3, 256); (t4, 264); (t5, 272); (t6, 280)].
Definition user_regs : list (reg * Z) := (a0, 112) :: uframe.
Definition kernel_regs : list (reg * Z) := [(sp, 8); (tp, 32); (t0, 16); (t1, 0)].
Lemma uframe_slots : slots 288 uframe /\ slots 288 kernel_regs /\ slots 288 [(a0, 112)].
Proof. split_and!; table. Qed.
Lemma uframe_nodup : NoDup uframe.*1 /\ NoDup uframe.*2 /\ NoDup kernel_regs.*1.
Proof. split_and!; apply (bool_decide_unpack _); by vm_compute. Qed.
Lemma uservec_parts :
  uservec = CSRW Sscratch a0 :: LI a0 TRAPFRAME :: saves a0 uframe ++ CSRR t0 Sscratch :: SD t0 112 a0
            :: loads a0 kernel_regs ++ [SFENCE_VMA; CSRW Satp t1; SFENCE_VMA; JALR t0 kuserret] /\
  userret = SFENCE_VMA :: CSRW Satp a0 :: SFENCE_VMA :: LI a0 TRAPFRAME :: loads a0 uframe ++ [LD a0 112 a0; SRET].
Proof. split; reflexivity. Qed.
Lemma user_regs_all r : r <> zero -> exists o, (r, o) ∈ user_regs.
Proof. intros Hz. destruct r; try done; eexists; apply list_elem_of_In; vm_compute; tauto. Qed.
Lemma trapframe_range : 0 <= TRAPFRAME /\ TRAPFRAME + 288 <= 2 ^ 64 /\ u64 TRAPFRAME = TRAPFRAME.
Proof. by vm_compute. Qed.

Lemma csrw_s c v h : csr_allowed h c = true -> csrw c v h = Ret tt (csr_store c v h).
Proof. intros E. unfold csrw. by rewrite bind_gets, E. Qed.
Lemma sup_csr h : h_priv h = Supervisor -> csr_allowed h Sscratch = true /\ csr_allowed h Satp = true.
Proof. intros Hp. unfold csr_allowed. by rewrite Hp. Qed.
Lemma csrr_s c h : csr_allowed h c = true -> csrr c h = Ret (csr_value h c) h.
Proof. intros E. unfold csrr. by rewrite bind_gets, E. Qed.

(** The first half: the frame is written. *)
Definition framed (tf : Z) (h : hart) : mem :=
  st64 (stored tf (reg_of h) uframe (h_mem h)) (tf + 112) (h_x h a0).
Lemma user_regs_range r o : (r, o) ∈ user_regs -> 40 <= o <= 280.
Proof.
  intros Hin. apply list_elem_of_In in Hin. cbn in Hin.
  repeat (destruct Hin as [[= <- <-]|Hin]; [lia|]). destruct Hin.
Qed.
Lemma framed_only tf h : only (inside (tf + 40) 248) (h_mem h) (framed tf h).
Proof.
  unfold framed. eapply only_trans; [apply (stored_within (inside (tf + 40) 248) tf (reg_of h) uframe)|].
  - intros r o b Hin Hb. destruct (user_regs_range r o); [by right|]. unfold inside in *. lia.
  - intros b Hb. apply ld8_st64_ne. unfold inside in Hb. lia.
Qed.
Lemma framed_reg tf h r o : regs64 h -> (r, o) ∈ user_regs -> ld64 (framed tf h) (tf + o) = h_x h r.
Proof.
  intros Hx Hin. unfold framed. apply elem_of_cons in Hin as [[= -> ->]|Hin].
  { rewrite ld64_st64_eq. apply u64_small, Hx. }
  destruct (slots_in _ _ r o (proj1 uframe_slots) Hin) as (_ & _ & Hm).
  assert (Hro : r <> zero /\ o <> 112).
  { apply list_elem_of_In in Hin. cbn in Hin. repeat (destruct Hin as [[= <- <-]|Hin]; [done|]). destruct Hin. }
  rewrite ld64_st64_ne by (destruct Hro; div_lia). assert (E : reg_of h r = h_x h r) by (unfold reg_of; by rewrite decide_False by tauto).
  rewrite <- E. apply (stored_in _ _ 288); [apply uframe_slots|apply uframe_nodup|done|]. rewrite E. apply Hx.
Qed.
Lemma framed_kernel tf h o : 0 <= o <= 32 -> ld64 (framed tf h) (tf + o) = ld64 (h_mem h) (tf + o).
Proof. intros Ho. apply ld64_ext. intros b Hb. apply framed_only. unfold inside. lia. Qed.

Lemma uservec_saves h W tf :
  h_priv h = Supervisor -> region h W TRAPFRAME tf 288 -> (forall b, inside tf 288 b -> W b) ->
  exists h1, exec uservec h = exec (loads a0 kernel_regs ++ [SFENCE_VMA; CSRW Satp t1; SFENCE_VMA; JALR t0 kuserret]) h1 /\
    h_mem h1 = framed tf h /\ h_x h1 a0 = TRAPFRAME /\ h_priv h1 = Supervisor /\
    (forall c, c <> Sscratch -> h_csr h1 c = h_csr h c).
Proof.
  intros Hp Hr HW. destruct trapframe_range as (Ht0 & Ht1 & Htu). rewrite (proj1 uservec_parts).
  cbn [exec step]. unfold rget, rset. rewrite !bind_assoc, bind_gets.
  rewrite (bind_ret _ _ _ _ _ (csrw_s Sscratch (reg_of h a0) h (proj1 (sup_csr h Hp)))).
  rewrite bind_modify, Htu. set (h1 := reg_set a0 _ _).
  rewrite exec_app. erewrite bind_ret; [|apply (exec_saves h1 W TRAPFRAME tf 288); try done; try lia; apply uframe_slots].
  set (h2 := h1 <| h_mem := _ |>). cbn [exec].
  assert (E1 : step (CSRR t0 Sscratch) h2 = Ret tt (reg_set t0 (h_x h a0) h2)).
  { cbn [step]. by rewrite (bind_ret _ _ _ _ _ (csrr_s Sscratch h2 (proj1 (sup_csr h2 Hp)))). }
  rewrite (bind_ret _ _ _ _ _ E1).
  assert (Hr3 : region (reg_set t0 (h_x h a0) h2) W TRAPFRAME tf 288).
  { apply (region_view h); [done| |done]. apply (stored_only _ tf 288); [done|apply uframe_slots]. }
  rewrite (bind_ret _ _ _ _ _ (step_save _ W TRAPFRAME tf 288 t0 112 a0 Hr3 HW eq_refl ltac:(lia) Ht1 ltac:(lia) ltac:(lia) eq_refl)).
  eexists. split; [reflexivity|]. split_and!; try done.
  intros c Hc. cbn. by rewrite decide_False.
Qed.

(** A value that satp takes. *)
Definition satp_mode_ok (v : Z) : Prop := Z.shiftr v 60 = 0 \/ Z.shiftr v 60 = 8.
Lemma satp_store v h : satp_mode_ok v -> csr_store Satp v h = csr_put Satp v h.
Proof. intros [E|E]; cbn [csr_store]; by rewrite E. Qed.

Lemma uservec_jump h v :
  h_priv h = Supervisor -> h_x h t1 = v -> satp_mode_ok v ->
  exec [SFENCE_VMA; CSRW Satp t1; SFENCE_VMA; JALR t0 kuserret] h =
  Ret tt (reg_set ra kuserret (csr_put Satp v h) <| h_pc := h_x h t0 |>).
Proof.
  intros Hp Hv Hs. cbn [exec step]. unfold rget, rset, jump.
  rewrite (bind_ret (mret tt) _ h tt h eq_refl), bind_assoc, bind_gets. change (reg_of h t1) with (h_x h t1). rewrite Hv.
  rewrite (bind_ret _ _ _ _ _ (csrw_s Satp v h (proj2 (sup_csr h Hp)))), satp_store by done. done.
Qed.
Lemma uservec_spec h W tf :
  regs64 h -> h_priv h = Supervisor -> region h W TRAPFRAME tf 288 -> (forall b, inside tf 288 b -> W b) ->
  satp_mode_ok (ld64 (h_mem h) tf) ->
  exists h1, exec uservec h = Ret tt h1 /\ h_priv h1 = Supervisor /\
    h_pc h1 = ld64 (h_mem h) (tf + 16) /\ h_x h1 ra = kuserret /\
    h_x h1 sp = ld64 (h_mem h) (tf + 8) /\ h_x h1 tp = ld64 (h_mem h) (tf + 32) /\
    h_csr h1 Satp = ld64 (h_mem h) tf /\
    (forall c, c <> Sscratch -> c <> Satp -> h_csr h1 c = h_csr h c) /\
    (forall r o, (r, o) ∈ user_regs -> ld64 (h_mem h1) (tf + o) = h_x h r) /\
    only (inside (tf + 40) 248) (h_mem h) (h_mem h1).
Proof.
  intros Hx Hp Hr HW Hs. destruct trapframe_range as (Ht0 & Ht1 & _).
  destruct (uservec_saves h W tf Hp Hr HW) as (h1 & -> & Hm1 & Ha & Hp1 & Hc1).
  assert (Hr1 : region h1 W TRAPFRAME tf 288).
  { apply (region_view h); [|rewrite Hm1; eapply only_mono; [|apply framed_only]; intros b ?; apply HW; unfold inside in *; lia|done].
    unfold same_view. by rewrite Hp1, Hp, !Hc1. }
  rewrite exec_app. erewrite bind_ret; [|apply (exec_loads h1 W TRAPFRAME tf 288); try done; [apply uframe_slots|by apply (bool_decide_unpack _); vm_compute]].
  set (h2 := h1 <| h_x := _ |>).
  assert (Hk : forall r o, (r, o) ∈ kernel_regs -> h_x h2 r = ld64 (h_mem h) (tf + o)).
  { intros r o Hin. transitivity (ld64 (h_mem h1) (tf + o)); [by apply loaded_in; [apply uframe_nodup|]|].
    rewrite Hm1. apply framed_kernel. apply list_elem_of_In in Hin. cbn in Hin.
    repeat (destruct Hin as [[= <- <-]|Hin]; [lia|]). destruct Hin. }
  rewrite (uservec_jump h2 (ld64 (h_mem h) tf)); [|done|by rewrite (Hk t1 0), Z.add_0_r by set_solver +|done].
  eexists. split; [reflexivity|]. split_and!; try done.
  - apply (Hk t0 16). set_solver +.
  - apply (Hk sp 8). set_solver +.
  - apply (Hk tp 32). set_solver +.
  - intros c Hc Hc'. cbn. rewrite decide_False by done. by apply Hc1.
  - intros r o Hin. cbn. rewrite Hm1. by apply framed_reg.
  - cbn. rewrite Hm1. apply framed_only.
Qed.

Lemma userret_spec h W tf v :
  h_priv h = Supervisor -> h_x h a0 = v -> satp_mode_ok v ->
  region (csr_put Satp v h) W TRAPFRAME tf 288 ->
  exists h1, exec userret h = Ret tt (sret_hart h1) /\ h_mem h1 = h_mem h /\
    h_csr h1 = h_csr (csr_put Satp v h) /\
    forall r o, (r, o) ∈ user_regs -> h_x h1 r = ld64 (h_mem h) (tf + o).
Proof.
  intros Hp Hv Hs Hr. destruct trapframe_range as (Ht0 & Ht1 & Htu). rewrite (proj2 uservec_parts).
  cbn [exec step]. unfold rget, rset.
  rewrite (bind_ret (mret tt) _ h tt h eq_refl), bind_assoc, bind_gets. change (reg_of h a0) with (h_x h a0). rewrite Hv.
  rewrite (bind_ret _ _ _ _ _ (csrw_s Satp v h (proj2 (sup_csr h Hp)))), satp_store by done.
  rewrite (bind_ret (mret tt) _ _ tt _ eq_refl), bind_modify, Htu. set (h1 := reg_set a0 _ _).
  rewrite exec_app. erewrite bind_ret; [|apply (exec_loads h1 W TRAPFRAME tf 288); try done; [apply uframe_slots|by apply (bool_decide_unpack _); vm_compute]].
  set (h2 := h1 <| h_x := _ |>).
  assert (Ha : reg_of h2 a0 = TRAPFRAME).
  { change (reg_of h2 a0) with (loaded (h_mem h1) tf uframe (h_x h1) a0). rewrite loaded_out; [done|].
    by apply (bool_decide_unpack _); vm_compute. }
  cbn [exec]. rewrite (bind_ret _ _ _ _ _ (step_load h2 W TRAPFRAME tf 288 a0 112 a0 Hr Ha Ht0 Ht1 ltac:(lia) ltac:(lia) eq_refl)).
  erewrite bind_ret; [|by apply sret_eq]. eexists. split; [reflexivity|]. split_and!; try done.
  intros r o Hin. apply elem_of_cons in Hin as [[= -> ->]|Hin]; [done|].
  cbn [reg_set h_x upd]. rewrite decide_False.
  - by apply loaded_in; [apply uframe_nodup|].
  - intros ->. apply list_elem_of_In in Hin. cbn in Hin. intuition congruence.
Qed.

(** ** The page table of the process *)
Abbreviation tree := (gmap (list Z) Z).
Lemma frame_not_tree m root tf T p b :
  frame_mapped m root tf T -> tree_has T p -> in_page p b -> ~ inside tf PGSIZE b.
Proof.
  intros [Hwf Hok Ha _] Hq Hb Hin. destruct Ha. destruct (decide (p = tf)) as [<-|Hne]; [done|].
  destruct (page_ok_54 tf Hok) as [_ Htm]. destruct Hq as [π Hq]. destruct (pt_page _ _ _ Hwf _ _ Hq) as [[Hqm _] _].
  destruct (pages_disjoint p tf Hqm Htm Hne); unfold in_page, inside in *; lia.
Qed.
Lemma frame_region h root tf T :
  frame_mapped (h_mem h) root tf T -> h_priv h = Supervisor -> h_csr h Satp = MAKE_SATP root -> pmp_open h ->
  region h (inside tf PGSIZE) TRAPFRAME tf 288.
Proof.
  intros [Hwf Hok Ha Hpte] Hp Hs Ho. destruct (page_ok_54 tf Hok) as [Ht Htm].
  destruct (leaf_entry_spec tf (Z.lor PTE_R PTE_W) Ht Htm) as (HV & HPA & _); [by vm_compute|].
  apply (region_tree h root T); [done..|lia|lia| |].
  - intros i Hi. cbv zeta.
    assert (E : pte_of T (h_mem h) (TRAPFRAME + i) = pte_of T (h_mem h) TRAPFRAME).
    { destruct (px_same (TRAPFRAME + i) TRAPFRAME) as (E2 & E1 & E0).
      1-3: change TRAPFRAME with 274877898752; unfold PGSIZE; div_lia.
      unfold pte_of, leaf_page. by rewrite E2, E1, E0. }
    rewrite E, Hpte, HPA. rewrite leaf_entry_perm, !has_pte by (done || by vm_compute).
    split_and!; [..|done|done|done|done|]; change TRAPFRAME with 274877898752; change MAXVA with 274877906944;
      unfold PGSIZE in *; div_lia.
  - intros q b Hq Hb. by apply (frame_not_tree (h_mem h) root tf T q b).
Qed.
(** The frame stays mapped while its page only and others change. *)
Lemma frame_mapped_ext m m' root tf T :
  (forall p b, tree_has T p -> in_page p b -> ld8 m' b = ld8 m b) -> frame_mapped m root tf T ->
  frame_mapped m' root tf T.
Proof.
  intros Hm [Hwf Hok Ha Hpte]. destruct (pt_ext m m' root T Hm Hwf) as [Hwf' E].
  split; [done..|]. by rewrite E.
Qed.
(** ** prepare_return *)
Definition prepared (s : kstate) (p : nat) : mem :=
  let q := pr s p in
  let tf := p_trapframe q in
  let m := st64 (k_mem s) (tf_kernel_satp tf) (MAKE_SATP (k_kernel_pagetable s)) in
  let m := st64 m (tf_kernel_sp tf) (u64 (p_kstack q + PGSIZE)) in
  let m := st64 m (tf_kernel_trap tf) kusertrap in
  st64 m (tf_kernel_hartid tf) (k_cpuid s).
Lemma prepared_only s p : only (inside (p_trapframe (pr s p)) 40) (k_mem s) (prepared s p).
Proof.
  intros b Hb. unfold inside in Hb. unfold prepared, tf_kernel_satp, tf_kernel_sp, tf_kernel_trap, tf_kernel_hartid.
  by rewrite !ld8_st64_ne by lia.
Qed.
Lemma prepared_words s p tf :
  p_trapframe (pr s p) = tf ->
  ld64 (prepared s p) tf = u64 (MAKE_SATP (k_kernel_pagetable s)) /\
  ld64 (prepared s p) (tf + 8) = u64 (p_kstack (pr s p) + PGSIZE) /\
  ld64 (prepared s p) (tf + 16) = u64 kusertrap /\ ld64 (prepared s p) (tf + 32) = u64 (k_cpuid s) /\
  ld64 (prepared s p) (tf + 24) = ld64 (k_mem s) (tf + 24).
Proof.
  intros E. unfold prepared, tf_kernel_satp, tf_kernel_sp, tf_kernel_trap, tf_kernel_hartid. rewrite E.
  split_and!; repeat (rewrite ld64_st64_ne by lia); rewrite ?ld64_st64_eq; try done.
  unfold u64. by rewrite Z.mod_mod by lia.
Qed.
Lemma prepare_return_eq s p st :
  k_cur s = Some p ->
  prepare_return st s =
  Ret (mkreturn (TRAMPOLINE + (kuservec - ktrampoline)) (Z.lor (Z.land st (Z.lnot SSTATUS_SPP)) SSTATUS_SPIE)
         (ld64 (k_mem s) (tf_epc (p_trapframe (pr s p))))) (s <| k_mem := prepared s p |>).
Proof.
  intros Hc. unfold prepare_return, myproc, mset, mget, tf_epc. rewrite bind_assoc, bind_gets, Hc.
  rewrite (bind_ret (mret p) _ s p s eq_refl), !bind_gets, bind_modify, bind_gets.
  change (k_mem (s <| k_mem := _ |>)) with (prepared s p).
  by rewrite (proj2 (proj2 (proj2 (proj2 (prepared_words s p _ eq_refl))))).
Qed.

(** What the hart keeps while a user program runs: the program has its
    registers and its own pages. *)
Record user_ran (hu hv : hart) (tf : Z) (T : tree) : Prop := {
  ur_priv : h_priv hv = User;
  ur_regs : regs64 hv;
  ur_csr : forall c, c ∈ [Stvec; Satp; Mstatus; Medeleg; Mideleg; Pmpcfg0; Pmpaddr0] -> h_csr hv c = h_csr hu c;
  ur_frame : forall b, in_page tf b -> ld8 (h_mem hv) b = ld8 (h_mem hu) b;
  ur_tree : forall p b, tree_has T p -> in_page p b -> ld8 (h_mem hv) b = ld8 (h_mem hu) b
}.
(** The hart at the first instruction of usertrap, after a trap of [hv]. *)
Record enters_usertrap (s : kstate) (p : nat) (hv h : hart) (cause tval : Z) : Prop := {
  eu_priv : h_priv h = Supervisor;
  eu_pc : h_pc h = kusertrap;
  eu_ra : h_x h ra = kuserret;
  eu_sp : h_x h sp = u64 (p_kstack (pr s p) + PGSIZE);
  eu_tp : h_x h tp = k_cpuid s;
  eu_satp : h_csr h Satp = MAKE_SATP (k_kernel_pagetable s);
  eu_spp : Z.land (csr_value h Sstatus) SSTATUS_SPP = 0;
  eu_sie : Z.land (csr_value h Sstatus) SSTATUS_SIE = 0;
  eu_cause : h_csr h Sepc = h_pc hv /\ h_csr h Scause = cause /\ h_csr h Stval = tval;
  eu_frame : forall r o, (r, o) ∈ user_regs -> ld64 (h_mem h) (p_trapframe (pr s p) + o) = h_x hv r
}.

Lemma pt_page_root m root T : pt_wf m root T -> page_ok root.
Proof. intros Hwf. by apply (pt_page _ _ _ Hwf) with (π := []), (pt_root _ _ _ Hwf). Qed.
Lemma make_satp_ok root : page_ok root -> satp_mode_ok (MAKE_SATP root) /\ u64 (MAKE_SATP root) = MAKE_SATP root.
Proof.
  intros Hok. destruct (page_ok_54 root Hok) as [Hr Hm]. destruct (satp_fields root Hr Hm) as [E _].
  split; [by right|]. apply u64_small. rewrite Z.shiftr_div_pow2 in E by lia. div_lia.
Qed.
Lemma land_bit_clear v n : 0 <= n -> Z.testbit v n = false -> Z.land v (Z.shiftl 1 n) = 0.
Proof.
  intros Hn E. apply Z.bits_inj'. intros m Hm. rewrite Z.land_spec, Z.testbit_0_l, Z.shiftl_1_l, Z.pow2_bits_eqb by lia.
  destruct (Z.eqb_spec n m) as [<-|]; [by rewrite E|by rewrite andb_false_r].
Qed.

(** The trap itself: from user mode into the trampoline. *)
Lemma user_trap s p hu hv root tf T cause tval c :
  p_trapframe (pr s p) = tf -> page_ok (k_kernel_pagetable s) ->
  0 <= kusertrap < 2 ^ 64 -> 0 <= k_cpuid s < 2 ^ 64 ->
  frame_mapped (h_mem hu) root tf T ->
  (forall b, inside tf 40 b -> ld8 (h_mem hu) b = ld8 (prepared s p) b) ->
  h_csr hu Satp = MAKE_SATP root -> pmp_open hu -> h_csr hu Medeleg = 0xffff -> h_csr hu Mideleg = 0xffff ->
  user_ran hu hv tf T -> 0 <= c < 16 -> cause = c \/ cause = 2 ^ 63 + c ->
  exists h0 h1, trap cause tval hv = Ret tt h0 /\ h_pc h0 = h_csr hu Stvec /\
    exec uservec h0 = Ret tt h1 /\ enters_usertrap s p hv h1 cause tval.
Proof.
  intros Etf Hkp Hku Hcpu Hfm Hprep Hsatp Hpmp Hme Hmi [Up Ux Uc Uf Ut] Hc Hcause.
  assert (Hd : delegated hv cause = true).
  { destruct (deleg_low hv c); [by rewrite Up|first [done | by rewrite Uc by set_solver +]..|].
    by destruct Hcause as [->| ->]. }
  set (h0 := trap_hart cause tval hv).
  assert (Hr : region h0 (inside tf PGSIZE) TRAPFRAME tf 288).
  { apply (frame_region h0 root tf T); [by apply (frame_mapped_ext (h_mem hu))|done|..].
    - transitivity (h_csr hv Satp); [done|]. by rewrite Uc by set_solver +.
    - destruct Hpmp. split; [transitivity (h_csr hv Pmpcfg0)|transitivity (h_csr hv Pmpaddr0)]; try done; by rewrite Uc by set_solver +. }
  assert (Hw : forall o, 0 <= o -> o + 8 <= 40 -> ld64 (h_mem h0) (tf + o) = ld64 (prepared s p) (tf + o)).
  { intros o Ho Ho'. apply ld64_ext. intros b Hb. rewrite <- Hprep by (unfold inside; lia).
    apply Uf. unfold in_page, PGSIZE. lia. }
  destruct (prepared_words s p tf Etf) as (W0 & W8 & W16 & W32 & _). destruct (make_satp_ok _ Hkp) as [Hs Hu].
  destruct (uservec_spec h0 (inside tf PGSIZE) tf) as (h1 & E & Hp1 & Hpc & Hra & Hsp & Htp & Hsa & Hcs & Hf & _);
    [done|done|done|unfold inside, PGSIZE; lia| |].
  { rewrite <- (Z.add_0_r tf), Hw, Z.add_0_r, W0, Hu by lia. done. }
  rewrite !Hw in Hpc, Hsp, Htp by lia. rewrite <- (Z.add_0_r tf), Hw, Z.add_0_r, W0, Hu in Hsa by lia.
  exists h0, h1. split; [by apply trap_eq|]. split; [transitivity (h_csr hv Stvec); [done|by apply Uc; set_solver +]|].
  split; [done|].
  assert (Hst : h_csr h1 Mstatus = put_bit 8 false (put_bit 1 false (put_bit 5 (Z.testbit (h_csr hv Mstatus) 1) (h_csr hv Mstatus)))).
  { rewrite Hcs by done. cbn. by rewrite Up. }
  assert (Hbit : forall n, n = 8 \/ n = 1 -> Z.land (csr_value h1 Sstatus) (Z.shiftl 1 n) = 0).
  { intros n Hn. apply land_bit_clear; [lia|]. cbn [csr_value]. rewrite Z.land_spec, Hst, !put_bit_spec by lia.
    by destruct Hn as [->| ->]. }
  split; try done.
  - rewrite Hpc, W16. by apply u64_small.
  - by rewrite Hsp, W8.
  - rewrite Htp, W32. by apply u64_small.
  - apply Hbit. by left.
  - apply Hbit. by right.
  - split_and!; by rewrite Hcs.
  - intros r o Hin. rewrite Etf. by apply Hf.
Qed.

(** The writes to the trap registers. *)
Definition return_hart (rr : return_regs) (h : hart) : hart :=
  csr_put Sepc (Z.clearbit (r_sepc rr) 0)
    (csr_put Mstatus (insert_bits SSTATUS_MASK (h_csr h Mstatus) (r_sstatus rr)) (csr_put Stvec (r_stvec rr) h)).
Lemma return_hart_eq rr h :
  h_priv h = Supervisor ->
  (w_stvec (r_stvec rr);; w_sstatus (r_sstatus rr);; w_sepc (r_sepc rr);; exec userret) h = exec userret (return_hart rr h).
Proof.
  intros Hp. unfold w_stvec, w_sstatus, w_sepc.
  assert (Ha : forall h', h_priv h' = Supervisor -> forall c, c ∈ [Stvec; Sstatus; Sepc] -> csr_allowed h' c = true).
  { intros h' Hp' c Hc. unfold csr_allowed. rewrite Hp'. apply list_elem_of_In in Hc. cbn in Hc.
    by destruct Hc as [<-|[<-|[<-|[]]]]. }
  do 3 (erewrite bind_ret; [|apply csrw_s, Ha; [exact Hp|set_solver +]]). done.
Qed.
Lemma return_status v st :
  let v' := insert_bits SSTATUS_MASK v (Z.lor (Z.land st (Z.lnot SSTATUS_SPP)) SSTATUS_SPIE) in
  Z.testbit v' 8 = false /\ Z.testbit v' 5 = true.
Proof.
  intros v'. unfold v', insert_bits. rewrite !Z.lor_spec, !Z.land_spec, !Z.lor_spec, !Z.land_spec, !Z.lnot_spec by lia.
  change (Z.testbit SSTATUS_MASK 8) with true. change (Z.testbit SSTATUS_MASK 5) with true.
  change (Z.testbit SSTATUS_SPP 8) with true. change (Z.testbit SSTATUS_SPIE 5) with true.
  by rewrite !andb_false_r, !orb_true_r.
Qed.

(** C7. From the kernel to the user program and back: after prepare_return, the
    writes to the trap registers and userret, the hart is in user mode at the
    saved program counter with the registers of the trap frame; and whatever
    the program does with them, its next exception or interrupt gets through
    uservec to usertrap, on the kernel stack of the process and in the kernel's
    page table, with interrupts off, with the program's registers in the trap
    frame and its program counter in sepc. *)
Theorem user_roundtrip (s : kstate) (p : nat) (st : Z) (rr : return_regs) (s' : kstate) (hk : hart) (T : tree)
  (Hcur : k_cur s = Some p)
  (Hfm : frame_mapped (k_mem s) (p_pagetable (pr s p)) (p_trapframe (pr s p)) T)
  (Hkp : page_ok (k_kernel_pagetable s)) (Hku : 0 <= kusertrap < 2 ^ 64) (Hcpu : 0 <= k_cpuid s < 2 ^ 64)
  (Hprep : prepare_return st s = Ret rr s')
  (Hp : h_priv hk = Supervisor) (Hpmp : pmp_open hk) (Hm : h_mem hk = k_mem s')
  (Hdel : h_csr hk Medeleg = 0xffff /\ h_csr hk Mideleg = 0xffff)
  (Ha0 : h_x hk a0 = MAKE_SATP (p_pagetable (pr s p))) :
  let tf := p_trapframe (pr s p) in
  exists hu,
    (w_stvec (r_stvec rr);; w_sstatus (r_sstatus rr);; w_sepc (r_sepc rr);; exec userret) hk = Ret tt hu /\
    h_priv hu = User /\ h_pc hu = Z.clearbit (ld64 (k_mem s) (tf_epc tf)) 0 /\
    Z.testbit (h_csr hu Mstatus) 1 = true /\
    (forall r o, (r, o) ∈ user_regs -> h_x hu r = ld64 (k_mem s) (tf + o)) /\
    forall hv cause tval c, user_ran hu hv tf T -> 0 <= c < 16 -> cause = c \/ cause = 2 ^ 63 + c ->
      exists h0 h1, trap cause tval hv = Ret tt h0 /\ h_pc h0 = TRAMPOLINE + (kuservec - ktrampoline) /\
        exec uservec h0 = Ret tt h1 /\ enters_usertrap s p hv h1 cause tval.
Proof.
  rewrite (prepare_return_eq s p st Hcur) in Hprep. injection Hprep as <- <-. intros tf.
  cbn [k_mem upd] in Hm. destruct (make_satp_ok _ (pt_page_root _ _ _ (fm_wf _ _ _ _ Hfm))) as [Hs _].
  rewrite return_hart_eq by done. set (hr := return_hart _ hk). destruct Hdel as [Hde Hdi].
  assert (Hfm' : frame_mapped (prepared s p) (p_pagetable (pr s p)) tf T).
  { apply (frame_mapped_ext (k_mem s)); [|done]. intros q b Hq Hb. apply prepared_only.
    pose proof (frame_not_tree _ _ _ _ q b Hfm Hq Hb). unfold inside, PGSIZE in *. lia. }
  destruct (userret_spec hr (inside tf PGSIZE) tf (MAKE_SATP (p_pagetable (pr s p)))) as (h1 & E & Hm1 & Hc1 & Hx1);
    [done|done|done|..].
  { apply (frame_region _ (p_pagetable (pr s p)) tf T); [by cbn; rewrite Hm|done..]. }
  assert (Hc : forall c, h_csr h1 c = h_csr (csr_put Satp (MAKE_SATP (p_pagetable (pr s p))) hr) c) by (by rewrite Hc1).
  destruct (return_status (h_csr hk Mstatus) st) as [R8 R5].
  assert (Hst : h_csr h1 Mstatus = insert_bits SSTATUS_MASK (h_csr hk Mstatus) (Z.lor (Z.land st (Z.lnot SSTATUS_SPP)) SSTATUS_SPIE))
    by (by rewrite Hc).
  exists (sret_hart h1). split; [done|]. split_and!.
  - transitivity (if Z.testbit (h_csr h1 Mstatus) 8 then Supervisor else User); [done|by rewrite Hst, R8].
  - cbn. by rewrite Hc.
  - unfold sret_hart. cbn [csr_put h_csr upd]. rewrite decide_True by done. rewrite !put_bit_spec by lia. by rewrite Hst.
  - intros r o Hin. transitivity (h_x h1 r); [done|]. rewrite (Hx1 r o Hin). cbn. rewrite Hm.
    destruct (user_regs_range r o Hin). apply ld64_ext. intros b Hb. apply prepared_only. fold tf. unfold inside. lia.
  - intros hv cause tval c Hran Hcr Hcause.
    assert (Hmu : h_mem (sret_hart h1) = prepared s p) by (by transitivity (h_mem h1); [|rewrite Hm1]).
    assert (Hcu : forall c', c' <> Mstatus -> h_csr (sret_hart h1) c' = h_csr (csr_put Satp (MAKE_SATP (p_pagetable (pr s p))) hr) c').
    { intros c' Hc'. rewrite <- Hc. unfold sret_hart. by rewrite csr_put_ne. }
    destruct (user_trap s p (sret_hart h1) hv (p_pagetable (pr s p)) tf T cause tval c) as (h2 & h3 & E2 & Hpc & E3 & He);
      try (rewrite ?Hmu; done); try (by rewrite Hcu).
    { destruct Hpmp. split; by rewrite Hcu. }
    exists h2, h3. split_and!; try done. by rewrite Hpc, Hcu.
Qed.
End Trampoline.

(** ** An example: the small address space of VMProps.v with a trap frame *)
Definition ex_trap_state : kstate :=
  ex_state <| k_proc := [proc0 <| p_pagetable := ex_root |> <| p_trapframe := ex_page |> <| p_kstack := 0x3fffffd000 |>] |>
    <| k_kernel_pagetable := ex_l1 |>.
Lemma ex_trap_mappages :
  match mappages ex_root TRAPFRAME PGSIZE ex_page 6 ex_trap_state with Ret v _ => v | _ => -2 end = 0.
Proof. by vm_compute. Qed.
Lemma ex_frame_mapped :
  exists s T, mem_only ex_trap_state s /\ @frame_mapped example_image (k_mem s) ex_root ex_page T.
Proof.
  assert (Hok : @vm_ok example_image ex_trap_state ex_root ex_tree ex_free).
  { apply (@vm_ok_same example_image ex_state); [done..|]. apply ex_uspace. }
  destruct (@ex_pages) as (_ & _ & _ & Hp & _).
  destruct (@mappages_spec example_image 1 ex_trap_state ex_root ex_tree ex_free TRAPFRAME PGSIZE ex_page 6)
    as (s & T & fl & k & E & (_ & Hwf & _) & Hg & Hk & _ & _ & Hpte).
  { exact Hok. }
  1-9: by vm_compute.
  { intros a Ha. change TRAPFRAME with 274877898752 in Ha. unfold pte_of, leaf_page.
    destruct (px_digits a) as (_ & _ & ->); [lia|].
    replace ((a / PGSIZE / 512 / 512) `mod` 512) with 255 by (unfold PGSIZE in *; div_lia).
    destruct (ex_tree !! _) eqn:E; [|done]. by apply ex_tree_lookup in E as [[? _]|[[? _]|[? _]]]. }
  pose proof ex_trap_mappages as E'. rewrite E in E'. destruct (decide (k = 1)) as [->|]; [|done].
  clear E E'. exists s, T. split; [apply Hg|]. split; [done|done| |].
  - intros Hh. destruct (vg_new _ _ _ _ _ _ Hg _ Hh) as [(π & HT)|Hin].
    + by apply ex_tree_lookup in HT as [[_ ?]|[[_ ?]|[_ ?]]].
    + apply list_elem_of_In in Hin. by destruct Hin as [?|[?|[?|[]]]].
  - rewrite Hpte by (by vm_compute). unfold mapped. rewrite decide_True by (by vm_compute). reflexivity.
Qed.

Definition ex_return_hart (m : mem) : hart :=
  (ex_hart (fun r => match r with a0 => MAKE_SATP ex_root | _ => 7 end) 0) <| h_mem := m |>.
Lemma user_roundtrip_witness :
  exists s rr s' hu, @prepare_return example_image 0 s = Ret rr s' /\
    (w_stvec (r_stvec rr);; w_sstatus (r_sstatus rr);; w_sepc (r_sepc rr);; exec userret) (ex_return_hart (k_mem s')) = Ret tt hu /\
    h_priv hu = User.
Proof.
  destruct ex_frame_mapped as (s & T & (m & f & ->) & Hfm). set (s := ex_trap_state <| k_mem := m |> <| k_freelist := f |>) in *.
  pose proof (@prepare_return_eq example_image s 0 0 eq_refl) as E. eexists s, _, _.
  destruct (@user_roundtrip example_image s 0 0 _ _ (ex_return_hart (@prepared example_image s 0)) T
              eq_refl Hfm (proj1 (proj2 ex_pages)) ltac:(cbn; lia) ltac:(cbn; lia) E eq_refl (conj eq_refl eq_refl) eq_refl
              (conj eq_refl eq_refl) eq_refl) as (hu & Eu & Hu & _).
  exists hu. split_and!; [exact E|exact Eu|exact Hu].
Defined.
