(* ===== verification/Grep.v ===== *)
(** * user/grep.c: the pattern matcher and the filter

    Strings are lists of bytes without their final NUL; reading at the end
    gives the NUL.  [match] is called [matches] here.  The filter reads its
    input through a 1024-byte buffer; how many bytes each read delivers is an
    argument. *)

From S2P Require Import Prelude.

Definition caret : Z := 94.
Definition dollar : Z := 36.
Definition star : Z := 42.
Definition dot : Z := 46.
Definition nl : Z := 10.

(** matchstar, given matchhere of the rest of the pattern *)
Fixpoint matchstar (c : Z) (here : list Z -> bool) (text : list Z) : bool :=
  here text ||
  match text with
  | [] => false
  | t :: text' => if (t =? c) || (c =? dot) then matchstar c here text' else false
  end.

(** matchhere *)
Fixpoint matchhere (re : list Z) (text : list Z) : bool :=
  match re with
  | [] => true
  | c :: re1 =>
      let plain :=
        match text with
        | t :: text' => if (c =? dot) || (c =? t) then matchhere re1 text' else false
        | [] => false
        end in
      match re1 with
      | d :: re2 => if d =? star then matchstar c (matchhere re2) text else plain
      | [] => if c =? dollar then match text with [] => true | _ => false end else plain
      end
  end.

(** match *)
Fixpoint match_anywhere (re : list Z) (text : list Z) : bool :=
  matchhere re text || match text with [] => false | _ :: text' => match_anywhere re text' end.
Definition matches (re text : list Z) : bool :=
  match re with
  | c :: re' => if c =? caret then matchhere re' text else match_anywhere re text
  | [] => match_anywhere re text
  end.

(** strchr(s, c) (ulib.c): the string before the first [c] and the one after it *)
Fixpoint strchr (s : list Z) (c : Z) : option (list Z * list Z) :=
  match s with
  | [] => None
  | x :: s' =>
      if x =? 0 then None
      else if x =? c then Some ([], s')
      else match strchr s' c with Some (l, r) => Some (x :: l, r) | None => None end
  end.

(** grep: the complete lines of the buffer, then what is left of it *)
Definition BUFSIZE : Z := 1024.
Fixpoint grep_lines (k : nat) (pattern p : list Z) : list Z * list Z :=
  match k with
  | O => ([], p)
  | S k' =>
      match strchr p nl with
      | None => ([], p)
      | Some (line, rest) =>
          let '(out, rem) := grep_lines k' pattern rest in
          ((if matches pattern line then line ++ [nl] else []) ++ out, rem)
      end
  end.

(** [read(fd, buf+m, sizeof(buf)-m-1)] delivers between 1 byte and what there
    is room for, [size] if it can; 0 at the end of the input or without room. *)
Definition read_size (size : nat) (room : Z) (inp : list Z) : nat :=
  Nat.min (Nat.max 1 size) (Nat.min (Z.to_nat room) (length inp)).
Fixpoint grep_loop (fuel : nat) (pattern : list Z) (sizes : nat -> nat) (i : nat) (buf inp : list Z) : option (list Z) :=
  match fuel with
  | O => None
  | S fuel' =>
      let n := read_size (sizes i) (BUFSIZE - Z.of_nat (length buf) - 1) inp in
      if (n =? 0)%nat then Some []
      else
        let buf := buf ++ take n inp in
        let '(out, rem) := grep_lines (length buf) pattern buf in
        match grep_loop fuel' pattern sizes (S i) rem (drop n inp) with
        | Some out' => Some (out ++ out')
        | None => None
        end
  end.
Definition grep (pattern : list Z) (sizes : nat -> nat) (inp : list Z) : option (list Z) :=
  grep_loop (S (length inp)) pattern sizes 0 [] inp.

(** ** What a pattern means

    A pattern is a sequence of items: a byte or a dot, a starred one, or a
    final dollar sign. *)
Inductive item := Chr (c : Z) | Star (c : Z) | Eol.
Fixpoint items (re : list Z) : list item :=
  match re with
  | [] => []
  | c :: re1 =>
      match re1 with
      | d :: re2 => if d =? star then Star c :: items re2 else Chr c :: items re1
      | [] => if c =? dollar then [Eol] else [Chr c]
      end
  end.
Definition accepts (c t : Z) : Prop := c = dot \/ c = t.
(** [spells its w post]: the items spell out [w], with [post] to its right. *)
Inductive spells : list item -> list Z -> list Z -> Prop :=
| sp_nil post : spells [] [] post
| sp_chr c its t w post : accepts c t -> spells its w post -> spells (Chr c :: its) (t :: w) post
| sp_star c its v w post : Forall (accepts c) v -> spells its w post -> spells (Star c :: its) (v ++ w) post
| sp_eol its : spells its [] [] -> spells (Eol :: its) [] [].

Lemma accepts_dot c t : (t =? c) || (c =? dot) = true <-> accepts c t.
Proof. unfold accepts. rewrite orb_true_iff, !Z.eqb_eq. naive_solver. Qed.

Lemma matchstar_spec c here text :
  matchstar c here text = true <-> exists v rest, text = v ++ rest /\ Forall (accepts c) v /\ here rest = true.
Proof.
  induction text as [|t text IH]; cbn [matchstar]; rewrite orb_true_iff.
  - split; [intros [H|H]; [by exists [], []|done]|]. intros (v & rest & E & _ & H). symmetry in E. apply app_eq_nil in E as [_ ->]. by left.
  - split.
    + intros [H|H]; [by exists [], (t :: text)|]. destruct (_ || _) eqn:Ec; [|done]. apply accepts_dot in Ec.
      apply IH in H as (v & rest & -> & Hv & H). exists (t :: v), rest. split_and!; [done|by constructor|done].
    + intros ([|x v] & rest & E & Hv & H); [left; cbn in E; by subst|]. injection E as -> ->. apply Forall_cons in Hv as [Hx Hv].
      right. rewrite (proj2 (accepts_dot c x)) by done. apply IH. by exists v, rest.
Qed.

(** matchhere finds exactly the texts of which the items spell a prefix. *)
Lemma matchhere_spec n : forall re text, (length re <= n)%nat ->
  matchhere re text = true <-> exists w post, text = w ++ post /\ spells (items re) w post.
Proof.
  induction n as [|n IH]; intros re text Hn.
  { destruct re; [|cbn in Hn; lia]. cbn. split; [intros _; exists [], text; split; [done|constructor]|done]. }
  destruct re as [|c re1]; [cbn; split; [intros _; exists [], text; split; [done|constructor]|done]|].
  cbn in Hn. assert (Hplain : (match text with t :: text' => if (c =? dot) || (c =? t) then matchhere re1 text' else false | [] => false end) = true <->
    exists w post, text = w ++ post /\ spells (Chr c :: items re1) w post).
  { destruct text as [|t text].
    - split; [done|]. intros (w & post & E & Hsp). inversion Hsp; subst. done.
    - assert (Ha : (c =? dot) || (c =? t) = true <-> accepts c t) by (unfold accepts; rewrite orb_true_iff, !Z.eqb_eq; done).
      split.
      + destruct (_ || _) eqn:Ec; [|done]. intros H. apply IH in H as (w & post & -> & Hsp); [|lia]. exists (t :: w), post.
        split; [done|]. constructor; [by apply Ha|done].
      + intros (w & post & E & Hsp). inversion Hsp as [|? ? t' w' ? Hacc Hsp'| |]; subst. injection E as -> ->.
        rewrite (proj2 Ha Hacc). apply IH; [lia|]. by exists w', post. }
  cbn [matchhere items]. destruct re1 as [|d re2].
  - destruct (c =? dollar); [|exact Hplain]. destruct text as [|t text]; (split; [intros; try done|]).
    + exists [], []. split; [done|]. constructor. constructor.
    + done.
    + intros (w & post & E & Hsp). inversion Hsp; subst. done.
  - destruct (d =? star); [|exact Hplain]. rewrite matchstar_spec. split.
    + intros (v & rest & -> & Hv & H). apply IH in H as (w & post & -> & Hsp); [|cbn in Hn; lia]. exists (v ++ w), post.
      split; [by rewrite app_assoc|]. by constructor.
    + intros (w & post & -> & Hsp). inversion Hsp as [| |? ? v w' ? Hv Hsp'|]; subst. exists v, (w' ++ post).
      split_and!; [by rewrite app_assoc|done|]. apply IH; [cbn in Hn; lia|]. by exists w', post.
Qed.
Lemma match_anywhere_spec re text :
  match_anywhere re text = true <-> exists pre rest, text = pre ++ rest /\ matchhere re rest = true.
Proof.
  induction text as [|t text IH]; cbn [match_anywhere]; rewrite orb_true_iff.
  - split; [intros [H|H]; [by exists [], []|done]|]. intros (pre & rest & E & H). symmetry in E. apply app_eq_nil in E as [_ ->]. by left.
  - split.
    + intros [H|H]; [by exists [], (t :: text)|]. apply IH in H as (pre & rest & -> & H). by exists (t :: pre), rest.
    + intros ([|x pre] & rest & E & H); [left; cbn in E; by subst|]. injection E as -> ->. right. apply IH. by exists pre, rest.
Qed.

(** C34. The matcher is right: match accepts a text exactly when the pattern's
    items spell out some part of it, the part at its start if the pattern
    begins with a caret and the part at its end if it ends with a dollar
    sign. *)
Theorem match_correct (re text : list Z) :
  matches re text = true <->
  exists pre w post, text = pre ++ w ++ post /\
    match re with
    | c :: re' => if c =? caret then pre = [] /\ spells (items re') w post else spells (items re) w post
    | [] => spells [] w post
    end.
Proof.
  unfold matches. assert (Hany : forall re, match_anywhere re text = true <-> exists pre w post, text = pre ++ w ++ post /\ spells (items re) w post).
  { intros r. rewrite match_anywhere_spec. split.
    - intros (pre & rest & -> & H). apply (matchhere_spec _ _ _ (Nat.le_refl _)) in H as (w & post & -> & Hsp). by exists pre, w, post.
    - intros (pre & w & post & -> & Hsp). exists pre, (w ++ post). split; [done|]. apply (matchhere_spec _ _ _ (Nat.le_refl _)). by exists w, post. }
  destruct re as [|c re]; [apply (Hany [])|]. destruct (c =? caret) eqn:Ec; [|apply Hany].
  rewrite (matchhere_spec _ _ _ (Nat.le_refl _)). split.
  - intros (w & post & -> & Hsp). by exists [], w, post.
  - intros (pre & w & post & -> & -> & Hsp). by exists w, post.
Qed.

(** ** What the filter prints *)

(** The complete lines of a text, and the text after the last newline. *)
Fixpoint lines (p : list Z) : list (list Z) * list Z :=
  match p with
  | [] => ([], [])
  | x :: p' =>
      let '(ls, r) := lines p' in
      if x =? nl then ([] :: ls, r)
      else match ls with [] => ([], x :: r) | l :: ls' => ((x :: l) :: ls', r) end
  end.
Definition selected (pattern : list Z) (ls : list (list Z)) : list Z :=
  concat (map (fun l => if matches pattern l then l ++ [nl] else []) ls).

Lemma lines_app a b : lines (a ++ b) = let '(ls, r) := lines a in let '(ls', r') := lines (r ++ b) in (ls ++ ls', r').
Proof.
  induction a as [|x a IH]; cbn [app lines]; [by destruct (lines b)|]. rewrite IH. destruct (lines a) as [ls r] eqn:Ea.
  destruct (Z.eqb_spec x nl) as [->|Hx].
  - by destruct (lines (r ++ b)) as [ls' r'].
  - destruct ls as [|l ls]; cbn [app lines]; destruct (lines (r ++ b)) as [ls' r'] eqn:Er; [|done].
    destruct (Z.eqb_spec x nl); [done|]. by destruct ls'.
Qed.
Lemma lines_rest p : exists q, p = concat (map (fun l => l ++ [nl]) (fst (lines p))) ++ q /\ q = snd (lines p).
Proof.
  eexists. split; [|reflexivity]. induction p as [|x p IH]; [done|]. cbn [lines]. destruct (lines p) as [ls r]. cbn in IH. rewrite IH at 1.
  destruct (Z.eqb_spec x nl) as [->|]; [done|]. by destruct ls.
Qed.
Lemma lines_strchr p : Forall (fun x => x <> 0) p ->
  match strchr p nl with
  | None => lines p = ([], p)
  | Some (l, r) => lines p = (l :: fst (lines r), snd (lines r)) /\ p = l ++ nl :: r
  end.
Proof.
  induction p as [|x p IH]; intros Hp; [done|]. apply Forall_cons in Hp as [Hx Hp]. cbn [strchr lines]. specialize (IH Hp).
  destruct (Z.eqb_spec x 0); [done|]. destruct (Z.eqb_spec x nl) as [->|].
  - split; [by destruct (lines p)|done].
  - destruct (strchr p nl) as [[l r]|]; [destruct IH as [-> ->]; done|by rewrite IH].
Qed.
Lemma grep_lines_spec k pattern : forall p, (length p <= k)%nat -> Forall (fun x => x <> 0) p ->
  grep_lines k pattern p = (selected pattern (fst (lines p)), snd (lines p)).
Proof.
  induction k as [|k IH]; intros p Hk Hp; [by destruct p; [|cbn in Hk; lia]|]. cbn [grep_lines].
  pose proof (lines_strchr p Hp) as Hl. destruct (strchr p nl) as [[l r]|]; [|by rewrite Hl].
  destruct Hl as [El ->]. rewrite El. apply Forall_app in Hp as [_ Hp]. apply Forall_cons in Hp as [_ Hp].
  rewrite length_app in Hk. cbn in Hk. rewrite IH by (done || lia). done.
Qed.

Definition short (l : list Z) : Prop := (length l <= 1022)%nat.
Lemma lines_prefix buf inp : Forall (fun x => x <> nl) buf ->
  lines (buf ++ inp) = match lines inp with ([], r) => ([], buf ++ r) | (l :: ls, r) => ((buf ++ l) :: ls, r) end.
Proof.
  induction buf as [|x buf IH]; intros Hb; cbn [app lines]; [by destruct (lines inp) as [[|]]|].
  apply Forall_cons in Hb as [Hx Hb]. rewrite IH by done. destruct (Z.eqb_spec x nl); [done|]. by destruct (lines inp) as [[|]].
Qed.
Lemma lines_rest_nl p : Forall (fun x => x <> nl) (snd (lines p)).
Proof.
  induction p as [|x p IH]; [constructor|]. cbn [lines]. destruct (lines p) as [ls r]. cbn in IH.
  destruct (Z.eqb_spec x nl); [done|]. destruct ls; cbn; [by constructor|done].
Qed.
(** Text without a newline, at the front of short lines, is short. *)
Lemma buf_short buf inp : Forall (fun x => x <> nl) buf ->
  Forall short (fst (lines (buf ++ inp))) -> short (snd (lines (buf ++ inp))) -> short buf.
Proof.
  intros Hb. rewrite lines_prefix by done. unfold short. destruct (lines inp) as [[|l ls] r]; cbn.
  - intros _. rewrite length_app. lia.
  - intros Hl%Forall_inv _. rewrite length_app in Hl. lia.
Qed.
Lemma lines_subset p (P : Z -> Prop) : Forall P p -> Forall P (snd (lines p)).
Proof.
  induction p as [|x p IH]; intros Hp; [constructor|]. apply Forall_cons in Hp as [Hx Hp]. cbn [lines]. specialize (IH Hp).
  destruct (lines p) as [ls r]. destruct (x =? nl); [done|]. destruct ls; cbn; [by constructor|done].
Qed.

Lemma grep_loop_spec pattern sizes fuel : forall i buf inp,
  (length inp < fuel)%nat -> Forall (fun x => x <> nl) buf -> Forall (fun x => x <> 0) (buf ++ inp) ->
  Forall short (fst (lines (buf ++ inp))) -> short (snd (lines (buf ++ inp))) ->
  grep_loop fuel pattern sizes i buf inp = Some (selected pattern (fst (lines (buf ++ inp)))).
Proof.
  induction fuel as [|fuel IH]; intros i buf inp Hf Hnl H0 Hls Hr; [lia|]. cbn [grep_loop].
  pose proof (buf_short buf inp Hnl Hls Hr) as Hbuf. unfold short in Hbuf. set (n := read_size _ _ _).
  assert (En : n = 0%nat <-> inp = []).
  { unfold n, read_size, BUFSIZE. split; [|intros ->; cbn; lia]. intros En. destruct inp; [done|]. cbn [length] in En. lia. }
  destruct (Nat.eqb_spec n 0) as [Hn|Hn].
  { apply En in Hn as ->. rewrite lines_prefix by done. done. }
  assert (Hne : inp <> []) by (intros E; by apply Hn, En).
  assert (Hlen : (length (drop n inp) < fuel)%nat) by (rewrite length_drop; destruct inp; [done|cbn in *; lia]).
  set (b1 := buf ++ take n inp) in *. assert (Einp : buf ++ inp = b1 ++ drop n inp) by (unfold b1; by rewrite <- app_assoc, take_drop).
  rewrite Einp in H0, Hls, Hr |- *. apply Forall_app in H0 as [H01 H02].
  rewrite grep_lines_spec by done. pose proof (lines_app b1 (drop n inp)) as El.
  pose proof (lines_rest_nl b1) as Hnl1. pose proof (lines_subset b1 (fun x => x <> 0) H01) as H03.
  destruct (lines b1) as [ls1 r1]. cbn [fst snd] in *. rewrite El in *.
  destruct (lines (r1 ++ drop n inp)) as [ls2 r2] eqn:E2. cbn [fst snd] in *. apply Forall_app in Hls as [_ Hls2].
  rewrite IH; rewrite ?E2; [|done|done|by apply Forall_app|done|done].
  cbn [fst]. unfold selected. by rewrite map_app, concat_app.
Qed.

(** C35. The filter prints the lines that match, in order, however the reads cut
    the input, if the input has no NUL and its lines have at most 1022 bytes
    (text after the last newline is not printed).  But a line that does not
    fit into the buffer ends it: if the first 1023 bytes hold no newline, read
    is called with no room, returns 0, and grep stops as at the end of the
    input. *)
Theorem grep_filters (pattern : list Z) (sizes : nat -> nat) (inp : list Z) (H0 : Forall (fun x => x <> 0) inp) :
  (Forall short (fst (lines inp)) -> short (snd (lines inp)) ->
     grep pattern sizes inp = Some (selected pattern (fst (lines inp)))) /\
  ((1023 <= length inp)%nat -> Forall (fun x => x <> nl) (take 1023 inp) -> grep pattern sizes inp = Some []).
Proof.
  split; [intros Hl Hr; apply grep_loop_spec; [lia|constructor|done..]|]. intros Hlen Hnl. unfold grep.
  assert (Hgen : forall fuel i buf rest, buf ++ rest = inp -> (length buf <= 1023)%nat -> (length rest < fuel)%nat ->
    grep_loop fuel pattern sizes i buf rest = Some []); [|apply (Hgen _ _ []); [done|cbn; lia|lia]].
  induction fuel as [|fuel IH]; intros i buf rest E Hb Hf; [lia|]. cbn [grep_loop]. set (n := read_size _ _ _).
  destruct (Nat.eqb_spec n 0); [done|]. assert (Hn : (n <= 1023 - length buf /\ n <= length rest)%nat) by (unfold n, read_size, BUFSIZE; lia).
  assert (Eb : buf ++ take n rest = take (length buf + n) inp).
  { rewrite <- E, take_app_ge by lia. do 2 f_equal. lia. }
  assert (Hp : Forall (fun x => x <> nl) (buf ++ take n rest)) by (rewrite Eb; replace (length buf + n)%nat with ((length buf + n) `min` 1023)%nat by lia; rewrite <- take_take; by apply Forall_take).
  assert (Hz : Forall (fun x => x <> 0) (buf ++ take n rest)) by (rewrite Eb; by apply Forall_take).
  assert (El : lines (buf ++ take n rest) = ([], buf ++ take n rest)).
  { rewrite <- (app_nil_r (buf ++ _)) at 1. rewrite lines_prefix by done. cbn. by rewrite app_nil_r. }
  rewrite grep_lines_spec, El by done. cbn [fst snd]. rewrite IH; [done|by rewrite <- app_assoc, take_drop|rewrite length_app, length_take; lia|].
  rewrite length_drop. destruct rest; cbn in *; lia.
Qed.
Lemma grep_filters_witness :
  let inp := [97; 98; 10; 99; 10; 97; 10; 120] in
  grep [94; 97] (fun _ => 3%nat) inp = Some [97; 98; 10; 97; 10].
Proof.
  cbv zeta. apply (grep_filters [94; 97] (fun _ => 3%nat) [97; 98; 10; 99; 10; 97; 10; 120]).
  - repeat constructor; discriminate.
  - repeat constructor; unfold short; cbn; lia.
  - unfold short. cbn. lia.
Defined.
