(* ===== verification/Shell.v ===== *)
(** * user/sh.c: the shell

    The command line is the buffer [sh_buf], with its NULs; a [char *] into it
    is an index.  The command structures are nodes of the heap [sh_node], a
    [struct cmd *] an index into it, so that the execcmd that parseexec fills
    while the redirections already point to it is one object.  malloc always
    finds memory.  panic ends the process; what parsecmd prints before it, the
    characters left over, is left out.  The mutual recursion of the parser
    gets fuel; [parse_fuel] is more than it uses. *)

From S2P Require Import Prelude FsState.
From Stdlib Require Import Ascii.

Definition ch (c : ascii) : Z := Z.of_nat (nat_of_ascii c).
Fixpoint str (s : string) : list Z := match s with EmptyString => [] | String c s' => ch c :: str s' end.

(** ** Command structures *)
Definition MAXARGS : Z := 10.
Inductive node :=
| EXEC (argv eargv : list (option Z))
| REDIR (cmd : nat) (file efile mode fd : Z)
| PIPE (left right : nat)
| LIST (left right : nat)
| BACK (cmd : nat).
Record shst := mksh { sh_buf : list Z; sh_node : list node }.
#[global] Instance eta_shst : Eta shst := fun r => mksh (sh_buf r) (sh_node r).
Definition SH : Type -> Type := M shst.

(** The constructors. *)
Definition alloc (n : node) : SH nat := fun s => Ret (length (sh_node s)) (s <| sh_node := sh_node s ++ [n] |>).
Definition nulls : list (option Z) := replicate (Z.to_nat MAXARGS) None.
Definition execcmd : SH nat := alloc (EXEC nulls nulls).
Definition redircmd (subcmd : nat) (file efile mode fd : Z) : SH nat := alloc (REDIR subcmd file efile mode fd).
Definition pipecmd (left right : nat) : SH nat := alloc (PIPE left right).
Definition listcmd (left right : nat) : SH nat := alloc (LIST left right).
Definition backcmd (subcmd : nat) : SH nat := alloc (BACK subcmd).

(** ** Tokens *)
Definition at_ (buf : list Z) (s : Z) : Z := default 0 (buf !! Z.to_nat s).
(** strchr(toks, c) is not null *)
Fixpoint strchr (toks : list Z) (c : Z) : bool := match toks with [] => false | x :: r => (x =? c) || strchr r c end.
Definition whitespace : list Z := [32; 9; 13; 10; 11].
Definition symbols : list Z := str "<|>&;()".
(** [while(s < es && p( *s)) s++;] with [k = es - s] *)
Fixpoint scan (p : Z -> bool) (buf : list Z) (k : nat) (s : Z) : Z :=
  match k with O => s | S k' => if p (at_ buf s) then scan p buf k' (s + 1) else s end.
Definition skip_space (buf : list Z) (es s : Z) : Z := scan (strchr whitespace) buf (Z.to_nat (es - s)) s.

(** gettoken: the token, where it starts and ends, and the new [*ps] *)
Definition gettoken (ps es : Z) : SH (Z * Z * Z * Z) :=
  buf ← gets sh_buf;
  let s := skip_space buf es ps in
  let q := s in
  let c := at_ buf s in
  let '(ret, s) :=
    if c =? 0 then (c, s)
    else if (c =? ch "|") || (c =? ch "(") || (c =? ch ")") || (c =? ch ";") || (c =? ch "&") || (c =? ch "<") then (c, s + 1)
    else if c =? ch ">" then if at_ buf (s + 1) =? ch ">" then (ch "+", s + 2) else (c, s + 1)
    else (ch "a", scan (fun c => negb (strchr whitespace c) && negb (strchr symbols c)) buf (Z.to_nat (es - s)) s) in
  mret (ret, q, s, skip_space buf es s).
(** peek, with the new [*ps] *)
Definition peek (ps es : Z) (toks : list Z) : SH (bool * Z) :=
  buf ← gets sh_buf;
  let s := skip_space buf es ps in
  mret (negb (at_ buf s =? 0) && strchr toks (at_ buf s), s).

(** ** The parser *)
Fixpoint parseredirs (k : nat) (cmd : nat) (ps es : Z) : SH (nat * Z) :=
  match k with
  | O => no_fuel
  | S k' =>
      '(b, ps) ← peek ps es (str "<>");
      if (b : bool) then
        '(tok, _, _, ps) ← gettoken ps es;
        '(t, q, eq, ps) ← gettoken ps es;
        if negb (t =? ch "a") then panic "missing file for redirection"
        else
          cmd ← (if tok =? ch "<" then redircmd cmd q eq O_RDONLY 0
                 else if tok =? ch ">" then redircmd cmd q eq (Z.lor (Z.lor O_WRONLY O_CREATE) O_TRUNC) 1
                 else if tok =? ch "+" then redircmd cmd q eq (Z.lor O_WRONLY O_CREATE) 1
                 else mret cmd);
          parseredirs k' cmd ps es
      else mret (cmd, ps)
  end.
(** [cmd->argv[argc] = q; cmd->eargv[argc] = eq;] *)
Definition set_arg (cmd : nat) (argc : nat) (q eq : option Z) : SH unit :=
  modify (fun s => s <| sh_node := alter (fun n =>
    match n with EXEC argv eargv => EXEC (<[argc := q]> argv) (<[argc := eq]> eargv) | _ => n end) cmd (sh_node s) |>).
Fixpoint parseargs (k : nat) (cmd ret : nat) (argc : nat) (ps es : Z) : SH (nat * Z) :=
  match k with
  | O => no_fuel
  | S k' =>
      '(b, ps) ← peek ps es (str "|)&;");
      if (b : bool) then set_arg cmd argc None None;; mret (ret, ps)
      else
        '(tok, q, eq, ps) ← gettoken ps es;
        if tok =? 0 then set_arg cmd argc None None;; mret (ret, ps)
        else if negb (tok =? ch "a") then panic "syntax"
        else
          set_arg cmd argc (Some q) (Some eq);;
          let argc := S argc in
          if MAXARGS <=? Z.of_nat argc then panic "too many args"
          else
            '(ret, ps) ← parseredirs k' ret ps es;
            parseargs k' cmd ret argc ps es
  end.
(** The [&]s after a pipeline *)
Fixpoint parseback (k : nat) (cmd : nat) (ps es : Z) : SH (nat * Z) :=
  match k with
  | O => no_fuel
  | S k' =>
      '(b, ps) ← peek ps es (str "&");
      if (b : bool) then
        '(_, _, _, ps) ← gettoken ps es;
        cmd ← backcmd cmd;
        parseback k' cmd ps es
      else mret (cmd, ps)
  end.
Fixpoint parseline (k : nat) (ps es : Z) {struct k} : SH (nat * Z) :=
  match k with
  | O => no_fuel
  | S k' =>
      '(cmd, ps) ← parsepipe k' ps es;
      '(cmd, ps) ← parseback k' cmd ps es;
      '(b, ps) ← peek ps es (str ";");
      if (b : bool) then
        '(_, _, _, ps) ← gettoken ps es;
        '(rcmd, ps) ← parseline k' ps es;
        cmd ← listcmd cmd rcmd;
        mret (cmd, ps)
      else mret (cmd, ps)
  end
with parsepipe (k : nat) (ps es : Z) {struct k} : SH (nat * Z) :=
  match k with
  | O => no_fuel
  | S k' =>
      '(cmd, ps) ← parseexec k' ps es;
      '(b, ps) ← peek ps es (str "|");
      if (b : bool) then
        '(_, _, _, ps) ← gettoken ps es;
        '(rcmd, ps) ← parsepipe k' ps es;
        cmd ← pipecmd cmd rcmd;
        mret (cmd, ps)
      else mret (cmd, ps)
  end
with parseexec (k : nat) (ps es : Z) {struct k} : SH (nat * Z) :=
  match k with
  | O => no_fuel
  | S k' =>
      '(b, ps) ← peek ps es (str "(");
      if (b : bool) then parseblock k' ps es
      else
        cmd ← execcmd;
        '(ret, ps) ← parseredirs k' cmd ps es;
        parseargs k' cmd ret 0 ps es
  end
with parseblock (k : nat) (ps es : Z) {struct k} : SH (nat * Z) :=
  match k with
  | O => no_fuel
  | S k' =>
      '(b, ps) ← peek ps es (str "(");
      if negb b then panic "parseblock"
      else
        '(_, _, _, ps) ← gettoken ps es;
        '(cmd, ps) ← parseline k' ps es;
        '(b, ps) ← peek ps es (str ")");
        if negb b then panic "syntax - missing )"
        else
          '(_, _, _, ps) ← gettoken ps es;
          parseredirs k' cmd ps es
  end.

(** nulterminate: [*p = 0;] at the end of every string *)
Definition put_nul (p : option Z) : SH unit :=
  match p with
  | Some p => modify (fun s => s <| sh_buf := <[Z.to_nat p := 0]> (sh_buf s) |>)
  | None => fault "nulterminate"
  end.
Fixpoint nul_args (argv eargv : list (option Z)) : SH unit :=
  match argv, eargv with
  | Some _ :: argv', e :: eargv' => put_nul e;; nul_args argv' eargv'
  | _, _ => mret tt
  end.
Fixpoint nulterminate (k : nat) (cmd : nat) : SH unit :=
  match k with
  | O => no_fuel
  | S k' =>
      n ← gets (fun s => sh_node s !! cmd);
      match n with
      | None => fault "nulterminate"
      | Some (EXEC argv eargv) => nul_args argv eargv
      | Some (REDIR c _ efile _ _) => nulterminate k' c;; put_nul (Some efile)
      | Some (PIPE l r) | Some (LIST l r) => nulterminate k' l;; nulterminate k' r
      | Some (BACK c) => nulterminate k' c
      end
  end.

(** strlen *)
Fixpoint strlen (buf : list Z) : Z := match buf with [] => 0 | c :: r => if c =? 0 then 0 else 1 + strlen r end.
Definition parse_fuel (es : Z) : nat := 6 * Z.to_nat es + 12.
(** parsecmd *)
Definition parsecmd (s : Z) : SH nat :=
  buf ← gets sh_buf;
  let es := s + strlen (drop (Z.to_nat s) buf) in
  '(cmd, ps) ← parseline (parse_fuel es) s es;
  '(_, ps) ← peek ps es [];
  if negb (ps =? es) then panic "syntax"
  else
    nulterminate (parse_fuel es) cmd;;
    mret cmd.

(** ** Running commands

    A process as the tree of its system calls: each one with what the process
    does next for every answer.  [Fork k] goes on as [k 0] in the child and as
    [k pid] in the parent. *)
Inductive prog :=
| Exit (status : Z)
| Close (fd : Z) (k : prog)
| Open (file : list Z) (mode : Z) (k : Z -> prog)
| Dup (fd : Z) (k : prog)
| Pipe (k : Z -> Z -> Z -> prog)
| Fork (k : Z -> prog)
| Wait (k : prog)
| Exec (path : list Z) (argv : list (list Z)) (k : prog)
| Write (fd : Z) (bytes : list Z) (k : prog)
| ReadChar (fd : Z) (k : option Z -> prog)
| Chdir (path : list Z) (k : Z -> prog)
| Crash
| OutOfFuel.

(** fprintf(fd, ...) of the characters [s], putc by putc *)
Definition fprint (fd : Z) (s : list Z) (k : prog) : prog := foldr (fun c k => Write fd [c] k) k s.
Definition nl : list Z := [10].
(** panic *)
Definition panic_prog (s : list Z) : prog := fprint 2 (s ++ nl) (Exit 1).
(** fork1 *)
Definition fork1 (k : Z -> prog) : prog := Fork (fun pid => if pid =? -1 then panic_prog (str "fork") else k pid).

(** The C string at [p], and the strings of an argument vector *)
Fixpoint chars (l : list Z) : list Z := match l with [] => [] | c :: r => if c =? 0 then [] else c :: chars r end.
Definition cstring (buf : list Z) (p : Z) : list Z := chars (drop (Z.to_nat p) buf).
Fixpoint vector (buf : list Z) (argv : list (option Z)) : list (list Z) :=
  match argv with Some p :: r => cstring buf p :: vector buf r | _ => [] end.

(** runcmd; it does not return.  The [cmd == 0] of the source does not arise: a
    pointer is an index of the heap. *)
Fixpoint runcmd (k : nat) (st : shst) (cmd : nat) : prog :=
  match k with
  | O => OutOfFuel
  | S k' =>
      match sh_node st !! cmd with
      | None => Crash
      | Some (EXEC argv _) =>
          match argv with
          | Some p :: _ =>
              let path := cstring (sh_buf st) p in
              Exec path (vector (sh_buf st) argv) (fprint 2 (str "exec " ++ path ++ str " failed" ++ nl) (Exit 0))
          | _ => Exit 1
          end
      | Some (REDIR c file _ mode fd) =>
          let name := cstring (sh_buf st) file in
          Close fd (Open name mode (fun r =>
            if r <? 0 then fprint 2 (str "open " ++ name ++ str " failed" ++ nl) (Exit 1)
            else runcmd k' st c))
      | Some (LIST l r) =>
          fork1 (fun pid => if pid =? 0 then runcmd k' st l else Wait (runcmd k' st r))
      | Some (PIPE l r) =>
          Pipe (fun ok p0 p1 =>
            if ok <? 0 then panic_prog (str "pipe")
            else
              fork1 (fun pid =>
                if pid =? 0 then Close 1 (Dup p1 (Close p0 (Close p1 (runcmd k' st l))))
                else
                  fork1 (fun pid =>
                    if pid =? 0 then Close 0 (Dup p0 (Close p0 (Close p1 (runcmd k' st r))))
                    else Close p0 (Close p1 (Wait (Wait (Exit 0)))))))
      | Some (BACK c) =>
          fork1 (fun pid => if pid =? 0 then runcmd k' st c else Exit 0)
      end
  end.

(** ** The read loop *)

(** gets of user/ulib.c: [n] more characters fit *)
Fixpoint gets_loop (n i : nat) (buf : list Z) (k : list Z -> prog) : prog :=
  match n with
  | O => k (<[i := 0]> buf)
  | S n' =>
      ReadChar 0 (fun c =>
        match c with
        | None => k (<[i := 0]> buf)
        | Some c =>
            let buf := <[i := c]> buf in
            if (c =? 10) || (c =? 13) then k (<[S i := 0]> buf) else gets_loop n' (S i) buf k
        end)
  end.
(** getcmd *)
Definition getcmd (buf : list Z) (k : Z -> list Z -> prog) : prog :=
  Write 2 (str "$ ")
    (gets_loop (length buf - 1) 0 (replicate (length buf) 0) (fun buf => k (if at_ buf 0 =? 0 then -1 else 0) buf)).

(** The loop that opens the console until three descriptors are open *)
Fixpoint open_console (n : nat) (k : prog) : prog :=
  match n with
  | O => OutOfFuel
  | S n' => Open (str "console") O_RDWR (fun fd => if 0 <=? fd then if 3 <=? fd then Close fd k else open_console n' k else k)
  end.

(** The body of the loop of main, for the line in [buf] *)
Definition blank (c : Z) : bool := (c =? 32) || (c =? 9).
Definition main_line (buf : list Z) (k : list Z -> prog) : prog :=
  let cmd := scan blank buf (length buf) 0 in
  if at_ buf cmd =? 10 then k buf
  else if (at_ buf cmd =? ch "c") && (at_ buf (cmd + 1) =? ch "d") && (at_ buf (cmd + 2) =? 32) then
    let buf := <[Z.to_nat (cmd + strlen (drop (Z.to_nat cmd) buf) - 1) := 0]> buf in
    let path := cstring buf (cmd + 3) in
    Chdir path (fun r => if r <? 0 then fprint 2 (str "cannot cd " ++ path ++ nl) (k buf) else k buf)
  else
    fork1 (fun pid =>
      if pid =? 0 then
        match parsecmd cmd (mksh buf []) with
        | Ret c st => runcmd (parse_fuel (Z.of_nat (length buf))) st c
        | Panic msg _ => panic_prog (str msg)
        | _ => Crash
        end
      else Wait (k buf)).
Fixpoint main_loop (n : nat) (buf : list Z) : prog :=
  match n with
  | O => OutOfFuel
  | S n' => getcmd buf (fun r buf => if 0 <=? r then main_line buf (main_loop n') else Exit 0)
  end.
Definition main (n : nat) : prog := open_console n (main_loop n (replicate 100 0)).
