(* ===== verification/ShellSpec.v ===== *)
(** * The shell's command language

    Commands as trees, their tokens, and the lexical structure of a line: what
    peek and gettoken do on a line that lexes to a given list of tokens. *)

From S2P Require Import Prelude FsState Shell.
From Stdlib Require Import Ascii.

(** ** Commands and their tokens *)
Inductive redir := RIn | ROut | RApp.
Inductive cmd :=
| CExec (args : list (list Z))
| CRedir (c : cmd) (r : redir) (file : list Z)
| CPipe (l r : cmd)
| CList (l r : cmd)
| CBack (c : cmd).
Inductive token := TSym (c : Z) | TApp | TWord (w : list Z).

Definition redir_token (r : redir) : token := match r with RIn => TSym (ch "<") | ROut => TSym (ch ">") | RApp => TApp end.
Definition paren (b : bool) (ts : list token) : list token := if b then TSym (ch "(") :: ts ++ [TSym (ch ")")] else ts.
(** At level 0 a list may stand, at 1 a command with [&], at 2 a pipeline, at 3
    what parseexec takes; anything else is put in parentheses. *)
Fixpoint toks (lvl : nat) (c : cmd) : list token :=
  match c with
  | CExec args => TWord <$> args
  | CRedir d r f => toks 3 d ++ [redir_token r; TWord f]
  | CPipe l r => paren (2 <? lvl)%nat (toks 3 l ++ TSym (ch "|") :: toks 2 r)
  | CBack d => paren (1 <? lvl)%nat (toks 1 d ++ [TSym (ch "&")])
  | CList l r => paren (0 <? lvl)%nat (toks 1 l ++ TSym (ch ";") :: toks 0 r)
  end.

(** ** Characters *)
Definition is_space (c : Z) : bool := strchr whitespace c.
Definition wordc (c : Z) : bool := negb (is_space c) && negb (strchr symbols c) && negb (c =? 0).
Definition single (c : Z) : bool := strchr (str "|();&<") c.
Arguments is_space : simpl never.
Arguments wordc : simpl never.
Arguments single : simpl never.
Definition word_ok (w : list Z) : Prop := w <> [] /\ Forall (fun c => wordc c = true) w.
Fixpoint cmd_ok (c : cmd) : Prop :=
  match c with
  | CExec args => (length args < Z.to_nat MAXARGS)%nat /\ Forall word_ok args
  | CRedir d _ f => cmd_ok d /\ word_ok f
  | CPipe l r | CList l r => cmd_ok l /\ cmd_ok r
  | CBack d => cmd_ok d
  end.

(** ** Lines and tokens *)
Fixpoint ltrim (t : list Z) : list Z := match t with [] => [] | c :: r => if is_space c then ltrim r else t end.
Definition starts (p : Z -> bool) (t : list Z) : bool := match t with [] => false | c :: _ => p c end.
Inductive lex : list Z -> list token -> Prop :=
| lex_nil t : ltrim t = [] -> lex t []
| lex_sym t c r ts : ltrim t = c :: r -> single c = true -> lex r ts -> lex t (TSym c :: ts)
| lex_out t r ts : ltrim t = ch ">" :: r -> starts (Z.eqb (ch ">")) r = false -> lex r ts -> lex t (TSym (ch ">") :: ts)
| lex_app t r ts : ltrim t = ch ">" :: ch ">" :: r -> lex r ts -> lex t (TApp :: ts)
| lex_word t w r ts : ltrim t = w ++ r -> word_ok w -> starts wordc r = false -> lex r ts -> lex t (TWord w :: ts).

Lemma ltrim_idem t : ltrim (ltrim t) = ltrim t.
Proof. induction t as [|c t IH]; cbn; [done|]. destruct (is_space c) eqn:E; [done|]. cbn. by rewrite E. Qed.
Lemma lex_trim t ts : lex t ts <-> lex (ltrim t) ts.
Proof.
  split; intros Hl; inversion Hl; subst; rewrite ?ltrim_idem in *;
    [apply lex_nil|eapply lex_sym|eapply lex_out|eapply lex_app|eapply lex_word
    |apply lex_nil|eapply lex_sym|eapply lex_out|eapply lex_app|eapply lex_word]; rewrite ?ltrim_idem; eauto.
Qed.
Lemma length_ltrim t : (length (ltrim t) <= length t)%nat.
Proof. induction t as [|c t IH]; cbn; [done|]. destruct (is_space c); cbn; lia. Qed.
Lemma lex_length t ts : lex t ts -> (length ts <= length t)%nat.
Proof.
  induction 1 as [t E|t c r ts E _ _ IH|t r ts E _ _ IH|t r ts E _ IH|t w r ts E [Hw _] _ _ IH]; cbn [length]; [lia|..];
    pose proof (length_ltrim t) as Hl; rewrite E in Hl; rewrite ?length_app in Hl; cbn [length] in Hl; [lia..|].
  destruct w; [done|]. cbn [length] in Hl. lia.
Qed.

(** A line for every list of tokens: a space before each. *)
Definition spell (tk : token) : list Z :=
  match tk with TSym c => [c] | TApp => [ch ">"; ch ">"] | TWord w => w end.
Definition render (ts : list token) : list Z := concat ((fun tk => 32 :: spell tk) <$> ts).
Definition token_ok (tk : token) : Prop :=
  match tk with TSym c => single c = true \/ c = ch ">" | TApp => True | TWord w => word_ok w end.
Lemma word_not_space c : wordc c = true -> is_space c = false.
Proof. unfold wordc. by destruct (is_space c). Qed.
Lemma single_not_space c : single c = true -> is_space c = false.
Proof.
  unfold single. cbn [str strchr]. rewrite !orb_true_iff, !Z.eqb_eq. intros Hc.
  decompose [or] Hc; subst; try done.
Qed.
Lemma ltrim_word w r : word_ok w -> ltrim (w ++ r) = w ++ r.
Proof. intros [Hne Hw]. destruct w as [|c w]; [done|]. apply Forall_cons in Hw as [Hc _]. cbn. by rewrite (word_not_space c Hc). Qed.
Lemma lex_render ts : Forall token_ok ts -> lex (render ts) ts.
Proof.
  induction ts as [|tk ts IH]; intros Hok; [by apply lex_nil|]. apply Forall_cons in Hok as [Htk Hok]. specialize (IH Hok).
  unfold render in *. cbn [fmap list_fmap concat]. set (r := concat _) in *.
  assert (Hs : forall p, p 32 = false -> starts p r = false) by (intros p Hp; unfold r; by destruct ts).
  destruct tk as [c| |w]; cbn [spell app] in *.
  - destruct Htk as [Hc| ->].
    + eapply (lex_sym _ c r); [|done|done]. cbn. by rewrite (single_not_space c Hc).
    + eapply (lex_out _ r); [done| |done]. by apply Hs.
  - eapply (lex_app _ r); done.
  - eapply (lex_word _ w r); [|done| |done]; [cbn; by apply ltrim_word|]. by apply Hs.
Qed.

(** ** The scanner on a line *)
Section Scan.
Context (buf : list Z) (es : Z).

(** From index [p] to the end of the line the buffer holds [t]. *)
Record suf (p : Z) (t : list Z) : Prop := {
  sf_pos : 0 <= p;
  sf_end : p + Z.of_nat (length t) = es;
  sf_nul : at_ buf es = 0;
  sf_at : forall k c, t !! k = Some c -> at_ buf (p + Z.of_nat k) = c /\ c <> 0
}.
Definition here (p : Z) (ts : list token) : Prop := exists t, suf p t /\ lex t ts.
(** The word [w] from [q] to [e], and no word character at [e]. *)
Record word_at (q e : Z) (w : list Z) : Prop := {
  wa_pos : 0 <= q;
  wa_end : e = q + Z.of_nat (length w);
  wa_at : forall k c, w !! k = Some c -> at_ buf (q + Z.of_nat k) = c;
  wa_word : word_ok w;
  wa_stop : wordc (at_ buf e) = false
}.

Lemma suf_app p t1 t2 : suf p (t1 ++ t2) -> suf (p + Z.of_nat (length t1)) t2.
Proof.
  intros [H1 H2 H3 H4]. rewrite length_app in H2. split; [lia|lia|done|]. intros k c Hk.
  rewrite <- Z.add_assoc, <- Nat2Z.inj_add. apply H4. rewrite lookup_app_r by lia. by replace (length t1 + k - length t1)%nat with k by lia.
Qed.
Lemma suf_head p c t : suf p (c :: t) -> at_ buf p = c /\ c <> 0 /\ suf (p + 1) t.
Proof. intros Hs. destruct (sf_at _ _ Hs 0%nat c eq_refl) as [E N]. rewrite Z.add_0_r in E. split_and!; [done|done|]. apply (suf_app p [c] t Hs). Qed.
Lemma suf_nil p : suf p [] -> p = es /\ at_ buf p = 0.
Proof. intros Hs. pose proof (sf_end _ _ Hs) as E. cbn in E. assert (p = es) as -> by lia. split; [done|apply Hs]. Qed.
(** A scan over characters that satisfy [f] stops where they end. *)
Lemma scan_span f t1 : forall p t2, suf p (t1 ++ t2) -> Forall (fun c => f c = true) t1 -> starts f t2 = false ->
  scan f buf (Z.to_nat (es - p)) p = p + Z.of_nat (length t1).
Proof.
  induction t1 as [|c t1 IH]; intros p t2 Hs Hf Hst; cbn [app length] in *.
  - destruct t2 as [|c t2].
    + apply suf_nil in Hs as [-> _]. rewrite Z.sub_diag. change (Z.to_nat 0) with 0%nat. cbn [scan]. lia.
    + pose proof (sf_end _ _ Hs) as E. cbn [length] in E. destruct (suf_head _ _ _ Hs) as (Ec & _ & _).
      destruct (Z.to_nat (es - p)) eqn:En; [lia|]. cbn [scan]. rewrite Ec. cbn in Hst. rewrite Hst. lia.
  - apply Forall_cons in Hf as [Hc Hf]. pose proof (sf_end _ _ Hs) as E. cbn [length] in E. destruct (suf_head _ _ _ Hs) as (Ec & _ & Hs').
    destruct (Z.to_nat (es - p)) as [|n] eqn:En; [lia|]. cbn [scan]. rewrite Ec, Hc. replace n with (Z.to_nat (es - (p + 1))) by lia.
    rewrite (IH (p + 1) t2 Hs' Hf Hst). lia.
Qed.
Lemma ltrim_split t : exists t1, t = t1 ++ ltrim t /\ Forall (fun c => is_space c = true) t1 /\ starts is_space (ltrim t) = false.
Proof.
  induction t as [|c t IH]; [by exists []|]. cbn [ltrim]. destruct (is_space c) eqn:E; [|by exists []].
  destruct IH as (t1 & E1 & H1 & H2). exists (c :: t1). split_and!; [cbn; by rewrite <- E1|by apply Forall_cons|done].
Qed.
Lemma skip_space_spec p t : suf p t -> exists p', skip_space buf es p = p' /\ suf p' (ltrim t).
Proof.
  intros Hs. destruct (ltrim_split t) as (t1 & E & H1 & H2). rewrite E in Hs.
  eexists. split; [exact (scan_span is_space t1 p (ltrim t) Hs H1 H2)|by apply suf_app in Hs].
Qed.
Lemma here_trim p t ts : suf p (ltrim t) -> lex t ts -> here p ts.
Proof. intros Hs Hl. exists (ltrim t). split; [done|by apply lex_trim in Hl]. Qed.

(** peek looks at the first character of the next token. *)
Definition first (ts : list token) : Z :=
  match ts with [] => 0 | TSym c :: _ => c | TApp :: _ => ch ">" | TWord w :: _ => default 0 (head w) end.
Lemma lex_first p t ts : suf p (ltrim t) -> lex t ts -> at_ buf p = first ts.
Proof.
  intros Hs Hl. inversion Hl as [? E|? c r ? E|? r ? E|? r ? E|? w r ? E Hw]; subst; rewrite E in Hs; cbn [first].
  - by apply suf_nil in Hs as [_ ?].
  - by apply suf_head in Hs as (? & _).
  - by apply suf_head in Hs as (? & _).
  - by apply suf_head in Hs as (? & _).
  - destruct Hw as [Hne _]. destruct w as [|c w]; [done|]. by apply suf_head in Hs as (? & _).
Qed.
Definition sees (toks : list Z) (ts : list token) : bool := negb (first ts =? 0) && strchr toks (first ts).
Lemma peek_spec p ts ps nodes : here p ts ->
  exists p', peek p es ps (mksh buf nodes) = Ret (sees ps ts, p') (mksh buf nodes) /\ here p' ts.
Proof.
  intros (t & Hs & Hl). destruct (skip_space_spec p t Hs) as (p' & E & Hs'). exists p'. split; [|by eapply here_trim].
  unfold peek. rewrite bind_gets. cbn [sh_buf]. rewrite E. by rewrite (lex_first p' t ts Hs' Hl).
Qed.

(** gettoken takes the next token. *)
Definition code (tk : token) : Z := match tk with TSym c => c | TApp => ch "+" | TWord _ => ch "a" end.
Definition spans (tk : token) (q e : Z) : Prop := match tk with TWord w => word_at q e w | _ => True end.
Lemma word_scan c : c <> 0 -> negb (strchr whitespace c) && negb (strchr symbols c) = wordc c.
Proof. intros Hc. unfold wordc, is_space. destruct (Z.eqb_spec c 0); [done|]. by rewrite andb_true_r. Qed.
Lemma word_head c : wordc c = true -> c <> 0 /\ single c = false /\ c <> ch ">".
Proof.
  unfold wordc. rewrite !andb_true_iff, !negb_true_iff. intros [[_ Hs] Hz%Z.eqb_neq]. split; [done|].
  unfold single. cbn [symbols str strchr] in *. rewrite !orb_false_iff in *. rewrite !Z.eqb_neq in *. naive_solver.
Qed.
(** The part of gettoken after the spaces. *)
Definition token_from (s : Z) : Z * Z :=
  let c := at_ buf s in
  if c =? 0 then (c, s)
  else if (c =? ch "|") || (c =? ch "(") || (c =? ch ")") || (c =? ch ";") || (c =? ch "&") || (c =? ch "<") then (c, s + 1)
  else if c =? ch ">" then if at_ buf (s + 1) =? ch ">" then (ch "+", s + 2) else (c, s + 1)
  else (ch "a", scan (fun c => negb (strchr whitespace c) && negb (strchr symbols c)) buf (Z.to_nat (es - s)) s).
Lemma gettoken_eq p nodes :
  gettoken p es (mksh buf nodes) =
  let s := skip_space buf es p in let '(ret, e) := token_from s in Ret (ret, s, e, skip_space buf es e) (mksh buf nodes).
Proof. unfold gettoken, token_from. rewrite bind_gets. cbn [sh_buf]. by repeat case_match. Qed.
Lemma single_cases c : (c =? ch "|") || (c =? ch "(") || (c =? ch ")") || (c =? ch ";") || (c =? ch "&") || (c =? ch "<") = single c.
Proof. unfold single. cbn [str strchr]. rewrite !(Z.eqb_sym c), orb_false_r. by rewrite !orb_assoc. Qed.
Lemma single_nonzero c : single c = true -> c <> 0 /\ c <> ch ">".
Proof. unfold single. cbn [str strchr]. rewrite !orb_true_iff, !Z.eqb_eq. intros Hc. decompose [or] Hc; subst; done. Qed.
Lemma token_from_spec s t tk ts : suf s (ltrim t) -> lex t (tk :: ts) ->
  exists e r, token_from s = (code tk, e) /\ suf e r /\ lex r ts /\ spans tk s e.
Proof.
  intros Hs Hl. inversion Hl as [|? c r ? E Hc Hr|? r ? E Hst Hr|? r ? E Hr|? w r ? E Hw Hst Hr]; subst; rewrite E in Hs; unfold token_from; cbv zeta; rewrite single_cases.
  - destruct (suf_head _ _ _ Hs) as (-> & Hz & Hs'). destruct (Z.eqb_spec c 0); [done|]. rewrite Hc. exists (s + 1), r. by split_and!.
  - destruct (suf_head _ _ _ Hs) as (-> & Hz & Hs'). cbn -[at_]. assert (Hn : at_ buf (s + 1) =? ch ">" = false).
    { destruct r as [|c r]; [apply suf_nil in Hs' as [_ ->]; done|]. destruct (suf_head _ _ _ Hs') as (-> & _). cbn in Hst. by rewrite Z.eqb_sym. }
    rewrite Hn. exists (s + 1), r. by split_and!.
  - destruct (suf_head _ _ _ Hs) as (-> & Hz & Hs'). destruct (suf_head _ _ _ Hs') as (-> & _ & Hs''). exists (s + 2), r. split_and!; try done.
    by replace (s + 2) with (s + 1 + 1) by lia.
  - pose proof Hw as [Hne Hall]. destruct w as [|c w]; [done|]. destruct (suf_head _ _ _ Hs) as (-> & Hz & _).
    assert (Hc : wordc c = true) by (by apply Forall_cons in Hall as [? _]). destruct (word_head c Hc) as (_ & Hsi & Hgt).
    destruct (Z.eqb_spec c 0); [done|]. rewrite Hsi. destruct (Z.eqb_spec c (ch ">")); [done|]. set (w' := c :: w) in *.
    assert (Hscan : scan (fun c => negb (strchr whitespace c) && negb (strchr symbols c)) buf (Z.to_nat (es - s)) s = s + Z.of_nat (length w')).
    { apply (scan_span _ w' s r Hs).
      - eapply Forall_impl; [exact Hall|]. intros x Hx. cbv beta. by rewrite word_scan by (by apply word_head in Hx as [? _]).
      - destruct r as [|x r]; [done|]. apply suf_app in Hs. destruct (suf_head _ _ _ Hs) as (_ & Hx & _). unfold starts in *. by rewrite word_scan. }
    rewrite Hscan. exists (s + Z.of_nat (length w')), r. pose proof (suf_app _ _ _ Hs) as Hr'. split_and!; try done. split; try done; [apply Hs| |].
    + intros k x Hk. apply (sf_at _ _ Hs). by apply lookup_app_l_Some.
    + destruct r as [|x r]; [apply suf_nil in Hr' as [_ ->]; done|]. by destruct (suf_head _ _ _ Hr') as (-> & _).
Qed.
Lemma gettoken_spec p tk ts nodes : here p (tk :: ts) ->
  exists q e p', gettoken p es (mksh buf nodes) = Ret (code tk, q, e, p') (mksh buf nodes) /\ here p' ts /\ spans tk q e.
Proof.
  intros (t & Hs & Hl). destruct (skip_space_spec p t Hs) as (s & Es & Hs1). destruct (token_from_spec s t tk ts Hs1 Hl) as (e & r & Et & Hr & Hlr & Hsp).
  destruct (skip_space_spec e r Hr) as (p' & Ep & Hp'). exists s, e, p'. rewrite gettoken_eq. cbv zeta. rewrite Es, Et, Ep. split_and!; [done| |done]. by eapply here_trim.
Qed.
Lemma gettoken_end p nodes : here p [] -> exists q p', gettoken p es (mksh buf nodes) = Ret (0, q, q, p') (mksh buf nodes) /\ here p' [].
Proof.
  intros (t & Hs & Hl). destruct (skip_space_spec p t Hs) as (s & Es & Hs1). inversion Hl as [? E| | | |]; subst t0. rewrite E in Hs1.
  destruct (suf_nil _ Hs1) as [-> Hz]. exists es, (skip_space buf es es). rewrite gettoken_eq. cbv zeta. rewrite Es. unfold token_from. rewrite Hz. split; [done|].
  destruct (skip_space_spec es [] Hs1) as (p' & -> & Hp'). exists []. split; [done|by apply lex_nil].
Qed.
Lemma here_end p : here p [] -> skip_space buf es p = es.
Proof.
  intros (t & Hs & Hl). destruct (skip_space_spec p t Hs) as (s & -> & Hs1). inversion Hl as [? E| | | |]; subst t0. rewrite E in Hs1. by apply suf_nil in Hs1 as [? _].
Qed.
End Scan.
