(* ===== verification/ShellProps.v ===== *)
(** * The shell parses its command language *)

From S2P Require Import Prelude FsState Shell ShellSpec.
From Stdlib Require Import Ascii.

(** ** What the heap holds for a command *)
Definition rmode (r : redir) : Z :=
  match r with RIn => O_RDONLY | ROut => Z.lor (Z.lor O_WRONLY O_CREATE) O_TRUNC | RApp => Z.lor O_WRONLY O_CREATE end.
Definition rfd (r : redir) : Z := match r with RIn => 0 | _ => 1 end.
(** An argument array: the pointers, then nulls. *)
Definition arr (l : list Z) : list (option Z) := (Some <$> l) ++ replicate (Z.to_nat MAXARGS - length l) None.
Definition exec_node (qs : list (Z * Z)) : node := EXEC (arr (fst <$> qs)) (arr (snd <$> qs)).

Section Rep.
Context (buf : list Z).
Fixpoint rep (nodes : list node) (c : cmd) (ptr : nat) : Prop :=
  match c with
  | CExec args => exists qs, nodes !! ptr = Some (exec_node qs) /\ Forall2 (fun qe w => word_at buf (fst qe) (snd qe) w) qs args
  | CRedir d r f => exists d' q e, nodes !! ptr = Some (REDIR d' q e (rmode r) (rfd r)) /\ word_at buf q e f /\ rep nodes d d'
  | CPipe l r => exists l' r', nodes !! ptr = Some (PIPE l' r') /\ rep nodes l l' /\ rep nodes r r'
  | CList l r => exists l' r', nodes !! ptr = Some (LIST l' r') /\ rep nodes l l' /\ rep nodes r r'
  | CBack d => exists d', nodes !! ptr = Some (BACK d') /\ rep nodes d d'
  end.
(** A chain of redirections around [base], the innermost first. *)
Inductive chain (nodes : list node) (base : nat) : list (redir * list Z) -> nat -> Prop :=
| chain_nil : chain nodes base [] base
| chain_snoc rs p p' q e r f : chain nodes base rs p -> nodes !! p' = Some (REDIR p q e (rmode r) (rfd r)) -> word_at buf q e f ->
    chain nodes base (rs ++ [(r, f)]) p'.
Definition wrap (c : cmd) (rs : list (redir * list Z)) : cmd := foldl (fun c rf => CRedir c (fst rf) (snd rf)) c rs.

Lemma rep_app nodes l c : forall ptr, rep nodes c ptr -> rep (nodes ++ l) c ptr.
Proof.
  induction c as [args|d IH r f|a IHa b IHb|a IHa b IHb|d IH]; intros ptr; cbn [rep].
  - intros (qs & E & Hq). exists qs. split; [by apply lookup_app_l_Some|done].
  - intros (d' & q & e & E & Hw & Hd). exists d', q, e. split_and!; [by apply lookup_app_l_Some|done|by apply IH].
  - intros (a' & b' & E & Ha & Hb). exists a', b'. split_and!; [by apply lookup_app_l_Some|by apply IHa|by apply IHb].
  - intros (a' & b' & E & Ha & Hb). exists a', b'. split_and!; [by apply lookup_app_l_Some|by apply IHa|by apply IHb].
  - intros (d' & E & Hd). exists d'. split; [by apply lookup_app_l_Some|by apply IH].
Qed.
Lemma chain_app nodes l base rs p : chain nodes base rs p -> chain (nodes ++ l) base rs p.
Proof. induction 1; [apply chain_nil|]. eapply chain_snoc; [done|by apply lookup_app_l_Some|done]. Qed.
Lemma rep_wrap nodes c base rs p : rep nodes c base -> chain nodes base rs p -> rep nodes (wrap c rs) p.
Proof.
  intros Hc. induction 1 as [|rs p p' q e r f Hch IH E Hw]; [done|]. unfold wrap. rewrite foldl_app. cbn [foldl rep fst snd].
  exists p, q, e. by split_and!.
Qed.

(** ** Redirections *)
Definition rtoks (rs : list (redir * list Z)) : list token := concat ((fun rf => [redir_token (fst rf); TWord (snd rf)]) <$> rs).
Lemma toks_wrap c rs : toks 3 (wrap c rs) = toks 3 c ++ rtoks rs.
Proof.
  induction rs as [|[r f] rs IH] using rev_ind; [by rewrite app_nil_r|]. unfold wrap, rtoks in *. rewrite foldl_app, fmap_app, concat_app. cbn [foldl toks fst snd].
  rewrite IH, <- app_assoc. done.
Qed.
Definition no_redir (ts : list token) : Prop := sees (str "<>") ts = false.
Lemma sees_redir r ts : sees (str "<>") (redir_token r :: ts) = true.
Proof. by destruct r. Qed.
Context (es : Z).
Lemma parseredirs_spec rs : forall k p nodes base ptr rs0 rest,
  here buf es p (rtoks rs ++ rest) -> no_redir rest -> (length rs < k)%nat -> chain nodes base rs0 ptr ->
  exists ptr' p' l, parseredirs k ptr p es (mksh buf nodes) = Ret (ptr', p') (mksh buf (nodes ++ l)) /\
    here buf es p' rest /\ chain (nodes ++ l) base (rs0 ++ rs) ptr'.
Proof.
  induction rs as [|[r f] rs IH]; intros [|k] p nodes base ptr rs0 rest Hh Hrest Hk Hch; [cbn in Hk; lia| |cbn in Hk; lia|]; cbn [parseredirs].
  - destruct (peek_spec buf es p _ (str "<>") nodes Hh) as (p1 & E1 & H1). rewrite (bind_ret _ _ _ _ _ E1). change (rtoks [] ++ rest) with rest in *.
    cbv beta iota. rewrite Hrest. exists ptr, p1, []. rewrite !app_nil_r. by split_and!.
  - change (rtoks ((r, f) :: rs) ++ rest) with (redir_token r :: TWord f :: rtoks rs ++ rest) in Hh.
    destruct (peek_spec buf es p _ (str "<>") nodes Hh) as (p1 & E1 & H1). rewrite (bind_ret _ _ _ _ _ E1). cbv beta iota. rewrite sees_redir.
    destruct (gettoken_spec buf es p1 _ _ nodes H1) as (q2 & e2 & p2 & E2 & H2 & _). rewrite (bind_ret _ _ _ _ _ E2). cbv beta iota.
    destruct (gettoken_spec buf es p2 _ _ nodes H2) as (q3 & e3 & p3 & E3 & H3 & Hw). rewrite (bind_ret _ _ _ _ _ E3). cbv beta iota. cbn [code]. change (negb (ch "a" =? ch "a")) with false. cbv iota.
    set (n := REDIR ptr q3 e3 (rmode r) (rfd r)).
    rewrite (bind_ret _ _ _ (length nodes) (mksh buf (nodes ++ [n]))) by (by destruct r).
    destruct (IH k p3 (nodes ++ [n]) base (length nodes) (rs0 ++ [(r, f)]) rest H3 Hrest) as (ptr' & p' & l & E & Hh' & Hc'); [cbn in Hk; lia| |].
    { eapply chain_snoc; [by apply chain_app| |exact Hw]. by apply list_lookup_middle. }
    exists ptr', p', (n :: l). rewrite E. rewrite <- !app_assoc in *. by split_and!.
Qed.
End Rep.

(** ** Arguments *)
Section Args.
Context (buf : list Z) (es : Z).

(** Tokens that end a simple command. *)
Definition stop (ts : list token) : Prop := ts = [] \/ exists c r, ts = TSym c :: r /\ strchr (str "|)&;") c = true.
Lemma stop_sees ts : stop ts -> sees (str "|)&;") ts = true \/ ts = [].
Proof.
  intros [->|(c & r & -> & Hc)]; [by right|left]. unfold sees. cbn [first]. rewrite Hc, andb_true_r.
  destruct (Z.eqb_spec c 0) as [->|]; [|done]. by vm_compute in Hc.
Qed.
Lemma stop_no_redir ts : stop ts -> no_redir ts.
Proof.
  intros [->|(c & r & -> & Hc)]; [done|]. unfold no_redir, sees. cbn [first]. cbn [str strchr] in Hc. rewrite !orb_true_iff, !Z.eqb_eq in Hc.
  decompose [or] Hc; subst; done.
Qed.
Lemma word_first w ts ps : word_ok w -> Forall (fun c => wordc c = false) ps -> sees ps (TWord w :: ts) = false.
Proof.
  intros [Hne Hw] Hps. destruct w as [|c w]; [done|]. apply Forall_cons in Hw as [Hc _]. unfold sees. cbn [first head default]. unfold id.
  apply andb_false_iff. right. induction Hps as [|x ps Hx _ IH]; [done|]. cbn [strchr]. rewrite IH, orb_false_r. apply Z.eqb_neq. intros ->. congruence.
Qed.
Lemma arr_put l x : (length l < Z.to_nat MAXARGS)%nat -> <[length l := Some x]> (arr l) = arr (l ++ [x]).
Proof.
  intros Hl. unfold arr. change (Z.to_nat MAXARGS) with 10%nat in *. rewrite fmap_app, length_app. cbn [fmap list_fmap length].
  rewrite insert_app_r_alt by (rewrite length_fmap; lia). rewrite length_fmap, Nat.sub_diag. rewrite <- app_assoc. f_equal.
  replace (10 - length l)%nat with (S (10 - (length l + 1))) by lia. done.
Qed.
Lemma arr_stop l : (length l < Z.to_nat MAXARGS)%nat -> <[length l := None]> (arr l) = arr l.
Proof.
  intros Hl. unfold arr. change (Z.to_nat MAXARGS) with 10%nat in *. rewrite insert_app_r_alt by (rewrite length_fmap; lia). rewrite length_fmap, Nat.sub_diag. f_equal.
  by replace (10 - length l)%nat with (S (9 - length l)) by lia.
Qed.
Lemma set_arg_eq nodes a b l argc q e :
  set_arg (length nodes) argc q e (mksh buf (nodes ++ EXEC a b :: l)) = Ret tt (mksh buf (nodes ++ EXEC (<[argc := q]> a) (<[argc := e]> b) :: l)).
Proof. unfold set_arg, modify. cbn [sh_node]. f_equal. change (_ <| sh_node := ?x |>) with (mksh buf x). f_equal. by rewrite (alter_app_r_alt), Nat.sub_diag by lia. Qed.

(** At the end of the arguments. *)
Lemma parseargs_stop k nodes qs l ret p rest :
  here buf es p rest -> stop rest -> (0 < k)%nat -> (length qs < Z.to_nat MAXARGS)%nat ->
  exists p', parseargs k (length nodes) ret (length qs) p es (mksh buf (nodes ++ exec_node qs :: l)) = Ret (ret, p') (mksh buf (nodes ++ exec_node qs :: l)) /\ here buf es p' rest.
Proof.
  intros Hh Hs Hk Hq. destruct k as [|k]; [lia|]. cbn [parseargs]. destruct (peek_spec buf es p _ (str "|)&;") (nodes ++ exec_node qs :: l) Hh) as (p1 & E1 & H1).
  rewrite (bind_ret _ _ _ _ _ E1). cbv beta iota.
  assert (Eset : set_arg (length nodes) (length qs) None None (mksh buf (nodes ++ exec_node qs :: l)) = Ret tt (mksh buf (nodes ++ exec_node qs :: l))).
  { unfold exec_node at 1. rewrite set_arg_eq. unfold exec_node. rewrite <- (length_fmap fst qs) at 1. rewrite arr_stop by (by rewrite length_fmap).
    rewrite <- (length_fmap snd qs). by rewrite arr_stop by (by rewrite length_fmap). }
  destruct (stop_sees rest Hs) as [-> | ->].
  - rewrite (bind_ret _ _ _ _ _ Eset). by exists p1.
  - change (sees (str "|)&;") []) with false. cbv iota. destruct (gettoken_end buf es p1 (nodes ++ exec_node qs :: l) H1) as (q & p2 & E2 & H2).
    rewrite (bind_ret _ _ _ _ _ E2). cbv beta iota. change (0 =? 0) with true. cbv iota. rewrite (bind_ret _ _ _ _ _ Eset). by exists p2.
Qed.
Lemma no_redir_word w ts : word_ok w -> no_redir (TWord w :: ts).
Proof. intros Hw. apply word_first; [done|]. by repeat constructor. Qed.
Lemma parseredirs_none k ptr p nodes ts : here buf es p ts -> no_redir ts -> (0 < k)%nat ->
  exists p', parseredirs k ptr p es (mksh buf nodes) = Ret (ptr, p') (mksh buf nodes) /\ here buf es p' ts.
Proof.
  intros Hh Hn Hk. destruct k as [|k]; [lia|]. cbn [parseredirs]. destruct (peek_spec buf es p _ (str "<>") nodes Hh) as (p1 & E1 & H1).
  rewrite (bind_ret _ _ _ _ _ E1). cbv beta iota. rewrite Hn. by exists p1.
Qed.
(** One argument. *)
Lemma parseargs_word k nodes qs ret p w ts :
  here buf es p (TWord w :: ts) -> word_ok w -> (S (length qs) < Z.to_nat MAXARGS)%nat ->
  exists q e p', parseargs (S k) (length nodes) ret (length qs) p es (mksh buf (nodes ++ [exec_node qs])) =
      ('(ret, ps) ← parseredirs k ret p' es; parseargs k (length nodes) ret (length (qs ++ [(q, e)])) ps es) (mksh buf (nodes ++ [exec_node (qs ++ [(q, e)])])) /\
    here buf es p' ts /\ word_at buf q e w.
Proof.
  intros Hh Hw Hlen. cbn [parseargs]. destruct (peek_spec buf es p _ (str "|)&;") (nodes ++ [exec_node qs]) Hh) as (p1 & E1 & H1).
  rewrite (bind_ret _ _ _ _ _ E1). cbv beta iota. rewrite word_first by (done || by repeat constructor).
  destruct (gettoken_spec buf es p1 _ _ (nodes ++ [exec_node qs]) H1) as (q & e & p2 & E2 & H2 & Hsp). rewrite (bind_ret _ _ _ _ _ E2). cbv beta iota. cbn [code].
  change (ch "a" =? 0) with false. change (negb (ch "a" =? ch "a")) with false. cbv iota.
  assert (Eset : set_arg (length nodes) (length qs) (Some q) (Some e) (mksh buf (nodes ++ [exec_node qs])) = Ret tt (mksh buf (nodes ++ [exec_node (qs ++ [(q, e)])]))).
  { unfold exec_node at 1. rewrite set_arg_eq. unfold exec_node. rewrite !fmap_app. rewrite <- (length_fmap fst qs) at 1. rewrite arr_put by (rewrite length_fmap; lia).
    rewrite <- (length_fmap snd qs). by rewrite arr_put by (rewrite length_fmap; lia). }
  rewrite (bind_ret _ _ _ _ _ Eset). destruct (Z.leb_spec MAXARGS (Z.of_nat (S (length qs)))); [unfold MAXARGS in *; lia|].
  exists q, e, p2. rewrite length_app, Nat.add_1_r. by split_and!.
Qed.
Lemma parseargs_spec args : forall w k nodes qs rs p rest,
  here buf es p (TWord w :: (TWord <$> args) ++ rtoks rs ++ rest) -> stop rest -> word_ok w -> Forall word_ok args ->
  (length qs + S (length args) < Z.to_nat MAXARGS)%nat -> (S (length args) + length rs < k)%nat ->
  exists qs' ptr p' l, parseargs k (length nodes) (length nodes) (length qs) p es (mksh buf (nodes ++ [exec_node qs])) =
      Ret (ptr, p') (mksh buf (nodes ++ exec_node (qs ++ qs') :: l)) /\
    here buf es p' rest /\ Forall2 (fun qe w => word_at buf (fst qe) (snd qe) w) qs' (w :: args) /\
    chain buf (nodes ++ exec_node (qs ++ qs') :: l) (length nodes) rs ptr.
Proof.
  induction args as [|w' args IH]; intros w k nodes qs rs p rest Hh Hs Hw Hargs Hlen Hk; (destruct k as [|k]; [lia|]); cbn [length] in Hlen, Hk;
    destruct (parseargs_word k nodes qs (length nodes) p w _ Hh Hw ltac:(lia)) as (q & e & p2 & -> & H2 & Hsp).
  - destruct (parseredirs_spec buf es rs k p2 (nodes ++ [exec_node (qs ++ [(q, e)])]) (length nodes) (length nodes) [] rest H2 (stop_no_redir _ Hs)) as (ptr & p3 & l & E3 & H3 & Hch); [lia|apply chain_nil|].
    rewrite (bind_ret _ _ _ _ _ E3). cbv beta iota. rewrite <- app_assoc in Hch |- *. cbn [app] in Hch |- *.
    destruct (parseargs_stop k nodes (qs ++ [(q, e)]) l ptr p3 rest H3 Hs) as (p4 & E4 & H4); [lia|rewrite length_app; cbn [length]; lia|].
    exists [(q, e)], ptr, p4, l. split_and!; [exact E4|done|by constructor|done].
  - apply Forall_cons in Hargs as [Hw' Hargs].
    destruct (parseredirs_none k (length nodes) p2 (nodes ++ [exec_node (qs ++ [(q, e)])]) _ H2 (no_redir_word w' _ Hw')) as (p3 & E3 & H3); [lia|].
    rewrite (bind_ret _ _ _ _ _ E3). cbv beta iota.
    destruct (IH w' k nodes (qs ++ [(q, e)]) rs p3 rest H3 Hs Hw' Hargs) as (qs' & ptr & p' & l & E & H4 & HF & Hch); [rewrite length_app; cbn [length]; lia|lia|].
    rewrite <- app_assoc in E, Hch. exists ((q, e) :: qs'), ptr, p', l. split_and!; [exact E|done|by constructor|exact Hch].
Qed.

(** ** Simple commands *)
Lemma parseexec_simple args rs k p nodes rest :
  here buf es p (toks 3 (wrap (CExec args) rs) ++ rest) -> stop rest -> (length args < Z.to_nat MAXARGS)%nat -> Forall word_ok args ->
  (S (length args) + length rs < k)%nat ->
  exists ptr p' l, parseexec (S k) p es (mksh buf nodes) = Ret (ptr, p') (mksh buf (nodes ++ l)) /\ here buf es p' rest /\ rep buf (nodes ++ l) (wrap (CExec args) rs) ptr.
Proof.
  intros Hh Hs Hlen Hargs Hk. rewrite toks_wrap, <- app_assoc in Hh. cbn [parseexec toks] in *.
  destruct (peek_spec buf es p _ (str "(") nodes Hh) as (p1 & E1 & H1). rewrite (bind_ret _ _ _ _ _ E1). cbv beta iota.
  assert (Hpar : sees (str "(") ((TWord <$> args) ++ rtoks rs ++ rest) = false).
  { destruct args as [|w args]; [|apply word_first; [by apply Forall_cons in Hargs as [? _]|by repeat constructor]].
    destruct rs as [|[r f] rs]; [|by destruct r]. cbn [fmap list_fmap app rtoks concat]. destruct Hs as [->|(c & x & -> & Hc)]; [done|].
    unfold sees. cbn [first]. cbn [str strchr] in Hc. rewrite !orb_true_iff, !Z.eqb_eq in Hc. decompose [or] Hc; subst; done. }
  rewrite Hpar. rewrite (bind_ret execcmd _ (mksh buf nodes) (length nodes) (mksh buf (nodes ++ [exec_node []])) eq_refl).
  destruct args as [|w args].
  - destruct (parseredirs_spec buf es rs k p1 (nodes ++ [exec_node []]) (length nodes) (length nodes) [] rest H1 (stop_no_redir _ Hs)) as (ptr & p3 & l & E3 & H3 & Hch); [cbn in Hk; lia|apply chain_nil|].
    rewrite (bind_ret _ _ _ _ _ E3). cbv beta iota. rewrite <- app_assoc in Hch |- *. cbn [app] in Hch |- *.
    destruct (parseargs_stop k nodes [] l ptr p3 rest H3 Hs) as (p4 & E4 & H4); [lia|done|].
    exists ptr, p4, (exec_node [] :: l). split_and!; [exact E4|done|]. eapply rep_wrap; [|exact Hch]. exists []. split; [by apply list_lookup_middle|done].
  - apply Forall_cons in Hargs as [Hw Hargs].
    destruct (parseredirs_none k (length nodes) p1 (nodes ++ [exec_node []]) _ H1 (no_redir_word w _ Hw)) as (p3 & E3 & H3); [lia|].
    rewrite (bind_ret _ _ _ _ _ E3). cbv beta iota.
    destruct (parseargs_spec args w k nodes [] rs p3 rest H3 Hs Hw Hargs) as (qs' & ptr & p' & l & E & H4 & HF & Hch); [cbn [length] in *; lia|cbn [length] in *; lia|].
    exists ptr, p', (exec_node qs' :: l). split_and!; [exact E|done|]. eapply rep_wrap; [|exact Hch]. exists qs'. split; [by apply list_lookup_middle|done].
Qed.
End Args.

(** ** Pipelines, lists and blocks

    [parses f c ts rest k]: on a line that continues with the tokens [ts] and
    then [rest], the routine [f] builds [c] and stops before [rest]. *)
Section Levels.
Context (buf : list Z) (es : Z).
Definition parses (f : nat -> Z -> Z -> SH (nat * Z)) (c : cmd) (ts rest : list token) (k : nat) : Prop :=
  forall p nodes, here buf es p (ts ++ rest) ->
  exists ptr p' l, f k p es (mksh buf nodes) = Ret (ptr, p') (mksh buf (nodes ++ l)) /\ here buf es p' rest /\ rep buf (nodes ++ l) c ptr.
Definition ends (ps : string) (rest : list token) : Prop := stop rest /\ sees (str ps) rest = false.
Definition exec_ok (c : cmd) : Prop := forall rest k, stop rest -> (4 * length (toks 3 c ++ rest) + 6 <= k)%nat -> parses parseexec c (toks 3 c) rest k.
Definition pipe_ok (c : cmd) : Prop := forall rest k, ends "|" rest -> (4 * length (toks 2 c ++ rest) + 7 <= k)%nat -> parses parsepipe c (toks 2 c) rest k.
Definition backs_of (k : nat) (p es : Z) : SH (nat * Z) := '(cmd, ps) ← parsepipe k p es; parseback k cmd ps es.
Definition back_ok (c : cmd) : Prop := forall rest k, ends "|&" rest -> (4 * length (toks 1 c ++ rest) + 7 <= k)%nat -> parses backs_of c (toks 1 c) rest k.
Definition line_ok (c : cmd) : Prop := forall rest k, ends "|&;" rest -> (4 * length (toks 0 c ++ rest) + 8 <= k)%nat -> parses parseline c (toks 0 c) rest k.

Lemma ends_weaken ps ps' rest : (forall c, strchr (str ps') c = true -> strchr (str ps) c = true) -> ends ps rest -> ends ps' rest.
Proof.
  intros Hsub [Hs Hn]. split; [done|]. unfold sees in *. destruct (first rest =? 0); [done|]. cbn [negb andb] in *.
  destruct (strchr (str ps') (first rest)) eqn:E; [|done]. by rewrite Hsub in Hn.
Qed.
Lemma stop_sym c rest : strchr (str "|)&;") c = true -> stop (TSym c :: rest).
Proof. intros Hc. right. by exists c, rest. Qed.

Lemma pipe_of_exec c : toks 2 c = toks 3 c -> exec_ok c -> pipe_ok c.
Proof.
  intros Et He rest [|k] [Hs Hn] Hk p nodes Hh; [lia|]. rewrite Et in *. destruct (He rest k Hs ltac:(lia) p nodes Hh) as (ptr & p1 & l & E1 & H1 & Hr).
  cbn [parsepipe]. rewrite (bind_ret _ _ _ _ _ E1). cbv beta iota. destruct (peek_spec buf es p1 _ (str "|") (nodes ++ l) H1) as (p2 & E2 & H2).
  rewrite (bind_ret _ _ _ _ _ E2). cbv beta iota. rewrite Hn. by exists ptr, p2, l.
Qed.
Lemma pipe_pipe l r : exec_ok l -> pipe_ok r -> pipe_ok (CPipe l r).
Proof.
  intros Hl Hr rest [|k] [Hs Hn] Hk p nodes Hh; [lia|]. cbn [toks Nat.ltb Nat.leb paren] in Hh, Hk. rewrite <- app_assoc in Hh, Hk. cbn [app] in Hh, Hk.
  set (rest1 := TSym (ch "|") :: toks 2 r ++ rest) in *.
  destruct (Hl rest1 k ltac:(by apply stop_sym) ltac:(lia) p nodes Hh) as (ptr1 & p1 & l1 & E1 & H1 & R1).
  cbn [parsepipe]. rewrite (bind_ret _ _ _ _ _ E1). cbv beta iota. destruct (peek_spec buf es p1 _ (str "|") (nodes ++ l1) H1) as (p2 & E2 & H2).
  rewrite (bind_ret _ _ _ _ _ E2). cbv beta iota. change (sees (str "|") rest1) with true. cbv iota.
  destruct (gettoken_spec buf es p2 _ _ (nodes ++ l1) H2) as (? & ? & p3 & E3 & H3 & _). rewrite (bind_ret _ _ _ _ _ E3). cbv beta iota.
  destruct (Hr rest k ltac:(done) ltac:(unfold rest1 in Hk; rewrite length_app in Hk; cbn [length] in Hk; lia) p3 (nodes ++ l1) H3) as (ptr2 & p4 & l2 & E4 & H4 & R2).
  rewrite (bind_ret _ _ _ _ _ E4). cbv beta iota. set (nd := (nodes ++ l1) ++ l2) in *.
  rewrite (bind_ret (pipecmd ptr1 ptr2) _ (mksh buf nd) (length nd) (mksh buf (nd ++ [PIPE ptr1 ptr2])) eq_refl).
  exists (length nd), p4, (l1 ++ l2 ++ [PIPE ptr1 ptr2]). replace (nodes ++ l1 ++ l2 ++ [PIPE ptr1 ptr2]) with (nd ++ [PIPE ptr1 ptr2]) by (unfold nd; by rewrite <- !app_assoc).
  split_and!; [done|done|]. exists ptr1, ptr2. split_and!; [by apply list_lookup_middle|by apply rep_app, rep_app|by apply rep_app].
Qed.

(** [n] times [&]. *)
Fixpoint backs (n : nat) (c : cmd) : cmd := match n with O => c | S n' => CBack (backs n' c) end.
Lemma backs_back n c : backs n (CBack c) = backs (S n) c.
Proof. induction n as [|n IH]; [done|]. cbn [backs] in *. by rewrite IH. Qed.
Lemma toks_backs n c : toks 1 (backs n c) = toks 1 c ++ replicate n (TSym (ch "&")).
Proof.
  induction n as [|n IH]; cbn [backs]; [by rewrite app_nil_r|]. cbn [toks Nat.ltb Nat.leb paren]. rewrite IH, <- app_assoc. f_equal.
  symmetry. apply (replicate_cons_app n).
Qed.
Lemma parseback_spec n : forall k p nodes c ptr rest, here buf es p (replicate n (TSym (ch "&")) ++ rest) -> sees (str "&") rest = false -> (n < k)%nat -> rep buf nodes c ptr ->
  exists ptr' p' l, parseback k ptr p es (mksh buf nodes) = Ret (ptr', p') (mksh buf (nodes ++ l)) /\ here buf es p' rest /\ rep buf (nodes ++ l) (backs n c) ptr'.
Proof.
  induction n as [|n IH]; intros [|k] p nodes c ptr rest Hh Hn Hk Hr; [lia| |lia|]; cbn [parseback replicate app] in *;
    destruct (peek_spec buf es p _ (str "&") nodes Hh) as (p1 & E1 & H1); rewrite (bind_ret _ _ _ _ _ E1); cbv beta iota.
  - rewrite Hn. exists ptr, p1, []. rewrite app_nil_r. by split_and!.
  - change (sees (str "&") (TSym (ch "&") :: _)) with true. cbv iota.
    destruct (gettoken_spec buf es p1 _ _ nodes H1) as (? & ? & p2 & E2 & H2 & _). rewrite (bind_ret _ _ _ _ _ E2). cbv beta iota.
    rewrite (bind_ret (backcmd ptr) _ (mksh buf nodes) (length nodes) (mksh buf (nodes ++ [BACK ptr])) eq_refl).
    destruct (IH k p2 (nodes ++ [BACK ptr]) (CBack c) (length nodes) rest H2 Hn ltac:(lia)) as (ptr' & p' & l & E & H3 & R).
    { exists ptr. split; [by apply list_lookup_middle|by apply rep_app]. }
    exists ptr', p', (BACK ptr :: l). rewrite E, <- app_assoc in *. split_and!; [done|done|]. by rewrite <- backs_back.
Qed.
Lemma back_of_pipe n c : toks 1 c = toks 2 c -> pipe_ok c -> back_ok (backs n c).
Proof.
  intros Et Hc rest k He Hk p nodes Hh. rewrite toks_backs, Et, <- app_assoc in Hh, Hk. set (rest1 := replicate n _ ++ rest) in *.
  assert (He1 : ends "|" rest1).
  { unfold rest1. destruct n as [|n]; [|split; [by apply stop_sym|done]]. apply (ends_weaken "|&"); [|done]. cbn [str strchr]. intros x. rewrite !orb_true_iff. tauto. }
  destruct (Hc rest1 k He1 ltac:(lia) p nodes Hh) as (ptr1 & p1 & l1 & E1 & H1 & R1). unfold backs_of. rewrite (bind_ret _ _ _ _ _ E1). cbv beta iota.
  assert (Hn : sees (str "&") rest = false) by (apply (ends_weaken "|&" "&") in He as [_ ?]; [done|]; cbn [str strchr]; intros x; rewrite !orb_true_iff; tauto).
  destruct (parseback_spec n k p1 (nodes ++ l1) c ptr1 rest H1 Hn) as (ptr2 & p2 & l2 & E2 & H2 & R2); [|done|].
  { unfold rest1 in Hk. rewrite !length_app, length_replicate in Hk. lia. }
  exists ptr2, p2, (l1 ++ l2). rewrite app_assoc. by split_and!.
Qed.

(** parseline, after the pipeline and its [&]s. *)
Lemma parseline_eq k p : forall st, parseline (S k) p es st =
  ('(cmd, ps) ← backs_of k p es;
   '(b, ps) ← peek ps es (str ";");
   if (b : bool) then
     '(_, _, _, ps) ← gettoken ps es; '(rcmd, ps) ← parseline k ps es; cmd ← listcmd cmd rcmd; mret (cmd, ps)
   else mret (cmd, ps)) st.
Proof. intros st. cbn [parseline]. unfold backs_of, mbind, M_bind. by destruct (parsepipe k p es st) as [[c q] st'| | | |]. Qed.
Lemma line_of_back c : toks 0 c = toks 1 c -> back_ok c -> line_ok c.
Proof.
  intros Et Hc rest [|k] He Hk p nodes Hh; [lia|]. rewrite Et in *.
  assert (He1 : ends "|&" rest) by (apply (ends_weaken "|&;"); [|done]; cbn [str strchr]; intros x; rewrite !orb_true_iff; tauto).
  assert (Hn : sees (str ";") rest = false) by (apply (ends_weaken "|&;" ";") in He as [_ ?]; [done|]; cbn [str strchr]; intros x; rewrite !orb_true_iff; tauto).
  destruct (Hc rest k He1 ltac:(lia) p nodes Hh) as (ptr & p1 & l & E1 & H1 & R). rewrite parseline_eq, (bind_ret _ _ _ _ _ E1). cbv beta iota.
  destruct (peek_spec buf es p1 _ (str ";") (nodes ++ l) H1) as (p2 & E2 & H2). rewrite (bind_ret _ _ _ _ _ E2). cbv beta iota. rewrite Hn. by exists ptr, p2, l.
Qed.
Lemma line_list a b : back_ok a -> line_ok b -> line_ok (CList a b).
Proof.
  intros Ha Hb rest [|k] He Hk p nodes Hh; [lia|]. cbn [toks Nat.ltb Nat.leb paren] in Hh, Hk. rewrite <- app_assoc in Hh, Hk. cbn [app] in Hh, Hk.
  set (rest1 := TSym (ch ";") :: toks 0 b ++ rest) in *.
  destruct (Ha rest1 k ltac:(split; [by apply stop_sym|done]) ltac:(lia) p nodes Hh) as (ptr1 & p1 & l1 & E1 & H1 & R1).
  rewrite parseline_eq, (bind_ret _ _ _ _ _ E1). cbv beta iota. destruct (peek_spec buf es p1 _ (str ";") (nodes ++ l1) H1) as (p2 & E2 & H2).
  rewrite (bind_ret _ _ _ _ _ E2). cbv beta iota. change (sees (str ";") rest1) with true. cbv iota.
  destruct (gettoken_spec buf es p2 _ _ (nodes ++ l1) H2) as (? & ? & p3 & E3 & H3 & _). rewrite (bind_ret _ _ _ _ _ E3). cbv beta iota.
  destruct (Hb rest k He ltac:(unfold rest1 in Hk; rewrite length_app in Hk; cbn [length] in Hk; lia) p3 (nodes ++ l1) H3) as (ptr2 & p4 & l2 & E4 & H4 & R2).
  rewrite (bind_ret _ _ _ _ _ E4). cbv beta iota. set (nd := (nodes ++ l1) ++ l2) in *.
  rewrite (bind_ret (listcmd ptr1 ptr2) _ (mksh buf nd) (length nd) (mksh buf (nd ++ [LIST ptr1 ptr2])) eq_refl).
  exists (length nd), p4, (l1 ++ l2 ++ [LIST ptr1 ptr2]). replace (nodes ++ l1 ++ l2 ++ [LIST ptr1 ptr2]) with (nd ++ [LIST ptr1 ptr2]) by (unfold nd; by rewrite <- !app_assoc).
  split_and!; [done|done|]. exists ptr1, ptr2. split_and!; [by apply list_lookup_middle|by apply rep_app, rep_app|by apply rep_app].
Qed.
Lemma length_rtoks rs : (length rs <= length (rtoks rs))%nat.
Proof. unfold rtoks. induction rs as [|x rs IH]; cbn; lia. Qed.
(** A block in parentheses, and its redirections. *)
Lemma exec_block c rs : toks 3 c = paren true (toks 0 c) -> line_ok c -> exec_ok (wrap c rs).
Proof.
  intros Et Hc rest k Hs Hk p nodes Hh. rewrite toks_wrap, Et in Hh, Hk. cbn [paren] in Hh, Hk. cbn [app] in Hh, Hk. rewrite <- !app_assoc in Hh, Hk. cbn [app] in Hh, Hk.
  set (rest1 := TSym (ch ")") :: rtoks rs ++ rest) in *. destruct k as [|k]; [lia|]. destruct k as [|k]; [lia|]. cbn [length] in Hk.
  cbn [parseexec]. destruct (peek_spec buf es p _ (str "(") nodes Hh) as (p1 & E1 & H1). rewrite (bind_ret _ _ _ _ _ E1). cbv beta iota.
  change (sees (str "(") (TSym (ch "(") :: _)) with true. cbv iota. cbn [parseblock]. destruct (peek_spec buf es p1 _ (str "(") nodes H1) as (p2 & E2 & H2).
  rewrite (bind_ret _ _ _ _ _ E2). cbv beta iota. change (sees (str "(") (TSym (ch "(") :: _)) with true. cbn [negb].
  destruct (gettoken_spec buf es p2 _ _ nodes H2) as (? & ? & p3 & E3 & H3 & _). rewrite (bind_ret _ _ _ _ _ E3). cbv beta iota.
  destruct (Hc rest1 k ltac:(split; [by apply stop_sym|done]) ltac:(lia) p3 nodes H3) as (ptr1 & p4 & l1 & E4 & H4 & R1). rewrite (bind_ret _ _ _ _ _ E4). cbv beta iota.
  destruct (peek_spec buf es p4 _ (str ")") (nodes ++ l1) H4) as (p5 & E5 & H5). rewrite (bind_ret _ _ _ _ _ E5). cbv beta iota.
  change (sees (str ")") rest1) with true. cbn [negb]. destruct (gettoken_spec buf es p5 _ _ (nodes ++ l1) H5) as (? & ? & p6 & E6 & H6 & _). rewrite (bind_ret _ _ _ _ _ E6). cbv beta iota.
  destruct (parseredirs_spec buf es rs k p6 (nodes ++ l1) ptr1 ptr1 [] rest H6 (stop_no_redir _ Hs)) as (ptr & p7 & l2 & E7 & H7 & Hch); [|apply chain_nil|].
  { unfold rest1 in Hk. rewrite !length_app in Hk. cbn [length] in Hk. rewrite length_app in Hk. pose proof (length_rtoks rs). lia. }
  exists ptr, p7, (l1 ++ l2). rewrite app_assoc. split_and!; [done|done|]. eapply rep_wrap; [by apply rep_app|exact Hch].
Qed.
Lemma exec_simple args rs : cmd_ok (CExec args) -> exec_ok (wrap (CExec args) rs).
Proof.
  intros [Hlen Hargs] rest [|k] Hs Hk p nodes Hh; [lia|]. apply parseexec_simple; try done.
  rewrite toks_wrap in Hk. cbn [toks] in Hk. rewrite !length_app, length_fmap in Hk. pose proof (length_rtoks rs). lia.
Qed.

(** ** Every command *)
Fixpoint size (c : cmd) : nat :=
  match c with CExec _ => 1 | CRedir d _ _ | CBack d => S (size d) | CPipe l r | CList l r => S (size l + size r) end.
Lemma unwrap c : exists b rs, c = wrap b rs /\ (size b <= size c)%nat /\ (cmd_ok c -> cmd_ok b) /\ match b with CRedir _ _ _ => False | _ => True end.
Proof.
  induction c as [args|d IH r f| | |]; [by eexists _, []| |by eexists _, []..].
  destruct IH as (b & rs & -> & Hsz & Hok & Hb). exists b, (rs ++ [(r, f)]). unfold wrap. rewrite foldl_app. cbn [foldl fst snd size cmd_ok]. split_and!; [done| |tauto|done]. unfold wrap in Hsz. lia.
Qed.
Lemma unback c : exists n b, c = backs n b /\ (size b <= size c)%nat /\ (cmd_ok c -> cmd_ok b) /\ toks 1 b = toks 2 b.
Proof.
  induction c as [args|d IH r f| | |d IH]; [by exists 0%nat; eexists|by exists 0%nat; eexists..|].
  destruct IH as (n & b & -> & Hsz & Hok & Hb). exists (S n), b. cbn [backs size cmd_ok]. split_and!; [done|lia|done|done].
Qed.
Definition all_ok (c : cmd) : Prop := exec_ok c /\ pipe_ok c /\ back_ok c /\ line_ok c.
Lemma block_line b : (forall d, (size d < size b)%nat -> cmd_ok d -> all_ok d) -> cmd_ok b ->
  match b with CExec _ | CRedir _ _ _ => False | _ => True end -> line_ok b.
Proof.
  intros IH Hok Hb. destruct b as [| |l r|l r|d]; try done; cbn [size] in IH; cbn [cmd_ok] in Hok.
  - apply line_of_back; [done|]. apply (back_of_pipe 0); [done|]. apply pipe_pipe; apply IH; [lia|tauto|lia|tauto].
  - apply line_list; apply IH; [lia|tauto|lia|tauto].
  - apply line_of_back; [done|]. destruct (unback d) as (n & b & -> & Hsz & Hbok & Eb). apply (back_of_pipe (S n) b); [done|]. apply IH; [lia|by apply Hbok].
Qed.
Lemma parse_all n : forall c, (size c < n)%nat -> cmd_ok c -> all_ok c.
Proof.
  induction n as [|n IH]; intros c Hn Hok; [lia|].
  assert (He : exec_ok c).
  { destruct (unwrap c) as (b & rs & -> & Hsz & Hbok & Hb). specialize (Hbok Hok). destruct b as [args| | | |]; [by apply exec_simple|done|..];
      (apply exec_block; [done|]; apply block_line; [|done|done]; intros d Hd; apply IH; lia). }
  assert (Hp : pipe_ok c).
  { destruct c as [| |l r| |]; try (by apply pipe_of_exec). cbn [size] in Hn. cbn [cmd_ok] in Hok.
    apply pipe_pipe; apply IH; [lia|tauto|lia|tauto]. }
  assert (Hk : back_ok c).
  { destruct c as [| | | |d]; [by apply (back_of_pipe 0)..|]. cbn [size] in Hn. destruct (unback d) as (m & b & -> & Hsz & Hbok & Eb).
    apply (back_of_pipe (S m) b); [done|]. apply IH; [lia|by apply Hbok]. }
  split_and!; [done..|]. destruct c as [| | |l r|]; try (by apply line_of_back). apply block_line; [|done|done]. intros d Hd. apply IH. lia.
Qed.
End Levels.

(** ** nulterminate

    The ends of words become NULs; nothing else of the buffer changes. *)
Definition keeps (b b' : list Z) : Prop := forall x, at_ b' x = at_ b x \/ (wordc (at_ b x) = false /\ at_ b' x = 0).
Definition cstr (buf : list Z) (q : Z) (w : list Z) : Prop :=
  0 <= q /\ (forall k c, w !! k = Some c -> at_ buf (q + Z.of_nat k) = c) /\ at_ buf (q + Z.of_nat (length w)) = 0.
(** The tree that runcmd walks: the command [c] at [ptr], its strings ended. *)
Fixpoint holds (buf : list Z) (nodes : list node) (c : cmd) (ptr : nat) : Prop :=
  match c with
  | CExec args => exists qs eargv, nodes !! ptr = Some (EXEC (arr qs) eargv) /\ Forall2 (cstr buf) qs args
  | CRedir d r f => exists d' q e, nodes !! ptr = Some (REDIR d' q e (rmode r) (rfd r)) /\ cstr buf q f /\ holds buf nodes d d'
  | CPipe l r => exists l' r', nodes !! ptr = Some (PIPE l' r') /\ holds buf nodes l l' /\ holds buf nodes r r'
  | CList l r => exists l' r', nodes !! ptr = Some (LIST l' r') /\ holds buf nodes l l' /\ holds buf nodes r r'
  | CBack d => exists d', nodes !! ptr = Some (BACK d') /\ holds buf nodes d d'
  end.

Lemma keeps_trans a b c : keeps a b -> keeps b c -> keeps a c.
Proof.
  intros H1 H2 x. destruct (H1 x) as [E1|[W1 E1]], (H2 x) as [E2|[W2 E2]]; rewrite ?E1 in *; auto.
Qed.
Lemma keeps_zero a b x : keeps a b -> at_ a x = 0 -> at_ b x = 0.
Proof. intros H Hz. destruct (H x) as [E|[_ E]]; congruence. Qed.
Lemma keeps_word a b x : keeps a b -> wordc (at_ a x) = true -> at_ b x = at_ a x.
Proof. intros H Hz. destruct (H x) as [E|[W _]]; congruence. Qed.
Lemma keeps_word_at a b q e w : keeps a b -> word_at a q e w -> word_at b q e w.
Proof.
  intros Hk [Hp He Ha Hw Hs]. split; [done|done| |done|].
  - intros k c Hc. rewrite <- (Ha k c Hc). apply (keeps_word a b); [done|]. rewrite (Ha k c Hc). destruct Hw as [_ Hw]. exact (Forall_lookup_1 _ w k c Hw Hc).
  - destruct (Hk e) as [E|[_ E]]; rewrite E; done.
Qed.
Lemma keeps_cstr a b q w : keeps a b -> word_ok w -> cstr a q w -> cstr b q w.
Proof.
  intros Hk [_ Hw] (Hp & Ha & Hz). split_and!; [done| |by eapply keeps_zero]. intros k c Hc. rewrite <- (Ha k c Hc). apply (keeps_word a b); [done|].
  rewrite (Ha k c Hc). exact (Forall_lookup_1 _ w k c Hw Hc).
Qed.
Lemma keeps_cstrs a b qs ws : keeps a b -> Forall word_ok ws -> Forall2 (cstr a) qs ws -> Forall2 (cstr b) qs ws.
Proof. intros Hk Hw. induction 1; [done|]. apply Forall_cons in Hw as [? ?]. constructor; [by eapply keeps_cstr|auto]. Qed.
Lemma keeps_holds a b nodes c : keeps a b -> cmd_ok c -> forall ptr, holds a nodes c ptr -> holds b nodes c ptr.
Proof.
  intros Hk. induction c as [args|d IH r f|x IHx y IHy|x IHx y IHy|d IH]; cbn [cmd_ok holds]; intros Hok ptr.
  - intros (qs & ea & E & Hq). exists qs, ea. split; [done|]. by eapply keeps_cstrs; [|apply Hok|].
  - intros (d' & q & e & E & Hc & Hd). exists d', q, e. split_and!; [done|eapply keeps_cstr; naive_solver|naive_solver].
  - intros (l' & r' & E & Hl & Hr). exists l', r'. naive_solver.
  - intros (l' & r' & E & Hl & Hr). exists l', r'. naive_solver.
  - intros (d' & E & Hd). exists d'. naive_solver.
Qed.
Lemma put_nul_spec buf nodes q e w : word_at buf q e w ->
  exists b', put_nul (Some e) (mksh buf nodes) = Ret tt (mksh b' nodes) /\ keeps buf b' /\ cstr b' q w.
Proof.
  intros Hw. exists (<[Z.to_nat e := 0]> buf).
  assert (Hz : forall x, at_ (<[Z.to_nat e := 0]> buf) x = if decide (Z.to_nat x = Z.to_nat e) then 0 else at_ buf x).
  { intros x. unfold at_. destruct (decide _) as [E|N]; [|by rewrite list_lookup_insert_ne by done]. rewrite E.
    destruct (decide (Z.to_nat e < length buf)%nat); [by rewrite list_lookup_insert_eq|]. rewrite lookup_ge_None_2; [done|]. rewrite length_insert. lia. }
  assert (Hk : keeps buf (<[Z.to_nat e := 0]> buf)).
  { intros x. rewrite Hz. destruct (decide _) as [E|]; [|by left]. right. split; [|done]. pose proof (wa_stop _ _ _ _ Hw) as Hs. unfold at_ in *. by rewrite E. }
  split_and!; [done|done|]. pose proof (keeps_word_at _ _ _ _ _ Hk Hw) as Hw'. split_and!; [apply Hw'..|]. rewrite <- (wa_end _ _ _ _ Hw), Hz. by destruct (decide _).
Qed.
Lemma nul_args_spec nodes m ws : forall qs buf, Forall2 (fun qe w => word_at buf (fst qe) (snd qe) w) qs ws -> Forall word_ok ws ->
  exists b', nul_args ((Some <$> (fst <$> qs)) ++ replicate m None) ((Some <$> (snd <$> qs)) ++ replicate m None) (mksh buf nodes) = Ret tt (mksh b' nodes) /\
    keeps buf b' /\ Forall2 (cstr b') (fst <$> qs) ws.
Proof.
  induction ws as [|w ws IH]; intros qs buf Hq Hok.
  - inversion Hq; subst. exists buf. split_and!; [by destruct m|by left|done].
  - inversion Hq as [|[q e] ? qs' ? Hw Hq']; subst. apply Forall_cons in Hok as [Hwok Hok]. cbn [fmap list_fmap fst snd app nul_args].
    destruct (put_nul_spec buf nodes q e w Hw) as (b1 & E1 & K1 & C1).
    destruct (IH qs' b1) as (b2 & E2 & K2 & C2); [|done|].
    { eapply Forall2_impl; [exact Hq'|]. intros ? ?. by apply keeps_word_at. }
    exists b2. rewrite (bind_ret _ _ _ _ _ E1). split_and!; [done|by eapply keeps_trans|]. constructor; [by eapply keeps_cstr|done].
Qed.
Lemma rep_keeps a b nodes c : keeps a b -> forall ptr, rep a nodes c ptr -> rep b nodes c ptr.
Proof.
  intros Hk. induction c as [args|d IH r f|x IHx y IHy|x IHx y IHy|d IH]; cbn [rep]; intros ptr.
  - intros (qs & E & Hq). exists qs. split; [done|]. eapply Forall2_impl; [exact Hq|]. intros ? ?. by apply keeps_word_at.
  - intros (d' & q & e & E & Hc & Hd). exists d', q, e. split_and!; [done|by eapply keeps_word_at|auto].
  - intros (l' & r' & E & Hl & Hr). exists l', r'. auto.
  - intros (l' & r' & E & Hl & Hr). exists l', r'. auto.
  - intros (d' & E & Hd). exists d'. auto.
Qed.
Fixpoint depth (c : cmd) : nat :=
  match c with CExec _ => 1 | CRedir d _ _ | CBack d => S (depth d) | CPipe l r | CList l r => S (Nat.max (depth l) (depth r)) end.
Lemma length_paren b ts : (length ts <= length (paren b ts))%nat.
Proof. destruct b; cbn [paren length]; rewrite ?length_app; lia. Qed.
Lemma depth_toks c : forall lvl, (depth c <= S (length (toks lvl c)))%nat.
Proof.
  induction c as [args|d IH r f|x IHx y IHy|x IHx y IHy|d IH]; intros lvl; cbn [depth toks]; [lia|..].
  - specialize (IH 3%nat). rewrite length_app. cbn [length]. lia.
  - etrans; [|apply le_n_S, length_paren]. rewrite length_app. cbn [length]. specialize (IHx 3%nat). specialize (IHy 2%nat). lia.
  - etrans; [|apply le_n_S, length_paren]. rewrite length_app. cbn [length]. specialize (IHx 1%nat). specialize (IHy 0%nat). lia.
  - etrans; [|apply le_n_S, length_paren]. rewrite length_app. cbn [length]. specialize (IH 1%nat). lia.
Qed.
Definition nul_ok (nodes : list node) (c : cmd) : Prop := forall k buf ptr, rep buf nodes c ptr -> cmd_ok c -> (depth c <= k)%nat ->
  exists b', nulterminate k ptr (mksh buf nodes) = Ret tt (mksh b' nodes) /\ keeps buf b' /\ holds b' nodes c ptr.
Lemma nulterminate_step k buf nodes ptr n : nodes !! ptr = Some n -> nulterminate (S k) ptr (mksh buf nodes) =
  match n with
  | EXEC argv eargv => nul_args argv eargv
  | REDIR c _ efile _ _ => nulterminate k c;; put_nul (Some efile)
  | PIPE l r | LIST l r => nulterminate k l;; nulterminate k r
  | BACK c => nulterminate k c
  end (mksh buf nodes).
Proof. intros E. cbn [nulterminate]. unfold mbind at 1, M_bind, gets. cbn [sh_node]. rewrite E. by destruct n. Qed.
Lemma nul_two nodes x y k buf l r : nul_ok nodes x -> nul_ok nodes y ->
  rep buf nodes x l -> rep buf nodes y r -> cmd_ok x /\ cmd_ok y -> (Nat.max (depth x) (depth y) <= k)%nat ->
  exists b', (nulterminate k l;; nulterminate k r) (mksh buf nodes) = Ret tt (mksh b' nodes) /\ keeps buf b' /\ holds b' nodes x l /\ holds b' nodes y r.
Proof.
  intros IHx IHy Hl Hr [Hx Hy] Hk. destruct (IHx k buf l Hl Hx ltac:(lia)) as (b1 & E1 & K1 & R1).
  destruct (IHy k b1 r (rep_keeps _ _ _ _ K1 _ Hr) Hy ltac:(lia)) as (b2 & E2 & K2 & R2). exists b2. rewrite (bind_ret _ _ _ _ _ E1).
  split_and!; [done|by eapply keeps_trans|by eapply keeps_holds|done].
Qed.
Lemma nulterminate_spec nodes c : nul_ok nodes c.
Proof.
  induction c as [args|d IH r f|x IHx y IHy|x IHx y IHy|d IH]; intros [|k] buf ptr; cbn [rep cmd_ok depth]; try (intros; lia).
  - intros (qs & E & Hq) [_ Hok] _. rewrite (nulterminate_step _ _ _ _ _ E). unfold exec_node, arr in *. rewrite !(length_fmap fst), !(length_fmap snd) in *.
    destruct (nul_args_spec nodes (Z.to_nat MAXARGS - length qs) args qs buf Hq Hok) as (b' & E' & K & C). exists b'. split_and!; [done|done|].
    eexists (fst <$> qs), _. unfold arr. by rewrite (length_fmap fst).
  - intros (d' & q & e & E & Hw & Hd) [Hdk Hf] Hk. rewrite (nulterminate_step _ _ _ _ _ E).
    destruct (IH k buf d' Hd Hdk ltac:(lia)) as (b1 & E1 & K1 & R1). rewrite (bind_ret _ _ _ _ _ E1).
    destruct (put_nul_spec b1 nodes q e f (keeps_word_at _ _ _ _ _ K1 Hw)) as (b2 & E2 & K2 & C2). exists b2.
    split_and!; [done|by eapply keeps_trans|]. exists d', q, e. split_and!; [done|done|by eapply keeps_holds].
  - intros (l' & r' & E & Hl & Hr) Hok Hk. rewrite (nulterminate_step _ _ _ _ _ E).
    destruct (nul_two nodes x y k buf l' r' IHx IHy Hl Hr Hok ltac:(lia)) as (b' & E' & K & R1 & R2). exists b'. split_and!; [done|done|]. by exists l', r'.
  - intros (l' & r' & E & Hl & Hr) Hok Hk. rewrite (nulterminate_step _ _ _ _ _ E).
    destruct (nul_two nodes x y k buf l' r' IHx IHy Hl Hr Hok ltac:(lia)) as (b' & E' & K & R1 & R2). exists b'. split_and!; [done|done|]. by exists l', r'.
  - intros (d' & E & Hd) Hok Hk. rewrite (nulterminate_step _ _ _ _ _ E).
    destruct (IH k buf d' Hd Hok ltac:(lia)) as (b' & E' & K & R). exists b'. split_and!; [done|done|]. by exists d'.
Qed.

(** ** parsecmd *)
Lemma ltrim_nonzero t : Forall (fun c => c <> 0) (ltrim t) -> Forall (fun c => c <> 0) t.
Proof.
  induction t as [|c t IH]; [done|]. cbn [ltrim]. destruct (is_space c) eqn:E; [|done]. intros H. apply Forall_cons. split; [|auto]. intros ->. done.
Qed.
Lemma lex_nonzero t ts : lex t ts -> Forall (fun c => c <> 0) t.
Proof.
  induction 1 as [t E|t c r ts E Hc _ IH|t r ts E _ _ IH|t r ts E _ IH|t w r ts E [_ Hw] _ _ IH]; apply ltrim_nonzero; rewrite E; [done|..].
  - apply Forall_cons. split; [by apply single_nonzero|done].
  - by apply Forall_cons.
  - apply Forall_cons. split; [done|]. by apply Forall_cons.
  - apply Forall_app. split; [|done]. eapply Forall_impl; [exact Hw|]. intros x Hx. by apply word_head.
Qed.
Lemma strlen_app t rest : Forall (fun c => c <> 0) t -> strlen (t ++ 0 :: rest) = Z.of_nat (length t).
Proof. induction 1 as [|c t Hc _ IH]; [done|]. cbn [app strlen length]. destruct (Z.eqb_spec c 0); [done|]. rewrite IH. lia. Qed.

Lemma line_suf pre t post : Forall (fun c => c <> 0) t -> suf (pre ++ t ++ 0 :: post) (Z.of_nat (length pre) + Z.of_nat (length t)) (Z.of_nat (length pre)) t.
Proof.
  intros Hnz. split; [lia|done|..].
  - unfold at_. rewrite <- Nat2Z.inj_add, Nat2Z.id, <- length_app, app_assoc. by rewrite list_lookup_middle.
  - intros k x Hx. split; [|exact (Forall_lookup_1 _ t k x Hnz Hx)]. unfold at_.
    rewrite <- Nat2Z.inj_add, Nat2Z.id, lookup_app_r by lia. replace (_ - _)%nat with k by lia. by rewrite (lookup_app_l_Some _ _ _ _ Hx).
Qed.
Lemma line_here pre t post ts : lex t ts -> here (pre ++ t ++ 0 :: post) (Z.of_nat (length pre) + Z.of_nat (length t)) (Z.of_nat (length pre)) ts.
Proof. intros Hl. exists t. split; [|done]. apply line_suf. by eapply lex_nonzero. Qed.

(** parsecmd parses the command language.  For every command [c] of the grammar
    (at most MAXARGS-1 arguments, words without blanks and symbols) and every
    line that spells its tokens, with any blanks between them, anywhere in the
    buffer, it returns a tree for exactly [c]: the operators bind as the grammar
    says, each argument vector holds the words in order and ends in a null, each
    redirection has the file, the mode and the descriptor of its operator, and
    every string of the tree ends where its word ends. *)
Lemma parsecmd_parses c pre t post nodes : cmd_ok c -> lex t (toks 0 c) ->
  exists ptr buf' l, parsecmd (Z.of_nat (length pre)) (mksh (pre ++ t ++ 0 :: post) nodes) = Ret ptr (mksh buf' (nodes ++ l)) /\
    holds buf' (nodes ++ l) c ptr.
Proof.
  intros Hok Hl. pose proof (line_here pre t post _ Hl) as Hh. remember (pre ++ t ++ 0 :: post) as buf eqn:Eb.
  assert (Es : strlen (drop (Z.to_nat (Z.of_nat (length pre))) buf) = Z.of_nat (length t)).
  { rewrite Nat2Z.id, Eb, drop_app_length. apply strlen_app. by eapply lex_nonzero. }
  unfold parsecmd. rewrite bind_gets. cbn [sh_buf]. cbv zeta. rewrite Es. pose proof (lex_length t _ Hl) as Hlen.
  set (s := Z.of_nat (length pre)) in *. remember (s + Z.of_nat (length t)) as es eqn:Ees. rewrite <- (app_nil_r (toks 0 c)) in Hh.
  destruct (parse_all buf es (S (size c)) c ltac:(lia) Hok) as (_ & _ & _ & Hline).
  destruct (Hline [] (parse_fuel es) ltac:(split; [by left|done]) ltac:(rewrite app_nil_r; unfold parse_fuel; lia) s nodes Hh) as (ptr & p1 & l & E1 & H1 & R1).
  rewrite (bind_ret _ _ _ _ _ E1). cbv beta iota. unfold peek. rewrite bind_assoc, bind_gets. cbn [sh_buf]. rewrite (here_end _ _ _ H1).
  rewrite (bind_ret (mret _) _ _ _ _ eq_refl). cbv beta iota. rewrite Z.eqb_refl. cbn [negb].
  destruct (nulterminate_spec (nodes ++ l) c (parse_fuel es) buf ptr R1 Hok) as (b' & E2 & _ & H2).
  { pose proof (depth_toks c 0). unfold parse_fuel. lia. }
  exists ptr, b', l. by rewrite (bind_ret _ _ _ _ _ E2).
Qed.
