(* ===== verification/ShellRun.v ===== *)
(** * What runcmd runs

    A process's descriptors against the kernel's rules: close frees an entry of
    the table, open, dup and pipe take the lowest free ones, fork copies the
    table.  Interpreting the system calls of runcmd gives the processes it
    starts, each with the table its program gets; [plan] says what the command
    language means by them, without a word about descriptors being closed or
    duplicated. *)

From S2P Require Import Prelude FsState State Sched Proc Sysfile Shell ShellSpec ShellProps.
From Stdlib Require Import Ascii.

(** ** Descriptor tables *)
Inductive obj := OConsole | OFile (name : list Z) (mode : Z) | OPipeR (id : nat) | OPipeW (id : nat).
Notation fds := (list (option obj)).
Fixpoint first_free {A} (t : list (option A)) : option nat :=
  match t with [] => None | None :: _ => Some 0%nat | Some _ :: r => S <$> first_free r end.
Definition fd_open (t : fds) (o : obj) : Z * fds :=
  match first_free t with Some i => (Z.of_nat i, <[i := Some o]> t) | None => (-1, t) end.
Definition fd_close (t : fds) (fd : Z) : fds := <[Z.to_nat fd := None]> t.
Definition fd_obj (t : fds) (fd : Z) : option obj := default None (t !! Z.to_nat fd).
Definition fd_dup (t : fds) (fd : Z) : fds := match fd_obj t fd with Some o => snd (fd_open t o) | None => t end.

(** ** Interpretation *)
Inductive job :=
| JRun (path : list Z) (argv : list (list Z)) (t : fds)
| JExit (status : Z)
| JFork (child parent : job)
| JWait (rest : job)
| JWrite (o : option obj) (bytes : list Z) (rest : job)
| JStuck.

Section Run.
(** Which opens and execs succeed; fork and wait do. *)
Context (opens : list Z -> Z -> bool) (execs : list Z -> bool).
(** [n] is the number of the next pipe. *)
Fixpoint run (p : prog) (t : fds) (n : nat) : job * nat :=
  match p with
  | Exit s => (JExit s, n)
  | Close fd k => run k (fd_close t fd) n
  | Open f m k =>
      if opens f m then let '(fd, t') := fd_open t (OFile f m) in run (k fd) t' n else run (k (-1)) t n
  | Dup fd k => run k (fd_dup t fd) n
  | Pipe k =>
      let '(p0, t0) := fd_open t (OPipeR n) in
      let '(p1, t1) := fd_open t0 (OPipeW n) in
      if (p0 <? 0) || (p1 <? 0) then run (k (-1) 0 0) t n else run (k 0 p0 p1) t1 (S n)
  | Fork k => let '(c, n1) := run (k 0) t n in let '(q, n2) := run (k 1) t n1 in (JFork c q, n2)
  | Wait k => let '(j, n') := run k t n in (JWait j, n')
  | Exec path argv k => if execs path then (JRun path argv t, n) else run k t n
  | Write fd bs k => let '(j, n') := run k t n in (JWrite (fd_obj t fd) bs j, n')
  | ReadChar _ _ | Chdir _ _ | Crash | OutOfFuel => (JStuck, n)
  end.

(** ** What a command means *)
Definition say (t : fds) (msg : list Z) (j : job) : job := foldr (fun c j => JWrite (fd_obj t 2) [c] j) j msg.
Fixpoint plan (c : cmd) (t : fds) (n : nat) : job * nat :=
  match c with
  | CExec [] => (JExit 1, n)
  | CExec (w :: args) =>
      if execs w then (JRun w (w :: args) t, n) else (say t (str "exec " ++ w ++ str " failed" ++ nl) (JExit 0), n)
  | CRedir d r f =>
      if opens f (rmode r) then plan d (<[Z.to_nat (rfd r) := Some (OFile f (rmode r))]> t) n
      else (say (fd_close t (rfd r)) (str "open " ++ f ++ str " failed" ++ nl) (JExit 1), n)
  | CPipe l r =>
      let '(a, n1) := plan l (<[1%nat := Some (OPipeW n)]> t) (S n) in
      let '(b, n2) := plan r (<[0%nat := Some (OPipeR n)]> t) n1 in
      (JFork a (JFork b (JWait (JWait (JExit 0)))), n2)
  | CList l r =>
      let '(a, n1) := plan l t n in
      let '(b, n2) := plan r t n1 in
      (JFork a (JWait b), n2)
  | CBack d => let '(a, n1) := plan d t n in (JFork a (JExit 0), n1)
  end.
End Run.

(** ** Tables *)

(** The kernel's fdalloc takes the lowest free entry too. *)
Lemma find_free {A} (P : option A -> bool) (l : list (option A)) : P None = true -> (forall x, P (Some x) = false) -> forall m f,
  (forall i, (i < length l)%nat -> f (m + i)%nat = P (default None (l !! i))) -> find f (seq m (length l)) = (fun i => (m + i)%nat) <$> first_free l.
Proof.
  intros PN PS. induction l as [|[x|] l IH]; intros m f Hf; [done|..]; cbn [length seq find]; pose proof (Hf 0%nat ltac:(cbn; lia)) as H0;
    rewrite Nat.add_0_r in H0; cbn in H0; rewrite H0.
  - rewrite PS. rewrite (IH (S m) f); [cbn [first_free]; destruct (first_free l); cbn; [f_equal; lia|done]|].
    intros i Hi. replace (S m + i)%nat with (m + S i)%nat by lia. apply (Hf (S i)). cbn. lia.
  - rewrite PN. cbn. by rewrite Nat.add_0_r.
Qed.
Lemma fdalloc_lowest f s p : k_cur s = Some p -> length (p_ofile (pr s p)) = Z.to_nat NOFILE ->
  fdalloc f s =
  match first_free (p_ofile (pr s p)) with
  | Some i => Ret (Z.of_nat i) (s <| k_proc := alter (fun q => q <| p_ofile := <[i := Some f]> (p_ofile q) |>) p (k_proc s) |>)
  | None => Ret (-1) s
  end.
Proof.
  intros Hp Hlen. unfold fdalloc, myproc. rewrite bind_assoc, bind_gets, Hp. rewrite (bind_ret (mret p) _ s p s eq_refl), bind_gets, <- Hlen.
  rewrite (find_free (fun x : option nat => bool_decide (x = None)) (p_ofile (pr s p)) ltac:(by apply bool_decide_eq_true_2) ltac:(intros; by apply bool_decide_eq_false_2) 0) by done. destruct (first_free _) as [i|]; [|done]. cbn. unfold set_fd, set_pr, modify.
  by rewrite Nat2Z.id.
Qed.

(** Standard input and output are open, and there is room for a pipe. *)
Record fds_ok (t : fds) : Prop := {
  fo_in : exists o, t !! 0%nat = Some (Some o);
  fo_out : exists o, t !! 1%nat = Some (Some o);
  fo_room : exists i j, (i < j)%nat /\ t !! i = Some None /\ t !! j = Some None
}.
Lemma first_free_some (t : fds) i : t !! i = Some None -> exists k, first_free t = Some k /\ (k <= i)%nat /\ t !! k = Some None.
Proof.
  revert i. induction t as [|[o|] t IH]; intros i Hi; [done| |by exists 0%nat; split_and!; [|lia|]].
  destruct i as [|i]; [done|]. destruct (IH i Hi) as (k & E & Hk & Hn). exists (S k). cbn [first_free]. rewrite E. split_and!; [done|lia|done].
Qed.
Lemma fd_open_0 t o : (0 < length t)%nat -> fd_open (<[0%nat := None]> t) o = (0, <[0%nat := Some o]> t).
Proof. destruct t as [|x t]; [cbn; lia|done]. Qed.
Lemma fd_open_1 t o : (exists x, t !! 0%nat = Some (Some x)) -> (1 < length t)%nat -> fd_open (<[1%nat := None]> t) o = (1, <[1%nat := Some o]> t).
Proof. intros [x E] Hl. destruct t as [|a [|b t]]; cbn in *; [done|lia|]. by simplify_eq. Qed.
Lemma fds_ok_set t i o : fds_ok t -> (i < 2)%nat -> fds_ok (<[i := Some o]> t).
Proof.
  intros [[a Ha] [b Hb] (x & y & Hxy & Hx & Hy)] Hi.
  assert (i <> x /\ i <> y) as [Nx Ny] by (split; intros ->; destruct x as [|[|]], y as [|[|]]; try lia; congruence).
  assert (Hg : forall j c, (j < 2)%nat -> t !! j = Some (Some c) -> exists c', <[i := Some o]> t !! j = Some (Some c')).
  { intros j c Hj Hc. destruct (decide (i = j)) as [->|N]; [|rewrite list_lookup_insert_ne by done; by exists c].
    exists o. apply list_lookup_insert_eq. by eapply lookup_lt_Some. }
  split; [eapply Hg; [lia|done]|eapply Hg; [lia|done]|]. exists x, y. by rewrite !list_lookup_insert_ne.
Qed.
Lemma fd_pipe t a b : fds_ok t -> exists i j, (2 <= i)%nat /\ (2 <= j)%nat /\ i <> j /\ t !! i = Some None /\ t !! j = Some None /\
  fd_open t a = (Z.of_nat i, <[i := Some a]> t) /\ fd_open (<[i := Some a]> t) b = (Z.of_nat j, <[j := Some b]> (<[i := Some a]> t)).
Proof.
  intros [[o0 H0] [o1 H1] (x & y & Hxy & Hx & Hy)]. destruct (first_free_some t x Hx) as (i & Ei & Hi & Hni).
  destruct (first_free_some (<[i := Some a]> t) y ltac:(by rewrite list_lookup_insert_ne by lia)) as (j & Ej & Hj & Hnj).
  assert (N : i <> j) by (intros ->; rewrite list_lookup_insert_eq in Hnj; [done|by eapply lookup_lt_Some]). rewrite list_lookup_insert_ne in Hnj by done.
  exists i, j. unfold fd_open. rewrite Ei, Ej. split_and!; try done; [destruct i as [|[|]]; [congruence..|lia]|destruct j as [|[|]]; [congruence..|lia]].
Qed.
Lemma fd_undo t i j k (a b o : obj) : i <> j -> (2 <= i)%nat -> (2 <= j)%nat -> (k < 2)%nat -> t !! i = Some None -> t !! j = Some None ->
  fd_close (fd_close (<[k := Some o]> (<[j := Some b]> (<[i := Some a]> t))) (Z.of_nat i)) (Z.of_nat j) = <[k := Some o]> t.
Proof.
  intros N Hi Hj Hk Ti Tj. unfold fd_close. rewrite !Nat2Z.id.
  rewrite (list_insert_insert_ne _ i k), (list_insert_insert_ne _ j k), (list_insert_insert_ne _ i j), !list_insert_insert_eq by lia.
  rewrite (list_insert_id t i) by done. by rewrite (list_insert_id t j).
Qed.
(** The two ends of a pipe in the children. *)
Lemma fd_left t i j a b : fds_ok t -> i <> j -> (2 <= i)%nat -> (2 <= j)%nat -> t !! i = Some None -> t !! j = Some None ->
  fd_close (fd_close (fd_dup (fd_close (<[j := Some b]> (<[i := Some a]> t)) 1) (Z.of_nat j)) (Z.of_nat i)) (Z.of_nat j) = <[1%nat := Some b]> t.
Proof.
  intros [[o0 H0] [o1 H1] _] N Hi Hj Ti Tj. rewrite <- (fd_undo t i j 1 a b b) by (done || lia). do 2 f_equal. unfold fd_dup, fd_obj.
  change (fd_close ?x 1) with (<[1%nat := None]> x). rewrite Nat2Z.id, list_lookup_insert_ne by lia.
  rewrite list_lookup_insert_eq by (rewrite length_insert; by eapply lookup_lt_Some). cbn [default]. unfold id. rewrite fd_open_1; [done|..].
  - exists o0. by rewrite !list_lookup_insert_ne by lia.
  - rewrite !length_insert. by eapply lookup_lt_Some.
Qed.
Lemma fd_right t i j a b : fds_ok t -> i <> j -> (2 <= i)%nat -> (2 <= j)%nat -> t !! i = Some None -> t !! j = Some None ->
  fd_close (fd_close (fd_dup (fd_close (<[j := Some b]> (<[i := Some a]> t)) 0) (Z.of_nat i)) (Z.of_nat i)) (Z.of_nat j) = <[0%nat := Some a]> t.
Proof.
  intros [[o0 H0] [o1 H1] _] N Hi Hj Ti Tj. rewrite <- (fd_undo t i j 0 a b a) by (done || lia). do 2 f_equal. unfold fd_dup, fd_obj.
  change (fd_close ?x 0) with (<[0%nat := None]> x). rewrite Nat2Z.id, !list_lookup_insert_ne by lia.
  rewrite list_lookup_insert_eq by (by eapply lookup_lt_Some). cbn [default]. unfold id. rewrite fd_open_0; [done|].
  rewrite !length_insert. by eapply lookup_lt_Some.
Qed.

(** ** Strings of the tree *)
Lemma chars_at buf w : forall n, Forall (fun c => c <> 0) w -> (forall k c, w !! k = Some c -> default 0 (buf !! (n + k)%nat) = c) ->
  default 0 (buf !! (n + length w)%nat) = 0 -> chars (drop n buf) = w.
Proof.
  induction w as [|c w IH]; intros n Hnz Hat Hend; cbn [length] in *.
  - rewrite Nat.add_0_r in Hend. destruct (buf !! n) as [x|] eqn:E; [|by rewrite drop_ge by (by apply lookup_ge_None_1)].
    rewrite (drop_S _ _ _ E). cbn in Hend. by subst.
  - apply Forall_cons in Hnz as [Hc Hnz]. pose proof (Hat 0%nat c eq_refl) as E. rewrite Nat.add_0_r in E.
    destruct (buf !! n) as [x|] eqn:Ex; [|by cbn in E; subst]. cbn in E. subst x. rewrite (drop_S _ _ _ Ex). cbn [chars]. destruct (Z.eqb_spec c 0); [done|].
    rewrite (IH (S n)); [done|done| |]; [intros k x Hk; rewrite <- (Hat (S k) x Hk)|rewrite <- Hend]; do 2 f_equal; lia.
Qed.
Lemma cstr_cstring buf q w : word_ok w -> cstr buf q w -> cstring buf q = w.
Proof.
  intros [_ Hw] (Hq & Hat & Hend). apply chars_at.
  - eapply Forall_impl; [exact Hw|]. intros x Hx. by apply word_head.
  - intros k c Hk. rewrite <- (Hat k c Hk). unfold at_. do 2 f_equal. lia.
  - unfold at_ in Hend. by replace (Z.to_nat q + length w)%nat with (Z.to_nat (q + Z.of_nat (length w))) by lia.
Qed.
Lemma cstr_vector buf qs ws m : Forall word_ok ws -> Forall2 (cstr buf) qs ws -> vector buf ((Some <$> qs) ++ replicate m None) = ws.
Proof.
  intros Hok. induction 1 as [|q w qs ws Hc _ IH]; [by destruct m|]. apply Forall_cons in Hok as [Hw Hok]. cbn. by rewrite (cstr_cstring _ _ _ Hw Hc), IH.
Qed.

(** ** runcmd carries out the plan *)
Section Plan.
Context (opens : list Z -> Z -> bool) (execs : list Z -> bool) (st : shst).
Notation run := (run opens execs).
Notation plan := (plan opens execs).
Definition runs (c : cmd) : Prop := forall k ptr t n, holds (sh_buf st) (sh_node st) c ptr -> cmd_ok c -> fds_ok t -> (depth c <= k)%nat ->
  run (runcmd k st ptr) t n = plan c t n.

Lemma run_fork1 k t n : run (fork1 k) t n = (let '(c, n1) := run (k 0) t n in let '(q, n2) := run (k 1) t n1 in (JFork c q, n2)).
Proof. done. Qed.
Lemma run_fprint msg k t n : forall j, run k t n = (j, n) -> run (fprint 2 msg k) t n = (say t msg j, n).
Proof. intros j E. induction msg as [|c msg IH]; [done|]. cbn [fprint foldr say run] in *. unfold fprint, say in IH. by rewrite IH. Qed.
Lemma runs_exec args : runs (CExec args).
Proof.
  intros [|k] ptr t n Hh Hok Ht Hk; cbn [depth] in Hk; [lia|]. destruct Hh as (qs & ea & E & Hq), Hok as [_ Hok]. cbn [runcmd]. rewrite E. unfold arr.
  pose proof (cstr_vector _ _ _ (Z.to_nat MAXARGS - length qs) Hok Hq) as Hv. destruct Hq as [|q w qs' ws Hc Hq']; [done|].
  apply Forall_cons in Hok as [Hw _]. cbn [fmap list_fmap app] in *. rewrite (cstr_cstring _ _ _ Hw Hc). cbn [run plan]. rewrite Hv. destruct (execs w); [done|].
  by rewrite (run_fprint _ _ _ _ (JExit 0)).
Qed.
Lemma runs_redir d r f : runs d -> runs (CRedir d r f).
Proof.
  intros IH [|k] ptr t n Hh Hok Ht Hk; cbn [depth] in Hk; [lia|]. destruct Hh as (d' & q & e & E & Hc & Hd), Hok as [Hok Hf]. cbn [runcmd]. rewrite E.
  rewrite (cstr_cstring _ _ _ Hf Hc). cbn [run plan]. destruct (opens f (rmode r)); [|by apply run_fprint].
  assert (Ho : fd_open (fd_close t (rfd r)) (OFile f (rmode r)) = (rfd r, <[Z.to_nat (rfd r) := Some (OFile f (rmode r))]> t)).
  { pose proof (fo_in _ Ht) as [x Hx]. pose proof (fo_out _ Ht) as [y Hy]. pose proof (lookup_lt_Some _ _ _ Hy). destruct r; cbn [rfd]; [apply fd_open_0|apply fd_open_1..]; eauto; lia. }
  rewrite Ho. replace (rfd r <? 0) with false by (by destruct r). apply IH; [done|done| |lia]. apply fds_ok_set; [done|]. destruct r; cbn; lia.
Qed.
Lemma runs_pipe l r : runs l -> runs r -> runs (CPipe l r).
Proof.
  intros IHl IHr [|k] ptr t n Hh Hok Ht Hk; cbn [depth] in Hk; [lia|]. destruct Hh as (l' & r' & E & Hl & Hr), Hok as [Hol Hor]. cbn [runcmd]. rewrite E.
  destruct (fd_pipe t (OPipeR n) (OPipeW n) Ht) as (i & j & Hi & Hj & N & Ti & Tj & E1 & E2). cbn [run plan]. rewrite E1, E2.
  replace (Z.of_nat i <? 0) with false by (symmetry; apply Z.ltb_ge; lia). replace (Z.of_nat j <? 0) with false by (symmetry; apply Z.ltb_ge; lia).
  cbn [orb]. change (0 <? 0) with false. cbv iota. rewrite run_fork1. cbn [run Z.eqb]. rewrite fd_left, (IHl k l' _ _ Hl Hol) by (done || lia || (apply fds_ok_set; [done|lia])).
  destruct (plan l _ _) as [a n1]. rewrite run_fork1. cbn [run Z.eqb]. rewrite fd_right, (IHr k r' _ _ Hr Hor) by (done || lia || (apply fds_ok_set; [done|lia])).
  by destruct (plan r _ _) as [b n2].
Qed.
Lemma runs_all c : runs c.
Proof.
  induction c as [args|d IH r f|l IHl r IHr|l IHl r IHr|d IH]; [apply runs_exec|by apply runs_redir|by apply runs_pipe|..];
    intros [|k] ptr t n Hh Hok Ht Hk; cbn [depth] in Hk; try lia.
  - destruct Hh as (l' & r' & E & Hl & Hr), Hok as [Hol Hor]. cbn [runcmd]. rewrite E, run_fork1. cbn [run plan Z.eqb].
    rewrite (IHl k l' t n Hl Hol Ht) by lia. destruct (plan l _ _) as [a n1]. rewrite (IHr k r' t n1 Hr Hor Ht) by lia. by destruct (plan r _ _).
  - destruct Hh as (d' & E & Hd). cbn [runcmd]. rewrite E, run_fork1. cbn [run plan Z.eqb].
    rewrite (IH k d' t n Hd Hok Ht) by lia. by destruct (plan d _ _) as [a n1].
Qed.
End Plan.

(** ** A line of input *)
Lemma lex_blank t ts c : lex t ts -> is_space c = true -> lex (t ++ [c]) ts.
Proof.
  assert (Hap : forall t x r, ltrim t = x :: r -> ltrim (t ++ [c]) = (x :: r) ++ [c]).
  { intros v. induction v as [|y u IH]; intros x r E; [done|]. cbn [ltrim app] in *. destruct (is_space y); [by apply IH|]. by simplify_eq. }
  assert (Hn : forall t, ltrim t = [] -> is_space c = true -> ltrim (t ++ [c]) = []).
  { intros v. induction v as [|y u IH]; cbn [ltrim app]; intros E Hc; [by rewrite Hc|]. destruct (is_space y); [by apply IH|done]. }
  intros Hl Hc. induction Hl as [t E|t x r ts E Hx _ IH|t r ts E Hs _ IH|t r ts E _ IH|t w r ts E Hw Hs _ IH].
  - apply lex_nil. by apply Hn.
  - eapply lex_sym; [by rewrite (Hap _ _ _ E)|done|done].
  - eapply lex_out; [by rewrite (Hap _ _ _ E)| |done]. destruct r; [|done]. cbn. by apply Z.eqb_neq; intros <-.
  - eapply lex_app; [by rewrite (Hap _ _ _ E)|done].
  - eapply (lex_word _ w (r ++ [c])); [|done| |done].
    + pose proof Hw as [Hne _]. destruct w as [|x w]; [done|]. rewrite (Hap _ _ _ E). cbn. by rewrite <- app_assoc.
    + destruct r; [|done]. cbn. unfold wordc. by rewrite Hc.
Qed.
Lemma scan_prefix f b : forall pre r k, Forall (fun c => f c = true) b -> (length b < k)%nat -> starts f r = false -> r <> [] ->
  scan f (pre ++ b ++ r) k (Z.of_nat (length pre)) = Z.of_nat (length pre + length b).
Proof.
  induction b as [|c b IH]; intros pre r [|k] Hb Hk Hr Hne; cbn [length] in Hk; try lia; cbn [scan]; unfold at_; rewrite Nat2Z.id.
  - destruct r as [|x r]; [done|]. cbn [app]. rewrite list_lookup_middle by done. cbn. cbn in Hr. rewrite Hr. lia.
  - apply Forall_cons in Hb as [Hc Hb]. cbn [app]. rewrite list_lookup_middle by done. cbn [default]. unfold id. rewrite Hc.
    replace (Z.of_nat (length pre) + 1) with (Z.of_nat (length (pre ++ [c]))) by (rewrite length_app; cbn; lia).
    replace (pre ++ c :: b ++ r) with ((pre ++ [c]) ++ b ++ r) by (by rewrite <- app_assoc).
    rewrite IH by (done || lia). rewrite length_app. cbn [length]. lia.
Qed.
Lemma blank_split t : exists b r, t = b ++ r /\ Forall (fun c => blank c = true) b /\ starts blank r = false /\ ltrim t = ltrim r.
Proof.
  induction t as [|c t IH]; [by exists [], []|]. destruct (blank c) eqn:E; [|by exists [], (c :: t)].
  destruct IH as (b & r & -> & Hb & Hr & El). exists (c :: b), r. split_and!; [done|by apply Forall_cons|done|]. cbn [app ltrim].
  assert (is_space c = true) as ->; [|done]. unfold blank in E. rewrite orb_true_iff, !Z.eqb_eq in E. destruct E; subst; done.
Qed.
(** A line that starts with the word [cd] is not one of the parser's. *)
Lemma not_cd buf r q ts : suf buf (q + Z.of_nat (length r)) q r -> lex r ts -> head ts <> Some (TWord (str "cd")) ->
  (at_ buf q =? ch "c") && (at_ buf (q + 1) =? ch "d") && (at_ buf (q + 2) =? 32) = false.
Proof.
  intros Hs Hl Hcd. apply not_true_is_false. rewrite !andb_true_iff, !Z.eqb_eq. intros [[E0 E1] E2]. apply Hcd. clear Hcd.
  destruct r as [|c0 r0]; [apply suf_nil in Hs as [_ Hz]; by rewrite Hz in E0|]. apply suf_head in Hs as (H0 & _ & Hs). rewrite E0 in H0. subst c0.
  destruct r0 as [|c1 r1]; [apply suf_nil in Hs as [_ Hz]; by rewrite Hz in E1|]. apply suf_head in Hs as (H1 & _ & Hs). rewrite E1 in H1. subst c1.
  replace (q + 1 + 1) with (q + 2) in Hs by lia.
  destruct r1 as [|c2 r2]; [apply suf_nil in Hs as [_ Hz]; by rewrite Hz in E2|]. apply suf_head in Hs as (H2 & _ & _). rewrite E2 in H2. subst c2.
  inversion Hl as [? E|? c r ? E|? r ? E|? r ? E|? w r ? E Hw Hst]; subst; cbn [ltrim] in E; change (is_space (ch "c")) with false in E; cbv iota in E; simplify_eq.
  destruct Hw as [_ Hw]. destruct w as [|a [|b [|x w]]]; cbn [app] in E; simplify_eq; cbn in Hst; try done. repeat apply Forall_cons in Hw as [? Hw]. done.
Qed.

(** C15. The shell runs the line it reads.  For every command [c] of the grammar
    and every line that spells its tokens (any blanks between them, the newline
    at its end) and does not start with the word cd, main's loop body forks one
    process, which parses the line and carries out exactly what [c] means, and
    waits for it: every program of [c] runs with its words as arguments and with
    the shell's descriptors, except that standard output of the left and
    standard input of the right of each pipe are the two ends of one new pipe
    and that each redirection puts its file, opened in its mode, at its
    descriptor; no program has an end of a pipe at any other descriptor.  A list
    waits for its left side before it starts the right one, a pipeline waits for
    both sides, a background command is not waited for; a file that does not
    open, or a program that does not exist, is reported on descriptor 2 and
    nothing runs in its place. *)
Theorem main_line_runs opens execs c t post tbl n k : cmd_ok c -> lex t (toks 0 c) -> ~ In 10 t ->
  toks 0 c <> [] -> head (toks 0 c) <> Some (TWord (str "cd")) -> fds_ok tbl ->
  let buf := t ++ [10] ++ 0 :: post in
  run opens execs (main_line buf k) tbl n =
    let '(j, n1) := plan opens execs c tbl n in
    let '(rest, n2) := run opens execs (k buf) tbl n1 in
    (JFork j (JWait rest), n2).
Proof.
  intros Hok Hl Hnl Hne Hcd Ht buf. destruct (blank_split t) as (b & r & -> & Hb & Hst & El).
  assert (Hr : lex r (toks 0 c)) by (apply (proj2 (lex_trim _ _)); rewrite <- El; by apply (proj1 (lex_trim _ _))).
  assert (r <> []) as Hr0 by (intros ->; apply lex_length in Hr; destruct (toks 0 c); [done|cbn in Hr; lia]).
  assert (Ebuf : buf = b ++ (r ++ [10]) ++ 0 :: post) by (unfold buf; by rewrite <- !app_assoc).
  assert (Ecmd : scan blank buf (length buf) 0 = Z.of_nat (length b)).
  { rewrite Ebuf, <- app_assoc. apply (scan_prefix blank b []); [done| |destruct r; done|destruct r; done]. cbn [app]. rewrite !length_app. cbn [length]. lia. }
  pose proof (lex_blank r _ 10 Hr eq_refl) as Hr'. pose proof (line_suf b (r ++ [10]) post (lex_nonzero _ _ Hr')) as Hs. rewrite <- Ebuf in Hs.
  unfold main_line. rewrite Ecmd. rewrite (not_cd buf (r ++ [10]) _ _ Hs Hr' Hcd).
  destruct (Z.eqb_spec (at_ buf (Z.of_nat (length b))) 10) as [E|_].
  { destruct r as [|x r]; [done|]. apply suf_head in Hs as (E' & _). destruct Hnl. apply in_or_app. right. left. congruence. }
  rewrite run_fork1. cbn [Z.eqb run]. rewrite Ebuf at 1. destruct (parsecmd_parses c b (r ++ [10]) post [] Hok Hr') as (ptr & buf' & l & E & Hh).
  rewrite E. cbn [app] in *. rewrite (runs_all opens execs (mksh buf' l) c) by (done || (pose proof (depth_toks c 0); pose proof (lex_length _ _ Hr); unfold parse_fuel; rewrite Ebuf, !length_app; lia)).
  destruct (plan _ _ _ _ _) as [j n1]. by destruct (run _ _ (k buf) _ _) as [rest n2].
Qed.

(** [(ls foo | grep bar ; echo) >> out &] *)
Definition ex_cmd : cmd :=
  CBack (CRedir (CList (CPipe (CExec [str "ls"; str "foo"]) (CExec [str "grep"; str "bar"])) (CExec [str "echo"])) RApp (str "out")).
Definition ex_tbl : fds := [Some OConsole; Some OConsole; Some OConsole] ++ replicate 13 None.
Lemma ex_cmd_ok : cmd_ok ex_cmd.
Proof. cbn. unfold word_ok. repeat (split || constructor); try done; try lia. Qed.
Lemma ex_tbl_ok : fds_ok ex_tbl.
Proof. split; [by eexists|by eexists|]. exists 3%nat, 4%nat. split_and!; [lia|done|done]. Qed.
Lemma main_line_runs_witness :
  run (fun _ _ => true) (fun _ => true) (main_line (str " ( ls foo | grep bar ; echo ) >> out &" ++ [10; 0]) (fun _ => Exit 0)) ex_tbl 0 =
  let out := OFile (str "out") (Z.lor O_WRONLY O_CREATE) in
  let tbl1 := <[1%nat := Some out]> ex_tbl in
  (JFork
    (JFork
      (JFork
        (JFork (JRun (str "ls") [str "ls"; str "foo"] (<[1%nat := Some (OPipeW 0)]> tbl1))
          (JFork (JRun (str "grep") [str "grep"; str "bar"] (<[0%nat := Some (OPipeR 0)]> tbl1)) (JWait (JWait (JExit 0)))))
        (JWait (JRun (str "echo") [str "echo"] tbl1)))
      (JExit 0))
    (JWait (JExit 0)), 1%nat).
Proof.
  apply (main_line_runs (fun _ _ => true) (fun _ => true) ex_cmd (str " ( ls foo | grep bar ; echo ) >> out &") [] ex_tbl 0 (fun _ => Exit 0)).
  - apply ex_cmd_ok.
  - apply (lex_render (toks 0 ex_cmd)). cbn. unfold word_ok. repeat (split || constructor); done.
  - cbn. intros Hin. repeat destruct Hin as [Hin|Hin]; done.
  - done.
  - done.
  - apply ex_tbl_ok.
Defined.
