(* ===== verification/Ulib.v ===== *)
(** * user/ulib.c: the string routines of user programs

    Over the bytes of a process's memory; a pointer is an address and a string
    the bytes up to a NUL.  The loops that end at a NUL get fuel, and each
    theorem gives the fuel that is enough.  [char] is unsigned on RISC-V. *)

From S2P Require Import Prelude Memory.
Import Mem.

(** ** The routines *)
Module Ulib.

(** strcpy *)
Fixpoint strcpy (fuel : nat) (m : mem) (s t : Z) : option mem :=
  match fuel with
  | O => None
  | S f =>
      let m' := st8 m s (ld8 m t) in
      if negb (ld8 m t =? 0) then strcpy f m' (s + 1) (t + 1) else Some m'
  end.

(** strcmp *)
Fixpoint strcmp (fuel : nat) (m : mem) (p q : Z) : option Z :=
  match fuel with
  | O => None
  | S f =>
      if negb (ld8 m p =? 0) && (ld8 m p =? ld8 m q) then strcmp f m (p + 1) (q + 1)
      else Some (ld8 m p - ld8 m q)
  end.

(** strlen: [n] characters counted so far *)
Fixpoint strlen_from (fuel : nat) (m : mem) (s n : Z) : option Z :=
  match fuel with
  | O => None
  | S f => if negb (ld8 m (s + n) =? 0) then strlen_from f m s (n + 1) else Some (u32 n)
  end.
Definition strlen (fuel : nat) (m : mem) (s : Z) : option Z := strlen_from fuel m s 0.

(** memset *)
Fixpoint memset_loop (k : nat) (m : mem) (dst c i : Z) : mem :=
  match k with O => m | S k' => memset_loop k' (st8 m (dst + i) c) dst c (i + 1) end.
Definition memset (m : mem) (dst c n : Z) : mem := memset_loop (Z.to_nat n) m dst c 0.

(** strchr: the address, or 0 *)
Fixpoint strchr (fuel : nat) (m : mem) (s c : Z) : option Z :=
  match fuel with
  | O => None
  | S f =>
      if negb (ld8 m s =? 0) then if ld8 m s =? c then Some s else strchr f m (s + 1) c
      else Some 0
  end.

(** atoi *)
Definition digit_char (c : Z) : bool := (48 <=? c) && (c <=? 57).
Fixpoint atoi_loop (fuel : nat) (m : mem) (s n : Z) : option Z :=
  match fuel with
  | O => None
  | S f => if digit_char (ld8 m s) then atoi_loop f m (s + 1) (i32 (n * 10 + ld8 m s - 48)) else Some n
  end.
Definition atoi (fuel : nat) (m : mem) (s : Z) : option Z := atoi_loop fuel m s 0.

(** memmove *)
Fixpoint move_up (k : nat) (m : mem) (dst src : Z) : mem :=
  match k with O => m | S k' => move_up k' (st8 m dst (ld8 m src)) (dst + 1) (src + 1) end.
Fixpoint move_down (k : nat) (m : mem) (dst src : Z) : mem :=
  match k with O => m | S k' => move_down k' (st8 m (dst - 1) (ld8 m (src - 1))) (dst - 1) (src - 1) end.
Definition memmove (m : mem) (vdst vsrc n : Z) : mem :=
  if vdst <? vsrc then move_up (Z.to_nat n) m vdst vsrc
  else move_down (Z.to_nat n) m (vdst + n) (vsrc + n).

(** memcmp *)
Fixpoint memcmp_loop (k : nat) (m : mem) (p1 p2 : Z) : Z :=
  match k with
  | O => 0
  | S k' => if negb (ld8 m p1 =? ld8 m p2) then ld8 m p1 - ld8 m p2 else memcmp_loop k' m (p1 + 1) (p2 + 1)
  end.
Definition memcmp (m : mem) (s1 s2 n : Z) : Z := memcmp_loop (Z.to_nat n) m s1 s2.

(** memcpy *)
Definition memcpy (m : mem) (dst src n : Z) : mem := memmove m dst src n.
End Ulib.
Import Ulib.

(** ** What they compute *)
(** The string [l] is at [p]. *)
Fixpoint holds_string (m : mem) (p : Z) (l : list Z) : Prop :=
  match l with
  | [] => ld8 m p = 0
  | c :: r => ld8 m p = c /\ c <> 0 /\ holds_string m (p + 1) r
  end.

Lemma holds_string_ext m m' p l :
  (forall b, p <= b <= p + Z.of_nat (length l) -> ld8 m' b = ld8 m b) -> holds_string m p l -> holds_string m' p l.
Proof.
  revert p. induction l as [|c l IH]; intros p Hm; cbn [holds_string length] in *.
  - intros <-. apply Hm. lia.
  - intros (<- & Hc & Hr). split; [apply Hm; lia|]. split; [done|]. apply IH; [|done]. intros b Hb. apply Hm. lia.
Qed.

(** memmove moves the bytes as they were, whether or not the ranges overlap. *)
Lemma move_up_spec k m d s a :
  d < s -> ld8 (move_up k m d s) a = if decide (d <= a < d + Z.of_nat k) then ld8 m (s + (a - d)) else ld8 m a.
Proof.
  revert m d s. induction k as [|k IH]; intros m d s Hds; cbn [move_up].
  { by rewrite decide_False by lia. }
  rewrite IH by lia. destruct (decide (a = d)) as [->|Hne].
  - rewrite decide_False, decide_True, ld8_st8_eq by lia. rewrite u8_small by apply ld8_range. f_equal. lia.
  - repeat case_decide; try lia; rewrite ld8_st8_ne by lia; [f_equal; lia|done].
Qed.
Lemma move_down_spec k m d s a :
  s <= d -> ld8 (move_down k m d s) a = if decide (d - Z.of_nat k <= a < d) then ld8 m (s + (a - d)) else ld8 m a.
Proof.
  revert m d s. induction k as [|k IH]; intros m d s Hds; cbn [move_down].
  { by rewrite decide_False by lia. }
  rewrite IH by lia. destruct (decide (a = d - 1)) as [->|Hne].
  - rewrite decide_False, decide_True, ld8_st8_eq by lia. rewrite u8_small by apply ld8_range. f_equal. lia.
  - repeat case_decide; try lia; [|by rewrite ld8_st8_ne by lia].
    rewrite ld8_st8_ne by lia. f_equal. lia.
Qed.

(** memmove of the library and memmove of the kernel (string.c) leave the same
    memory: every byte of the target is what the source held before, also where
    they overlap. *)
Lemma memmove_moves (m : mem) (dst src n a : Z) (Hn : 0 <= n) :
  ld8 (memmove m dst src n) a = (if decide (dst <= a < dst + n) then ld8 m (src + (a - dst)) else ld8 m a) /\
  ld8 (memmove m dst src n) a = ld8 (KString.memmove m dst src n) a.
Proof.
  assert (E : ld8 (memmove m dst src n) a = if decide (dst <= a < dst + n) then ld8 m (src + (a - dst)) else ld8 m a).
  { unfold memmove. destruct (Z.ltb_spec dst src).
    - rewrite move_up_spec by lia. by rewrite Z2Nat.id.
    - rewrite move_down_spec by lia. rewrite Z2Nat.id by lia. repeat case_decide; try lia; f_equal; lia. }
  split; [done|]. by rewrite E, KString.ld8_memmove.
Qed.

Lemma strlen_from_spec l m s n fuel :
  holds_string m (s + n) l -> (length l < fuel)%nat -> strlen_from fuel m s n = Some (u32 (n + Z.of_nat (length l))).
Proof.
  revert n fuel. induction l as [|c l IH]; intros n [|fuel] Hs Hf; cbn [length holds_string strlen_from] in *; try lia.
  - rewrite Hs. cbn. do 2 f_equal. lia.
  - destruct Hs as (-> & Hc & Hs). rewrite (proj2 (Z.eqb_neq c 0) Hc). cbn.
    rewrite IH; [do 2 f_equal; lia| |lia]. by replace (s + (n + 1)) with (s + n + 1) by lia.
Qed.
Lemma strlen_spec l m s fuel :
  holds_string m s l -> (length l < fuel)%nat -> Z.of_nat (length l) < 2 ^ 32 -> strlen fuel m s = Some (Z.of_nat (length l)).
Proof.
  intros Hs Hf Hl. unfold strlen. rewrite (strlen_from_spec l) by (by rewrite ?Z.add_0_r). f_equal.
  apply u32_small. lia.
Qed.

(** strcpy copies the string and its NUL to a place apart from it, and writes
    nothing else. *)
Lemma strcpy_spec l m s t fuel :
  holds_string m t l -> (length l < fuel)%nat ->
  s + Z.of_nat (length l) < t \/ t + Z.of_nat (length l) < s ->
  exists m', strcpy fuel m s t = Some m' /\ holds_string m' s l /\
    forall a, ~ (s <= a <= s + Z.of_nat (length l)) -> ld8 m' a = ld8 m a.
Proof.
  revert m s t fuel. induction l as [|c l IH]; intros m s t [|fuel] Hs Hf Hd; cbn [length holds_string strcpy] in *; try lia.
  - rewrite Hs. cbn. eexists. split; [done|]. split; [by rewrite ld8_st8_eq|]. intros a Ha. apply ld8_st8_ne. lia.
  - destruct Hs as (Hc & Hn & Hs). rewrite Hc, (proj2 (Z.eqb_neq c 0) Hn). cbn [negb].
    destruct (IH (st8 m s c) (s + 1) (t + 1) fuel) as (m' & E & Hl & Ho); [|lia|lia|].
    { apply (holds_string_ext m); [|done]. intros b Hb. apply ld8_st8_ne. lia. }
    exists m'. split; [done|]. split; [|intros a Ha; rewrite Ho by lia; apply ld8_st8_ne; lia].
    split; [|done]. rewrite Ho by lia. rewrite ld8_st8_eq. rewrite <-Hc. apply u8_small, ld8_range.
Qed.

(** strcmp is 0 on equal strings only, and its sign is that of the first
    difference. *)
Fixpoint str_order (l r : list Z) : Z :=
  match l, r with
  | [], [] => 0
  | [], d :: _ => - d
  | c :: _, [] => c
  | c :: l', d :: r' => if c =? d then str_order l' r' else c - d
  end.
Lemma strcmp_spec l r m p q fuel :
  holds_string m p l -> holds_string m q r -> (length l < fuel)%nat -> strcmp fuel m p q = Some (str_order l r).
Proof.
  revert r p q fuel. induction l as [|c l IH]; intros [|d r] p q [|fuel] Hl Hr Hf;
    cbn [length holds_string strcmp str_order] in *; try lia.
  - by rewrite Hl, Hr.
  - destruct Hr as (-> & _). by rewrite Hl.
  - destruct Hl as (-> & Hc & _). rewrite Hr, (proj2 (Z.eqb_neq c 0) Hc). cbn. f_equal. lia.
  - destruct Hl as (-> & Hc & Hl), Hr as (-> & Hd & Hr). rewrite (proj2 (Z.eqb_neq c 0) Hc). cbn.
    destruct (c =? d); [|done]. apply IH; [done..|lia].
Qed.
Lemma str_order_eq l r : Forall (fun c => 0 < c) l -> Forall (fun c => 0 < c) r -> str_order l r = 0 <-> l = r.
Proof.
  revert r. induction l as [|c l IH]; intros [|d r] Hl Hr; cbn; [done|..].
  - apply Forall_cons_1 in Hr as [? ?]. split; [lia|done].
  - apply Forall_cons_1 in Hl as [? ?]. split; [lia|done].
  - apply Forall_cons_1 in Hl as [? Hl], Hr as [? Hr]. destruct (Z.eqb_spec c d) as [->|].
    + rewrite (IH r Hl Hr). split; congruence.
    + split; [lia|congruence].
Qed.

(** atoi reads the digits up to the first other character. *)
Definition digits_value (l : list Z) (n : Z) : Z := fold_left (fun n c => n * 10 + (c - 48)) l n.
Lemma digits_value_mono l n : Forall (fun c => digit_char c = true) l -> 0 <= n -> n <= digits_value l n.
Proof.
  revert n. induction l as [|c l IH]; intros n Hl Hn; cbn; [lia|].
  apply Forall_cons_1 in Hl as [Hc Hl]. unfold digit_char in Hc.
  etrans; [|apply IH; [done|lia]]. lia.
Qed.
Lemma atoi_loop_spec l m s n fuel :
  (forall i c, l !! i = Some c -> ld8 m (s + Z.of_nat i) = c) -> Forall (fun c => digit_char c = true) l ->
  digit_char (ld8 m (s + Z.of_nat (length l))) = false -> (length l < fuel)%nat ->
  0 <= n -> digits_value l n < 2 ^ 31 -> atoi_loop fuel m s n = Some (digits_value l n).
Proof.
  revert s n fuel. induction l as [|c l IH]; intros s n [|fuel] Hm Hl He Hf Hn Hb; cbn [length atoi_loop] in *; try lia.
  - rewrite Z.add_0_r in He. by rewrite He.
  - apply Forall_cons_1 in Hl as [Hc Hl]. pose proof (Hm 0%nat c eq_refl) as H0. rewrite Z.add_0_r in H0.
    rewrite H0, Hc. unfold digit_char in Hc. pose proof (digits_value_mono l (n * 10 + (c - 48)) Hl) as Hle.
    cbn in Hb. fold (digits_value l (n * 10 + (c - 48))) in Hb.
    rewrite (i32_small (n * 10 + c - 48)) by lia. replace (n * 10 + c - 48) with (n * 10 + (c - 48)) by lia.
    apply IH; [|done| |lia..].
    + intros i d Hi. replace (s + 1 + Z.of_nat i) with (s + Z.of_nat (S i)) by lia. by apply Hm.
    + by replace (s + 1 + Z.of_nat (length l)) with (s + Z.of_nat (S (length l))) by lia.
Qed.

(** memcmp compares the bytes as strcmp does characters. *)
Lemma memcmp_loop_zero k m p q : memcmp_loop k m p q = 0 <-> forall i, 0 <= i < Z.of_nat k -> ld8 m (p + i) = ld8 m (q + i).
Proof.
  revert p q. induction k as [|k IH]; intros p q; cbn [memcmp_loop]; [split; [intros _ i; lia|done]|].
  destruct (Z.eqb_spec (ld8 m p) (ld8 m q)) as [E|E]; cbn [negb].
  - rewrite IH. split; intros H i Hi.
    + destruct (decide (i = 0)) as [->|]; [by rewrite !Z.add_0_r|]. specialize (H (i - 1) ltac:(lia)).
      by replace (p + 1 + (i - 1)) with (p + i) in H by lia; replace (q + 1 + (i - 1)) with (q + i) in H by lia.
    + replace (p + 1 + i) with (p + (i + 1)) by lia. replace (q + 1 + i) with (q + (i + 1)) by lia. apply H. lia.
  - split; [lia|]. intros H. specialize (H 0 ltac:(lia)). rewrite !Z.add_0_r in H. lia.
Qed.
