(* ===== verification/Uprintf.v ===== *)
(** * user/printf.c: formatted output of user programs

    [vprintf] is the list of the bytes it writes, one [write] each.  The routine
    is a state machine over the format, where the kernel's printf looks ahead;
    the theorem is that both print the same, up to the case of hex digits. *)

From S2P Require Import Prelude Memory FsState State Printf PrintfProps.
From Stdlib Require Import Ascii.

(** ** The routines *)
Module Uprintf.
Section Digits.
(** The character of a digit: the table [digits] of the file. *)
Context (digit : Z -> Z).

(** printint *)
Fixpoint digit_loop (fuel : nat) (x base : Z) : list Z :=
  match fuel with
  | O => []
  | S f => digit (x `mod` base) :: (if negb (x / base =? 0) then digit_loop f (x / base) base else [])
  end.
Definition printint (xx base : Z) (sgn : bool) : list Z :=
  let neg := sgn && (xx <? 0) in
  let buf := digit_loop 64 (if neg then u64 (- xx) else u64 xx) base in
  rev (if neg then buf ++ [chr "-"] else buf).

(** printptr *)
Fixpoint ptr_loop (n : nat) (x : Z) : list Z :=
  match n with O => [] | S n' => digit (Z.shiftr x 60) :: ptr_loop n' (u64 (Z.shiftl x 4)) end.
Definition printptr (x : Z) : list Z := [chr "0"; chr "x"] ++ ptr_loop 16 x.

(** The format past the character an [i += 1] skips *)
Definition skip (r : list Z) : list Z := match r with [] => r | _ :: t => t end.

(** vprintf: [state] is whether the last character was a percent sign *)
Fixpoint vprintf (state : bool) (fmt : list Z) (ap : list va_arg) : list Z :=
  match fmt with
  | [] => []
  | c0 :: r =>
      if negb state then if c0 =? chr "%" then vprintf true r ap else u8 c0 :: vprintf false r ap
      else
        let c1 := default 0 (r !! 0%nat) in
        let c2 := if negb (c1 =? 0) then default 0 (r !! 1%nat) else 0 in
        let l1 c := (c0 =? chr "l") && (c1 =? c) in
        let l2 c := (c0 =? chr "l") && (c1 =? chr "l") && (c2 =? c) in
        if c0 =? chr "d" then printint (i32 (va_int ap)) 10 true ++ vprintf false r (tail ap)
        else if l1 (chr "d") then printint (i64 (va_int ap)) 10 true ++ vprintf false (skip r) (tail ap)
        else if l2 (chr "d") then printint (i64 (va_int ap)) 10 true ++ vprintf false (skip (skip r)) (tail ap)
        else if c0 =? chr "u" then printint (u32 (va_int ap)) 10 false ++ vprintf false r (tail ap)
        else if l1 (chr "u") then printint (u64 (va_int ap)) 10 false ++ vprintf false (skip r) (tail ap)
        else if l2 (chr "u") then printint (u64 (va_int ap)) 10 false ++ vprintf false (skip (skip r)) (tail ap)
        else if c0 =? chr "x" then printint (u32 (va_int ap)) 16 false ++ vprintf false r (tail ap)
        else if l1 (chr "x") then printint (u64 (va_int ap)) 16 false ++ vprintf false (skip r) (tail ap)
        else if l2 (chr "x") then printint (u64 (va_int ap)) 16 false ++ vprintf false (skip (skip r)) (tail ap)
        else if c0 =? chr "p" then printptr (u64 (va_int ap)) ++ vprintf false r (tail ap)
        else if c0 =? chr "c" then u8 (va_int ap) :: vprintf false r (tail ap)
        else if c0 =? chr "s" then va_str ap ++ vprintf false r (tail ap)
        else if c0 =? chr "%" then chr "%" :: vprintf false r ap
        else chr "%" :: u8 c0 :: vprintf false r ap
  end.
End Digits.

Definition digits : list Z := bytes_of "0123456789ABCDEF".
Definition digit (d : Z) : Z := default 0 (digits !! Z.to_nat d).

(** fprintf and printf: the bytes, to the descriptor given or to 1 *)
Definition fprintf (fd : Z) (fmt : string) (ap : list va_arg) : Z * list Z :=
  (fd, vprintf digit false (bytes_of fmt) ap).
Definition printf (fmt : string) (ap : list va_arg) : Z * list Z := fprintf 1 fmt ap.
End Uprintf.

(** ** Both printfs agree *)
(** What the kernel's printf prints. *)
Definition prints (m : K unit) (l : list Z) : Prop :=
  forall s, m s = Ret tt (with_out s (fs_out (k_fs s) ++ l)).
Lemma prints_nil : prints (mret tt) [].
Proof. intros s. rewrite app_nil_r. by destruct s as [? ? ? ? ? ? ? ? ? ? ? ? ? ? ? ? ? ? ? ? ? ? ? ? []]. Qed.
Lemma prints_app m (k : unit -> K unit) l r : prints m l -> prints (k tt) r -> prints (m ≫= k) (l ++ r).
Proof.
  intros Hm Hk s. rewrite (bind_ret _ _ _ _ _ (Hm s)), Hk. unfold with_out. cbn [k_fs fs_out upd]. by rewrite <-app_assoc.
Qed.
Lemma prints_puts l : Forall (fun c => 0 <= c < 256) l -> prints (consputs l) l.
Proof. intros Hl s. by apply consputs_eq. Qed.
Lemma prints_putc c : c <> BACKSPACE -> prints (consputc c) [u8 c].
Proof. intros Hc s. unfold consputc. by rewrite (proj2 (Z.eqb_neq _ _) Hc). Qed.

Lemma digit_loop_eq fuel x base : Uprintf.digit_loop digit fuel x base = printint_loop fuel x base.
Proof. revert x. induction fuel as [|f IH]; intros x; cbn; [done|]. rewrite IH. by destruct (x / base =? 0). Qed.
Lemma ptr_loop_eq n x : Uprintf.ptr_loop digit n x = printptr_loop n x.
Proof. revert x. induction n as [|n IH]; intros x; cbn [Uprintf.ptr_loop printptr_loop]; by rewrite ?IH. Qed.
Lemma digit_byte d : 0 <= digit d < 256.
Proof.
  unfold digit. destruct (digits !! Z.to_nat d) as [c|] eqn:E; [|by cbn].
  assert (H : Forall (fun c => 0 <= c < 256) digits) by (unfold digits; repeat constructor; by cbn).
  exact (proj1 (Forall_lookup _ _) H _ _ E).
Qed.
Lemma prints_int x base sgn : prints (Printf.printint x base sgn) (Uprintf.printint digit x base sgn).
Proof.
  unfold Uprintf.printint. rewrite digit_loop_eq. apply prints_puts.
  apply Forall_rev. assert (H : forall fuel y, Forall (fun c => 0 <= c < 256) (printint_loop fuel y base)).
  { induction fuel as [|f IH]; intros y; cbn [printint_loop]; constructor; [apply digit_byte|]. by destruct (_ =? 0). }
  destruct (_ && _); [|apply H]. apply Forall_app. split; [apply H|]. by repeat constructor.
Qed.
Lemma prints_ptr x : prints (Printf.printptr x) (Uprintf.printptr digit x).
Proof.
  unfold Uprintf.printptr. rewrite ptr_loop_eq. apply prints_puts. do 2 (constructor; [by cbn|]).
  assert (H : forall n y, Forall (fun c => 0 <= c < 256) (printptr_loop n y)) by
    (induction n; intros y; cbn [printptr_loop]; constructor; [apply digit_byte|done]).
  apply H.
Qed.

(** The kernel prints a backspace for the character 256, which no byte is. *)
Definition arg_ok (a : va_arg) : Prop :=
  match a with VInt z => u32 z <> BACKSPACE | VStr (Some l) => Forall (fun c => 0 <= c < 256) l | VStr None => True end.
Lemma u8_u32 z : u8 (u32 z) = u8 z.
Proof. unfold u8, u32. apply Z.mod_mod_divide. by exists (2 ^ 24). Qed.
Lemma prints_char ap : Forall arg_ok ap -> prints (consputc (u32 (va_int ap))) [u8 (va_int ap)].
Proof.
  intros H. rewrite <-u8_u32. apply prints_putc. destruct ap as [|[z|l] ap]; cbn; [done| |done].
  by apply Forall_cons_1 in H as [? _].
Qed.
Lemma prints_str ap : Forall arg_ok ap -> prints (consputs (va_str ap)) (va_str ap).
Proof.
  intros H. apply prints_puts. destruct ap as [|[z|[l|]] ap]; cbn [va_str];
    [..|by apply Forall_cons_1 in H as [? _]|]; repeat constructor; by cbn.
Qed.

Lemma args_tail ap : Forall arg_ok ap -> Forall arg_ok (tail ap).
Proof. destruct 1; [constructor|done]. Qed.

Create HintDb prints.
#[local] Hint Resolve prints_int prints_ptr prints_char prints_str args_tail : prints.

(** Comparisons of known characters, and the case [c] of a character. *)
Ltac chars := repeat (match goal with
  | |- context [chr ?a =? chr ?b] => let v := eval vm_compute in (chr a =? chr b) in change (chr a =? chr b) with v
  | |- context [0 =? chr ?b] => change (0 =? chr b) with false
  | |- context [chr ?a =? 0] => change (chr a =? 0) with false
  end; cbn [andb negb]).
Ltac is_char c0 c := destruct (Z.eqb_spec c0 (chr c)) as [->|]; chars.

Lemma vprintf_prints n fmt ap :
  (length fmt <= n)%nat -> Forall (fun c => 0 < c < 256) fmt -> Forall arg_ok ap ->
  prints (printf_loop fmt ap) (Uprintf.vprintf digit false fmt ap).
Proof.
  revert fmt ap. induction n as [|n IH]; intros [|cx fmt] ap Hn Hf Ha; cbn [length] in Hn; try lia; try apply prints_nil.
  apply Forall_cons_1 in Hf as [Hc Hf]. cbn [printf_loop Uprintf.vprintf negb].
  destruct (cx =? chr "%") eqn:Ep; cbn [negb].
  2: { apply (prints_app _ _ [u8 cx]); [apply prints_putc; unfold BACKSPACE; lia|]. apply IH; [lia|done..]. }
  destruct fmt as [|c0 r0]; [apply prints_nil|]. apply Forall_cons_1 in Hf as [Hc0 Hf]. cbn [length] in Hn.
  assert (Hr : forall r ap', r = r0 \/ (length r <= length r0)%nat /\ Forall (fun c => 0 < c < 256) r -> Forall arg_ok ap' ->
    prints (printf_loop r ap') (Uprintf.vprintf digit false r ap')).
  { intros r ap' [->|[Hl Hr]] Ha'; (apply IH; [lia|done..]). }
  assert (Hu : prints (consputc (chr "%");; consputc c0;; printf_loop r0 ap)
                 (chr "%" :: u8 c0 :: Uprintf.vprintf digit false r0 ap)).
  { apply (prints_app _ _ [_]); [by apply (prints_putc (chr "%"))|]. apply (prints_app _ _ [_]); [|auto].
    apply prints_putc. unfold BACKSPACE. lia. }
  cbn [Uprintf.vprintf negb].
  is_char c0 "d"%char; [apply prints_app; auto with prints|].
  is_char c0 "u"%char; [apply prints_app; auto with prints|].
  is_char c0 "x"%char; [apply prints_app; auto with prints|].
  is_char c0 "p"%char; [apply prints_app; auto with prints|].
  is_char c0 "c"%char; [apply (prints_app _ _ [_]); auto with prints|].
  is_char c0 "s"%char; [apply prints_app; auto with prints|].
  is_char c0 "%"%char; [apply (prints_app _ _ [_]); [by apply (prints_putc (chr "%"))|auto]|].
  is_char c0 "l"%char; [|by destruct r0 as [|c1 [|c2 r2]]].
  destruct r0 as [|c1 r1]; [done|]. apply Forall_cons_1 in Hf as [Hc1 Hf].
  cbn [lookup list_lookup default from_option id Uprintf.skip].
  rewrite (proj2 (Z.eqb_neq c1 0)) by lia. cbn [negb].
  is_char c1 "d"%char; [apply prints_app; [auto with prints|]; apply Hr; [right; cbn; auto|auto with prints]|].
  is_char c1 "u"%char; [apply prints_app; [auto with prints|]; apply Hr; [right; cbn; auto|auto with prints]|].
  is_char c1 "x"%char; [apply prints_app; [auto with prints|]; apply Hr; [right; cbn; auto|auto with prints]|].
  destruct r1 as [|c2 r2]; [cbn [default from_option]; chars; by rewrite !andb_false_r|].
  apply Forall_cons_1 in Hf as [Hc2 Hf]. cbn [lookup list_lookup default from_option id Uprintf.skip].
  is_char c1 "l"%char; [|done].
  is_char c2 "d"%char; [apply prints_app; [auto with prints|]; apply Hr; [right; cbn; auto|auto with prints]|].
  is_char c2 "u"%char; [apply prints_app; [auto with prints|]; apply Hr; [right; cbn; auto|auto with prints]|].
  is_char c2 "x"%char; [apply prints_app; [auto with prints|]; apply Hr; [right; cbn; auto|auto with prints]|].
  done.
Qed.

(** The digit tables differ in the case of the letters only. *)
Definition same_char (a b : Z) : Prop := a = b \/ (chr "a" <= a <= chr "f" /\ b = a - 32).
#[export] Instance same_char_dec a b : Decision (same_char a b).
Proof. unfold same_char. apply _. Defined.
Definition same_text : list Z -> list Z -> Prop := Forall2 same_char.
Lemma same_refl l : same_text l l.
Proof. apply Forall2_same_length_lookup_2; [done|]. intros i a b Ha Hb. left. congruence. Qed.
Lemma same_app l l' r r' : same_text l l' -> same_text r r' -> same_text (l ++ r) (l' ++ r').
Proof. apply Forall2_app. Qed.
Lemma same_cons a l l' : same_text l l' -> same_text (a :: l) (a :: l').
Proof. constructor; [by left|done]. Qed.

Lemma same_digit d : same_char (digit d) (Uprintf.digit d).
Proof.
  unfold digit, Uprintf.digit. destruct (decide (Z.to_nat d < 16)%nat) as [H|H].
  - assert (Hall : Forall (fun i => same_char (default 0 (digits !! i)) (default 0 (Uprintf.digits !! i))) (seq 0 16)).
    { refine (bool_decide_unpack _ _). vm_compute. exact I. }
    apply (proj1 (Forall_forall _ _) Hall). apply elem_of_seq. lia.
  - left. rewrite !(lookup_ge_None_2 _ (Z.to_nat d)); [done|cbn; lia..].
Qed.
Lemma same_int x base sgn : same_text (Uprintf.printint digit x base sgn) (Uprintf.printint Uprintf.digit x base sgn).
Proof.
  assert (H : forall fuel y, same_text (Uprintf.digit_loop digit fuel y base) (Uprintf.digit_loop Uprintf.digit fuel y base)).
  { induction fuel as [|f IH]; intros y; cbn [Uprintf.digit_loop]; constructor; [apply same_digit|].
    destruct (negb _); [apply IH|constructor]. }
  unfold Uprintf.printint. rewrite !rev_alt. apply Forall2_reverse.
  destruct (_ && _); [|apply H]. apply same_app; [apply H|apply same_refl].
Qed.
Lemma same_ptr x : same_text (Uprintf.printptr digit x) (Uprintf.printptr Uprintf.digit x).
Proof.
  assert (H : forall n y, same_text (Uprintf.ptr_loop digit n y) (Uprintf.ptr_loop Uprintf.digit n y)).
  { induction n as [|n IH]; intros y; cbn [Uprintf.ptr_loop]; constructor; [apply same_digit|apply IH]. }
  apply same_app; [apply same_refl|apply H].
Qed.
Lemma skip_length r : (length (Uprintf.skip r) <= length r)%nat.
Proof. destruct r; cbn; lia. Qed.

(** The text of one conversion, then the rest. *)
Ltac same_step H := lazymatch goal with
  | |- same_text (_ :: _) _ => apply same_cons; same_step H
  | |- same_text (Uprintf.printint _ _ _ _ ++ _) _ => apply same_app; [apply same_int|apply H]
  | |- same_text (Uprintf.printptr _ _ ++ _) _ => apply same_app; [apply same_ptr|apply H]
  | |- same_text (va_str _ ++ _) _ => apply same_app; [apply same_refl|apply H]
  | |- _ => apply H
  end.

Lemma vprintf_same n state fmt ap :
  (length fmt <= n)%nat -> same_text (Uprintf.vprintf digit state fmt ap) (Uprintf.vprintf Uprintf.digit state fmt ap).
Proof.
  revert state fmt ap. induction n as [|n IH]; intros state [|c0 r] ap Hn; cbn [length] in Hn; try lia; try constructor.
  pose proof (skip_length r) as Hs. pose proof (skip_length (Uprintf.skip r)) as Hss.
  cbn [Uprintf.vprintf]. destruct state; cbn [negb].
  - repeat match goal with |- same_text (if ?b then _ else _) _ => destruct b end; same_step IH; lia.
  - destruct (c0 =? _); same_step IH; lia.
Qed.


