(* ===== verification/Programs.v ===== *)
(** * The small user programs: echo, cat, wc, kill, ln, mkdir, rm, zombie, init, ls

    A program is the tree of its system calls: each call with what the program
    does next for every answer.  Loops over input get fuel.  [printf] is that of
    Uprintf.v, one [write] for each byte. *)

From S2P Require Import Prelude Memory FsState Printf Ulib Uprintf.
From Stdlib Require Import Ascii.

(** ** System calls *)
Module Programs.
Inductive call :=
| Write (fd : Z) (bytes : list Z)
| Open (path : list Z) (mode : Z)
| Close (fd : Z)
| Link (old new : list Z)
| Unlink (path : list Z)
| Mkdir (path : list Z)
| Mknod (path : list Z) (major minor : Z)
| Kill (pid : Z)
| Dup (fd : Z)
| Fork
| Wait
| Exec (path : list Z) (argv : list (list Z))
| Pause (n : Z).

(** struct stat *)
Record stat := mkstat { st_dev : Z; st_ino : Z; st_type : Z; st_nlink : Z; st_size : Z }.

(** [Read]'s answer is the count and the bytes, [Fstat]'s the result and the
    structure. *)
Inductive uprog :=
| Exit (status : Z)
| Sys (c : call) (k : Z -> uprog)
| Read (fd n : Z) (k : Z -> list Z -> uprog)
| Fstat (fd : Z) (k : Z -> stat -> uprog)
| OutOfFuel.

(** printf and fprintf *)
Definition put (fd : Z) (l : list Z) (k : uprog) : uprog := foldr (fun c p => Sys (Write fd [c]) (fun _ => p)) k l.
Definition fprintf (fd : Z) (fmt : string) (ap : list va_arg) (k : uprog) : uprog :=
  put (fst (Uprintf.fprintf fd fmt ap)) (snd (Uprintf.fprintf fd fmt ap)) k.
Definition printf (fmt : string) (ap : list va_arg) (k : uprog) : uprog := fprintf 1 fmt ap k.
Definition text (l : list Z) : va_arg := VStr (Some l).
Definition line (s : string) : string := String.append s (String "010"%char EmptyString).
Definition newline : list Z := [10].

(** ** echo.c *)
Fixpoint echo_loop (args : list (list Z)) : uprog :=
  match args with
  | [] => Exit 0
  | a :: rest =>
      Sys (Write 1 a) (fun _ =>
        Sys (Write 1 (match rest with [] => newline | _ => [32] end)) (fun _ => echo_loop rest))
  end.
Definition echo_main (argv : list (list Z)) : uprog := echo_loop (tail argv).

(** ** cat.c *)
Fixpoint cat (fuel : nat) (fd : Z) (k : uprog) : uprog :=
  match fuel with
  | O => OutOfFuel
  | S f =>
      Read fd 512 (fun n buf =>
        if 0 <? n then
          Sys (Write 1 (take (Z.to_nat n) buf)) (fun r =>
            if negb (r =? n) then fprintf 2 (line "cat: write error") [] (Exit 1) else cat f fd k)
        else if n <? 0 then fprintf 2 (line "cat: read error") [] (Exit 1)
        else k)
  end.
Fixpoint cat_files (fuel : nat) (args : list (list Z)) : uprog :=
  match args with
  | [] => Exit 0
  | a :: rest =>
      Sys (Open a O_RDONLY) (fun fd =>
        if fd <? 0 then fprintf 2 (line "cat: cannot open %s") [text a] (Exit 1)
        else cat fuel fd (Sys (Close fd) (fun _ => cat_files fuel rest)))
  end.
Definition cat_main (fuel : nat) (argv : list (list Z)) : uprog :=
  match tail argv with [] => cat fuel 0 (Exit 0) | args => cat_files fuel args end.

(** ** wc.c *)
Record counts := mkcounts { wl : Z; ww : Z; wcc : Z; winword : bool }.
Definition space_chars : list Z := [32; 13; 9; 10; 11].
Definition is_space (c : Z) : bool := existsb (Z.eqb c) space_chars.
Definition wc_char (s : counts) (c : Z) : counts :=
  let n := i32 (wcc s + 1) in
  let l := if c =? 10 then i32 (wl s + 1) else wl s in
  if is_space c then mkcounts l (ww s) n false
  else if negb (winword s) then mkcounts l (i32 (ww s + 1)) n true
  else mkcounts l (ww s) n true.
Fixpoint wc (fuel : nat) (fd : Z) (name : list Z) (s : counts) (k : uprog) : uprog :=
  match fuel with
  | O => OutOfFuel
  | S f =>
      Read fd 512 (fun n buf =>
        if 0 <? n then wc f fd name (fold_left wc_char (take (Z.to_nat n) buf) s) k
        else if n <? 0 then printf (line "wc: read error") [] (Exit 1)
        else printf (line "%d %d %d %s") [VInt (wl s); VInt (ww s); VInt (wcc s); text name] k)
  end.
Definition counts0 : counts := mkcounts 0 0 0 false.
Fixpoint wc_files (fuel : nat) (args : list (list Z)) : uprog :=
  match args with
  | [] => Exit 0
  | a :: rest =>
      Sys (Open a O_RDONLY) (fun fd =>
        if fd <? 0 then printf (line "wc: cannot open %s") [text a] (Exit 1)
        else wc fuel fd a counts0 (Sys (Close fd) (fun _ => wc_files fuel rest)))
  end.
Definition wc_main (fuel : nat) (argv : list (list Z)) : uprog :=
  match tail argv with [] => wc fuel 0 [] counts0 (Exit 0) | args => wc_files fuel args end.

(** ** ln.c, mkdir.c, rm.c, zombie.c *)
Definition ln_main (argv : list (list Z)) : uprog :=
  match argv with
  | [_; old; new] =>
      Sys (Link old new) (fun r =>
        if r <? 0 then fprintf 2 (line "link %s %s: failed") [text old; text new] (Exit 0) else Exit 0)
  | _ => fprintf 2 (line "Usage: ln old new") [] (Exit 1)
  end.
Fixpoint mkdir_loop (args : list (list Z)) : uprog :=
  match args with
  | [] => Exit 0
  | a :: rest =>
      Sys (Mkdir a) (fun r =>
        if r <? 0 then fprintf 2 (line "mkdir: %s failed to create") [text a] (Exit 0) else mkdir_loop rest)
  end.
Definition mkdir_main (argv : list (list Z)) : uprog :=
  match tail argv with [] => fprintf 2 (line "Usage: mkdir files...") [] (Exit 1) | args => mkdir_loop args end.
Fixpoint rm_loop (args : list (list Z)) : uprog :=
  match args with
  | [] => Exit 0
  | a :: rest =>
      Sys (Unlink a) (fun r =>
        if r <? 0 then fprintf 2 (line "rm: %s failed to delete") [text a] (Exit 0) else rm_loop rest)
  end.
Definition rm_main (argv : list (list Z)) : uprog :=
  match tail argv with [] => fprintf 2 (line "Usage: rm files...") [] (Exit 1) | args => rm_loop args end.
Definition zombie_main : uprog := Sys Fork (fun pid => if 0 <? pid then Sys (Pause 5) (fun _ => Exit 0) else Exit 0).

(** ** kill.c: the arguments lie in memory as C strings *)
Fixpoint poke (m : Mem.mem) (a : Z) (l : list Z) : Mem.mem :=
  match l with [] => Mem.st8 m a 0 | c :: r => poke (Mem.st8 m a c) (a + 1) r end.
Definition atoi (l : list Z) : Z := default 0 (Ulib.atoi (S (length l)) (poke ∅ 0 l) 0).
Fixpoint kill_loop (args : list (list Z)) : uprog :=
  match args with [] => Exit 0 | a :: rest => Sys (Kill (atoi a)) (fun _ => kill_loop rest) end.
Definition kill_main (argv : list (list Z)) : uprog :=
  match tail argv with [] => fprintf 2 (line "usage: kill pid...") [] (Exit 1) | args => kill_loop args end.

(** ** init.c: [init_wait] is the inner loop, [init_round] a turn of the outer *)
Definition sh_path : list Z := bytes_of "sh".
Definition console_path : list Z := bytes_of "console".
Fixpoint init_wait (fuel : nat) (pid : Z) (k : uprog) : uprog :=
  match fuel with
  | O => OutOfFuel
  | S f =>
      Sys Wait (fun wpid =>
        if wpid =? pid then k
        else if wpid <? 0 then printf (line "init: wait returned an error") [] (Exit 1)
        else init_wait f pid k)
  end.
Definition init_round (fuel : nat) (k : uprog) : uprog :=
  printf (line "init: starting sh") []
    (Sys Fork (fun pid =>
       if pid <? 0 then printf (line "init: fork failed") [] (Exit 1)
       else if pid =? 0 then Sys (Exec sh_path [sh_path]) (fun _ => printf (line "init: exec sh failed") [] (Exit 1))
       else init_wait fuel pid k)).
Fixpoint init_loop (rounds fuel : nat) : uprog :=
  match rounds with O => OutOfFuel | S r => init_round fuel (init_loop r fuel) end.
Definition init_main (rounds fuel : nat) : uprog :=
  let rest := Sys (Dup 0) (fun _ => Sys (Dup 0) (fun _ => init_loop rounds fuel)) in
  Sys (Open console_path O_RDWR) (fun fd =>
    if fd <? 0 then Sys (Mknod console_path CONSOLE 0) (fun _ => Sys (Open console_path O_RDWR) (fun _ => rest))
    else rest).

(** ** ls.c *)
(** fmtname: the characters after the last slash, padded with blanks *)
Fixpoint last_part (path acc : list Z) : list Z :=
  match path with [] => acc | c :: r => last_part r (if c =? chr "/" then [] else acc ++ [c]) end.
Definition fmtname (path : list Z) : list Z :=
  let p := last_part path [] in
  if DIRSIZ <=? Z.of_nat (length p) then p
  else p ++ replicate (Z.to_nat (DIRSIZ - Z.of_nat (length p))) 32.

(** stat (ulib.c) *)
Definition stat_path (n : list Z) (k : Z -> stat -> uprog) : uprog :=
  Sys (Open n O_RDONLY) (fun fd =>
    if fd <? 0 then k (-1) (mkstat 0 0 0 0 0)
    else Fstat fd (fun r st => Sys (Close fd) (fun _ => k r st))).

(** A line of the listing *)
Definition ls_line (path : list Z) (st : stat) (k : uprog) : uprog :=
  printf (line "%s %d %d %d") [text (fmtname path); VInt (st_type st); VInt (st_ino st); VInt (i32 (st_size st))] k.

(** struct dirent: inum and name; the name ends at a NUL or after DIRSIZ bytes *)
Definition de_inum (de : list Z) : Z := default 0 (de !! 0%nat) + 256 * default 0 (de !! 1%nat).
Fixpoint upto_nul (l : list Z) : list Z := match l with [] => [] | c :: r => if c =? 0 then [] else c :: upto_nul r end.
Definition de_name (de : list Z) : list Z := upto_nul (take (Z.to_nat DIRSIZ) (drop 2 de)).

(** The loop over the entries of the directory [path] *)
Fixpoint ls_entries (fuel : nat) (fd : Z) (path : list Z) (k : uprog) : uprog :=
  match fuel with
  | O => OutOfFuel
  | S f =>
      Read fd DIRENT_SIZE (fun n de =>
        if negb (n =? DIRENT_SIZE) then k
        else if de_inum de =? 0 then ls_entries f fd path k
        else
          let buf := path ++ [chr "/"] ++ de_name de in
          stat_path buf (fun r st =>
            if r <? 0 then printf (line "ls: cannot stat %s") [text buf] (ls_entries f fd path k)
            else ls_line buf st (ls_entries f fd path k)))
  end.
Definition ls (fuel : nat) (path : list Z) (k : uprog) : uprog :=
  Sys (Open path O_RDONLY) (fun fd =>
    if fd <? 0 then fprintf 2 (line "ls: cannot open %s") [text path] k
    else
      Fstat fd (fun r st =>
        let close := Sys (Close fd) (fun _ => k) in
        if r <? 0 then fprintf 2 (line "ls: cannot stat %s") [text path] close
        else if (st_type st =? T_DEVICE) || (st_type st =? T_FILE) then ls_line path st close
        else if st_type st =? T_DIR then
          if 512 <? Z.of_nat (length path) + 1 + DIRSIZ + 1 then printf (line "ls: path too long") [] close
          else ls_entries fuel fd path close
        else close)).
Fixpoint ls_loop (fuel : nat) (args : list (list Z)) : uprog :=
  match args with [] => Exit 0 | a :: rest => ls fuel a (ls_loop fuel rest) end.
Definition ls_main (fuel : nat) (argv : list (list Z)) : uprog :=
  match tail argv with [] => ls fuel (bytes_of ".") (Exit 0) | args => ls_loop fuel args end.
End Programs.
