(* ===== verification/ProgramsProps.v ===== *)
(** * What the user programs do

    [run] answers a program's calls: reads return the pieces the world holds, an
    empty piece being the end of a file, and writes succeed.  [replay] feeds a
    program a script of answers. *)

From S2P Require Import Prelude Memory FsState Printf PrintfProps Ulib Uprintf Programs.
From Stdlib Require Import Ascii.
Import Programs.

(** ** The world of a filter *)
Record world := mkworld { w_in : list (list Z); w_out : list Z; w_err : list Z }.
Definition answer (c : call) : Z := match c with Write _ b => Z.of_nat (length b) | Open _ _ => 3 | _ => 0 end.
Definition effect (c : call) (w : world) : world :=
  match c with
  | Write 1 b => mkworld (w_in w) (w_out w ++ b) (w_err w)
  | Write 2 b => mkworld (w_in w) (w_out w) (w_err w ++ b)
  | _ => w
  end.
Fixpoint run (p : uprog) (w : world) : option Z * world :=
  match p with
  | Exit s => (Some s, w)
  | Sys c k => run (k (answer c)) (effect c w)
  | Read _ _ k =>
      let piece := default [] (head (w_in w)) in
      run (k (Z.of_nat (length piece)) piece) (mkworld (tail (w_in w)) (w_out w) (w_err w))
  | Fstat _ k => run (k (-1) (mkstat 0 0 0 0 0)) w
  | OutOfFuel => (None, w)
  end.

Definition says (w : world) (l : list Z) : world := mkworld (w_in w) (w_out w ++ l) (w_err w).
Lemma run_put l k w : run (put 1 l k) w = run k (says w l).
Proof.
  revert w. induction l as [|c l IH]; intros w; cbn [put foldr run].
  - unfold says. rewrite app_nil_r. by destruct w.
  - fold (put 1 l k). rewrite IH. unfold says. cbn. by rewrite <-app_assoc.
Qed.
Lemma run_read fd n k p i o e :
  run (Read fd n k) (mkworld (p :: i) o e) = run (k (Z.of_nat (length p)) p) (mkworld i o e).
Proof. done. Qed.
Lemma run_printf fmt ap k w : run (printf fmt ap k) w = run k (says w (snd (Uprintf.printf fmt ap))).
Proof. apply run_put. Qed.

(** The pieces of a file: none empty, each at most a buffer long. *)
Definition pieces (l : list (list Z)) : Prop := Forall (fun p => (0 < length p <= 512)%nat) l.
(** The reads of several files, each ending with an empty one. *)
Definition feed (files : list (list (list Z))) : list (list Z) := concat (map (fun f => f ++ [[]]) files).

(** ** cat *)
Lemma cat_spec f fuel fd k i o e :
  pieces f -> (length f < fuel)%nat ->
  run (cat fuel fd k) (mkworld (f ++ [] :: i) o e) = run k (mkworld i (o ++ concat f) e).
Proof.
  revert f o. induction fuel as [|fuel IH]; intros [|p f] o Hp Hf; cbn [length] in Hf; try lia.
  - cbn. by rewrite app_nil_r.
  - apply Forall_cons_1 in Hp as [Hl Hp]. cbn [cat app]. rewrite run_read.
    rewrite (proj2 (Z.ltb_lt 0 (Z.of_nat (length p)))) by lia. cbn [run answer effect w_in w_out w_err].
    rewrite Nat2Z.id, firstn_all, Z.eqb_refl. cbn [negb]. rewrite IH by (done || lia). cbn [concat]. by rewrite app_assoc.
Qed.

(** cat writes the contents of its files, in order, whatever the sizes of the
    pieces in which read returns them. *)
Theorem cat_copies (fuel : nat) (args : list (list Z)) (files : list (list (list Z))) (o : list Z)
  (Hlen : length args = length files) (Hne : args <> [])
  (Hp : Forall pieces files) (Hf : Forall (fun f => (length f < fuel)%nat) files) :
  run (cat_main fuel (bytes_of "cat" :: args)) (mkworld (feed files) o [])
    = (Some 0, mkworld [] (o ++ concat (concat files)) []).
Proof.
  assert (H : run (cat_files fuel args) (mkworld (feed files) o []) = (Some 0, mkworld [] (o ++ concat (concat files)) [])).
  { clear Hne. revert files o Hlen Hp Hf. induction args as [|a args IH]; intros [|f files] o Hlen Hp Hf; try done.
    - cbn. by rewrite app_nil_r.
    - apply Forall_cons_1 in Hp as [Hp1 Hp], Hf as [Hf1 Hf]. cbn [cat_files run answer effect Z.ltb Z.compare].
      unfold feed. cbn [map concat]. rewrite <-app_assoc. cbn [app].
      rewrite cat_spec by done. cbn [run answer effect]. fold (feed files). rewrite IH by (done || (cbn in Hlen; lia)).
      by rewrite concat_app, app_assoc. }
  unfold cat_main. cbn [tail]. by destruct args.
Qed.

(** ** wc *)
(** A word starts at a character that is not a space, at the start or after one. *)
Definition word_start (l : list Z) (i : nat) : bool :=
  negb (is_space (default 0 (l !! i))) && match i with O => true | S j => is_space (default 0 (l !! j)) end.
Definition words (l : list Z) : Z := Z.of_nat (length (List.filter (word_start l) (seq 0 (length l)))).
Definition lines (l : list Z) : Z := Z.of_nat (length (List.filter (Z.eqb 10) l)).
Definition in_word (l : list Z) : bool := match last l with Some c => negb (is_space c) | None => false end.

Lemma words_snoc l c : words (l ++ [c]) = words l + (if negb (is_space c) && negb (in_word l) then 1 else 0).
Proof.
  unfold words. rewrite length_app. cbn [length]. rewrite Nat.add_1_r, seq_S, List.filter_app, length_app. cbn [Nat.add].
  rewrite (List.filter_ext_in _ (word_start l)).
  2: { intros i Hi%in_seq. unfold word_start. rewrite lookup_app_l by lia.
       destruct i as [|j]; [done|]. by rewrite lookup_app_l by lia. }
  assert (E : word_start (l ++ [c]) (length l) = negb (is_space c) && negb (in_word l)).
  { unfold word_start. rewrite (list_lookup_middle l [] c) by done. cbn [default from_option id]. f_equal.
    unfold in_word. destruct l as [|d l _] using rev_ind; [done|]. rewrite last_snoc, length_app. cbn [length].
    rewrite Nat.add_1_r, negb_involutive. rewrite lookup_app_l by (rewrite length_app; cbn; lia).
    by rewrite (list_lookup_middle l [] d) by done. }
  cbn [List.filter]. rewrite E. destruct (_ && _); cbn [length]; lia.
Qed.
Lemma lines_snoc l c : lines (l ++ [c]) = lines l + (if c =? 10 then 1 else 0).
Proof.
  unfold lines. rewrite List.filter_app, length_app. cbn [List.filter]. rewrite (Z.eqb_sym 10 c). destruct (c =? 10); cbn [length]; lia.
Qed.
Lemma in_word_snoc l c : in_word (l ++ [c]) = negb (is_space c).
Proof. unfold in_word. by rewrite last_snoc. Qed.
Lemma count_bound l : 0 <= lines l <= Z.of_nat (length l) /\ 0 <= words l <= Z.of_nat (length l).
Proof.
  induction l as [|c l IH] using rev_ind; [done|]. rewrite lines_snoc, words_snoc, length_app. cbn [length].
  destruct (_ && _), (c =? 10); lia.
Qed.

Definition counted (l : list Z) : counts := mkcounts (lines l) (words l) (Z.of_nat (length l)) (in_word l).
Lemma wc_char_counts l c : Z.of_nat (length l) < 2 ^ 31 - 1 -> wc_char (counted l) c = counted (l ++ [c]).
Proof.
  intros Hl. pose proof (count_bound l) as [H1 H2]. unfold wc_char, counted. cbn [wl ww wcc winword].
  rewrite lines_snoc, words_snoc, in_word_snoc, length_app, Nat2Z.inj_add. cbn [length].
  rewrite !i32_small by lia. destruct (c =? 10), (is_space c), (in_word l); cbn; f_equal; lia.
Qed.
Lemma wc_piece l p : Z.of_nat (length (l ++ p)) < 2 ^ 31 -> fold_left wc_char p (counted l) = counted (l ++ p).
Proof.
  revert l. induction p as [|c p IH]; intros l Hl; cbn [fold_left]; [by rewrite app_nil_r|].
  rewrite length_app in Hl. cbn [length] in Hl. rewrite wc_char_counts by lia.
  rewrite IH; [by rewrite <-app_assoc|]. rewrite !length_app. cbn [length]. lia.
Qed.

(** The line wc prints for these counts. *)
Definition wc_report (name : list Z) (s : counts) : list Z :=
  snd (Uprintf.printf (line "%d %d %d %s") [VInt (wl s); VInt (ww s); VInt (wcc s); text name]).
Lemma run_report name s k w :
  run (printf (line "%d %d %d %s") [VInt (wl s); VInt (ww s); VInt (wcc s); text name] k) w = run k (says w (wc_report name s)).
Proof. apply run_printf. Qed.
Lemma wc_end fuel fd name s k i o e :
  run (wc (S fuel) fd name s k) (mkworld ([] :: i) o e) = run k (mkworld i (o ++ wc_report name s) e).
Proof.
  cbn [wc]. rewrite run_read. change (0 <? Z.of_nat (length [])) with false. change (Z.of_nat (length []) <? 0) with false.
  cbn iota. by rewrite run_report.
Qed.

Lemma wc_spec f fuel fd name l k i o e :
  pieces f -> (length f < fuel)%nat -> Z.of_nat (length (l ++ concat f)) < 2 ^ 31 ->
  run (wc fuel fd name (counted l) k) (mkworld (f ++ [] :: i) o e)
    = run k (mkworld i (o ++ wc_report name (counted (l ++ concat f))) e).
Proof.
  revert f l. induction fuel as [|fuel IH]; intros [|p f] l Hp Hf Hl; cbn [length] in Hf; try lia.
  - cbn [concat app]. rewrite app_nil_r. apply wc_end.
  - apply Forall_cons_1 in Hp as [Hp1 Hp]. cbn [wc app]. rewrite run_read.
    rewrite (proj2 (Z.ltb_lt 0 (Z.of_nat (length p)))) by lia. rewrite Nat2Z.id, firstn_all.
    cbn [concat] in *. rewrite app_assoc in *. rewrite wc_piece by (rewrite length_app in Hl; lia). by apply IH; [|lia|].
Qed.

(** wc prints for each file the numbers of its lines, words and bytes, whatever
    the pieces in which read returns it, if they are below 2^31. *)
Theorem wc_counts (fuel : nat) (args : list (list Z)) (files : list (list (list Z))) (o : list Z)
  (Hlen : length args = length files) (Hne : args <> []) (Hp : Forall pieces files)
  (Hf : Forall (fun f => (length f < fuel)%nat) files)
  (Hb : Forall (fun f => Z.of_nat (length (concat f)) < 2 ^ 31) files) :
  run (wc_main fuel (bytes_of "wc" :: args)) (mkworld (feed files) o [])
    = (Some 0, mkworld [] (o ++ concat (zip_with (fun a f => wc_report a (counted (concat f))) args files)) []).
Proof.
  assert (H : run (wc_files fuel args) (mkworld (feed files) o [])
    = (Some 0, mkworld [] (o ++ concat (zip_with (fun a f => wc_report a (counted (concat f))) args files)) [])).
  { clear Hne. revert files o Hlen Hp Hf Hb. induction args as [|a args IH]; intros [|f files] o Hlen Hp Hf Hb; try done.
    - cbn. by rewrite app_nil_r.
    - apply Forall_cons_1 in Hp as [Hp1 Hp], Hf as [Hf1 Hf], Hb as [Hb1 Hb].
      cbn [wc_files run answer effect Z.ltb Z.compare]. unfold feed. cbn [map concat]. rewrite <-app_assoc. cbn [app].
      rewrite (wc_spec f fuel 3 a []) by done. cbn [run answer effect app]. fold (feed files).
      rewrite IH by (done || (cbn in Hlen; lia)). cbn [zip_with concat]. by rewrite app_assoc. }
  unfold wc_main. cbn [tail]. by destruct args.
Qed.

(** ** init *)
Fixpoint replay (ans : list Z) (p : uprog) : list call * uprog :=
  match ans, p with
  | a :: r, Sys c k => (c :: fst (replay r (k a)), snd (replay r (k a)))
  | _, _ => ([], p)
  end.
(** Answered with [ans], [p] makes the calls [cs] and goes on as [q]. *)
Definition goes (ans : list Z) (p : uprog) (cs : list call) (q : uprog) : Prop :=
  length cs = length ans /\ replay ans p = (cs, q).
Lemma goes_nil p : goes [] p [] p.
Proof. by destruct p. Qed.
Lemma goes_sys a ans c k cs q : goes ans (k a) cs q -> goes (a :: ans) (Sys c k) (c :: cs) q.
Proof. intros [H E]. split; [cbn; lia|]. cbn [replay]. by rewrite E. Qed.
Lemma goes_app a1 a2 p c1 c2 q r : goes a1 p c1 q -> goes a2 q c2 r -> goes (a1 ++ a2) p (c1 ++ c2) r.
Proof.
  revert p c1. induction a1 as [|a a1 IH]; intros p c1 [H E] Hr.
  - cbn in E. destruct p; injection E as <- <-; exact Hr.
  - destruct p as [|c k| | |]; cbn [replay] in E; injection E as <- <-; try done.
    apply goes_sys, (IH (k a)); [|done]. split; [cbn in H; lia|]. by destruct (replay a1 (k a)).
Qed.
Lemma goes_put fd l k ans : length ans = length l -> goes ans (put fd l k) (map (fun c => Write fd [c]) l) k.
Proof.
  revert ans. induction l as [|c l IH]; intros [|a ans] H; cbn in H; try lia; [apply goes_nil|].
  cbn [map put foldr]. apply goes_sys. apply IH. lia.
Qed.
Lemma goes_printf fmt ap k ans :
  length ans = length (snd (Uprintf.printf fmt ap)) ->
  goes ans (printf fmt ap k) (map (fun c => Write 1 [c]) (snd (Uprintf.printf fmt ap))) k.
Proof. apply goes_put. Qed.

Lemma init_waits orphans fuel pid k :
  Forall (fun w => 0 <= w /\ w <> pid) orphans -> (length orphans < fuel)%nat ->
  goes (orphans ++ [pid]) (init_wait fuel pid k) (replicate (S (length orphans)) Wait) k.
Proof.
  revert fuel. induction orphans as [|w orphans IH]; intros [|fuel] Ho Hf; cbn [length] in *; try lia.
  - apply goes_sys. rewrite Z.eqb_refl. apply goes_nil.
  - apply Forall_cons_1 in Ho as [[Hw Hne] Ho]. change (replicate (S (S (length orphans))) Wait) with (Wait :: replicate (S (length orphans)) Wait).
    cbn [app init_wait]. apply goes_sys. rewrite (proj2 (Z.eqb_neq w pid) Hne), (proj2 (Z.ltb_ge w 0) Hw). apply IH; [done|lia].
Qed.

(** A life of the shell: the answers to the writes of the message, its pid and
    the pids of the orphans that exit before it. *)
Notation greeting := (snd (Uprintf.printf (line "init: starting sh") [])).
Record life := mklife { li_writes : list Z; li_pid : Z; li_orphans : list Z }.
Definition life_ok (fuel : nat) (l : life) : Prop :=
  length (li_writes l) = length greeting /\ 0 < li_pid l /\
  Forall (fun w => 0 <= w /\ w <> li_pid l) (li_orphans l) /\ (length (li_orphans l) < fuel)%nat.
Definition life_answers (l : life) : list Z := li_writes l ++ li_pid l :: li_orphans l ++ [li_pid l].
Definition life_calls (l : life) : list call :=
  map (fun c => Write 1 [c]) greeting ++ Fork :: replicate (S (length (li_orphans l))) Wait.

Lemma init_round_life fuel l k : life_ok fuel l -> goes (life_answers l) (init_round fuel k) (life_calls l) k.
Proof.
  intros (Hw & Hp & Ho & Hf). unfold life_answers, life_calls, init_round.
  refine (goes_app _ _ _ _ _ _ _ (goes_printf _ _ _ _ Hw) _). apply goes_sys.
  rewrite (proj2 (Z.ltb_ge (li_pid l) 0)), (proj2 (Z.eqb_neq (li_pid l) 0)) by lia. by apply init_waits.
Qed.

(** init restarts the shell: each time the shell exits, after any number of
    orphans that init reaps, it announces and forks a new one. *)
Theorem init_restarts (fuel n : nat) (lives : list life) (Hl : Forall (life_ok fuel) lives) :
  goes (concat (map life_answers lives)) (init_loop (length lives + n) fuel)
       (concat (map life_calls lives)) (init_loop n fuel).
Proof.
  induction Hl as [|l lives H Hl IH]; [apply goes_nil|]. cbn [map concat length Nat.add init_loop].
  exact (goes_app _ _ _ _ _ _ _ (init_round_life _ _ _ H) IH).
Qed.

(** ** kill: a pid as printf prints it is read back by atoi *)
Lemma ld8_poke l m a b : Forall (fun c => 0 <= c < 256) l ->
  Mem.ld8 (poke m a l) b = if decide (a <= b < a + Z.of_nat (length l)) then default 0 (l !! Z.to_nat (b - a))
                           else if decide (b = a + Z.of_nat (length l)) then 0 else Mem.ld8 m b.
Proof.
  revert m a. induction l as [|c l IH]; intros m a Hl; cbn [poke length].
  - rewrite decide_False by lia. rewrite Z.add_0_r. case_decide as E; [subst; by rewrite Mem.ld8_st8_eq|].
    by rewrite Mem.ld8_st8_ne by lia.
  - apply Forall_cons_1 in Hl as [Hc Hl]. rewrite IH by done. destruct (decide (b = a)) as [->|Hne].
    + rewrite !decide_False by lia. rewrite decide_True by lia. rewrite Mem.ld8_st8_eq, Z.sub_diag. by apply u8_small.
    + rewrite Mem.ld8_st8_ne by lia. repeat case_decide; try lia; try done.
      by replace (Z.to_nat (b - a)) with (S (Z.to_nat (b - (a + 1)))) by lia.
Qed.
Lemma atoi_digits l :
  Forall (fun c => Ulib.digit_char c = true) l -> digits_value l 0 < 2 ^ 31 -> atoi l = digits_value l 0.
Proof.
  intros Hd Hv. assert (Hb : Forall (fun c => 0 <= c < 256) l).
  { apply (Forall_impl _ _ _ Hd). intros c Hc. unfold Ulib.digit_char in Hc. lia. }
  unfold atoi, Ulib.atoi. rewrite (atoi_loop_spec l); [done| |done| |lia|lia|done].
  - intros i c Hi. rewrite ld8_poke by done. pose proof (lookup_lt_Some _ _ _ Hi). rewrite decide_True by lia.
    by rewrite Z.sub_0_r, Z.add_0_l, Nat2Z.id, Hi.
  - rewrite ld8_poke by done. rewrite decide_False, decide_True by lia. done.
Qed.
Lemma decimal_digit d : 0 <= d < 10 -> Uprintf.digit d = 48 + d.
Proof.
  intros Hd. assert (H : Forall (fun d => Uprintf.digit d = 48 + d) (seqZ 0 10)) by (refine (bool_decide_unpack _ _); vm_compute; exact I).
  apply (proj1 (Forall_forall _ _) H). apply elem_of_seqZ. lia.
Qed.
Lemma decimal_loop fuel x : 0 <= x < 10 ^ Z.of_nat fuel -> (0 < fuel)%nat ->
  let l := rev (Uprintf.digit_loop Uprintf.digit fuel x 10) in
  digits_value l 0 = x /\ Forall (fun c => Ulib.digit_char c = true) l.
Proof.
  revert x. induction fuel as [|fuel IH]; intros x Hx Hf; [lia|]. cbn [Uprintf.digit_loop rev].
  pose proof (Z.mod_pos_bound x 10 ltac:(lia)) as Hm. rewrite decimal_digit by done.
  assert (Hd : Ulib.digit_char (48 + x `mod` 10) = true) by (unfold Ulib.digit_char; lia).
  unfold digits_value in *. rewrite fold_left_app. cbn [fold_left].
  destruct (Z.eqb_spec (x / 10) 0) as [E|E]; cbn [negb].
  - split; [|by apply Forall_singleton]. cbn [rev fold_left]. pose proof (Z.div_mod x 10). lia.
  - destruct (decide (fuel = 0)%nat) as [->|]; [exfalso; apply E, Z.div_small; cbn in Hx; lia|].
    destruct (IH (x / 10)) as [Hv Hl]; [|lia|].
    { rewrite Nat2Z.inj_succ, Z.pow_succ_r in Hx by lia. split; [apply Z.div_pos; lia|]. apply Z.div_lt_upper_bound; lia. }
    rewrite Hv. split; [pose proof (Z.div_mod x 10); lia|]. apply Forall_app. split; [done|by apply Forall_singleton].
Qed.

(** kill sends the signal to the process meant: a pid printed with [%d] comes back
    from atoi, so [kill] of it makes the system call on that pid. *)
Theorem kill_kills (pids : list Z) (Hp : Forall (fun p => 0 <= p < 2 ^ 31) pids) (Hne : pids <> []) :
  goes (map (fun _ => 0) pids) (kill_main (bytes_of "kill" :: map (fun p => snd (Uprintf.printf "%d" [VInt p])) pids))
       (map Kill pids) (Exit 0).
Proof.
  assert (H : goes (map (fun _ => 0) pids) (kill_loop (map (fun p => snd (Uprintf.printf "%d" [VInt p])) pids)) (map Kill pids) (Exit 0)).
  { clear Hne. induction Hp as [|p pids Hp1 Hp IH]; [apply goes_nil|]. cbn [map kill_loop].
    replace (atoi (snd (Uprintf.printf "%d" [VInt p]))) with p; [by apply goes_sys|].
    replace (snd (Uprintf.printf "%d" [VInt p])) with (Uprintf.printint Uprintf.digit (i32 p) 10 true ++ []) by reflexivity.
    rewrite app_nil_r, i32_small by lia. unfold Uprintf.printint.
    rewrite (proj2 (Z.ltb_ge p 0)) by lia. cbn [andb]. rewrite u64_small by lia.
    destruct (decimal_loop 64 p) as [Hv Hl]; [|lia|].
    { split; [lia|]. apply (Z.lt_trans _ (2 ^ 31)); [lia|]. by vm_compute. }
    symmetry. rewrite atoi_digits; [exact Hv|exact Hl|]. rewrite Hv. lia. }
  unfold kill_main. cbn [tail]. by destruct pids.
Qed.
