(* ===== verification/Umalloc.v ===== *)
(** * user/umalloc.c: malloc and free

    A [Header *] is the address of the header in bytes; [u_hdr] has the headers
    that were written, so that reading one that was not is a fault.  [base] is
    the address of the static header; a null [freep] is 0.  The kernel's sbrk
    moves the break, or refuses: [grant brk n] says which.  The free list is
    followed with fuel; it is never longer than the number of headers. *)

From S2P Require Import Prelude.

Record header := mkhdr { h_ptr : Z; h_size : Z }.
Record ustate := mkus { u_hdr : gmap Z header; u_freep : Z; u_brk : Z }.
#[global] Instance eta_ustate : Eta ustate := fun r => mkus (u_hdr r) (u_freep r) (u_brk r).
Notation U := (M ustate).
Definition HDR : Z := 16.

Section Umalloc.
Context (base : Z) (grant : Z -> Z -> bool).
Definition hdr_at (p : Z) : U header := fun s => match u_hdr s !! p with Some h => Ret h s | None => Fault "header" s end.
Definition ptr_of (p : Z) : U Z := h ← hdr_at p; mret (h_ptr h).
Definition size_of (p : Z) : U Z := h ← hdr_at p; mret (h_size h).
Definition set_ptr (p q : Z) : U unit :=
  modify (fun s => s <| u_hdr := <[p := mkhdr q (h_size (default (mkhdr 0 0) (u_hdr s !! p)))]> (u_hdr s) |>).
Definition set_size (p n : Z) : U unit :=
  modify (fun s => s <| u_hdr := <[p := mkhdr (h_ptr (default (mkhdr 0 0) (u_hdr s !! p))) n]> (u_hdr s) |>).
Definition set_freep (p : Z) : U unit := modify (fun s => s <| u_freep := p |>).
(** sbrk: the old break, or SBRK_ERROR *)
Definition SBRK_ERROR : Z := -1.
Definition sbrk (n : Z) : U Z :=
  b ← gets u_brk;
  if grant b n then modify (fun s => s <| u_brk := b + n |>);; mret b else mret SBRK_ERROR.

(** free: where in the list the block [bp] goes *)
Fixpoint free_find (k : nat) (bp p : Z) : U Z :=
  match k with
  | O => no_fuel
  | S k' =>
      q ← ptr_of p;
      if (p <? bp) && (bp <? q) then mret p
      else if (q <=? p) && ((p <? bp) || (bp <? q)) then mret p
      else free_find k' bp q
  end.
Definition free_fuel (s : ustate) : nat := S (size (u_hdr s)).
(** free *)
Definition free (ap : Z) : U unit :=
  let bp := ap - HDR in
  k ← gets free_fuel;
  f ← gets u_freep;
  p ← free_find k bp f;
  q ← ptr_of p;
  n ← size_of bp;
  (if bp + HDR * n =? q then
     m ← size_of q;
     set_size bp (u32 (n + m));;
     r ← ptr_of q;
     set_ptr bp r
   else set_ptr bp q);;
  m ← size_of p;
  (if p + HDR * m =? bp then
     n ← size_of bp;
     set_size p (u32 (m + n));;
     r ← ptr_of bp;
     set_ptr p r
   else set_ptr p bp);;
  set_freep p.

(** morecore *)
Definition morecore (nu : Z) : U Z :=
  let nu := if nu <? 4096 then 4096 else nu in
  p ← sbrk (i32 (nu * HDR));
  if p =? SBRK_ERROR then mret 0
  else
    set_size p nu;;
    free (p + HDR);;
    gets u_freep.

(** malloc *)
Fixpoint malloc_loop (k : nat) (nunits prevp p : Z) : U Z :=
  match k with
  | O => no_fuel
  | S k' =>
      n ← size_of p;
      if nunits <=? n then
        p ← (if n =? nunits then q ← ptr_of p; set_ptr prevp q;; mret p
             else
               set_size p (u32 (n - nunits));;
               m ← size_of p;
               set_size (p + HDR * m) nunits;;
               mret (p + HDR * m));
        set_freep prevp;;
        mret (p + HDR)
      else
        f ← gets u_freep;
        if p =? f then
          p ← morecore nunits;
          if p =? 0 then mret 0 else q ← ptr_of p; malloc_loop k' nunits p q
        else q ← ptr_of p; malloc_loop k' nunits p q
  end.
Definition malloc_units (nbytes : Z) : Z := u32 ((nbytes + HDR - 1) `quot` HDR + 1).
Definition malloc_fuel (s : ustate) : nat := 2 * size (u_hdr s) + 6.
Definition malloc (nbytes : Z) : U Z :=
  let nunits := malloc_units nbytes in
  f ← gets u_freep;
  prevp ← (if f =? 0 then
             set_ptr base base;;
             set_freep base;;
             set_size base 0;;
             mret base
           else mret f);
  k ← gets malloc_fuel;
  p ← ptr_of prevp;
  malloc_loop k nunits prevp p.
End Umalloc.
