(* ===== verification/UmallocProps.v ===== *)
(** * malloc hands out disjoint blocks

    The free list is the circular list of the headers [base], then the free
    blocks by ascending address with a gap between any two.  A block is its
    address and its size in headers. *)

From S2P Require Import Prelude Umalloc.
From stdpp Require Import sorting.
From Stdlib Require Import Sorted.
#[local] Open Scope Z_scope.

Notation block := (Z * Z)%type.
Definition bend (x : block) : Z := fst x + HDR * snd x.
(** Ends before the other starts, with a gap. *)
Definition before (x y : block) : Prop := bend x < fst y.
Definition apart (x y : block) : Prop := bend x <= fst y \/ bend y <= fst x.

(** ** Linked headers *)
Definition hd_adr (L : list block) (e : Z) : Z := match L with [] => e | x :: _ => fst x end.
Fixpoint lnk (h : gmap Z header) (L : list block) (e : Z) : Prop :=
  match L with [] => True | x :: r => h !! fst x = Some (mkhdr (hd_adr r e) (snd x)) /\ lnk h r e end.
Definition circ (h : gmap Z header) (L : list block) : Prop := lnk h L (hd_adr L 0).

Lemma hd_adr_app L1 L2 e : hd_adr (L1 ++ L2) e = hd_adr L1 (hd_adr L2 e).
Proof. by destruct L1. Qed.
Lemma lnk_app h L1 L2 e : lnk h (L1 ++ L2) e <-> lnk h L1 (hd_adr L2 e) /\ lnk h L2 e.
Proof. induction L1 as [|x L1 IH]; cbn [app lnk]; [tauto|]. rewrite IH, hd_adr_app. tauto. Qed.
Lemma lnk_ext h h' L e : (forall x, x ∈ L -> h' !! fst x = h !! fst x) -> lnk h L e -> lnk h' L e.
Proof.
  intros Hx. induction L as [|x L IH]; [done|]. intros [E Hl]. split; [rewrite Hx; [done|constructor]|]. apply IH; [|done]. intros y Hy. apply Hx. by right.
Qed.
Lemma circ_rot h X Y : circ h (X ++ Y) -> circ h (Y ++ X).
Proof.
  destruct X as [|x X]; [by rewrite app_nil_r|]. destruct Y as [|y Y]; [by rewrite app_nil_r|]. unfold circ. intros [H1 H2]%lnk_app. apply lnk_app. split; [exact H2|exact H1].
Qed.
Lemma lnk_at h L e x : lnk h L e -> x ∈ L -> exists A B, L = A ++ x :: B /\ h !! fst x = Some (mkhdr (hd_adr B e) (snd x)).
Proof. intros Hl (A & B & ->)%list_elem_of_split. exists A, B. split; [done|]. apply lnk_app in Hl as [_ [E _]]. done. Qed.
(** The node before the one at [q], unless that is the first. *)
Lemma lnk_pred h L e x q : lnk h L e -> x ∈ L -> h_ptr <$> h !! fst x = Some q -> q <> e -> exists A y B, L = A ++ x :: y :: B /\ fst y = q.
Proof.
  intros Hl Hx Hq Hne. destruct (lnk_at h L e x Hl Hx) as (A & B & -> & E). rewrite E in Hq. cbn in Hq. simplify_eq.
  destruct B as [|y B]; [done|]. by exists A, y, B.
Qed.

(** ** The heap *)
Section Heap.
Context (base : Z) (grant : Z -> Z -> bool).
Notation root := ((base, 0) : block).
(** The kernel gives out less than 2^36 bytes (it has 2^27), above what was
    there. *)
Context (grant_bound : forall b n, grant b n = true -> 0 <= n -> b + n < 2 ^ 36).

(** [fl] are the free blocks, [al] those handed out. *)
Record heap_ok (s : ustate) (fl al : list block) : Prop := {
  ho_circ : circ (u_hdr s) (root :: fl);
  ho_asc : StronglySorted before (root :: fl);
  ho_in : Forall (fun x => base + HDR <= fst x /\ 1 <= snd x /\ bend x <= u_brk s) (fl ++ al);
  ho_al : Forall (fun x => h_size <$> u_hdr s !! fst x = Some (snd x)) al;
  ho_cross : forall x y, x ∈ fl -> y ∈ al -> apart x y;
  ho_apart : forall x y, x ∈ al -> y ∈ al -> x <> y -> apart x y;
  ho_nodup : NoDup al;
  ho_brk : 0 < base /\ base + HDR <= u_brk s < 2 ^ 36;
  ho_freep : u_freep s ∈ fst <$> root :: fl
}.
(** No header overlapping a block of [al] differs. *)
Definition untouched (al : list block) (s s' : ustate) : Prop :=
  forall x a, x ∈ al -> fst x - HDR < a < bend x -> u_hdr s' !! a = u_hdr s !! a.

Lemma untouched_refl al s : untouched al s s.
Proof. done. Qed.
Lemma untouched_trans al s1 s2 s3 : untouched al s1 s2 -> untouched al s2 s3 -> untouched al s1 s3.
Proof. intros H1 H2 x a Hx Ha. rewrite (H2 x a Hx Ha). by apply (H1 x). Qed.

(** ** Reading headers *)
Lemma ptr_of_eq s p h : u_hdr s !! p = Some h -> ptr_of p s = Ret (h_ptr h) s.
Proof. intros E. unfold ptr_of, hdr_at, mbind, M_bind. by rewrite E. Qed.
Lemma size_of_eq s p h : u_hdr s !! p = Some h -> size_of p s = Ret (h_size h) s.
Proof. intros E. unfold size_of, hdr_at, mbind, M_bind. by rewrite E. Qed.
Lemma asc_split A x B : StronglySorted before (A ++ x :: B) -> (forall y, y ∈ A -> before y x) /\ (forall y, y ∈ B -> before x y).
Proof.
  intros (H1 & _ & H2)%StronglySorted_app. split; [intros y Hy; apply H1; [done|constructor]|].
  inversion H2 as [|? ? _ Hf]; subst. intros y Hy. by apply (Forall_forall (before x) B).
Qed.

(** ** Where free puts a block *)
Lemma find_step s b p q n k : u_hdr s !! p = Some (mkhdr q n) -> p < q -> q < b \/ b < p -> free_find (S k) b p s = free_find k b q s.
Proof.
  intros E Hq Hb. cbn [free_find]. rewrite (bind_ret _ _ _ _ _ (ptr_of_eq _ _ _ E)). cbn [h_ptr].
  destruct (Z.ltb_spec p b), (Z.ltb_spec b q), (Z.leb_spec q p); cbn [andb orb]; try lia; done.
Qed.
Lemma find_stop s b p q n k : u_hdr s !! p = Some (mkhdr q n) -> p < b -> b < q \/ q <= p -> free_find (S k) b p s = Ret p s.
Proof.
  intros E Hp Hq. cbn [free_find]. rewrite (bind_ret _ _ _ _ _ (ptr_of_eq _ _ _ E)). cbn [h_ptr].
  destruct (Z.ltb_spec p b), (Z.ltb_spec b q), (Z.leb_spec q p); cbn [andb orb]; try lia; done.
Qed.
Lemma find_wrap s b p q n k : u_hdr s !! p = Some (mkhdr q n) -> b < p -> q < b -> free_find (S k) b p s = free_find k b q s.
Proof.
  intros E Hp Hq. cbn [free_find]. rewrite (bind_ret _ _ _ _ _ (ptr_of_eq _ _ _ E)). cbn [h_ptr].
  destruct (Z.ltb_spec p b), (Z.ltb_spec b q), (Z.leb_spec q p); cbn [andb orb]; try lia; done.
Qed.
Definition sized (L : list block) : Prop := Forall (fun x => 0 <= snd x) L.
Lemma find_walk s b y M : forall k, lnk (u_hdr s) M (fst y) -> StronglySorted before (M ++ [y]) -> sized M -> fst y < b \/ b < hd_adr M (fst y) ->
  free_find (length M + k) b (hd_adr M (fst y)) s = free_find k b (fst y) s.
Proof.
  induction M as [|x M IH]; intros k Hl Hs Hz Hb; [done|]. destruct Hl as [E Hl]. apply Forall_cons in Hz as [Hx Hz]. cbn [app] in Hs. inversion Hs as [|? ? Hs' Hall]; subst.
  assert (Hn : fst x < hd_adr M (fst y) <= fst y).
  { destruct M as [|z M]; cbn [hd_adr app] in *.
    - apply Forall_cons in Hall as [Hxy _]. unfold before, bend, HDR in Hxy. lia.
    - apply Forall_cons in Hall as [Hxz _]. unfold before, bend, HDR in Hxz. inversion Hs' as [|? ? _ Hzy]; subst. apply Forall_app in Hzy as [_ Hzy]. apply Forall_cons in Hzy as [Hzy _].
      apply Forall_cons in Hz as [Hz _]. unfold before, bend, HDR in Hzy. lia. }
  cbn [length Nat.add hd_adr]. rewrite (find_step s b (fst x) _ _ _ E) by (cbn [hd_adr] in Hb; lia). apply IH; [done|done|done|]. cbn [hd_adr] in Hb. lia.
Qed.
Lemma place b n fl : forall x0, StronglySorted before (x0 :: fl) -> bend x0 <= b -> (forall y, y ∈ fl -> apart y (b, n)) -> sized fl ->
  exists X p Y, x0 :: fl = X ++ p :: Y /\ bend p <= b /\ forall y, y ∈ Y -> b + HDR * n <= fst y.
Proof.
  induction fl as [|y fl IH]; intros x0 Hs Hb Ha Hz; [by exists [], x0, []; split_and!; [done|done|intros y Hy; by apply not_elem_of_nil in Hy]|].
  inversion Hs as [|? ? Hs' _]; subst. apply Forall_cons in Hz as [Hzy Hz]. destruct (Ha y ltac:(constructor)) as [Hy|Hy].
  - destruct (IH y Hs' Hy) as (X & p & Y & E & Hp & HY); [intros z Hz'; apply Ha; by right|done|]. exists (x0 :: X), p, Y. split_and!; [cbn; by rewrite E|done|done].
  - exists [], x0, (y :: fl). split_and!; [done|done|]. unfold bend in Hy. cbn [fst snd] in Hy. intros z [->|Hz']%elem_of_cons; [lia|].
    destruct (asc_split [] y fl Hs') as [_ Hyz]. specialize (Hyz z Hz'). unfold before, bend, HDR in *. cbn in *. lia.
Qed.
Lemma asc_nodup L : StronglySorted before L -> sized L -> NoDup (fst <$> L).
Proof.
  induction 1 as [|x L _ IH Hall]; intros Hz; [constructor|]. apply Forall_cons in Hz as [Hx Hz]. cbn. apply NoDup_cons. split; [|by apply IH].
  intros (y & E & Hy)%list_elem_of_fmap. pose proof (proj1 (Forall_forall _ _) Hall y Hy) as Hb. unfold before, bend, HDR in Hb. lia.
Qed.
Lemma lnk_length h L e : lnk h L e -> NoDup (fst <$> L) -> (length L <= size h)%nat.
Proof.
  intros Hl Hnd. rewrite <- (length_fmap fst L). rewrite <- (size_list_to_set (C := gset Z)) by done. rewrite <- size_dom. apply subseteq_size.
  intros a (x & -> & Hx)%elem_of_list_to_set%list_elem_of_fmap. destruct (lnk_at h L e x Hl Hx) as (A & B & _ & E). apply elem_of_dom. by rewrite E.
Qed.
Lemma heap_sized s fl al : heap_ok s fl al -> sized (root :: fl).
Proof.
  intros Hh. apply Forall_cons. split; [done|]. pose proof (ho_in _ _ _ Hh) as Hi. apply Forall_app in Hi as [Hi _]. eapply Forall_impl; [exact Hi|]. cbn. lia.
Qed.
Lemma heap_length s fl al : heap_ok s fl al -> (length (root :: fl) <= size (u_hdr s))%nat.
Proof. intros Hh. eapply lnk_length; [apply (ho_circ _ _ _ Hh)|]. apply asc_nodup; [apply Hh|by eapply heap_sized]. Qed.

(** The loop of free finds the place, wherever it starts. *)
Lemma find_up s b M p Y k : lnk (u_hdr s) (M ++ p :: Y) base -> StronglySorted before (M ++ p :: Y) -> sized (M ++ p :: Y) ->
  base <= fst p < b -> (forall y, y ∈ Y -> b < fst y) -> (length M < k)%nat -> free_find k b (hd_adr M (fst p)) s = Ret (fst p) s.
Proof.
  intros [Hl [E _]]%lnk_app Hs Hz Hp HY Hk. cbn [hd_adr] in Hl. replace k with (length M + S (k - length M - 1))%nat by lia.
  rewrite (cons_middle p), app_assoc in Hs. apply StronglySorted_app_1_l in Hs. apply Forall_app in Hz as [Hz _].
  rewrite find_walk by (done || lia). eapply find_stop; [exact E|lia|]. destruct Y as [|y Y]; cbn [hd_adr]; [lia|]. left. apply HY. constructor.
Qed.
Lemma free_find_place s L f b X p Y k : lnk (u_hdr s) L base -> hd_adr L base = base -> StronglySorted before L -> sized L -> Forall (fun x => base <= fst x) L ->
  f ∈ L -> L = X ++ p :: Y -> base < b -> fst p < b -> (forall y, y ∈ Y -> b < fst y) -> (length L < k)%nat -> free_find k b (fst f) s = Ret (fst p) s.
Proof.
  intros Hl Hhd Hs Hz Hba Hf -> Hbb Hp HY Hk. rewrite length_app in Hk. cbn [length] in Hk. pose proof Hba as [_ [Hbp _]%Forall_cons]%Forall_app.
  rewrite (cons_middle p), app_assoc in Hf. apply elem_of_app in Hf as [Hf|Hf].
  - apply elem_of_app in Hf as [Hf|Hf]; [|apply list_elem_of_singleton in Hf; subst f; apply (find_up s b [] p Y)].
    + apply list_elem_of_split in Hf as (A & B & ->). rewrite <- app_assoc in *. cbn [app] in *. apply lnk_app in Hl as [_ Hl]. apply StronglySorted_app_1_r in Hs. apply Forall_app in Hz as [_ Hz].
      rewrite length_app in Hk. cbn [length] in Hk. apply (find_up s b (f :: B) p Y k); try done. cbn [length]. lia.
    + apply lnk_app in Hl as [_ Hl]. done.
    + by apply StronglySorted_app_1_r in Hs.
    + by apply Forall_app in Hz as [_ Hz].
    + done.
    + done.
    + cbn. lia.
  - destruct (list_elem_of_split _ _ Hf) as (A & B & EY). destruct (exists_last (l := f :: B) ltac:(done)) as (M & z & EM).
    assert (Hzb : b < fst z) by (apply HY; rewrite EY, EM; set_solver). assert (Hfb : b < fst f) by (by apply HY).
    assert (Hl' : lnk (u_hdr s) (M ++ [z]) base /\ StronglySorted before (M ++ [z]) /\ sized (M ++ [z])).
    { rewrite <- EM. rewrite EY in Hl, Hs, Hz. split_and!.
      - apply lnk_app in Hl as [_ [_ Hl]]. by apply lnk_app in Hl as [_ Hl].
      - apply StronglySorted_app_1_r in Hs. inversion Hs; subst. by eapply StronglySorted_app_1_r.
      - apply Forall_app in Hz as [_ Hz]. apply Forall_cons in Hz as [_ Hz]. by apply Forall_app in Hz as [_ Hz]. }
    destruct Hl' as ([Hl1 [Ez _]]%lnk_app & Hs1 & [Hz1 _]%Forall_app). cbn [hd_adr] in *.
    assert (Ef : fst f = hd_adr M (fst z)) by (destruct M; cbn in EM; simplify_eq; done). rewrite Ef in *.
    assert (Hlen : (length (f :: B) = S (length M))%nat) by (rewrite EM, length_app; cbn; lia). assert (HlY : (length Y = length A + length (f :: B))%nat) by (by rewrite EY, length_app).
    replace k with (length M + S (k - length M - 1))%nat by lia. rewrite find_walk by (done || lia). rewrite (find_wrap _ _ _ _ _ _ Ez) by lia.
    rewrite hd_adr_app in Hhd. cbn [hd_adr] in Hhd. assert (E0 : base = hd_adr X (fst p)) by (destruct X; done). rewrite E0 at 1. apply (find_up s b X p Y); try done. lia.
Qed.

(** ** free *)
Definition absorb (b n : Z) (Y : list block) : Z * list block :=
  match Y with y :: Y1 => if b + HDR * n =? fst y then (n + snd y, Y1) else (n, Y) | [] => (n, []) end.
Definition freed_list (X : list block) (p : block) (b n : Z) (Y : list block) : list block :=
  let '(n', Y') := absorb b n Y in
  if bend p =? b then X ++ (fst p, snd p + n') :: Y' else X ++ p :: (b, n') :: Y'.
Lemma set_size_eq h f k p n x : h !! p = Some x -> set_size p n (mkus h f k) = Ret tt (mkus (<[p := mkhdr (h_ptr x) n]> h) f k).
Proof. intros E. unfold set_size, modify. cbn. by rewrite E. Qed.
Lemma set_ptr_eq h f k p q x : h !! p = Some x -> set_ptr p q (mkus h f k) = Ret tt (mkus (<[p := mkhdr q (h_size x)]> h) f k).
Proof. intros E. unfold set_ptr, modify. cbn. by rewrite E. Qed.
(** [bp] takes the next block in, or points to it. *)
Lemma absorb_right h f k b n q Y : lnk h Y base -> h !! b = Some (mkhdr q n) -> (forall y, y ∈ Y -> fst y <> b) -> b + HDR * n <> base ->
  (forall y, y ∈ Y -> 0 <= snd y /\ 0 <= n /\ n + snd y < 2 ^ 32) ->
  (if b + HDR * n =? hd_adr Y base then
     m ← size_of (hd_adr Y base); set_size b (u32 (n + m));; r ← ptr_of (hd_adr Y base); set_ptr b r
   else set_ptr b (hd_adr Y base)) (mkus h f k) =
  let '(n', Y') := absorb b n Y in Ret tt (mkus (<[b := mkhdr (hd_adr Y' base) n']> h) f k).
Proof.
  intros Hl Hb Hne Hnb Hsz. destruct Y as [|y Y]; cbn [hd_adr absorb].
  - destruct (Z.eqb_spec (b + HDR * n) base); [done|]. by rewrite (set_ptr_eq _ _ _ _ _ _ Hb).
  - destruct Hl as [Ey Hl]. destruct (Z.eqb_spec (b + HDR * n) (fst y)) as [E|N]; [|by rewrite (set_ptr_eq _ _ _ _ _ _ Hb)].
    rewrite (bind_ret _ _ _ _ _ (size_of_eq (mkus h f k) (fst y) _ Ey)). cbn [h_size]. rewrite (bind_ret _ _ _ _ _ (set_size_eq h f k b _ _ Hb)). cbn [h_ptr].
    assert (Ey' : <[b := mkhdr q (u32 (n + snd y))]> h !! fst y = Some (mkhdr (hd_adr Y base) (snd y))).
    { rewrite lookup_insert_ne; [done|]. apply not_eq_sym, Hne. constructor. }
    rewrite (bind_ret _ _ _ _ _ (ptr_of_eq (mkus _ f k) (fst y) _ Ey')). cbn [h_ptr]. rewrite (set_ptr_eq _ _ _ _ _ _ (lookup_insert_eq _ _ _)). cbn [h_size].
    rewrite insert_insert_eq. unfold u32. rewrite Z.mod_small; [done|]. destruct (Hsz y ltac:(constructor)). lia.
Qed.
(** [p] takes [bp] in, or points to it. *)
Lemma absorb_left h f k b n' p m q r : h !! p = Some (mkhdr q m) -> h !! b = Some (mkhdr r n') -> p <> b -> 0 <= m -> 0 <= n' -> m + n' < 2 ^ 32 ->
  (m0 ← size_of p;
   (if p + HDR * m0 =? b then n ← size_of b; set_size p (u32 (m0 + n));; r ← ptr_of b; set_ptr p r else set_ptr p b);;
   set_freep p) (mkus h f k) =
  Ret tt (mkus (<[p := if p + HDR * m =? b then mkhdr r (m + n') else mkhdr b m]> h) p k).
Proof.
  intros Hp Hb N Hm Hn Hlt. rewrite (bind_ret _ _ _ _ _ (size_of_eq (mkus h f k) p _ Hp)). cbn [h_size]. destruct (Z.eqb_spec (p + HDR * m) b) as [E|NE].
  - rewrite bind_assoc, (bind_ret _ _ _ _ _ (size_of_eq (mkus h f k) b _ Hb)). cbn [h_size]. rewrite bind_assoc, (bind_ret _ _ _ _ _ (set_size_eq h f k p _ _ Hp)). cbn [h_ptr].
    assert (Hb' : <[p := mkhdr q (u32 (m + n'))]> h !! b = Some (mkhdr r n')) by (by rewrite lookup_insert_ne).
    rewrite bind_assoc, (bind_ret _ _ _ _ _ (ptr_of_eq (mkus _ f k) b _ Hb')). cbn [h_ptr]. rewrite (bind_ret _ _ _ _ _ (set_ptr_eq _ _ _ _ _ _ (lookup_insert_eq _ _ _))).
    cbn [h_size]. rewrite insert_insert_eq. unfold u32. by rewrite Z.mod_small by lia.
  - by rewrite (bind_ret _ _ _ _ _ (set_ptr_eq _ _ _ _ _ _ Hp)).
Qed.
Record absorbed (b n : Z) (Y : list block) (n' : Z) (Y' : list block) : Prop := {
  ab_grow : n <= n';
  ab_sub : forall y, y ∈ Y' -> y ∈ Y;
  ab_len : (length Y' <= length Y)%nat;
  ab_gap : forall y, y ∈ Y' -> b + HDR * n' < fst y;
  ab_lnk : forall h, lnk h Y base -> lnk h Y' base;
  ab_asc : StronglySorted before Y';
  ab_end : forall k, b + HDR * n <= k -> (forall y, y ∈ Y -> bend y <= k) -> b + HDR * n' <= k;
  ab_apart : forall z, 1 <= snd z -> apart z (b, n) -> (forall y, y ∈ Y -> apart z y) -> apart z (b, n')
}.
Lemma absorb_spec b n Y : 1 <= n -> StronglySorted before Y -> (forall y, y ∈ Y -> b + HDR * n <= fst y /\ 1 <= snd y) ->
  exists n' Y', absorb b n Y = (n', Y') /\ absorbed b n Y n' Y'.
Proof.
  intros Hn Hs Hb. destruct Y as [|y Y]; [exists n, []; split; [done|]; split; try done; [intros y Hy; by apply not_elem_of_nil in Hy]|].
  cbn [absorb]. destruct (Hb y ltac:(constructor)) as [Hy Hy1]. assert (Hyz : forall z, z ∈ Y -> bend y < fst z) by (by apply (asc_split [] y Y)).
  destruct (Z.eqb_spec (b + HDR * n) (fst y)) as [E|N]; eexists _, _; (split; [reflexivity|]); split.
  - lia.
  - intros z Hz. by right.
  - cbn. lia.
  - intros z Hz. specialize (Hyz z Hz). unfold bend, HDR in *. lia.
  - by intros h [_ ?].
  - by inversion Hs.
  - intros k _ Hk. specialize (Hk y ltac:(constructor)). unfold bend, HDR in *. lia.
  - intros z Hz1 Hz Hzy. specialize (Hzy y ltac:(constructor)). unfold apart, bend, HDR in *. cbn [fst snd] in *. lia.
  - lia.
  - done.
  - done.
  - intros z [->|Hz]%elem_of_cons; [lia|]. specialize (Hyz z Hz). unfold bend, HDR in *. lia.
  - done.
  - done.
  - done.
  - done.
Qed.
(** What the blocks of a heap with [(b, n)] handed out say about the place of [b]. *)
Record placed (s : ustate) (fl al X Y : list block) (p : block) (b n : Z) : Prop := {
  pl_list : root :: fl = X ++ p :: Y;
  pl_left : bend p <= b;
  pl_right : forall y, y ∈ Y -> b + HDR * n <= fst y;
  pl_find : free_find (free_fuel s) b (u_freep s) s = Ret (fst p) s
}.
Lemma heap_place s fl al b n : heap_ok s fl ((b, n) :: al) -> exists X p Y, placed s fl al X Y p b n.
Proof.
  intros Hh. pose proof Hh as [Hc Ha Hi _ Hap _ Hnd Hbrk Hf]. pose proof (heap_sized _ _ _ Hh) as Hz. pose proof (heap_length _ _ _ Hh) as Hlen.
  pose proof Hi as [Hif [(Hb1 & Hb2 & Hb3) _]%Forall_cons]%Forall_app. cbn [fst snd] in *.
  destruct (place b n fl root Ha) as (X & p & Y & EL & Hp & HY).
  - unfold bend, HDR in *. cbn. lia.
  - intros y Hy. apply Hap; [done|constructor].
  - by apply Forall_cons in Hz as [_ Hz].
  - exists X, p, Y. split; try done. apply list_elem_of_fmap in Hf as (f & -> & Hf). assert (Hpb : fst p < b).
    { assert (Hp' : p ∈ root :: fl) by (rewrite EL; set_solver +). unfold bend, HDR in *. apply elem_of_cons in Hp' as [->|Hp']; [cbn; lia|].
      pose proof (proj1 (Forall_forall _ _) Hif p Hp'). cbn in *. lia. }
    apply (free_find_place s (root :: fl) f b X p Y); try done; unfold bend, HDR in *.
    + apply Forall_cons. split; [cbn; lia|]. eapply Forall_impl; [exact Hif|]. cbn. lia.
    + lia.
    + intros y Hy. specialize (HY y Hy). lia.
    + unfold free_fuel. lia.
Qed.
Lemma freed_list_root s fl al X Y p b n : placed s fl al X Y p b n -> base + HDR <= b -> exists fl', freed_list X p b n Y = root :: fl'.
Proof.
  intros [EL Hp _ _] Hb. unfold freed_list. destruct (absorb b n Y) as [n' Y']. destruct X as [|x X]; cbn [app] in EL; simplify_eq.
  - unfold bend. cbn [fst snd]. destruct (Z.eqb_spec (base + HDR * 0) b); [unfold HDR in *; lia|]. by eexists.
  - case_match; by eexists.
Qed.
(** The headers after free, and the blocks they link. *)
Lemma free_eq s fl al X Y p b n n' Y' : heap_ok s fl ((b, n) :: al) -> placed s fl al X Y p b n -> absorb b n Y = (n', Y') -> absorbed b n Y n' Y' ->
  free (b + HDR) s = Ret tt (mkus (<[fst p := if bend p =? b then mkhdr (hd_adr Y' base) (snd p + n') else mkhdr b (snd p)]> (<[b := mkhdr (hd_adr Y' base) n']> (u_hdr s))) (fst p) (u_brk s)).
Proof.
  intros Hh [EL Hp HY Hf] Eab Hab. pose proof Hh as [Hc Ha Hi Hal _ _ _ Hbrk _]. change (lnk (u_hdr s) (root :: fl) base) in Hc. rewrite EL in Hc.
  apply lnk_app in Hc as [_ [Ep HlY]]. apply Forall_app in Hi as [Hif Hia]. apply Forall_cons in Hia as [(Hb1 & Hb2 & Hb3) _]. apply Forall_cons in Hal as [Hsz _]. cbn [fst snd] in *.
  destruct (u_hdr s !! b) as [[q m]|] eqn:Eb; [|done]. cbn in Hsz. injection Hsz as ->.
  assert (HinY : forall y, y ∈ Y -> 1 <= snd y /\ bend y <= u_brk s).
  { intros y Hy. assert (Hy' : y ∈ root :: fl) by (rewrite EL; set_solver). apply elem_of_cons in Hy' as [->|Hy']; [specialize (HY _ Hy); unfold HDR in *; cbn in *; lia|].
    pose proof (proj1 (Forall_forall _ _) Hif y Hy'). naive_solver. }
  assert (Hzp : 0 <= snd p) by (pose proof (heap_sized _ _ _ Hh) as Hz; rewrite EL in Hz; apply Forall_app in Hz as [_ Hz]; by apply Forall_cons in Hz as [? _]).
  assert (Hp0 : base <= fst p).
  { assert (Hp' : p ∈ root :: fl) by (rewrite EL; set_solver +). apply elem_of_cons in Hp' as [->|Hp']; [cbn; lia|]. pose proof (proj1 (Forall_forall _ _) Hif p Hp') as Hpp.
    unfold HDR in *. cbn in Hpp. lia. }
  assert (Hn' : b + HDR * n' <= u_brk s) by (apply (ab_end _ _ _ _ _ Hab); [unfold bend in *; done|intros y Hy; by apply HinY]). pose proof (ab_grow _ _ _ _ _ Hab) as Hg.
  assert (Hpb : fst p <> b) by (intros E; rewrite E, Eb in Ep; assert (bend p = b) by (unfold bend, HDR in *; lia); assert (snd p = n) by congruence; unfold bend, HDR in *; lia).
  unfold free. replace (b + HDR - HDR) with b by lia. destruct s as [h f k]. cbn [u_hdr u_freep u_brk free_fuel] in *.
  rewrite !bind_gets. cbn [u_freep]. rewrite (bind_ret _ _ _ _ _ Hf), (bind_ret _ _ _ _ _ (ptr_of_eq (mkus h f k) _ _ Ep)). cbn [h_ptr].
  rewrite (bind_ret _ _ _ _ _ (size_of_eq (mkus h f k) _ _ Eb)). cbn [h_size].
  assert (P1 : forall y, y ∈ Y -> fst y <> b) by (intros y Hy; specialize (HY y Hy); unfold HDR in *; lia).
  assert (P2 : b + HDR * n <> base) by (unfold HDR in *; lia).
  assert (P3 : forall y, y ∈ Y -> 0 <= snd y /\ 0 <= n /\ n + snd y < 2 ^ 32) by (intros y Hy; specialize (HY y Hy); destruct (HinY y Hy); unfold bend, HDR in *; lia).
  pose proof (absorb_right h f k b n q Y HlY Eb P1 P2 P3) as E1. rewrite Eab in E1. rewrite (bind_ret _ _ _ _ _ E1).
  apply (absorb_left _ f k b n' (fst p) (snd p) (hd_adr Y base) (hd_adr Y' base)); [by rewrite lookup_insert_ne|by rewrite lookup_insert_eq|done|done|lia|].
  unfold bend, HDR in *. lia.
Qed.
Definition good (s : ustate) (al : list block) (x : block) : Prop :=
  base + HDR <= fst x /\ 1 <= snd x /\ bend x <= u_brk s /\ forall y, y ∈ al -> apart x y.
Lemma heap_good s fl al x : heap_ok s fl al -> x ∈ fl -> good s al x.
Proof.
  intros Hh Hx. pose proof (ho_in _ _ _ Hh) as Hi. apply Forall_app in Hi as [Hi _]. pose proof (proj1 (Forall_forall _ _) Hi x Hx) as (? & ? & ?).
  split_and!; try done. intros y Hy. by apply (ho_cross _ _ _ Hh).
Qed.
(** The two ways free can leave the list, at once. *)
Definition freed_tail (p : block) (b n' : Z) (Y' : list block) : list block :=
  if bend p =? b then (fst p, snd p + n') :: Y' else p :: (b, n') :: Y'.
Lemma freed_list_eq X p b n Y n' Y' : absorb b n Y = (n', Y') -> freed_list X p b n Y = X ++ freed_tail p b n' Y'.
Proof. intros E. unfold freed_list, freed_tail. rewrite E. by case_match. Qed.
Lemma freed_tail_lnk h p b n' Y' : lnk h Y' base -> fst p <> b -> (forall y, y ∈ Y' -> fst y <> fst p /\ fst y <> b) ->
  lnk (<[fst p := if bend p =? b then mkhdr (hd_adr Y' base) (snd p + n') else mkhdr b (snd p)]> (<[b := mkhdr (hd_adr Y' base) n']> h)) (freed_tail p b n' Y') base.
Proof.
  intros Hl Hpb HY. unfold freed_tail. assert (Hx : forall hp, lnk (<[fst p := hp]> (<[b := mkhdr (hd_adr Y' base) n']> h)) Y' base).
  { intros hp. apply (lnk_ext h); [|done]. intros y Hy. destruct (HY y Hy). by rewrite !lookup_insert_ne. }
  destruct (Z.eqb_spec (bend p) b) as [E|N]; cbn [lnk fst snd hd_adr].
  - split; [by rewrite lookup_insert_eq|apply Hx].
  - split_and!; [by rewrite lookup_insert_eq|by rewrite lookup_insert_ne, lookup_insert_eq|apply Hx].
Qed.
Lemma freed_tail_asc p b n n' Y Y' : absorbed b n Y n' Y' -> 0 <= snd p -> 1 <= n' -> bend p <= b -> StronglySorted before (freed_tail p b n' Y').
Proof.
  intros Hab Hp Hn' Hpb. assert (Hb : StronglySorted before ((b, n') :: Y')).
  { constructor; [apply Hab|]. apply Forall_forall. intros y Hy. pose proof (ab_gap _ _ _ _ _ Hab y Hy). unfold before, bend. cbn. done. }
  unfold freed_tail. destruct (Z.eqb_spec (bend p) b) as [E|N].
  - constructor; [apply Hab|]. apply Forall_forall. intros y Hy. pose proof (ab_gap _ _ _ _ _ Hab y Hy). unfold before, bend, HDR in *. cbn in *. lia.
  - constructor; [done|]. apply Forall_cons. split; [unfold before; cbn; lia|]. apply Forall_forall. intros y Hy. pose proof (ab_gap _ _ _ _ _ Hab y Hy). unfold before, bend, HDR in *. cbn in *. lia.
Qed.
Lemma freed_tail_first p b n' Y' e : hd_adr (freed_tail p b n' Y') e = fst p.
Proof. unfold freed_tail. by case_match. Qed.
Lemma freed_tail_elem p b n' Y' x : x ∈ freed_tail p b n' Y' ->
  (x ∈ Y') \/ (bend p = b /\ x = (fst p, snd p + n')) \/ (bend p <> b /\ (x = p \/ x = (b, n'))).
Proof. unfold freed_tail. destruct (Z.eqb_spec (bend p) b); intros Hx; rewrite !elem_of_cons in Hx; naive_solver. Qed.
(** Apart from both of two adjoining blocks is apart from their union. *)
Lemma apart_join x p b m n : 1 <= snd x -> apart p x -> apart x (b, n) -> bend p = b -> m = snd p + n -> 0 <= n -> 0 <= snd p -> apart (fst p, m) x.
Proof. intros. unfold apart, bend, HDR in *. cbn [fst snd] in *. lia. Qed.
Lemma apart_sym x y : apart x y -> apart y x.
Proof. unfold apart. tauto. Qed.
(** Blocks of the new list are good. *)
Lemma freed_tail_good s fl al X Y p b n n' Y' : heap_ok s fl ((b, n) :: al) -> placed s fl al X Y p b n -> absorbed b n Y n' Y' ->
  forall x, x ∈ freed_tail p b n' Y' -> x = root \/ good s al x.
Proof.
  intros Hh [EL Hp HY _] Hab x Hx. pose proof (ho_in _ _ _ Hh) as [_ [(Hb1 & Hb2 & Hb3) Hia]%Forall_cons]%Forall_app. cbn [fst snd] in *.
  assert (Hold : forall z, z ∈ X ++ p :: Y -> z = root \/ (z ∈ fl /\ good s ((b, n) :: al) z)).
  { intros z Hz. rewrite <- EL in Hz. apply elem_of_cons in Hz as [->|Hz]; [by left|right]. split; [done|]. by eapply heap_good. }
  assert (HoldY : forall z, z ∈ Y -> good s ((b, n) :: al) z).
  { intros z Hz. destruct (Hold z ltac:(set_solver +Hz)) as [->|[_ ?]]; [|done]. specialize (HY _ Hz). unfold HDR in *. cbn in *. lia. }
  pose proof (ab_grow _ _ _ _ _ Hab) as Hg. assert (Hbn : good s al (b, n')).
  { split_and!; [done|cbn; lia| |].
    - apply (ab_end _ _ _ _ _ Hab); [done|]. intros y Hy. by apply HoldY.
    - intros y Hy. pose proof (proj1 (Forall_forall _ _) Hia y Hy) as (? & ? & ?). apply apart_sym, (ab_apart _ _ _ _ _ Hab); [done| |].
      + apply (ho_apart _ _ _ Hh); [by right|constructor|]. intros ->. pose proof (ho_nodup _ _ _ Hh) as [? _]%NoDup_cons. done.
      + intros z Hz. apply apart_sym, (HoldY z Hz). by right. }
  assert (Hweak : forall z, good s ((b, n) :: al) z -> good s al z) by (intros z (? & ? & ? & Ha); split_and!; try done; intros y Hy; apply Ha; by right).
  destruct (freed_tail_elem _ _ _ _ _ Hx) as [Hx'|[[E ->]|[N [->| ->]]]].
  - right. apply Hweak, HoldY. by apply (ab_sub _ _ _ _ _ Hab).
  - right. destruct (Hold p ltac:(set_solver +)) as [Ep|[_ (G1 & G2 & G3 & G4)]]; [subst p; unfold bend, HDR in *; cbn in *; lia|]. destruct Hbn as (B1 & B2 & B3 & B4).
    split_and!; [done|cbn in *; lia|unfold bend in *; cbn in *; lia|]. intros y Hy. pose proof (proj1 (Forall_forall _ _) Hia y Hy) as (? & ? & ?).
    apply (apart_join y p b _ n'); [done|apply G4; by right|by apply apart_sym, B4|done|done|cbn in *; lia|lia].
  - destruct (Hold p ltac:(set_solver +)) as [?|[_ ?]]; [by left|right; by apply Hweak].
  - by right.
Qed.
(** Facts on the place of [b] in a heap, shared by what follows. *)
Lemma placed_facts s fl al X Y p b n : heap_ok s fl ((b, n) :: al) -> placed s fl al X Y p b n ->
  fst p < b /\ 0 <= snd p /\ (p = root \/ good s ((b, n) :: al) p) /\ (forall y, y ∈ Y -> b + HDR * n <= fst y /\ 1 <= snd y) /\
  (forall x, x ∈ X -> before x p) /\ StronglySorted before X /\ StronglySorted before Y /\ (forall x y, x ∈ X -> y ∈ Y -> before x y).
Proof.
  intros Hh [EL Hp HY _]. pose proof (ho_asc _ _ _ Hh) as Ha. pose proof (heap_sized _ _ _ Hh) as Hz. pose proof (ho_in _ _ _ Hh) as [_ [(Hb1 & Hb2 & _) _]%Forall_cons]%Forall_app.
  rewrite EL in Ha, Hz. cbn [fst snd] in *. pose proof Hz as [_ [Hzp _]%Forall_cons]%Forall_app. pose proof Ha as (Hxpy & HsX & Hspy)%StronglySorted_app. destruct (asc_split X p Y Ha) as [HXp _].
  assert (Hin : forall z, z ∈ p :: Y -> z = root \/ good s ((b, n) :: al) z).
  { intros z Hz'. assert (Hz2 : z ∈ root :: fl) by (rewrite EL; set_solver +Hz'). apply elem_of_cons in Hz2 as [->|Hz2]; [by left|right; by eapply heap_good]. }
  split_and!; try done.
  - destruct (Hin p ltac:(constructor)) as [->|(_ & ? & _)]; unfold bend, HDR in *; cbn in *; lia.
  - apply Hin. constructor.
  - intros y Hy. split; [by apply HY|]. destruct (Hin y ltac:(by right)) as [->|(_ & ? & _)]; [specialize (HY _ Hy); unfold HDR in *; cbn in *; lia|done].
  - by inversion Hspy.
  - intros x y Hx Hy. apply Hxpy; [done|by right].
Qed.
Lemma freed_list_good s fl al X Y p b n n' Y' fl' : heap_ok s fl ((b, n) :: al) -> placed s fl al X Y p b n -> absorbed b n Y n' Y' ->
  X ++ freed_tail p b n' Y' = root :: fl' -> StronglySorted before (root :: fl') /\ forall x, x ∈ fl' -> good s al x.
Proof.
  intros Hh Hpl Hab Efl. destruct (placed_facts _ _ _ _ _ _ _ _ Hh Hpl) as (Hpb & Hzp & _ & HY1 & HXp & HsX & HsY & HXY).
  pose proof (ab_grow _ _ _ _ _ Hab) as Hg. pose proof (ho_in _ _ _ Hh) as [_ [(_ & Hb2 & _) _]%Forall_cons]%Forall_app. cbn [fst snd] in *.
  assert (HasX : StronglySorted before (root :: fl')).
  { rewrite <- Efl. apply StronglySorted_app. split_and!; [|done|apply (freed_tail_asc p b n n' Y Y'); [done|done|lia|apply Hpl]].
    intros x y Hx Hy. specialize (HXp x Hx). apply freed_tail_elem in Hy as [Hy|[[_ ->]|[_ [->| ->]]]]; [|done..|unfold before in *; cbn; lia].
    apply HXY; [done|]. by apply (ab_sub _ _ _ _ _ Hab). }
  split; [done|]. intros x Hx. assert (Hx' : x ∈ X ++ freed_tail p b n' Y') by (rewrite Efl; by right).
  assert (Hroot : x <> root) by (intros ->; destruct (asc_split [] root fl' HasX) as [_ Hr]; specialize (Hr _ Hx); unfold before, bend, HDR in Hr; cbn in Hr; lia).
  apply elem_of_app in Hx' as [Hx'|Hx']; [|by destruct (freed_tail_good s fl al X Y p b n n' Y' Hh Hpl Hab x Hx')].
  assert (Hxf : x ∈ root :: fl) by (rewrite (pl_list _ _ _ _ _ _ _ _ Hpl); set_solver +Hx'). apply elem_of_cons in Hxf as [?|Hxf]; [done|].
  destruct (heap_good _ _ _ _ Hh Hxf) as (? & ? & ? & HH). split_and!; try done. intros y Hy. apply HH. by right.
Qed.
Lemma heap_free s fl al b n : heap_ok s fl ((b, n) :: al) ->
  exists s' fl', free (b + HDR) s = Ret tt s' /\ heap_ok s' fl' al /\ untouched al s s' /\ (exists x, x ∈ fl' /\ n <= snd x) /\ u_brk s' = u_brk s /\ (length fl' <= S (length fl))%nat.
Proof.
  intros Hh. destruct (heap_place s fl al b n Hh) as (X & p & Y & Hpl). destruct (placed_facts _ _ _ _ _ _ _ _ Hh Hpl) as (Hpb & Hzp & Hpg & HY1 & HXp & HsX & HsY & HXY).
  pose proof Hh as [Hc _ Hi Hal _ Hap Hnd Hbrk _]. apply Forall_app in Hi as [_ Hia]. pose proof Hia as [(Hb1 & Hb2 & Hb3) Hia']%Forall_cons. cbn [fst snd] in *.
  destruct (absorb_spec b n Y Hb2 HsY HY1) as (n' & Y' & Eab & Hab). destruct (freed_list_root _ _ _ _ _ _ _ _ Hpl Hb1) as (fl' & Efl).
  rewrite (freed_list_eq _ _ _ _ _ _ _ Eab) in Efl. pose proof (ab_grow _ _ _ _ _ Hab) as Hg. destruct (freed_list_good _ _ _ _ _ _ _ _ _ _ _ Hh Hpl Hab Efl) as [Has Hgood].
  eexists _, fl'. split; [exact (free_eq s fl al X Y p b n n' Y' Hh Hpl Eab Hab)|]. set (s' := mkus _ _ _).
  assert (Hunt : untouched al s s').
  { intros x a Hx Ha. pose proof (proj1 (Forall_forall _ _) Hia' x Hx) as (Hx1 & Hx2 & _). unfold s'. cbn [u_hdr].
    assert (Hxb : apart x (b, n)) by (apply Hap; [by right|constructor|intros ->; by apply NoDup_cons in Hnd as [? _]]).
    rewrite !lookup_insert_ne; [done|unfold apart, bend, HDR in *; cbn in *; lia|].
    destruct Hpg as [->|(_ & ? & _ & Hpa)]; [unfold bend, HDR in *; cbn in *; lia|]. specialize (Hpa x ltac:(by right)). unfold apart, bend, HDR in *. lia. }
  split_and!; [|done| |done|].
  - apply NoDup_cons in Hnd as [_ Hnd]. apply Forall_cons in Hal as [_ Hal]. split; try done.
    + change (lnk (u_hdr s') (root :: fl') base). change (lnk (u_hdr s) (root :: fl) base) in Hc. rewrite (pl_list _ _ _ _ _ _ _ _ Hpl) in Hc. apply lnk_app in Hc as [HlX [_ HlY]].
      rewrite <- Efl. apply lnk_app. rewrite freed_tail_first. split; [|apply freed_tail_lnk; [by apply (ab_lnk _ _ _ _ _ Hab)|lia|]].
      * apply (lnk_ext (u_hdr s)); [|done]. intros x Hx. specialize (HXp x Hx). unfold s'. cbn [u_hdr]. assert (0 <= snd x).
        { pose proof (heap_sized _ _ _ Hh) as Hz. rewrite (pl_list _ _ _ _ _ _ _ _ Hpl) in Hz. apply Forall_app in Hz as [Hz _]. exact (proj1 (Forall_forall _ _) Hz x Hx). }
        rewrite !lookup_insert_ne; [done|unfold before, bend, HDR in *; lia..].
      * intros y Hy. destruct (HY1 y (ab_sub _ _ _ _ _ Hab y Hy)). unfold HDR in *. lia.
    + apply Forall_app. split; [|done]. apply Forall_forall. intros x Hx. destruct (Hgood x Hx) as (? & ? & ? & _). done.
    + apply Forall_forall. intros x Hx. pose proof (proj1 (Forall_forall _ _) Hal x Hx) as E. pose proof (proj1 (Forall_forall _ _) Hia' x Hx) as (_ & ? & _).
      rewrite (Hunt x (fst x) Hx); [done|]. unfold bend, HDR. lia.
    + intros x y Hx Hy. by apply (Hgood x Hx).
    + intros x y Hx Hy. apply Hap; by right.
    + unfold s'. cbn [u_freep]. rewrite <- Efl, fmap_app, elem_of_app. right. unfold freed_tail. case_match; constructor.
  - assert (Ht : exists x, x ∈ freed_tail p b n' Y' /\ n <= snd x /\ x <> root).
    { unfold freed_tail. destruct (Z.eqb_spec (bend p) b); [exists (fst p, snd p + n')|exists (b, n')]; (split_and!; [set_solver +|cbn; lia|]); intros E; injection E; lia. }
    destruct Ht as (x & Hx & Hn & Hr). exists x. split; [|done]. assert (Hx' : x ∈ root :: fl') by (rewrite <- Efl; set_solver +Hx). by apply elem_of_cons in Hx' as [?|?].
  - pose proof (f_equal length Efl) as Hl. pose proof (f_equal length (pl_list _ _ _ _ _ _ _ _ Hpl)) as Hl0. pose proof (ab_len _ _ _ _ _ Hab). rewrite length_app in Hl, Hl0.
    unfold freed_tail in Hl. destruct (bend p =? b); cbn [length] in *; lia.
Qed.
Lemma heap_perm s fl al al' : al ≡ₚ al' -> heap_ok s fl al -> heap_ok s fl al'.
Proof.
  intros Hp [Hc Ha Hi Hal Hcr Hap Hnd Hbrk Hf]. split; try done; [by rewrite <- Hp|by rewrite <- Hp|intros x y; rewrite <- Hp; by apply Hcr|intros x y; rewrite <- Hp; by apply Hap|by rewrite <- Hp].
Qed.

(** ** morecore *)
Lemma heap_sbrk s fl al nu : heap_ok s fl al -> 1 <= nu -> u_brk s + nu * HDR < 2 ^ 36 ->
  heap_ok (mkus (<[u_brk s := mkhdr (h_ptr (default (mkhdr 0 0) (u_hdr s !! u_brk s))) nu]> (u_hdr s)) (u_freep s) (u_brk s + nu * HDR)) fl ((u_brk s, nu) :: al).
Proof.
  intros Hh Hnu Hlt. pose proof Hh as [Hc Ha Hi Hal Hcr Hap Hnd Hbrk Hf]. pose proof Hi as [Hif Hia]%Forall_app.
  assert (Hin : forall x, x ∈ fl ++ al -> 1 <= snd x /\ bend x <= u_brk s) by (intros x Hx; by destruct (proj1 (Forall_forall _ _) Hi x Hx) as (_ & ? & ?)).
  split; try done; cbn [u_hdr u_brk u_freep].
  - apply (lnk_ext (u_hdr s)); [|exact Hc]. intros x Hx. rewrite lookup_insert_ne; [done|]. apply elem_of_cons in Hx as [->|Hx]; [unfold HDR in *; cbn; lia|].
    destruct (Hin x ltac:(set_solver +Hx)). unfold bend, HDR in *. lia.
  - rewrite Forall_app, Forall_cons. split_and!; [|cbn; unfold HDR in *; lia|done|unfold bend; cbn; lia|]; (eapply Forall_impl; [exact Hif || exact Hia|]); cbn; unfold HDR in *; lia.
  - apply Forall_cons. split; [by rewrite lookup_insert_eq|]. apply Forall_forall. intros x Hx. rewrite lookup_insert_ne; [exact (proj1 (Forall_forall _ _) Hal x Hx)|].
    destruct (Hin x ltac:(set_solver +Hx)). unfold bend, HDR in *. lia.
  - intros x y Hx [->|Hy]%elem_of_cons; [|by apply Hcr]. left. cbn. apply Hin. set_solver +Hx.
  - intros x y [->|Hx]%elem_of_cons [->|Hy]%elem_of_cons N; [done|right; cbn; apply Hin; set_solver +Hy|left; cbn; apply Hin; set_solver +Hx|by apply Hap].
  - apply NoDup_cons. split; [|done]. intros Hx. destruct (Hin (u_brk s, nu) ltac:(set_solver +Hx)). unfold bend, HDR in *. cbn in *. lia.
  - unfold HDR in *. lia.
Qed.
Lemma heap_morecore s fl al nu : heap_ok s fl al -> 1 <= nu -> nu * HDR < 2 ^ 31 ->
  (morecore grant nu s = Ret 0 s /\ exists n, grant (u_brk s) n = false) \/
  exists s' fl', morecore grant nu s = Ret (u_freep s') s' /\ heap_ok s' fl' al /\ untouched al s s' /\ (exists x, x ∈ fl' /\ nu <= snd x) /\ (length fl' <= S (length fl))%nat.
Proof.
  intros Hh Hnu Hlt. pose proof (ho_brk _ _ _ Hh) as Hbrk. unfold morecore. set (nu' := if nu <? 4096 then 4096 else nu).
  assert (Hnu' : nu <= nu' /\ nu' * HDR < 2 ^ 31) by (unfold nu', HDR in *; destruct (Z.ltb_spec nu 4096); lia).
  assert (Ei : i32 (nu' * HDR) = nu' * HDR) by (unfold i32, HDR in *; rewrite Z.mod_small by lia; lia). rewrite Ei. unfold sbrk. rewrite bind_assoc, bind_gets.
  destruct (grant (u_brk s) (nu' * HDR)) eqn:Eg; [right|left; split; [done|by eexists]]. pose proof (grant_bound _ _ Eg ltac:(unfold HDR in *; lia)) as Hgb.
  rewrite bind_assoc, bind_modify. rewrite (bind_ret (mret _) _ _ _ _ eq_refl). destruct (Z.eqb_spec (u_brk s) SBRK_ERROR); [unfold SBRK_ERROR, HDR in *; lia|].
  unfold set_size. rewrite bind_modify. set (s1 := mkus (<[u_brk s := mkhdr (h_ptr (default (mkhdr 0 0) (u_hdr s !! u_brk s))) nu']> (u_hdr s)) (u_freep s) (u_brk s + nu' * HDR)).
  pose proof (heap_sbrk s fl al nu' Hh ltac:(lia) Hgb) as Hh1. fold s1 in Hh1. destruct (heap_free s1 fl al (u_brk s) nu' Hh1) as (s' & fl' & E & Hh' & Hu & (x & Hx & Hxn) & _ & Hl).
  exists s', fl'. replace (_ <| u_hdr := _ |>) with s1 by (by destruct s). rewrite (bind_ret _ _ _ _ _ E). split_and!; [done|done| |exists x; split; [done|lia]|done].
  apply (untouched_trans _ _ s1); [|done]. intros y a Hy Ha. unfold s1. cbn [u_hdr]. rewrite lookup_insert_ne; [done|].
  pose proof (ho_in _ _ _ Hh) as [_ Hia]%Forall_app. destruct (proj1 (Forall_forall _ _) Hia y Hy) as (_ & _ & ?). lia.
Qed.

(** ** malloc *)
Lemma malloc_next s nu k z x q : u_hdr s !! fst x = Some (mkhdr q (snd x)) -> snd x < nu -> fst x <> u_freep s ->
  malloc_loop grant (S k) nu z (fst x) s = malloc_loop grant k nu (fst x) q s.
Proof.
  intros E Hn Hf. cbn [malloc_loop]. rewrite (bind_ret _ _ _ _ _ (size_of_eq _ _ _ E)). cbn [h_size]. destruct (Z.leb_spec nu (snd x)); [lia|].
  rewrite bind_gets. destruct (Z.eqb_spec (fst x) (u_freep s)); [done|]. by rewrite (bind_ret _ _ _ _ _ (ptr_of_eq _ _ _ E)).
Qed.
Definition last_adr (z : block) (M : list block) : block := default z (last M).
Lemma malloc_walk s nu M : forall k z e, lnk (u_hdr s) M e -> Forall (fun x => snd x < nu /\ fst x <> u_freep s) M ->
  malloc_loop grant (length M + k) nu (fst z) (hd_adr M e) s = malloc_loop grant k nu (fst (last_adr z M)) e s.
Proof.
  induction M as [|x M IH]; intros k z e Hl Hs; [done|]. destruct Hl as [E Hl]. apply Forall_cons in Hs as [[Hx1 Hx2] Hs]. cbn [length Nat.add hd_adr].
  rewrite (malloc_next s nu _ (fst z) x _ E Hx1 Hx2), (IH k x e Hl Hs). unfold last_adr. destruct M as [|y M]; [done|]. by destruct (last (y :: M)) eqn:El; [rewrite last_cons, El|apply last_None in El].
Qed.
(** Taking a block: the whole of it, or its end. *)
Definition rest_list (A : list block) (pv x : block) (B : list block) (nu : Z) : list block :=
  if snd x =? nu then A ++ pv :: B else A ++ pv :: (fst x, snd x - nu) :: B.
Lemma take_eq s A pv x B nu k : lnk (u_hdr s) (A ++ pv :: x :: B) base -> fst pv <> fst x -> 1 <= nu <= snd x -> snd x < 2 ^ 32 ->
  let r := fst x + HDR * (snd x - nu) in
  malloc_loop grant (S k) nu (fst pv) (fst x) s =
  Ret (r + HDR) (mkus (if snd x =? nu then <[fst pv := mkhdr (hd_adr B base) (snd pv)]> (u_hdr s)
    else <[r := mkhdr (h_ptr (default (mkhdr 0 0) (u_hdr s !! r))) nu]> (<[fst x := mkhdr (hd_adr B base) (snd x - nu)]> (u_hdr s))) (fst pv) (u_brk s)).
Proof.
  intros [_ [Ep [Ex _]]]%lnk_app N Hnu Hx r. destruct s as [h f b]. cbn [u_hdr u_brk] in *. cbn [malloc_loop]. rewrite (bind_ret _ _ _ _ _ (size_of_eq (mkus h f b) _ _ Ex)). cbn [h_size].
  destruct (Z.leb_spec nu (snd x)); [|lia]. destruct (Z.eqb_spec (snd x) nu) as [E|NE].
  - rewrite bind_assoc, (bind_ret _ _ _ _ _ (ptr_of_eq (mkus h f b) _ _ Ex)). cbn [h_ptr]. rewrite bind_assoc, (bind_ret _ _ _ _ _ (set_ptr_eq _ _ _ _ _ _ Ep)). cbn [h_size].
    rewrite (bind_ret (mret _) _ _ _ _ eq_refl). unfold set_freep. rewrite bind_modify. unfold mret, M_ret. f_equal; unfold r, HDR; lia.
  - rewrite bind_assoc, (bind_ret _ _ _ _ _ (set_size_eq _ _ _ _ _ _ Ex)). cbn [h_ptr]. unfold u32. rewrite Z.mod_small by lia.
    rewrite bind_assoc, (bind_ret _ _ _ _ _ (size_of_eq (mkus _ f b) _ _ (lookup_insert_eq _ _ _))). cbn [h_size]. fold r. unfold set_size. rewrite bind_assoc, bind_modify.
    rewrite (bind_ret (mret _) _ _ _ _ eq_refl). unfold set_freep. rewrite bind_modify. unfold mret, M_ret. cbn. do 4 f_equal. rewrite lookup_insert_ne; [done|]. unfold r, HDR. lia.
Qed.
(** The part of a block that malloc takes, and the rest. *)
Definition taken (x : block) (nu : Z) : block := (fst x + HDR * (snd x - nu), nu).
Lemma taken_in x nu y : 1 <= nu <= snd x -> apart x y -> apart (taken x nu) y /\ apart (fst x, snd x - nu) y.
Proof. intros Hn Ha. unfold apart, taken, bend, HDR in *. cbn [fst snd] in *. lia. Qed.
Lemma rest_root s fl al A pv x B nu : heap_ok s fl al -> root :: fl = A ++ pv :: x :: B -> x ∈ fl /\ (pv = root \/ pv ∈ fl) /\ exists fl', rest_list A pv x B nu = root :: fl'.
Proof.
  intros Hh EL. unfold rest_list. destruct A as [|a A]; cbn [app] in EL; simplify_eq.
  - split_and!; [constructor|by left|]. case_match; by eexists.
  - split_and!; [set_solver +|right; set_solver +|]. case_match; by eexists.
Qed.
Lemma rest_elem A pv x B nu y : y ∈ rest_list A pv x B nu -> y ∈ A ++ pv :: B \/ (snd x <> nu /\ y = (fst x, snd x - nu)).
Proof. unfold rest_list. destruct (Z.eqb_spec (snd x) nu); [by left|]. rewrite !elem_of_app, !elem_of_cons. naive_solver. Qed.
Lemma rest_asc A pv x B nu : StronglySorted before (A ++ pv :: x :: B) -> 1 <= nu <= snd x -> StronglySorted before (rest_list A pv x B nu).
Proof.
  intros Hs Hn. unfold rest_list. rewrite (cons_middle pv), app_assoc in Hs. destruct (asc_split _ x B Hs) as [H1 H2]. pose proof Hs as (H3 & H4 & H5)%StronglySorted_app.
  inversion H5 as [|? ? HB _]; subst. destruct (Z.eqb_spec (snd x) nu).
  - rewrite (cons_middle pv), app_assoc. apply StronglySorted_app. split_and!; [|done|done]. intros y z Hy Hz. apply H3; [done|by right].
  - rewrite (cons_middle pv), app_assoc. apply StronglySorted_app. split_and!; [|done|].
    + intros y z Hy [->|Hz]%elem_of_cons; [specialize (H1 y Hy); unfold before in *; done|]. apply H3; [done|by right].
    + constructor; [done|]. apply Forall_forall. intros z Hz. specialize (H2 z Hz). unfold before, bend, HDR in *. cbn [fst snd]. lia.
Qed.
(** Blocks of the list other than [x] are apart from it. *)
Lemma asc_others A pv x B y : StronglySorted before (A ++ pv :: x :: B) -> sized (A ++ pv :: x :: B) -> y ∈ A ++ pv :: B -> apart y x /\ fst y <> fst x.
Proof.
  intros Hs Hz Hy. assert (Hzy : 0 <= snd y) by (eapply (proj1 (Forall_forall _ _) Hz); set_solver +Hy). assert (Hzx : 0 <= snd x) by (eapply (proj1 (Forall_forall _ _) Hz); set_solver +).
  rewrite (cons_middle pv), app_assoc in Hs. destruct (asc_split _ x B Hs) as [H1 H2].
  rewrite (cons_middle pv), app_assoc, elem_of_app in Hy. destruct Hy as [Hy|Hy]; [specialize (H1 y Hy)|specialize (H2 y Hy)]; unfold apart, before, bend, HDR in *; lia.
Qed.
Lemma rest_lnk h A pv x B nu : lnk h (A ++ pv :: x :: B) base -> NoDup (fst <$> A ++ pv :: x :: B) -> 1 <= nu <= snd x ->
  (forall y, y ∈ A ++ pv :: B -> apart y x /\ fst y <> fst x /\ 0 <= snd y) -> (forall y, y ∈ A ++ pv :: B -> 1 <= snd y \/ fst y < fst x) ->
  let r := fst x + HDR * (snd x - nu) in forall hr,
  lnk (if snd x =? nu then <[fst pv := mkhdr (hd_adr B base) (snd pv)]> h else <[r := hr]> (<[fst x := mkhdr (hd_adr B base) (snd x - nu)]> h)) (rest_list A pv x B nu) base.
Proof.
  intros Hl Hnd Hn Ho Hpos r hr. pose proof Hl as [HlA [Ep [Ex HlB]]]%lnk_app. rewrite fmap_app in Hnd. apply NoDup_app in Hnd as (_ & HdA & HndB). cbn [fmap list_fmap] in HndB.
  apply NoDup_cons in HndB as [HpB HndB]. unfold rest_list. destruct (Z.eqb_spec (snd x) nu) as [E|NE]; apply lnk_app.
  - split; [apply (lnk_ext h); [|exact HlA]|split; [by rewrite lookup_insert_eq|apply (lnk_ext h); [|exact HlB]]]; intros y Hy; rewrite lookup_insert_ne; try done; intros E'.
    + apply (HdA (fst y)); [by apply list_elem_of_fmap_2|]. rewrite <- E'. constructor.
    + apply HpB. right. rewrite E'. by apply list_elem_of_fmap_2.
  - assert (Hr : forall y, y ∈ A ++ pv :: B -> fst y <> r).
    { intros y Hy E'. destruct (Ho y Hy) as (Ha & Hf & Hz). destruct (Hpos y Hy); unfold apart, bend, r, HDR in *; lia. }
    split; [apply (lnk_ext h); [|exact HlA]|split; [|split; [|apply (lnk_ext h); [|exact HlB]]]]; cbn [fst snd hd_adr].
    + intros y Hy. rewrite !lookup_insert_ne; [done|apply not_eq_sym, Ho; set_solver +Hy|apply not_eq_sym, Hr; set_solver +Hy].
    + rewrite !lookup_insert_ne; [exact Ep|apply not_eq_sym, Ho; set_solver +|apply not_eq_sym, Hr; set_solver +].
    + rewrite lookup_insert_ne, lookup_insert_eq; [done|]. unfold r, HDR. lia.
    + intros y Hy. rewrite !lookup_insert_ne; [done|apply not_eq_sym, Ho; set_solver +Hy|apply not_eq_sym, Hr; set_solver +Hy].
Qed.
Lemma heap_take s fl al A pv x B nu k : heap_ok s fl al -> root :: fl = A ++ pv :: x :: B -> 1 <= nu <= snd x ->
  exists s' fl', malloc_loop grant (S k) nu (fst pv) (fst x) s = Ret (fst (taken x nu) + HDR) s' /\ heap_ok s' fl' (taken x nu :: al) /\ untouched al s s'.
Proof.
  intros Hh EL Hn. pose proof Hh as [Hc Ha Hi Hal Hcr Hap Hnd Hbrk _]. destruct (rest_root s fl al A pv x B nu Hh EL) as (Hx & Hpv & fl' & Efl).
  pose proof (heap_sized _ _ _ Hh) as Hz. pose proof (asc_nodup _ Ha Hz) as Hna. destruct (heap_good _ _ _ _ Hh Hx) as (Hx1 & Hx2 & Hx3 & Hxa).
  change (lnk (u_hdr s) (root :: fl) base) in Hc. rewrite EL in Hc, Ha, Hz, Hna. pose proof (fun y => asc_others A pv x B y Ha Hz) as Ho.
  assert (Hin : forall y, y ∈ A ++ pv :: B -> y = root \/ good s al y).
  { intros y Hy. assert (Hy' : y ∈ root :: fl) by (rewrite EL; set_solver +Hy). apply elem_of_cons in Hy' as [?|?]; [by left|right; by eapply heap_good]. }
  assert (Hpx : fst pv <> fst x) by (apply Ho; set_solver +).
  eexists _, fl'. split; [apply (take_eq s A pv x B nu k Hc Hpx Hn); unfold bend, HDR in *; lia|]. set (r := fst x + HDR * (snd x - nu)). set (s' := mkus _ _ _).
  assert (Hunt : untouched al s s').
  { intros y a Hy Hya. pose proof (Hxa y Hy) as Hxy. assert (Hpy : fst pv <> a).
    { destruct (Hin pv ltac:(set_solver +)) as [->|(_ & ? & _ & Hpa)]; [pose proof Hi as [_ Hia]%Forall_app; destruct (proj1 (Forall_forall _ _) Hia y Hy) as (? & _); unfold HDR in *; cbn; lia|].
      specialize (Hpa y Hy). unfold apart, bend, HDR in *. lia. }
    unfold s'. cbn [u_hdr]. case_match; rewrite !lookup_insert_ne; try done; unfold r, apart, bend, HDR in *; lia. }
  split; [|done]. pose proof Hi as [_ Hia]%Forall_app. assert (Has : StronglySorted before (root :: fl')) by (rewrite <- Efl; by apply rest_asc).
  assert (Hgood : forall y, y ∈ fl' -> (good s al y /\ apart y (taken x nu))).
  { intros y Hy. assert (Hy' : y ∈ rest_list A pv x B nu) by (rewrite Efl; by right). destruct (rest_elem _ _ _ _ _ _ Hy') as [Hy2|[N ->]].
    - destruct (Hin y Hy2) as [->|Hg]; [destruct (asc_split [] root fl' Has) as [_ Hr]; specialize (Hr _ Hy); unfold before, bend, HDR in Hr; cbn in Hr; lia|]. split; [done|].
      apply apart_sym, taken_in; [done|]. apply apart_sym. by apply Ho.
    - split; [|left; unfold bend, taken; cbn; lia]. split_and!; [done|cbn; lia|unfold bend, HDR in *; cbn; lia|]. intros z Hz'. by apply taken_in, Hxa. }
  split; try done.
  - change (lnk (u_hdr s') (root :: fl') base). rewrite <- Efl. apply rest_lnk; try done.
    + intros y Hy. destruct (Ho y Hy). split_and!; try done. destruct (Hin y Hy) as [->|(_ & ? & _)]; [done|lia].
    + intros y Hy. destruct (Hin y Hy) as [->|(_ & ? & _)]; [right; unfold HDR in *; cbn; lia|by left].
  - apply Forall_app. split; [apply Forall_forall; intros y Hy; by destruct (Hgood y Hy) as [(? & ? & ? & _) _]|]. apply Forall_cons. split; [|done].
    unfold taken, bend, HDR in *. cbn [fst snd]. cbn [u_brk s']. lia.
  - apply Forall_cons. split.
    + unfold taken, s'. cbn [fst snd u_hdr]. fold r. destruct (Z.eqb_spec (snd x) nu) as [E|N]; [|by rewrite lookup_insert_eq].
      assert (Er : r = fst x) by (unfold r, HDR; lia). rewrite Er, lookup_insert_ne by done. apply lnk_app in Hc as [_ [_ [Ex _]]]. rewrite Ex. cbn. by rewrite E.
    + apply Forall_forall. intros y Hy. destruct (proj1 (Forall_forall _ _) Hia y Hy) as (_ & ? & _). rewrite (Hunt y (fst y) Hy) by (unfold bend, HDR; lia). exact (proj1 (Forall_forall _ _) Hal y Hy).
  - intros y z Hy [->|Hz']%elem_of_cons; [by apply Hgood|by apply Hgood].
  - intros y z [->|Hy]%elem_of_cons [->|Hz']%elem_of_cons N; [done|by apply taken_in, Hxa|apply apart_sym; by apply taken_in, Hxa|by apply Hap].
  - apply NoDup_cons. split; [|done]. intros Hin'. pose proof (Hxa _ Hin') as Hxt. unfold apart, taken, bend, HDR in *. cbn [fst snd] in *. lia.
  - rewrite <- Efl. unfold s', rest_list. cbn [u_freep]. case_match; rewrite fmap_app, elem_of_app; right; constructor.
Qed.
(** *** The search

    [R] are the nodes in the order in which malloc looks at them: those after
    freep, and freep last. *)
Lemma heap_circle s fl al : heap_ok s fl al -> exists f R, fst f = u_freep s /\ (forall x, x ∈ root :: fl <-> x ∈ R ++ [f]) /\ NoDup (fst <$> R ++ [f]) /\
  length (R ++ [f]) = length (root :: fl) /\ lnk (u_hdr s) (R ++ [f]) (hd_adr (R ++ [f]) 0) /\ u_hdr s !! fst f = Some (mkhdr (hd_adr (R ++ [f]) 0) (snd f)).
Proof.
  intros Hh. pose proof (ho_freep _ _ _ Hh) as (f & Ef & (A & B & EL)%list_elem_of_split)%list_elem_of_fmap.
  pose proof (ho_circ _ _ _ Hh) as Hc. pose proof (asc_nodup _ (ho_asc _ _ _ Hh) (heap_sized _ _ _ Hh)) as Hnd. rewrite EL in Hc, Hnd. rewrite (cons_middle f), app_assoc in Hc, Hnd.
  pose proof (circ_rot _ _ _ Hc) as Hc'. exists f, (B ++ A). rewrite <- app_assoc. split_and!.
  - done.
  - intros x. rewrite EL, !elem_of_app, elem_of_cons, list_elem_of_singleton. tauto.
  - rewrite fmap_app in *. by rewrite Permutation_app_comm.
  - rewrite EL, !length_app. cbn. lia.
  - exact Hc'.
  - unfold circ in Hc. rewrite <- app_assoc in Hc. apply lnk_app in Hc as [_ [E _]]. rewrite E. do 2 f_equal. rewrite !hd_adr_app. cbn [hd_adr]. destruct B; [|done]. by destruct A.
Qed.
Lemma first_fit nu (L : list block) : (exists x, x ∈ L /\ nu <= snd x) -> exists M x N, L = M ++ x :: N /\ nu <= snd x /\ Forall (fun y => snd y < nu) M.
Proof.
  induction L as [|y L IH]; intros (x & Hx & Hn); [by apply not_elem_of_nil in Hx|]. destruct (Z.le_gt_cases nu (snd y)); [by exists [], y, L|].
  apply elem_of_cons in Hx as [->|Hx]; [lia|]. destruct IH as (M & z & N & -> & Hz & HM); [by exists x|]. exists (y :: M), z, N. split_and!; [done|done|]. apply Forall_cons. by split; [lia|].
Qed.
Lemma last_adr_ptr h z M e : u_hdr h !! fst z = Some (mkhdr (hd_adr M e) (snd z)) -> lnk (u_hdr h) M e ->
  (last_adr z M ∈ z :: M) /\ h_ptr <$> u_hdr h !! fst (last_adr z M) = Some e.
Proof.
  revert z. induction M as [|y M IH]; intros z Ez Hl; [unfold last_adr; cbn; rewrite Ez; split; [constructor|done]|]. destruct Hl as [Ey Hl]. destruct (IH y Ey Hl) as [H1 H2].
  assert (E : last_adr z (y :: M) = last_adr y M) by (unfold last_adr; rewrite last_cons; by destruct (last M)). rewrite E. split; [set_solver +H1|done].
Qed.
Lemma heap_search s fl al nu k : heap_ok s fl al -> 1 <= nu -> (exists x, x ∈ fl /\ nu <= snd x) -> (length (root :: fl) <= k)%nat ->
  exists q x s' fl', ptr_of (u_freep s) s = Ret q s /\ malloc_loop grant k nu (u_freep s) q s = Ret (fst (taken x nu) + HDR) s' /\ 1 <= nu <= snd x /\
    heap_ok s' fl' (taken x nu :: al) /\ untouched al s s'.
Proof.
  intros Hh Hnu (x0 & Hx0 & Hx0n) Hk. destruct (heap_circle s fl al Hh) as (f & R & Ef & HR & Hnd & Hlen & Hl & Hf).
  destruct (first_fit nu (R ++ [f])) as (M & x & N & ER & Hxn & HM); [exists x0; split; [apply HR; by right|done]|].
  assert (HfM : Forall (fun y => fst y <> fst f) M).
  { apply Forall_forall. intros y Hy E. destruct N as [|z N _] using rev_ind.
    - apply app_inj_tail in ER as [-> ->]. rewrite fmap_app in Hnd. apply NoDup_app in Hnd as (_ & Hd & _). apply (Hd (fst y)); [by apply list_elem_of_fmap_2|]. rewrite E. constructor.
    - rewrite app_comm_cons, app_assoc in ER. apply app_inj_tail in ER as [-> ->]. rewrite fmap_app in Hnd. apply NoDup_app in Hnd as (_ & Hd & _).
      apply (Hd (fst y)); [apply list_elem_of_fmap_2; set_solver +Hy|]. rewrite E. constructor. }
  rewrite ER in Hl, Hf, Hlen. rewrite hd_adr_app in Hf. cbn [hd_adr] in Hf. apply lnk_app in Hl as [HlM [Ex _]]. cbn [hd_adr] in HlM.
  destruct (last_adr_ptr s f M (fst x) Hf HlM) as [Hpv Epv].
  assert (HxL : x ∈ root :: fl) by (apply HR; rewrite ER; set_solver +). assert (HpvL : last_adr f M ∈ root :: fl) by (apply HR; apply elem_of_cons in Hpv as [->|Hpv]; [set_solver +|rewrite ER; set_solver +Hpv]).
  assert (Hxb : fst x <> base).
  { apply elem_of_cons in HxL as [->|HxL]; [cbn in *; lia|]. destruct (heap_good _ _ _ _ Hh HxL) as (? & _). unfold HDR in *. lia. }
  destruct (lnk_pred (u_hdr s) (root :: fl) base _ (fst x) (ho_circ _ _ _ Hh) HpvL Epv Hxb) as (A & y & B & EL & Ey).
  assert (y = x) as ->.
  { pose proof (asc_nodup _ (ho_asc _ _ _ Hh) (heap_sized _ _ _ Hh)) as Hna. assert (HyL : y ∈ root :: fl) by (rewrite EL; set_solver +).
    apply list_elem_of_lookup in HxL as (i & Hi). apply list_elem_of_lookup in HyL as (j & Hj).
    assert (i = j) as -> by (eapply (NoDup_lookup _ _ _ (fst x) Hna); rewrite list_lookup_fmap; [by rewrite Hi|rewrite Hj; cbn; by rewrite Ey]). congruence. }
  rewrite length_app in Hlen. cbn [length] in Hlen, Hk. replace k with (length M + S (k - length M - 1))%nat by lia.
  destruct (heap_take s fl al A (last_adr f M) x B nu (k - length M - 1) Hh EL ltac:(lia)) as (s' & fl' & E & Hh' & Hu).
  exists (hd_adr M (fst x)), x, s', fl'. rewrite <- Ef. split_and!; [by rewrite (ptr_of_eq _ _ _ Hf)| |done|done|done|done].
  rewrite malloc_walk; [done|done|]. rewrite <- Ef. apply Forall_and. by split.
Qed.
Lemma heap_malloc s fl al nu k : heap_ok s fl al -> 1 <= nu -> nu * HDR < 2 ^ 31 -> (2 * length (root :: fl) + 2 <= k)%nat ->
  exists q, ptr_of (u_freep s) s = Ret q s /\
    ((malloc_loop grant k nu (u_freep s) q s = Ret 0 s /\ exists n, grant (u_brk s) n = false) \/
     exists r s' fl', malloc_loop grant k nu (u_freep s) q s = Ret (r + HDR) s' /\ heap_ok s' fl' ((r, nu) :: al) /\ untouched al s s').
Proof.
  intros Hh Hnu Hlt Hk. destruct (decide (Exists (fun x => nu <= snd x) fl)) as [Hex|Hno].
  - apply Exists_exists in Hex. destruct (heap_search s fl al nu k Hh Hnu Hex ltac:(lia)) as (q & x & s' & fl' & E1 & E2 & _ & Hh' & Hu).
    exists q. split; [done|right]. by exists (fst (taken x nu)), s', fl'.
  - destruct (heap_circle s fl al Hh) as (f & R & Ef & HR & Hnd & Hlen & Hl & Hf). exists (hd_adr (R ++ [f]) 0). rewrite <- Ef.
    split; [by rewrite (ptr_of_eq _ _ _ Hf)|]. assert (Hsm : forall x, x ∈ root :: fl -> snd x < nu).
    { intros x [->|Hx]%elem_of_cons; [cbn; lia|]. apply not_Exists_Forall in Hno; [|solve_decision]. pose proof (proj1 (Forall_forall _ _) Hno x Hx) as Hn. cbn in Hn. lia. }
    rewrite hd_adr_app in *. cbn [hd_adr] in *. apply lnk_app in Hl as [HlR _]. cbn [hd_adr] in HlR. rewrite length_app in Hlen. cbn [length] in Hlen, Hk.
    replace k with (length R + S (k - length R - 1))%nat by lia. rewrite malloc_walk; [|done|].
    2:{ apply Forall_forall. intros x Hx. split; [apply Hsm, HR; set_solver +Hx|]. rewrite <- Ef. intros E. rewrite fmap_app in Hnd. apply NoDup_app in Hnd as (_ & Hd & _).
        apply (Hd (fst x)); [by apply list_elem_of_fmap_2|]. rewrite E. constructor. }
    cbn [malloc_loop]. rewrite (bind_ret _ _ _ _ _ (size_of_eq _ _ _ Hf)). cbn [h_size]. destruct (Z.leb_spec nu (snd f)); [pose proof (Hsm f ltac:(apply HR; set_solver +)); lia|].
    rewrite bind_gets, <- Ef, Z.eqb_refl. destruct (heap_morecore s fl al nu Hh Hnu Hlt) as [[E Hg]|(s1 & fl1 & E & Hh1 & Hu1 & Hx1 & Hl1)]; rewrite (bind_ret _ _ _ _ _ E); [by left|right].
    destruct (heap_search s1 fl1 al nu (k - length R - 1) Hh1 Hnu Hx1 ltac:(cbn [length]; lia)) as (q & x & s' & fl' & E1 & E2 & _ & Hh' & Hu).
    destruct (Z.eqb_spec (u_freep s1) 0) as [E0|_].
    { pose proof (ho_freep _ _ _ Hh1) as (y & Ey & Hy)%list_elem_of_fmap. pose proof (ho_brk _ _ _ Hh1). exfalso. apply elem_of_cons in Hy as [->|Hy]; [cbn in *; lia|].
      destruct (heap_good _ _ _ _ Hh1 Hy) as (? & _). unfold HDR in *. lia. }
    exists (fst (taken x nu)), s', fl'. rewrite (bind_ret _ _ _ _ _ E1). split_and!; [done|done|by eapply untouched_trans].
Qed.

(** ** Clients *)

(** No memory was handed out yet, or a heap with its free list. *)
Definition heap_inv (s : ustate) (al : list block) : Prop :=
  (u_freep s = 0 /\ al = [] /\ 0 < base /\ base + HDR <= u_brk s < 2 ^ 36) \/ exists fl, heap_ok s fl al.
Lemma heap_first s : 0 < base -> base + HDR <= u_brk s < 2 ^ 36 -> heap_ok (mkus (<[base := mkhdr base 0]> (u_hdr s)) base (u_brk s)) [] [].
Proof.
  intros Hb Hk. split; try done; cbn.
  - unfold circ. cbn. split; [by rewrite lookup_insert_eq|done].
  - by repeat constructor.
  - intros x y Hx. by apply not_elem_of_nil in Hx.
  - intros x y Hx. by apply not_elem_of_nil in Hx.
  - constructor.
  - constructor.
Qed.
Lemma inv_malloc s al nbytes : heap_inv s al -> 0 <= nbytes < 2 ^ 31 - 64 ->
  exists r s', malloc base grant nbytes s = Ret r s' /\ untouched al s s' /\
    ((r = 0 /\ heap_inv s' al /\ exists n, grant (u_brk s) n = false) \/
     (heap_inv s' ((r - HDR, malloc_units nbytes) :: al) /\ nbytes <= HDR * (malloc_units nbytes - 1))).
Proof.
  intros Hi Hn. set (nu := malloc_units nbytes).
  assert (Hnu : 1 <= nu /\ nu * HDR < 2 ^ 31 /\ nbytes <= HDR * (nu - 1)).
  { unfold nu, malloc_units, HDR, u32. rewrite Z.quot_div_nonneg by lia. pose proof (Z.div_mod (nbytes + 16 - 1) 16 ltac:(lia)). pose proof (Z.mod_pos_bound (nbytes + 16 - 1) 16 ltac:(lia)).
    rewrite Z.mod_small by lia. lia. }
  destruct Hnu as (Hnu1 & Hnu2 & Hnu3).
  assert (Hmain : forall s1 fl k, heap_ok s1 fl al -> (malloc_fuel s1 <= k)%nat -> exists r s', (p ← ptr_of (u_freep s1); malloc_loop grant k nu (u_freep s1) p) s1 = Ret r s' /\ untouched al s1 s' /\
    ((r = 0 /\ heap_inv s' al /\ exists n, grant (u_brk s1) n = false) \/ heap_inv s' ((r - HDR, nu) :: al))).
  { intros s1 fl k Hh Hk. pose proof (heap_length _ _ _ Hh) as Hl. destruct (heap_malloc s1 fl al nu k Hh Hnu1 Hnu2) as (q & E1 & [[E2 Hg]|(r & s' & fl' & E2 & Hh' & Hu)]).
    - unfold malloc_fuel in Hk. lia.
    - exists 0, s1. rewrite (bind_ret _ _ _ _ _ E1). split_and!; [done|done|left]. split_and!; [done|right; by exists fl|done].
    - exists (r + HDR), s'. rewrite (bind_ret _ _ _ _ _ E1). split_and!; [done|done|right; right]. exists fl'. by replace (r + HDR - HDR) with r by lia. }
  unfold malloc. fold nu. rewrite bind_gets. destruct Hi as [(Ef & -> & Hb & Hk)|(fl & Hh)].
  - rewrite Ef. cbn [Z.eqb]. rewrite bind_assoc. unfold set_ptr at 1. rewrite bind_modify, bind_assoc. unfold set_freep. rewrite bind_modify, bind_assoc. unfold set_size. rewrite bind_modify.
    rewrite (bind_ret (mret _) _ _ _ _ eq_refl), bind_gets.
    destruct (Hmain _ [] (malloc_fuel (mkus (<[base := mkhdr base 0]> (u_hdr s)) base (u_brk s))) (heap_first s Hb Hk) ltac:(done)) as (r & s' & E & Hu & Hr).
    exists r, s'. split; [|split; [intros x a Hx; by apply not_elem_of_nil in Hx|]].
    + cbn [u_freep] in E. rewrite <- E. destruct s as [h f b]. cbn. rewrite lookup_insert_eq. cbn. by rewrite insert_insert_eq.
    + destruct Hr as [Hr|Hr]; [left|right]; done.
  - assert (Hf0 : u_freep s <> 0).
    { pose proof (ho_freep _ _ _ Hh) as (y & Ey & Hy)%list_elem_of_fmap. pose proof (ho_brk _ _ _ Hh). apply elem_of_cons in Hy as [->|Hy]; [cbn in *; lia|]. destruct (heap_good _ _ _ _ Hh Hy) as (? & _). unfold HDR in *. lia. }
    destruct (Z.eqb_spec (u_freep s) 0); [done|]. rewrite (bind_ret (mret _) _ _ _ _ eq_refl), bind_gets. destruct (Hmain s fl (malloc_fuel s) Hh ltac:(done)) as (r & s' & E & Hu & Hr).
    exists r, s'. split_and!; [done|done|]. destruct Hr as [Hr|Hr]; [left|right]; done.
Qed.
Lemma inv_free s al1 b n al2 : heap_inv s (al1 ++ (b, n) :: al2) -> exists s', free (b + HDR) s = Ret tt s' /\ heap_inv s' (al1 ++ al2) /\ untouched (al1 ++ al2) s s'.
Proof.
  intros [(_ & E & _)|(fl & Hh)]; [by destruct al1|]. apply (heap_perm _ _ _ ((b, n) :: al1 ++ al2)) in Hh; [|symmetry; apply Permutation_middle].
  destruct (heap_free s fl _ b n Hh) as (s' & fl' & E & Hh' & Hu & _). exists s'. split_and!; [done|right; by exists fl'|done].
Qed.
Lemma inv_live s al : heap_inv s al -> NoDup al /\ (forall x, x ∈ al -> base + HDR <= fst x /\ bend x <= u_brk s) /\ (forall x y, x ∈ al -> y ∈ al -> x <> y -> apart x y).
Proof.
  intros [(_ & -> & _)|(fl & Hh)]; [split_and!; [constructor|..]; intros x; intros; by match goal with H : _ ∈ [] |- _ => apply not_elem_of_nil in H end|].
  pose proof (ho_in _ _ _ Hh) as [_ Hia]%Forall_app. split_and!; [apply Hh| |apply Hh]. intros x Hx. by destruct (proj1 (Forall_forall _ _) Hia x Hx) as (? & _ & ?).
Qed.
(** A program's calls, with the blocks it holds. *)
Inductive uclient : ustate -> list block -> Prop :=
| uc_start s : u_freep s = 0 -> 0 < base -> base + HDR <= u_brk s < 2 ^ 36 -> uclient s []
| uc_malloc s al nbytes r s' : uclient s al -> 0 <= nbytes < 2 ^ 31 - 64 -> malloc base grant nbytes s = Ret r s' ->
    uclient s' (if r =? 0 then al else (r - HDR, malloc_units nbytes) :: al)
| uc_free s al1 b n al2 s' : uclient s (al1 ++ (b, n) :: al2) -> free (b + HDR) s = Ret tt s' -> uclient s' (al1 ++ al2).
Lemma client_inv s al : uclient s al -> heap_inv s al.
Proof.
  induction 1 as [s Hf Hb Hk|s al nbytes r s' _ IH Hn E|s al1 b n al2 s' _ IH E]; [by left| |].
  - destruct (inv_malloc s al nbytes IH Hn) as (r1 & s1 & E1 & _ & Hr). rewrite E in E1. simplify_eq. destruct Hr as [(-> & Hr & _)|[Hr _]]; [done|].
    destruct (Z.eqb_spec r1 0) as [->|]; [|done]. destruct (inv_live _ _ Hr) as (_ & Hl & _). destruct (Hl _ (list_elem_of_here _ _)) as [Hl1 _]. unfold HDR in *. cbn in Hl1.
    exfalso. destruct Hr as [(_ & E0 & _)|(fl & Hh)]; [done|]. pose proof (ho_brk _ _ _ Hh). lia.
  - destruct (inv_free s al1 b n al2 IH) as (s1 & E1 & H1 & _). rewrite E in E1. by simplify_eq.
Qed.

(** C16. malloc hands out disjoint blocks and free takes them back.  In every run
    of a program that calls malloc for less than 2 GiB and free for blocks it
    holds, the blocks it holds are disjoint, above the static data and below the
    break.  malloc returns: a null pointer only if the kernel refused memory,
    else a block of at least the bytes asked for that is disjoint from all those
    held.  free returns.  Neither touches a byte of a block that the program
    goes on holding, its header included. *)
Theorem malloc_safe s al : uclient s al ->
  NoDup al /\ (forall x, x ∈ al -> base + HDR <= fst x /\ bend x <= u_brk s) /\ (forall x y, x ∈ al -> y ∈ al -> x <> y -> apart x y) /\
  (forall nbytes, 0 <= nbytes < 2 ^ 31 - 64 -> exists r s', malloc base grant nbytes s = Ret r s' /\ untouched al s s' /\
    ((r = 0 /\ exists n, grant (u_brk s) n = false) \/
     (let x := (r - HDR, malloc_units nbytes) in nbytes <= bend x - r /\ base + HDR <= fst x /\ bend x <= u_brk s' /\ forall y, y ∈ al -> apart x y))) /\
  (forall al1 b n al2, al = al1 ++ (b, n) :: al2 -> exists s', free (b + HDR) s = Ret tt s' /\ untouched (al1 ++ al2) s s').
Proof.
  intros Hi%client_inv. destruct (inv_live s al Hi) as (L1 & L2 & L3). split_and!; try done.
  - intros nbytes Hn. destruct (inv_malloc s al nbytes Hi Hn) as (r & s' & E & Hu & Hr). exists r, s'. split_and!; [done|done|]. destruct Hr as [(? & _ & ?)|[Hr Hb]]; [by left|right].
    destruct (inv_live _ _ Hr) as (M1 & M2 & M3). destruct (M2 _ (list_elem_of_here _ _)) as [? ?]. split_and!; [unfold bend, HDR in *; cbn [fst snd]; lia|done|done|].
    intros y Hy. apply M3; [constructor|by right|]. intros <-. by apply NoDup_cons in M1 as [? _].
  - intros al1 b n al2 ->. destruct (inv_free s al1 b n al2 Hi) as (s' & E & _ & Hu). by exists s'.
Qed.
End Heap.

(** A heap after two mallocs and a free of the first block. *)
Definition ex_grant (b n : Z) : bool := b + n <? 2 ^ 27.
Lemma ex_grant_bound b n : ex_grant b n = true -> 0 <= n -> b + n < 2 ^ 36.
Proof. unfold ex_grant. rewrite Z.ltb_lt. lia. Qed.
Definition state_of {A} (o : outcome ustate A) (s : ustate) : ustate := match o with Ret _ s' => s' | _ => s end.
Definition ex_heap0 : ustate := mkus ∅ 0 16384.
Definition ex_heap1 : ustate := state_of (malloc 4096 ex_grant 100 ex_heap0) ex_heap0.
Definition ex_heap2 : ustate := state_of (malloc 4096 ex_grant 20 ex_heap1) ex_heap1.
Definition ex_heap3 : ustate := state_of (free 81808 ex_heap2) ex_heap2.
Lemma ex_client : uclient 4096 ex_grant ex_heap3 [(81744, 3)].
Proof.
  assert (H0 : uclient 4096 ex_grant ex_heap0 []) by (apply uc_start; [done|done|vm_compute; done]).
  assert (H1 : uclient 4096 ex_grant ex_heap1 [(81792, 8)]) by (apply (uc_malloc 4096 ex_grant ex_heap0 [] 100 81808 ex_heap1 H0); [done|vm_compute; reflexivity]).
  assert (H2 : uclient 4096 ex_grant ex_heap2 [(81744, 3); (81792, 8)]) by (apply (uc_malloc 4096 ex_grant ex_heap1 _ 20 81760 ex_heap2 H1); [done|vm_compute; reflexivity]).
  apply (uc_free 4096 ex_grant ex_heap2 [(81744, 3)] 81792 8 [] ex_heap3 H2). vm_compute. reflexivity.
Qed.
Lemma malloc_safe_witness : exists r s', malloc 4096 ex_grant 5000 ex_heap3 = Ret r s' /\ untouched [(81744, 3)] ex_heap3 s' /\
  ((r = 0 /\ exists n, ex_grant (u_brk ex_heap3) n = false) \/
   (let x := (r - HDR, malloc_units 5000) in 5000 <= bend x - r /\ 4096 + HDR <= fst x /\ bend x <= u_brk s' /\ forall y, y ∈ [(81744, 3)] -> apart x y)).
Proof. apply (malloc_safe 4096 ex_grant ex_grant_bound ex_heap3 [(81744, 3)] ex_client). split; [lia|]. vm_compute. reflexivity. Defined.

(** The bound is needed: malloc passes the bytes it wants to sbrk as an int.  For
    the largest size the product wraps to 16: the break moves by one header, and
    malloc returns a block of 4 GiB of which nothing exists. *)
Theorem malloc_wraps : exists r s', malloc 4096 ex_grant 0xffffffff ex_heap0 = Ret r s' /\ r <> 0 /\ r = u_brk s' /\ malloc_units 0xffffffff = 2 ^ 28 + 1.
Proof. exists 16400, (state_of (malloc 4096 ex_grant 0xffffffff ex_heap0) ex_heap0). split_and!; [vm_compute; reflexivity|done|vm_compute; reflexivity|vm_compute; reflexivity]. Qed.
